(* ===== verification/_CoqProject ===== *)
-Q . S2P
Prelude.v
Types.v
QuoteName.v
SqlClient.v
MockClient.v
MssqlClient.v
MssqlStatements.v
Kube.v
Helpers.v
DatabaseController.v
SetReconcile.v
LoginController.v
DatabaseUserController.v
SchemaController.v
PermissionController.v
History.v
AgFencing.v
AvailabilityGroup.v
LeaseRace.v
OneShot.v
BackupController.v
RestoreController.v
AgFailoverController.v
ScheduledBackupController.v
Progress.v
Settling.v
ObjectProgress.v
DatabaseProgress.v
ObjectSettling.v
DatabaseSettling.v
Watches.v
ExampleWorld.v
MockProgress.v
Witnesses.v
ProgressWitnesses.v
SettlingWitnesses.v
WatchWitnesses.v
AgWitnesses.v
LeaseWitnesses.v
OneShotWitnesses.v
ScheduledWitnesses.v
Admission.v
ObjectWebhooks.v
BackupWebhooks.v
AgWebhook.v
SQLServerWebhook.v
Webhooks.v
WebhookWitnesses.v
SQLServerResources.v
SQLServerInfra.v
SQLServerCertificates.v
SQLServerSetup.v
SQLServerController.v
SQLServerTheorems.v
SQLServerObjects.v
SQLServerWitnesses.v
Metrics.v
Manager.v
Wiring.v
WiringWitnesses.v
GoMemory.v
ApiLayouts.v
DeepCopies.v
DeepCopyWitnesses.v
