(* ===== verification/Prelude.v ===== *)
(** * A Rocq model of the MSSQL Kubernetes operator

    The operator (Go, under src/) reconciles eleven kinds of custom resources
    (api/v1alpha1) with SQL Server instances: databases, logins, users, schemas,
    permissions, backups, restores, scheduled backups, availability groups,
    their failovers, and the servers themselves. This library models its code as
    executable definitions and proves what each part guarantees.

    ** How the parts interact

    controller-runtime calls a controller's [Reconcile] with the name of an
    object. The controller reads the object and a Secret through the API client,
    connects to a SQL server through [ClientFactory], compares and issues
    statements through the interface [SQLClient], and writes the object's status
    back. [SQLClient] has two implementations, client.go over database/sql and
    the in-memory mock_client.go. The webhooks default and validate objects
    before they are stored.

    ** Files

    - Prelude.v: Go's errors, integers, durations, strings and [fmt.Sprintf]; the
      statement monad [Go] (return, panic, defer, loops) with its calculus [wp].
    - Types.v: the resources of api/v1alpha1 (the _types.go files) and the parts
      of Kubernetes' own kinds the operator reads or writes.
    - QuoteName.v: internal/sql/quotename.go, against a T-SQL tokenizer.
    - SqlClient.v: internal/sql/interface.go as the class [SQLClient], and
      [SQLClientLaws], the contract the controllers are proved against.
    - MockClient.v: internal/sql/mock_client.go; an invariant of its store, and
      that it meets the contract.
    - MssqlClient.v, MssqlStatements.v: internal/sql/client.go and azuread.go over
      an abstract driver, and the templates its statements refine.
    - Kube.v: the API client and the [World] a reconcile runs in (API server, SQL
      servers, log of actions); the judgement [does] and its rules. History.v:
      [does_h], where what justifies an action may refer to the log before it.
    - Helpers.v: internal/controller/helpers.go.
    - DatabaseController.v, SetReconcile.v (the role loops), LoginController.v,
      DatabaseUserController.v, SchemaController.v, PermissionController.v: the
      controllers of the SQL objects.
    - AgFencing.v, AvailabilityGroup.v: ag_fencing.go and
      availabilitygroup_controller.go. LeaseRace.v: several replicas running
      tryAcquireLease at once, call by call.
    - OneShot.v: the phase machine Backup, Restore and AGFailover share, as a
      class; BackupController.v, RestoreController.v and AgFailoverController.v
      are its instances. ScheduledBackupController.v: scheduledbackup_controller.go.
    - Admission.v: what a webhook is and what it guarantees, as classes;
      ObjectWebhooks.v, BackupWebhooks.v, AgWebhook.v, SQLServerWebhook.v: the
      _webhook.go files; Webhooks.v: all of them by kind.
    - SQLServerResources.v, SQLServerInfra.v (sqlserver_instance.go),
      SQLServerCertificates.v (sqlserver_certificates.go; SQLServerSetup.v: what it
      may send to a server), SQLServerController.v
      (sqlserver_managed_ag.go, sqlserver_controller.go); SQLServerTheorems.v and
      SQLServerObjects.v state what they do.
    - Progress.v: when an API server and a SQL server let a reconcile succeed;
      ObjectProgress.v and DatabaseProgress.v: that it then does, for the SQL
      objects; MockProgress.v: the mock client accepts every spec.
      Settling.v, ObjectSettling.v, DatabaseSettling.v: that a second reconcile,
      in the state the first left, reports Ready again and sends no statement.
      Watches.v: that an object without its Secret is woken by the watch on
      Secrets.
    - Metrics.v: internal/metrics, and which observations a reconcile logs.
      Manager.v: cmd/main.go. Wiring.v: the SetupWithManager functions, and
      which requests an event of the API server queues.
    - GoMemory.v: Go's memory (pointers, slices, maps) and what a deep copy is;
      ApiLayouts.v: the types of the API as memory holds them; DeepCopies.v:
      zz_generated.deepcopy.go.
    - ExampleWorld.v: a concrete API server and concrete SQL servers, in which
      the files named Witnesses run the controllers.

    A definition has the name of the Go function it models where there is one; a
    long function is split at its numbered steps into definitions that the
    definition of the function composes. State is passed explicitly, a Go
    pointer is an option, an [error] result is an option or a sum; an object
    that a function modifies in place is returned.

    ** What the theorems show

    - Ready=True is justified: for every kind, a status write that says Ready=True
      happens only when the server is, or the operation was, as the spec asks
      (the [_ready_sound] and [_reconcile_sound] theorems). A reconcile returns;
      where it can panic, the hypothesis that excludes it is stated.
    - Ready=True is reached: on servers that accept what the spec leads to, one
      reconcile of a live object writes it ([_becomes_ready]).
    - Destructive statements are justified: DROP, failover, demotion and deletion
      of backups happen only under the conditions of the source
      ([_drop_justified], [fencing_justified], [reconcile_live_failover_justified],
      [retention_deletes_oldest]). Their statements spell the condition out in
      terms of the object, of what the servers answered and of the readings of
      the clock in the run, and not through the definitions of the code.
    - A settled object stays so: after a reconcile that reported Ready the next
      one changes nothing on the servers and reports Ready again
      ([database_settles], [login_settles], [user_settles]), a one-shot operation
      is attempted once, an update of a StatefulSet converges.
    - Replicas of the operator interleave their Lease calls in any order: a Lease
      in force has one holder ([lease_exclusive]); one that expired can be taken
      twice, because the patch carries no resource version.
    - Wiring: every observation fits the collector it is made on
      ([observations_fit]); [main_registers] lists what the manager runs and
      serves; an object whose reference is created later is not woken
      ([missing_reference_strands]).
    - Statements are built safely: quoting round-trips through the tokenizer, and
      a statement is its template with the arguments inside single tokens, but
      for the few that are emitted as they are ([raw_args]), which must be plain.
    - Admission: what a create must satisfy, exactly; what no admitted update
      changes; that the objects reached have every field the controllers
      dereference, and that the group a server creates is itself admitted.
    - Copies are deep: for every type of the API, DeepCopy gives an equal value
      that shares no cell with the original ([DeepCopy_separate]), so the
      generated file is up to date with the types.
    - Some theorems and examples exhibit behaviour that the code probably does
      not intend (a stale primary never recorded, a permission lost when moved
      between grants and denies, schedules that can never fire, ...).

    ** Parameters and their hypotheses

    Code outside the repository is a class, universally quantified:
    [GoEnv] (clock, random source, order of [range] over a map, %q,
    time.ParseDuration), [KubeClient] and [KubeUtil] (controller-runtime and
    apimachinery, [KubeUtilLaws]: finalizers, conditions, owner references),
    [KubeStore], [KubeUp] and [KubeKeeps] (reads see the last write, calls
    succeed, other objects are untouched; only where a theorem speaks of two
    reconciles or of success), [LeaseServer] and [LeaseServerUp] (what the API
    server does with one Lease), [CtrlManager] (the outcome of
    registering and starting what main.go builds), [ControllerRuntime] (the
    predicate on generations and the handler for owned objects),
    [ApiMachinery] (the copies of the types of other modules), [SqlDriver]
    (database/sql), [Cron], [Template], [SortSlice], [Quantities], [Crypto]. The
    controllers are proved against [SQLClientLaws],
    which the mock client is proved to meet. The witnesses instantiate all of
    them.

    ** Bounds

    int32 and int64 are [Z] with wrap-around written out where the code computes
    ([int32], [int64]); instants and durations are nanoseconds. Every loop of the
    operator is over a slice, a map or a range of replicas and the tokenizer of
    QuoteName.v is a fold over the text, so all recursion is structural and no
    fuel is used.

    ** Not modelled

    Contexts and timeouts (a call that times out is a call that returns an
    error); logging; the parsing of the command line (Manager.v starts from the
    parsed flags); the work queue's order, rate limits and workers (Wiring.v says
    which requests an event queues); groupversion_info.go and the registration of
    the types with the scheme (conversion.go is a comment); concurrency between
    reconciles, except through the arbitrary state of the API server and of the
    SQL servers at each call, and the interleaved calls of LeaseRace.v. *)
From stdpp Require Export base gmap strings list pretty.
From Stdlib Require Export Ascii ZArith Lia.

#[global] Open Scope string_scope.
#[global] Open Scope Z_scope.
#[global] Open Scope list_scope.

(** ** Errors

    Go's [error] values as the operator builds and inspects them:
    [ErrNotFound] is an API-server status error with reason NotFound (the only
    one the code tells apart), [ErrString] any other leaf error
    ([errors.New], [fmt.Errorf] without [%w], a driver error), and [ErrWrap]
    is [fmt.Errorf("msg: %w", err)]. *)
Inductive error : Type :=
| ErrNotFound (msg : string)
| ErrString (msg : string)
| ErrWrap (msg : string) (e : error).

#[export] Instance error_eq_dec : EqDecision error.
Proof. solve_decision. Defined.

(** The text [err.Error()] (what [%v] and [%w] print). *)
Fixpoint err_text (e : error) : string :=
  match e with
  | ErrNotFound msg | ErrString msg => msg
  | ErrWrap msg e' => msg +:+ ": " +:+ err_text e'
  end.

(** [apierrors.IsNotFound] looks through wrapped errors ([errors.As]). *)
Fixpoint IsNotFound (e : error) : bool :=
  match e with
  | ErrNotFound _ => true
  | ErrString _ => false
  | ErrWrap _ e' => IsNotFound e'
  end.

(** ** Machine integers, durations and times

    A [time.Duration] is an int64 number of nanoseconds, an instant is a [Z]
    number of nanoseconds since the epoch. *)
Definition wrap_int (bits : Z) (z : Z) : Z :=
  (z + 2 ^ (bits - 1)) mod 2 ^ bits - 2 ^ (bits - 1).
Definition int32 (z : Z) : Z := wrap_int 32 z.
Definition int64 (z : Z) : Z := wrap_int 64 z.
Definition max_int64 : Z := 2 ^ 63 - 1.
Definition min_int64 : Z := - 2 ^ 63.

Definition Millisecond : Z := 1000000.
Definition Second : Z := 1000 * Millisecond.
Definition Minute : Z := 60 * Second.
Definition Hour : Z := 60 * Minute.

(** [Time.Sub] saturates at the range of [Duration]. *)
Definition time_sub (a b : Z) : Z := Z.max min_int64 (Z.min max_int64 (a - b)).

Lemma wrap_int_id bits z :
  1 <= bits -> - 2 ^ (bits - 1) <= z < 2 ^ (bits - 1) -> wrap_int bits z = z.
Proof.
  intros Hb Hz. unfold wrap_int.
  replace (2 ^ bits) with (2 * 2 ^ (bits - 1)) by
    (rewrite <- Z.pow_succ_r by lia; f_equal; lia).
  rewrite Z.mod_small; lia.
Qed.

Lemma wrap_int_range bits z :
  1 <= bits -> - 2 ^ (bits - 1) <= wrap_int bits z < 2 ^ (bits - 1).
Proof.
  intros Hb. unfold wrap_int.
  assert (0 < 2 ^ (bits - 1)) by (apply Z.pow_pos_nonneg; lia).
  replace (2 ^ bits) with (2 * 2 ^ (bits - 1)) by
    (rewrite <- Z.pow_succ_r by lia; f_equal; lia).
  pose proof (Z.mod_pos_bound (z + 2 ^ (bits - 1)) (2 * 2 ^ (bits - 1)) ltac:(lia)).
  lia.
Qed.

Lemma int64_id z : min_int64 <= z <= max_int64 -> int64 z = z.
Proof. unfold int64, min_int64, max_int64. intros. apply wrap_int_id; lia. Qed.

Lemma int32_id z : - 2 ^ 31 <= z < 2 ^ 31 -> int32 z = z.
Proof. unfold int32. intros. apply wrap_int_id; lia. Qed.

(** ** The run-time environment of a Go process

    What a run observes and the code does not determine: the clock, the random
    source, the order in which [range] visits a map, and the parts of the
    standard library whose exact output no statement depends on. All of it is
    universally quantified in the theorems: they hold for every clock, every
    random source and every iteration order. *)
Class GoEnv := {
  clock : nat -> Z;                       (* the n-th reading of time.Now *)
  rand63 : nat -> Z;                      (* the n-th draw of the random source *)
  range_order : nat -> list string -> list string;  (* range over a map's keys *)
  strconv_quote : string -> string;       (* the %q verb *)
  ParseDuration : string -> option Z;     (* time.ParseDuration *)
  unicode_upper : string -> string        (* strings.ToUpper beyond ASCII *)
}.

(** [range] visits every key of the map exactly once. *)
Class GoEnvLaws `{GoEnv} := {
  range_order_perm n l : range_order n l ≡ₚ l
}.

(** A concrete environment, for evaluating definitions. *)
Definition example_env : GoEnv := {|
  clock n := Z.of_nat n * Second;
  rand63 n := Z.of_nat n;
  range_order _ l := l;
  strconv_quote s := s;
  ParseDuration _ := None;
  unicode_upper s := s
|}.
Lemma example_env_laws : @GoEnvLaws example_env.
Proof. by split. Qed.

(** ** Strings *)
Definition is_ascii_byte (c : ascii) : bool := (Ascii.N_of_ascii c <? 128)%N.

Definition upper_byte (c : ascii) : ascii :=
  let n := Ascii.N_of_ascii c in
  if ((97 <=? n) && (n <=? 122))%N then Ascii.ascii_of_N (n - 32) else c.

Fixpoint string_forallb (f : ascii -> bool) (s : string) : bool :=
  match s with
  | EmptyString => true
  | String c s' => f c && string_forallb f s'
  end.

Fixpoint string_map (f : ascii -> ascii) (s : string) : string :=
  match s with
  | EmptyString => EmptyString
  | String c s' => String (f c) (string_map f s')
  end.

(** [strings.ToUpper]: byte-wise on ASCII strings. *)
Definition ToUpper `{GoEnv} (s : string) : string :=
  if string_forallb is_ascii_byte s then string_map upper_byte s else unicode_upper s.

(** [strings.ReplaceAll(s, old, new)] for a one-byte [old]. *)
Fixpoint ReplaceAll (s : string) (old : ascii) (new : string) : string :=
  match s with
  | EmptyString => EmptyString
  | String c s' =>
      if Ascii.eqb c old then new +:+ ReplaceAll s' old new
      else String c (ReplaceAll s' old new)
  end.

(** [strings.HasPrefix] and the suffix it leaves. *)
Fixpoint strip_prefix (p s : string) : option string :=
  match p, s with
  | EmptyString, _ => Some s
  | String a p', String b s' => if Ascii.eqb a b then strip_prefix p' s' else None
  | String _ _, EmptyString => None
  end.

(** [strings.SplitN(s, sep, 2)]: the part before the first [sep] and, when
    there is one, the part after it. *)
Fixpoint SplitN2 (s sep : string) : string * option string :=
  match strip_prefix sep s with
  | Some rest => ("", Some rest)
  | None =>
      match s with
      | EmptyString => ("", None)
      | String c s' => let '(a, b) := SplitN2 s' sep in (String c a, b)
      end
  end.

(** [strings.Contains]. *)
Definition Contains (s sub : string) : bool :=
  match SplitN2 s sub with (_, Some _) => true | _ => false end.

(** The [%d] verb. *)
Definition fmt_d (z : Z) : string := pretty z.

(** [fmt.Sprintf]: each verb takes the next argument, already formatted. *)
Definition is_verb (c : ascii) : bool :=
  Ascii.eqb c "s" || Ascii.eqb c "d" || Ascii.eqb c "v" || Ascii.eqb c "q" || Ascii.eqb c "x".
Fixpoint Sprintf (format : string) (args : list string) : string :=
  match format with
  | EmptyString => EmptyString
  | String p format' =>
      match format' with
      | String v rest =>
          if Ascii.eqb p "%" && is_verb v then
            match args with
            | a :: args' => a +:+ Sprintf rest args'
            | [] => "%!" +:+ String v ("(MISSING)" +:+ Sprintf rest [])
            end
          else String p (Sprintf format' args)
      | EmptyString => format
      end
  end.

(** [strings.Join]. *)
Fixpoint Join (parts : list string) (sep : string) : string :=
  match parts with
  | [] => ""
  | [x] => x
  | x :: rest => x +:+ sep +:+ Join rest sep
  end.

Lemma string_app_cons c (a b : string) : String c a +:+ b = String c (a +:+ b).
Proof. reflexivity. Qed.

Lemma string_app_nil_l (a : string) : "" +:+ a = a.
Proof. reflexivity. Qed.

Lemma string_app_assoc (a b c : string) : (a +:+ b) +:+ c = a +:+ (b +:+ c).
Proof. induction a as [|x a IH]; [done | by rewrite !string_app_cons, IH]. Qed.

Lemma string_app_nil_r (a : string) : a +:+ "" = a.
Proof. induction a as [|x a IH]; [done | by rewrite string_app_cons, IH]. Qed.

(** Right-nested, without empty parts. *)
Ltac string_norm :=
  repeat first
    [ rewrite string_app_assoc | rewrite string_app_cons
    | rewrite string_app_nil_l | rewrite string_app_nil_r ].

(** ** The Go statement monad

    A piece of a function body runs on a state [W] and either falls through to
    the next statement with a value ([Next]), leaves the function with its
    result ([Return]), or panics. [fn] closes a body into a call. *)
Inductive outcome (R A : Type) : Type :=
| Next (a : A)
| Return (r : R)
| Panic (msg : string).
Arguments Next {R A} a.
Arguments Return {R A} r.
Arguments Panic {R A} msg.

Definition Go (W R A : Type) : Type := W -> outcome R A * W.

#[export] Instance go_ret {W R} : MRet (Go W R) := fun A a w => (Next a, w).
#[export] Instance go_bind {W R} : MBind (Go W R) := fun A B k m w =>
  match m w with
  | (Next a, w') => k a w'
  | (Return r, w') => (Return r, w')
  | (Panic s, w') => (Panic s, w')
  end.
Definition return_ {W R A} (r : R) : Go W R A := fun w => (Return r, w).
Definition panic {W R A} (s : string) : Go W R A := fun w => (Panic s, w).
Definition get {W R} : Go W R W := fun w => (Next w, w).
Definition gets {W R A} (f : W -> A) : Go W R A := fun w => (Next (f w), w).
Definition modify {W R} (f : W -> W) : Go W R unit := fun w => (Next tt, f w).

(** A function call: the callee's [return] is the caller's value. *)
Definition fn {W R R'} (body : Go W R R) : Go W R' R :=
  fun w => match body w with
           | (Next r, w') => (Next r, w')
           | (Return r, w') => (Next r, w')
           | (Panic s, w') => (Panic s, w')
           end.

(** [defer cleanup()] around the statements that follow it; [cleanup] also
    runs when they panic. *)
Definition defer_ {W R A} (cleanup : Go W R unit) (body : Go W R A) : Go W R A :=
  fun w => let '(o, w1) := body w in
           match cleanup w1 with
           | (Panic s, w2) => (Panic s, w2)
           | (_, w2) => (o, w2)
           end.

(** [if b { m }]. *)
Definition when {W R} (b : bool) (m : Go W R unit) : Go W R unit :=
  if b then m else mret tt.
(** [if err != nil { h(err) }]. *)
Definition on_err {W R} (err : option error) (h : error -> Go W R unit) : Go W R unit :=
  match err with Some e => h e | None => mret tt end.
(** [if p != nil { m(deref p) }]. *)
Definition if_some {W R A} (p : option A) (m : A -> Go W R unit) : Go W R unit :=
  match p with Some x => m x | None => mret tt end.
(** [for _, x := range xs { body }] over a slice; [continue] is falling
    through the body, [return] leaves the function. *)
Fixpoint for_each {W R A} (xs : list A) (body : A -> Go W R unit) : Go W R unit :=
  match xs with
  | [] => mret tt
  | x :: xs' => body x ;; for_each xs' body
  end.
(** The same loop with a local variable: each round gets its value and gives the next. *)
Fixpoint fold_each {W R S A} (xs : list A) (s : S) (body : S -> A -> Go W R S) : Go W R S :=
  match xs with
  | [] => mret s
  | x :: xs' => body s x ≫= fun s' => fold_each xs' s' body
  end.

(** ** A weakest-precondition calculus for [Go] *)
Definition wp {W R A} (m : Go W R A) (Q : outcome R A -> W -> Prop) (w : W) : Prop :=
  Q (m w).1 (m w).2.

(** What remains to be shown after the first half of a sequence. *)
Definition seq_post {W R A B} (k : A -> Go W R B) (Q : outcome R B -> W -> Prop)
    (o : outcome R A) (w : W) : Prop :=
  match o with
  | Next a => wp (k a) Q w
  | Return r => Q (Return r) w
  | Panic s => Q (Panic s) w
  end.

(** Postcondition of a callee seen from the caller. *)
Definition fn_post {W R R'} (Q : outcome R' R -> W -> Prop) (o : outcome R R) (w : W) : Prop :=
  match o with
  | Next r | Return r => Q (Next r) w
  | Panic s => Q (Panic s) w
  end.

Section wp_rules.
  Context {W R : Type}.
  Implicit Types w : W.

Lemma wp_bind {A B} (m : Go W R A) (k : A -> Go W R B) Q w :
    wp (m ≫= k) Q w <-> wp m (seq_post k Q) w.
  Proof.
    unfold wp, seq_post, mbind, go_bind, wp.
    destruct (m w) as [[a|r|s] w'] eqn:E; cbn; [|done|done].
    by destruct (k a w').
  Qed.

Lemma wp_ret {A} (a : A) (Q : outcome R A -> W -> Prop) w :
    wp (mret a) Q w <-> Q (Next a) w.
  Proof. done. Qed.

Lemma wp_return {A} (r : R) (Q : outcome R A -> W -> Prop) w :
    wp (return_ r) Q w <-> Q (Return r) w.
  Proof. done. Qed.

Lemma wp_panic {A} s (Q : outcome R A -> W -> Prop) w :
    wp (panic s) Q w <-> Q (Panic s) w.
  Proof. done. Qed.

Lemma wp_gets {A} (f : W -> A) (Q : outcome R A -> W -> Prop) w :
    wp (gets f) Q w <-> Q (Next (f w)) w.
  Proof. done. Qed.

Lemma wp_modify (f : W -> W) (Q : outcome R unit -> W -> Prop) w :
    wp (modify f) Q w <-> Q (Next tt) (f w).
  Proof. done. Qed.

Lemma wp_fn {R'} (body : Go W R R) (Q : outcome R' R -> W -> Prop) w :
    wp (fn body) Q w <-> wp body (fn_post Q) w.
  Proof.
    unfold wp, fn, fn_post. by destruct (body w) as [[a|r|s] w'].
  Qed.

Lemma wp_defer {A} cleanup (body : Go W R A) Q w :
    wp (defer_ cleanup body) Q w <->
    wp body (fun o w1 => wp cleanup (fun o' w2 =>
      match o' with Panic s => Q (Panic s) w2 | _ => Q o w2 end) w1) w.
  Proof.
    unfold wp, defer_. destruct (body w) as [o w1]; cbn.
    by destruct (cleanup w1) as [[]].
  Qed.

Lemma wp_mono {A} (m : Go W R A) (Q Q' : outcome R A -> W -> Prop) w :
    wp m Q w -> (forall o w', Q o w' -> Q' o w') -> wp m Q' w.
  Proof. unfold wp. auto. Qed.

Lemma wp_and {A} (m : Go W R A) (Q Q' : outcome R A -> W -> Prop) w :
    wp m Q w -> wp m Q' w -> wp m (fun o w' => Q o w' /\ Q' o w') w.
  Proof. unfold wp. auto. Qed.

  (** Loop rule: [I rest w] holds whenever [rest] is still to be visited. *)
Lemma wp_for_each {A} (I : list A -> W -> Prop) (body : A -> Go W R unit) xs
      (Q : outcome R unit -> W -> Prop) w :
    I xs w ->
    (forall x xs' w', I (x :: xs') w' ->
       wp (body x) (fun o w'' => match o with
         | Next _ => I xs' w''
         | Return r => Q (Return r) w''
         | Panic s => Q (Panic s) w''
         end) w') ->
    (forall w', I [] w' -> Q (Next tt) w') ->
    wp (for_each xs body) Q w.
  Proof.
    intros HI Hstep Hend. revert w HI. induction xs as [|x xs IH]; intros w HI; cbn.
    { by apply wp_ret, Hend. }
    apply wp_bind. eapply wp_mono; [by apply Hstep|].
    intros [[]|r|s] w' H; cbn; [by apply IH|done|done].
  Qed.
End wp_rules.

(** Relates a run to the calculus. *)
Lemma wp_run {W R A} (m : Go W R A) Q w o w' :
  m w = (o, w') -> wp m Q w -> Q o w'.
Proof. unfold wp. by intros ->. Qed.

Lemma run_wp {W R A} (m : Go W R A) (Q : outcome R A -> W -> Prop) w :
  (forall o w', m w = (o, w') -> Q o w') -> wp m Q w.
Proof. unfold wp. intros H. apply H. apply surjective_pairing. Qed.

#[global] Opaque wp.

(** One symbolic-execution step; [go_steps] runs as far as it can without
    choosing a branch. *)
Ltac go_step :=
  match goal with
  | |- wp (_ ≫= _) _ _ => apply wp_bind
  | |- wp (mret _) _ _ => apply wp_ret
  | |- wp (return_ _) _ _ => apply wp_return
  | |- wp (panic _) _ _ => apply wp_panic
  | |- wp (gets _) _ _ => apply wp_gets
  | |- wp (modify _) _ _ => apply wp_modify
  | |- wp (fn _) _ _ => apply wp_fn
  | |- wp (defer_ _ _) _ _ => apply wp_defer
  | |- wp (when true _) _ _ => unfold when
  | |- wp (when false _) _ _ => unfold when
  | |- wp (on_err (Some _) _) _ _ => unfold on_err
  | |- wp (on_err None _) _ _ => unfold on_err
  | |- wp (if_some (Some _) _) _ _ => unfold if_some
  | |- wp (if_some None _) _ _ => unfold if_some
  | |- seq_post _ _ _ _ => unfold seq_post
  | |- fn_post _ _ _ => unfold fn_post
  end.
Ltac go_steps := repeat (go_step; cbn beta iota zeta).

(** ** Shared automation *)
Create HintDb s2op discriminated.

(** Split every conjunction and existential of the context. *)
Ltac split_ctx :=
  repeat match goal with
  | H : _ /\ _ |- _ => destruct H
  | H : exists x, _ |- _ => let x' := fresh x in destruct H as [x' H]
  | p : (_ * _)%type |- _ => destruct p
  end.
