(* ===== verification/Types.v ===== *)
(** * API types (api/v1alpha1, the _types.go files)

    The custom resources as records. Go string enums ([type BackupPhase
    string]) stay strings with the source's constants, since the code compares
    and switches on them with a default case. Pointers to scalars are options,
    [int32]/[int64] fields are [Z], [metav1.Time] is an instant in nanoseconds.
    A custom resource is an [Object] whose status carries the conditions and the
    observed generation common to all kinds, plus the kind's own fields. The
    fields the controllers neither read nor write are left out. *)
From S2P Require Import Prelude.

(** ** Kubernetes object metadata and conditions *)
Record OwnerReference := mkOwner { or_Name : string; or_Controller : bool }.
Record ObjectMeta := mkMeta {
  Name : string;
  Namespace : string;
  Generation : Z;
  DeletionTimestamp : option Z;
  Finalizers : list string;
  Labels : gmap string string;
  Annotations : gmap string string;
  ResourceVersion : string;
  CreationTimestamp : Z;
  OwnerReferences : list OwnerReference
}.

Record Condition := mkCondition {
  c_Type : string;
  c_Status : string;
  c_Reason : string;
  c_Message : string;
  c_ObservedGeneration : Z
}.
Definition ConditionTrue := "True".
Definition ConditionFalse := "False".

Record CRStatus (X : Type) := mkStatus {
  Conditions : list Condition;
  ObservedGeneration : Z;
  extra : X
}.
Arguments mkStatus {X} _ _ _.
Arguments Conditions {X} _.
Arguments ObservedGeneration {X} _.
Arguments extra {X} _.

Record Object (Sp St : Type) := mkObject {
  o_meta : ObjectMeta;
  o_spec : Sp;
  o_status : St
}.
Arguments mkObject {Sp St} _ _ _.
Arguments o_meta {Sp St} _.
Arguments o_spec {Sp St} _.
Arguments o_status {Sp St} _.

Record NamespacedName := mkKey { key_ns : string; key_name : string }.

#[export] Instance NamespacedName_eq_dec : EqDecision NamespacedName.
Proof. solve_decision. Defined.

Definition key_of {Sp St} (o : Object Sp St) : NamespacedName :=
  mkKey (Namespace (o_meta o)) (Name (o_meta o)).

Definition with_meta {Sp St} (m : ObjectMeta) (o : Object Sp St) : Object Sp St :=
  mkObject m (o_spec o) (o_status o).
Definition with_status {Sp St} (s : St) (o : Object Sp St) : Object Sp St :=
  mkObject (o_meta o) (o_spec o) s.
Definition with_extra {Sp X} (x : X) (o : Object Sp (CRStatus X)) : Object Sp (CRStatus X) :=
  with_status (mkStatus (Conditions (o_status o)) (ObservedGeneration (o_status o)) x) o.
Definition with_finalizers (fs : list string) (m : ObjectMeta) : ObjectMeta :=
  mkMeta (Name m) (Namespace m) (Generation m) (DeletionTimestamp m) fs
    (Labels m) (Annotations m) (ResourceVersion m) (CreationTimestamp m) (OwnerReferences m).
Definition with_labels (ls : gmap string string) (m : ObjectMeta) : ObjectMeta :=
  mkMeta (Name m) (Namespace m) (Generation m) (DeletionTimestamp m) (Finalizers m)
    ls (Annotations m) (ResourceVersion m) (CreationTimestamp m) (OwnerReferences m).
Definition with_owners (os : list OwnerReference) (m : ObjectMeta) : ObjectMeta :=
  mkMeta (Name m) (Namespace m) (Generation m) (DeletionTimestamp m) (Finalizers m)
    (Labels m) (Annotations m) (ResourceVersion m) (CreationTimestamp m) os.
(** The metadata of an object the operator builds. *)
Definition new_meta (name namespace : string) (ls : gmap string string) : ObjectMeta :=
  mkMeta name namespace 0 None [] ls ∅ "" 0 [].

(** ** common_types.go *)
Record SecretReference := mkSecretRef { sec_Name : string }.
Record LoginReference := mkLoginRef { loginref_Name : string }.
Record CrossNamespaceSecretReference := mkXSecretRef {
  xsec_Name : string;
  xsec_Namespace : option string
}.

Record ServerReference := mkServerRef {
  Host : string;
  Port : option Z;
  CredentialsSecret : SecretReference;
  TLS : option bool;
  SQLServerRef : option string
}.

Definition DeletionPolicyDelete := "Delete".
Definition DeletionPolicyRetain := "Retain".
Definition ConditionReady := "Ready".
Definition Finalizer := "mssql.popul.io/finalizer".

Definition ReasonReady := "Ready".
Definition ReasonConnectionFailed := "ConnectionFailed".
Definition ReasonSecretNotFound := "SecretNotFound".
Definition ReasonInvalidCredentialsSecret := "InvalidCredentialsSecret".
Definition ReasonCollationChangeNotSupported := "CollationChangeNotSupported".
Definition ReasonLoginInUse := "LoginInUse".
Definition ReasonLoginRefNotFound := "LoginRefNotFound".
Definition ReasonUserOwnsObjects := "UserOwnsObjects".
Definition ReasonSchemaNotEmpty := "SchemaNotEmpty".
Definition ReasonSplitBrainDetected := "SplitBrainDetected".
Definition ReasonFencingExecuted := "FencingExecuted".
Definition ReasonHardFencingExecuted := "HardFencingExecuted".
Definition ReasonFencingFailed := "FencingFailed".
Definition ReasonFencingExhausted := "FencingExhausted".
Definition ReasonPrimaryChangedExternally := "PrimaryChangedExternally".

(** ** database_types.go *)
Definition RecoveryModelFull := "Full".
Definition RecoveryModelSimple := "Simple".
Definition RecoveryModelBulkLogged := "BulkLogged".
Record DatabaseOption := mkDatabaseOption { opt_Name : string; opt_Value : bool }.
Record DatabaseSpec := mkDatabaseSpec {
  db_Server : ServerReference;
  db_DatabaseName : string;
  db_Collation : option string;
  db_Owner : option string;
  db_RecoveryModel : option string;
  db_CompatibilityLevel : option Z;
  db_Options : list DatabaseOption;
  db_DeletionPolicy : option string
}.
Definition Database := Object DatabaseSpec (CRStatus unit).

(** ** login_types.go *)
Record LoginSpec := mkLoginSpec {
  login_Server : ServerReference;
  login_LoginName : string;
  login_PasswordSecret : SecretReference;
  login_DefaultDatabase : option string;
  login_ServerRoles : list string;
  login_DeletionPolicy : option string
}.
Record LoginStatus := mkLoginStatus { PasswordSecretResourceVersion : string }.
Definition Login := Object LoginSpec (CRStatus LoginStatus).

(** ** databaseuser_types.go *)
Record DatabaseUserSpec := mkDatabaseUserSpec {
  user_Server : ServerReference;
  user_DatabaseName : string;
  user_UserName : string;
  user_LoginRef : LoginReference;
  user_DatabaseRoles : list string
}.
Definition DatabaseUser := Object DatabaseUserSpec (CRStatus unit).

(** ** schema_types.go *)
Record SchemaSpec := mkSchemaSpec {
  schema_Server : ServerReference;
  schema_DatabaseName : string;
  schema_SchemaName : string;
  schema_Owner : option string;
  schema_DeletionPolicy : option string
}.
Definition Schema := Object SchemaSpec (CRStatus unit).

(** ** permission_types.go *)
Record PermissionEntry := mkPermissionEntry { pe_Permission : string; pe_On : string }.
Record PermissionSpec := mkPermissionSpec {
  perm_Server : ServerReference;
  perm_DatabaseName : string;
  perm_UserName : string;
  perm_Grants : list PermissionEntry;
  perm_Denies : list PermissionEntry
}.
Definition Permission := Object PermissionSpec (CRStatus unit).

(** ** backup_types.go, restore_types.go *)
Definition PhasePending := "Pending".
Definition PhaseRunning := "Running".
Definition PhaseCompleted := "Completed".
Definition PhaseFailed := "Failed".
Definition BackupTypeFull := "Full".
Definition BackupTypeDifferential := "Differential".
Definition BackupTypeLog := "Log".
Record BackupSpec := mkBackupSpec {
  bak_Server : ServerReference;
  bak_DatabaseName : string;
  bak_Type : string;
  bak_Destination : string;
  bak_Compression : option bool
}.
Record BackupStatus := mkBackupStatus {
  bak_Phase : string;
  bak_StartTime : option Z;
  bak_CompletionTime : option Z
}.
Definition Backup := Object BackupSpec (CRStatus BackupStatus).

Record FileMapping := mkFileMapping { fm_LogicalName : string; fm_PhysicalPath : string }.
Record RestoreSpec := mkRestoreSpec {
  rst_Server : ServerReference;
  rst_DatabaseName : string;
  rst_Source : string;
  rst_StopAt : option string;
  rst_LogSource : option string;
  rst_WithMove : list FileMapping
}.
Definition Restore := Object RestoreSpec (CRStatus BackupStatus).

(** ** scheduledbackup_types.go *)
Record RetentionPolicy := mkRetentionPolicy { ret_MaxCount : option Z; ret_MaxAge : option string }.
Record ScheduledBackupSpec := mkScheduledBackupSpec {
  sb_Server : ServerReference;
  sb_DatabaseName : string;
  sb_Schedule : string;
  sb_Type : string;
  sb_Compression : option bool;
  sb_DestinationTemplate : string;
  sb_Retention : option RetentionPolicy;
  sb_Suspend : option bool
}.
Record ScheduledBackupHistory := mkScheduledBackupHistory {
  h_BackupName : string;
  h_StartTime : option Z;
  h_CompletionTime : option Z;
  h_Phase : string;
  h_Destination : string
}.
Record ScheduledBackupStatus := mkScheduledBackupStatus {
  LastScheduleTime : option Z;
  NextScheduleTime : option Z;
  LastSuccessfulBackup : string;
  ActiveBackup : string;
  History : list ScheduledBackupHistory;
  TotalBackups : Z;
  SuccessfulBackups : Z;
  FailedBackups : Z
}.
Definition ScheduledBackup := Object ScheduledBackupSpec (CRStatus ScheduledBackupStatus).

(** ** agfailover_types.go *)
Definition ConfirmDataLossAnnotation := "mssql.popul.io/confirm-data-loss".
Record AGFailoverSpec := mkAGFailoverSpec {
  fo_AGName : string;
  fo_TargetReplica : string;
  fo_Server : ServerReference;
  fo_Force : option bool
}.
Record AGFailoverStatus := mkAGFailoverStatus {
  fo_Phase : string;
  fo_StartTime : option Z;
  fo_CompletionTime : option Z;
  fo_PreviousPrimary : string;
  fo_NewPrimary : string
}.
Definition AGFailover := Object AGFailoverSpec (CRStatus AGFailoverStatus).

(** ** availabilitygroup_types.go *)
Definition AvailabilityModeSynchronous := "SynchronousCommit".
Definition AvailabilityModeAsynchronous := "AsynchronousCommit".
Definition FailoverModeAutomatic := "Automatic".
Definition FailoverModeManual := "Manual".
Definition SeedingModeAutomatic := "Automatic".
Definition SeedingModeManual := "Manual".
Definition SecondaryRoleAllowAll := "AllowAllConnections".
Definition SecondaryRoleReadIntentOnly := "AllowReadIntentOnly".
Definition SecondaryRoleNo := "No".

Record AGReplicaSpec := mkAGReplicaSpec {
  rep_ServerName : string;
  rep_EndpointURL : string;
  rep_AvailabilityMode : string;
  rep_FailoverMode : string;
  rep_SeedingMode : string;
  rep_SecondaryRole : string;
  rep_Server : ServerReference
}.
Record AGListenerIP := mkAGListenerIP { lip_IP : string; lip_SubnetMask : string }.
Record AGListenerSpec := mkAGListenerSpec {
  lis_Name : string;
  lis_Port : option Z;
  lis_IPAddresses : list AGListenerIP
}.
Record AGDatabaseSpec := mkAGDatabaseSpec { agdb_Name : string }.
Record AvailabilityGroupSpec := mkAvailabilityGroupSpec {
  ag_AGName : string;
  ag_Replicas : list AGReplicaSpec;
  ag_Databases : list AGDatabaseSpec;
  ag_Listener : option AGListenerSpec;
  ag_AutomatedBackupPreference : option string;
  ag_DBFailover : option bool;
  ag_ClusterType : option string;
  ag_AutoFailover : option bool;
  ag_HealthCheckInterval : option string;
  ag_FailoverCooldown : option string
}.
Record AGReplicaStatus := mkAGReplicaStatus {
  rst_ServerName : string;
  rst_Role : string;
  rst_SynchronizationState : string;
  rst_Connected : bool
}.
Record AGDatabaseStatus := mkAGDatabaseStatus {
  dst_Name : string;
  dst_SynchronizationState : string;
  dst_Joined : bool
}.
Record AvailabilityGroupStatus := mkAvailabilityGroupStatus {
  ag_PrimaryReplica : string;
  ag_ReplicaStates : list AGReplicaStatus;
  ag_DatabaseStates : list AGDatabaseStatus;
  ag_LastAutoFailoverTime : option Z;
  ag_AutoFailoverCount : Z;
  ag_LastFencingTime : option Z;
  ag_FencingCount : Z;
  ag_ConsecutiveFencingCount : Z;
  ag_LastFencedReplica : string
}.
Definition AvailabilityGroup := Object AvailabilityGroupSpec (CRStatus AvailabilityGroupStatus).

(** ** Values of k8s.io/api the operator copies
    [Quantity] in its smallest unit (10^-9); the scheduling values, which are
    only copied and compared, by their JSON text. *)
Definition Quantity := Z.
Definition Quantity_Value (q : Quantity) : Z := (q + 999999999) / 1000000000.
Definition RawValue := string.
Record ResourceRequirements := mkResources {
  res_Limits : gmap string Quantity;
  res_Requests : gmap string Quantity
}.
Definition ServiceTypeClusterIP := "ClusterIP".
Record Scheduling := mkScheduling {
  NodeSelector : gmap string string;
  Tolerations : RawValue;
  Affinity : RawValue;
  TopologySpreadConstraints : RawValue
}.

(** ** sqlserver_types.go *)
Definition AuthSqlLogin := "SqlLogin".
Definition AuthAzureAD := "AzureAD".
Definition AuthManagedIdentity := "ManagedIdentity".
Record AzureADAuth := mkAzureADAuth {
  aad_ClientID : string;
  aad_TenantID : string;
  aad_ClientSecretRef : option CrossNamespaceSecretReference
}.
Definition CertificateModeSelfSigned := "SelfSigned".
Definition CertificateModeCertManager := "CertManager".
Record CertManagerIssuerRef := mkIssuerRef {
  iss_Name : string;
  iss_Kind : option string;
  iss_Group : option string
}.
Record CertificateSpec := mkCertificateSpec {
  cert_Mode : option string;
  cert_IssuerRef : option CertManagerIssuerRef;
  cert_Duration : option string;
  cert_RenewBefore : option string
}.
Record ManagedAGSpec := mkManagedAGSpec {
  mag_AGName : option string;
  mag_AvailabilityMode : option string;
  mag_AutoFailover : option bool;
  mag_HealthCheckInterval : option string;
  mag_FailoverCooldown : option string
}.
Record InstanceSpec := mkInstanceSpec {
  inst_Image : option string;
  inst_SAPasswordSecret : SecretReference;
  inst_AcceptEULA : bool;
  inst_Edition : option string;
  inst_Replicas : option Z;
  inst_StorageSize : option string;
  inst_StorageClassName : option string;
  inst_Resources : option ResourceRequirements;
  inst_ServiceType : option string;
  inst_Scheduling : Scheduling;
  inst_Config : option string;
  inst_Certificates : option CertificateSpec;
  inst_AvailabilityGroup : option ManagedAGSpec
}.
Record SQLServerSpec := mkSQLServerSpec {
  srv_Host : string;
  srv_Port : option Z;
  srv_AuthMethod : string;
  srv_CredentialsSecret : option CrossNamespaceSecretReference;
  srv_AzureAD : option AzureADAuth;
  srv_TLS : option bool;
  srv_MaxConnections : option Z;
  srv_ConnectionTimeout : option Z;
  srv_Instance : option InstanceSpec
}.
Record SQLServerStatus := mkSQLServerStatus {
  srvst_ServerVersion : string;
  srvst_Edition : string;
  srvst_LastConnectedTime : option Z;
  srvst_Host : string;
  srvst_ReadyReplicas : option Z;
  srvst_PrimaryReplica : string;
  srvst_CertificatesReady : option bool
}.
Definition SQLServer := Object SQLServerSpec (CRStatus SQLServerStatus).

(** ** Core kinds the controllers read or write *)
Definition Secret := Object (gmap string string) unit.   (* Data *)
Definition Pod := Object unit unit.                      (* only its labels *)
Record LeaseSpec := mkLeaseSpec {
  HolderIdentity : option string;
  LeaseDurationSeconds : option Z;
  AcquireTime : option Z;
  RenewTime : option Z
}.
Definition Lease := Object LeaseSpec unit.

Definition ConfigMap := Object (gmap string string) unit.
Record ServicePort := mkServicePort { sp_Name : string; sp_Port : Z; sp_TargetPort : Z }.
Record ServiceSpec := mkServiceSpec {
  svc_Type : string;
  svc_ClusterIP : string;
  svc_Selector : gmap string string;
  svc_Ports : list ServicePort
}.
Definition Service := Object ServiceSpec unit.

Inductive EnvValue := EnvText (value : string) | EnvSecretKey (secret key : string).
Record EnvVar := mkEnvVar { env_Name : string; env_Value : EnvValue }.
Record ContainerPort := mkContainerPort { cp_Name : string; cp_Port : Z }.
Record VolumeMount := mkVolumeMount {
  vm_Name : string;
  vm_MountPath : string;
  vm_SubPath : string;
  vm_ReadOnly : bool
}.
Record Probe := mkProbe { pr_TCPPort : Z; pr_InitialDelay : Z; pr_Period : Z }.
Record Container := mkContainer {
  ctr_Name : string;
  ctr_Image : string;
  ctr_Env : list EnvVar;
  ctr_Ports : list ContainerPort;
  ctr_VolumeMounts : list VolumeMount;
  ctr_ReadinessProbe : option Probe;
  ctr_LivenessProbe : option Probe;
  ctr_Resources : ResourceRequirements
}.
Inductive VolumeSource := VolConfigMap (name : string) | VolSecret (name : string) (optional : bool).
Record Volume := mkVolume { vol_Name : string; vol_Source : VolumeSource }.
Record PersistentVolumeClaim := mkPVC {
  pvc_Name : string;
  pvc_AccessModes : list string;
  pvc_Storage : Quantity;
  pvc_StorageClassName : option string
}.
Record PodTemplateSpec := mkPodTemplate {
  pt_Labels : gmap string string;
  pt_Containers : list Container;
  pt_Volumes : list Volume;
  pt_Scheduling : Scheduling
}.
Record StatefulSetSpec := mkStatefulSetSpec {
  sts_ServiceName : string;
  sts_Replicas : option Z;
  sts_Selector : gmap string string;
  sts_Template : PodTemplateSpec;
  sts_VolumeClaimTemplates : list PersistentVolumeClaim
}.
Record StatefulSetStatus := mkStatefulSetStatus { sts_ReadyReplicas : Z }.
Definition StatefulSet := Object StatefulSetSpec StatefulSetStatus.

#[export] Instance EnvVar_eq_dec : EqDecision EnvVar.
Proof. unfold EqDecision, Decision. repeat decide equality. Defined.
#[export] Instance ResourceRequirements_eq_dec : EqDecision ResourceRequirements.
Proof. unfold Quantity. solve_decision. Defined.

(** ** Kinds *)
Inductive Kind :=
| KDatabase | KLogin | KDatabaseUser | KSchema | KPermission
| KBackup | KRestore | KScheduledBackup | KAGFailover | KAvailabilityGroup | KSQLServer
| KSecret | KPod | KLease | KConfigMap | KService | KStatefulSet.

#[export] Instance Kind_eq_dec : EqDecision Kind.
Proof. solve_decision. Defined.

(** The Go type a kind decodes into. *)
Definition obj (k : Kind) : Type :=
  match k with
  | KDatabase => Database
  | KLogin => Login
  | KDatabaseUser => DatabaseUser
  | KSchema => Schema
  | KPermission => Permission
  | KBackup => Backup
  | KRestore => Restore
  | KScheduledBackup => ScheduledBackup
  | KAGFailover => AGFailover
  | KAvailabilityGroup => AvailabilityGroup
  | KSQLServer => SQLServer
  | KSecret => Secret
  | KPod => Pod
  | KLease => Lease
  | KConfigMap => ConfigMap
  | KService => Service
  | KStatefulSet => StatefulSet
  end.

Definition obj_meta (k : Kind) : obj k -> ObjectMeta :=
  match k return obj k -> ObjectMeta with
  | KDatabase | KLogin | KDatabaseUser | KSchema | KPermission
  | KBackup | KRestore | KScheduledBackup | KAGFailover | KAvailabilityGroup | KSQLServer
  | KSecret | KPod | KLease | KConfigMap | KService | KStatefulSet => o_meta
  end.

(** The conditions of a custom resource; core objects have none here. *)
Definition obj_conditions (k : Kind) : obj k -> list Condition :=
  match k return obj k -> list Condition with
  | KDatabase => fun o => Conditions (o_status o)
  | KLogin => fun o => Conditions (o_status o)
  | KDatabaseUser => fun o => Conditions (o_status o)
  | KSchema => fun o => Conditions (o_status o)
  | KPermission => fun o => Conditions (o_status o)
  | KBackup => fun o => Conditions (o_status o)
  | KRestore => fun o => Conditions (o_status o)
  | KScheduledBackup => fun o => Conditions (o_status o)
  | KAGFailover => fun o => Conditions (o_status o)
  | KAvailabilityGroup => fun o => Conditions (o_status o)
  | KSQLServer => fun o => Conditions (o_status o)
  | KSecret | KPod | KLease | KConfigMap | KService | KStatefulSet => fun _ => []
  end.
