(* ===== verification/QuoteName.v ===== *)
(** * Quoting of T-SQL text (internal/sql/quotename.go)

    The four functions of the file, and a tokenizer of T-SQL text against which
    they are judged: bracketed and double-quoted identifiers, string literals,
    line comments and nested block comments, everything else a plain character.
    The tokenizer is the specification (SQL Server's documented lexical rules),
    not code of the repository. A statement is safe when its tokens are those of
    its template with the arguments inside single identifier or string tokens. *)
From S2P Require Import Prelude.

Definition QuoteName (name : string) : string :=
  let escaped := ReplaceAll name "]" "]]" in
  "[" +:+ escaped +:+ "]".

Definition QuoteString (value : string) : string :=
  let escaped := ReplaceAll value "'" "''" in
  "N'" +:+ escaped +:+ "'".

Definition valid_permissions : list string :=
  ["SELECT"; "INSERT"; "UPDATE"; "DELETE";
   "EXECUTE"; "ALTER"; "CONTROL"; "REFERENCES";
   "VIEW DEFINITION"; "CREATE TABLE"; "CREATE VIEW";
   "CREATE PROCEDURE"; "CREATE FUNCTION"; "CREATE SCHEMA"].

Section Quote.
Context `{GoEnv}.

Definition QuotePermissionTarget (target : string) : string :=
  match SplitN2 target "::" with
  | (part0, None) => ToUpper part0
  | (part0, Some name) =>
      let scope := ToUpper part0 in
      match SplitN2 name "." with
      | (dot0, Some dot1) => scope +:+ "::" +:+ QuoteName dot0 +:+ "." +:+ QuoteName dot1
      | (_, None) => scope +:+ "::" +:+ QuoteName name
      end
  end.

Definition IsValidPermission (perm : string) : bool :=
  bool_decide (ToUpper perm ∈ valid_permissions).
End Quote.

(** ** Specification: T-SQL tokens *)
Inductive token := TChar (c : ascii) | TIdent (s : string) | TString (s : string).

Inductive lexstate :=
| Raw
| Dash | LineComment
| Slash | Block (depth : nat) | BlockStar (depth : nat) | BlockSlash (depth : nat)
| InId (acc : string) | IdClose (acc : string)
| InDq (acc : string) | DqClose (acc : string)
| InStr (acc : string) | StrClose (acc : string).

Definition dquote : ascii := Ascii.ascii_of_nat 34.
Definition newline : ascii := Ascii.ascii_of_nat 10.
Definition snoc (acc : string) (c : ascii) : string := acc +:+ String c "".

Definition raw_step (c : ascii) : lexstate * list token :=
  if Ascii.eqb c "[" then (InId "", [])
  else if Ascii.eqb c "'" then (InStr "", [])
  else if Ascii.eqb c dquote then (InDq "", [])
  else if Ascii.eqb c "-" then (Dash, [])
  else if Ascii.eqb c "/" then (Slash, [])
  else (Raw, [TChar c]).

(** Emit [t], then treat [c] as ordinary text. *)
Definition emit (t : token) (c : ascii) : lexstate * list token :=
  ((raw_step c).1, t :: (raw_step c).2).

Definition lex_step (st : lexstate) (c : ascii) : lexstate * list token :=
  match st with
  | Raw => raw_step c
  | Dash => if Ascii.eqb c "-" then (LineComment, []) else emit (TChar "-") c
  | LineComment => (if Ascii.eqb c newline then Raw else LineComment, [])
  | Slash => if Ascii.eqb c "*" then (Block 0, []) else emit (TChar "/") c
  | Block n =>
      (if Ascii.eqb c "*" then BlockStar n
       else if Ascii.eqb c "/" then BlockSlash n else Block n, [])
  | BlockStar n =>
      (if Ascii.eqb c "/" then match n with O => Raw | S n' => Block n' end
       else if Ascii.eqb c "*" then BlockStar n else Block n, [])
  | BlockSlash n =>
      (if Ascii.eqb c "*" then Block (S n)
       else if Ascii.eqb c "/" then BlockSlash n else Block n, [])
  | InId acc => (if Ascii.eqb c "]" then IdClose acc else InId (snoc acc c), [])
  | IdClose acc => if Ascii.eqb c "]" then (InId (snoc acc c), []) else emit (TIdent acc) c
  | InDq acc => (if Ascii.eqb c dquote then DqClose acc else InDq (snoc acc c), [])
  | DqClose acc => if Ascii.eqb c dquote then (InDq (snoc acc c), []) else emit (TIdent acc) c
  | InStr acc => (if Ascii.eqb c "'" then StrClose acc else InStr (snoc acc c), [])
  | StrClose acc => if Ascii.eqb c "'" then (InStr (snoc acc c), []) else emit (TString acc) c
  end.

Fixpoint lex (st : lexstate) (s : string) : lexstate * list token :=
  match s with
  | EmptyString => (st, [])
  | String c s' =>
      let '(st1, t1) := lex_step st c in
      let '(st2, t2) := lex st1 s' in
      (st2, t1 ++ t2)
  end.

(** The tokens pending at the end of the text; [None] inside an unterminated
    identifier, string or block comment. *)
Definition finish (st : lexstate) : option (list token) :=
  match st with
  | Raw | LineComment => Some []
  | Dash => Some [TChar "-"]
  | Slash => Some [TChar "/"]
  | IdClose acc | DqClose acc => Some [TIdent acc]
  | StrClose acc => Some [TString acc]
  | Block _ | BlockStar _ | BlockSlash _ | InId _ | InDq _ | InStr _ => None
  end.

Definition tokens_from (st : lexstate) (s : string) : option (list token) :=
  let '(st', ts) := lex st s in app ts <$> finish st'.
Definition tokens : string -> option (list token) := tokens_from Raw.

Fixpoint chars (s : string) : list token :=
  match s with EmptyString => [] | String c s' => TChar c :: chars s' end.

(** Text without a character that opens an identifier, a string or a comment. *)
Definition plain_char (c : ascii) : bool :=
  negb (Ascii.eqb c "[" || Ascii.eqb c "'" || Ascii.eqb c dquote
        || Ascii.eqb c "-" || Ascii.eqb c "/").
Definition plain (s : string) : bool := string_forallb plain_char s.

(** *** Templates *)
Inductive piece := PText (s : string) | PId (s : string) | PStr (s : string).

Definition piece_sql (p : piece) : string :=
  match p with PText s => s | PId s => QuoteName s | PStr s => QuoteString s end.
Definition piece_tokens (p : piece) : list token :=
  match p with PText s => chars s | PId s => [TIdent s] | PStr s => [TChar "N"; TString s] end.

Definition render (ps : list piece) : string := foldr (fun p s => piece_sql p +:+ s) "" ps.
Definition template_tokens (ps : list piece) : list token := ps ≫= piece_tokens.

(** Whether what [render] puts after an identifier (resp. a string) starts with
    the closing character again. *)
Definition starts_with (c : ascii) (s : string) : bool :=
  match s with String d _ => Ascii.eqb d c | EmptyString => false end.

Fixpoint template_ok (ps : list piece) : bool :=
  match ps with
  | [] => true
  | PText s :: ps' => plain s && template_ok ps'
  | PId _ :: ps' => negb (starts_with "]" (render ps')) && template_ok ps'
  | PStr _ :: ps' => negb (starts_with "'" (render ps')) && template_ok ps'
  end.

(** ** The tokenizer on quoted text *)
Lemma lex_app st a b :
  lex st (a +:+ b) =
  ((lex (lex st a).1 b).1, (lex st a).2 ++ (lex (lex st a).1 b).2).
Proof.
  revert st. induction a as [|c a IH]; intros st.
  - apply surjective_pairing.
  - rewrite string_app_cons. cbn [lex]. destruct (lex_step st c) as [st1 t1].
    rewrite IH. destruct (lex st1 a) as [st2 t2]; cbn. by rewrite (assoc_L (++)).
Qed.

Lemma lex_plain s : plain s = true -> lex Raw s = (Raw, chars s).
Proof.
  induction s as [|c s IH]; [done|]. cbn. intros [Hc Hs]%andb_prop.
  unfold plain_char in Hc. apply negb_true_iff in Hc.
  rewrite !orb_false_iff in Hc. destruct Hc as [[[[H1 H2] H3] H4] H5].
  unfold raw_step. rewrite H1, H2, H3, H4, H5. cbn. by rewrite IH.
Qed.

Lemma snoc_app acc c s : snoc acc c +:+ s = acc +:+ String c s.
Proof. unfold snoc. by rewrite string_app_assoc. Qed.

(** A doubled closing character is read back as one. *)
Lemma lex_id_body acc s :
  lex (InId acc) (ReplaceAll s "]" "]]") = (InId (acc +:+ s), []).
Proof.
  revert acc. induction s as [|c s IH]; intros acc; cbn [ReplaceAll].
  { cbn. by rewrite string_app_nil_r. }
  destruct (Ascii.eqb_spec c "]") as [->|Hc].
  - rewrite !string_app_cons, string_app_nil_l. cbn [lex lex_step Ascii.eqb]. cbn.
    by rewrite IH, snoc_app.
  - cbn [lex lex_step]. rewrite (proj2 (Ascii.eqb_neq c "]") Hc). by rewrite IH, snoc_app.
Qed.

Lemma lex_str_body acc s :
  lex (InStr acc) (ReplaceAll s "'" "''") = (InStr (acc +:+ s), []).
Proof.
  revert acc. induction s as [|c s IH]; intros acc; cbn [ReplaceAll].
  { cbn. by rewrite string_app_nil_r. }
  destruct (Ascii.eqb_spec c "'") as [->|Hc].
  - rewrite !string_app_cons, string_app_nil_l. cbn [lex lex_step Ascii.eqb]. cbn.
    by rewrite IH, snoc_app.
  - cbn [lex lex_step]. rewrite (proj2 (Ascii.eqb_neq c "'") Hc). by rewrite IH, snoc_app.
Qed.

Lemma lex_QuoteName s : lex Raw (QuoteName s) = (IdClose s, []).
Proof.
  unfold QuoteName. rewrite lex_app. change (lex Raw "[") with (InId "", @nil token). cbn [fst snd].
  by rewrite lex_app, lex_id_body.
Qed.

Lemma lex_QuoteString s : lex Raw (QuoteString s) = (StrClose s, [TChar "N"]).
Proof.
  unfold QuoteString. rewrite lex_app. change (lex Raw "N'") with (InStr "", [TChar "N"]). cbn [fst snd].
  by rewrite lex_app, lex_str_body.
Qed.

Lemma tokens_from_app st a b :
  tokens_from st (a +:+ b) = app (lex st a).2 <$> tokens_from (lex st a).1 b.
Proof.
  unfold tokens_from. rewrite lex_app. destruct (lex (lex st a).1 b) as [st' t']; cbn.
  destruct (finish st'); cbn; [|done]. by rewrite (assoc_L (++)).
Qed.

(** Closing an identifier or a string: the token is emitted and the rest is
    read as if it started a text. *)
Lemma tokens_from_close st t c s :
  (forall d, d <> c -> lex_step st d = emit t d) -> finish st = Some [t] ->
  starts_with c s = false ->
  tokens_from st s = cons t <$> tokens_from Raw s.
Proof.
  intros Hstep Hfin Hs. destruct s as [|d s]; cbn.
  { unfold tokens_from. cbn. by rewrite Hfin. }
  unfold tokens_from. cbn [lex].
  rewrite Hstep by (intros ->; cbn in Hs; by rewrite Ascii.eqb_refl in Hs).
  unfold emit. cbn [lex_step]. destruct (raw_step d) as [st1 t1]; cbn.
  destruct (lex st1 s) as [st2 t2]. by destruct (finish st2).
Qed.

Lemma tokens_from_IdClose acc s :
  starts_with "]" s = false ->
  tokens_from (IdClose acc) s = cons (TIdent acc) <$> tokens_from Raw s.
Proof.
  apply tokens_from_close; [|done]. intros d Hd. cbn.
  by rewrite (proj2 (Ascii.eqb_neq d "]") Hd).
Qed.
Lemma tokens_from_StrClose acc s :
  starts_with "'" s = false ->
  tokens_from (StrClose acc) s = cons (TString acc) <$> tokens_from Raw s.
Proof.
  apply tokens_from_close; [|done]. intros d Hd. cbn.
  by rewrite (proj2 (Ascii.eqb_neq d "'") Hd).
Qed.

(** A text made of plain parts, [QuoteName]s and [QuoteString]s has exactly the
    tokens of its template, whatever the arguments hold. *)
Lemma tokens_render ps :
  template_ok ps = true -> tokens (render ps) = Some (template_tokens ps).
Proof.
  unfold tokens. induction ps as [|[s|s|s] ps IH]; [done|..]; cbn [template_ok];
    intros [H1 H2]%andb_prop; rewrite ?negb_true_iff in H1; cbn [render foldr piece_sql];
    fold (render ps); rewrite tokens_from_app.
  - rewrite lex_plain by done. cbn. by rewrite IH.
  - rewrite lex_QuoteName. cbn [fst snd]. rewrite tokens_from_IdClose by done. by rewrite IH.
  - rewrite lex_QuoteString. cbn [fst snd]. rewrite tokens_from_StrClose by done. by rewrite IH.
Qed.

(** *** Round trips *)
(** C20: reading the text of QuoteName(name) followed by anything that does not
    start with a closing bracket gives back exactly the identifier name and
    then the tokens of the rest. *)
Theorem QuoteName_roundtrip name rest :
  starts_with "]" rest = false ->
  tokens (QuoteName name +:+ rest) = cons (TIdent name) <$> tokens rest.
Proof.
  intros Hr. unfold tokens. rewrite tokens_from_app, lex_QuoteName. cbn [fst snd].
  rewrite tokens_from_IdClose by done. by destruct (tokens_from Raw rest).
Qed.
Lemma QuoteName_roundtrip_witness :
  tokens (QuoteName "a]; DROP DATABASE [b" +:+ " x") =
  Some [TIdent "a]; DROP DATABASE [b"; TChar " "; TChar "x"].
Proof. exact (QuoteName_roundtrip "a]; DROP DATABASE [b" " x" eq_refl). Defined.

(** Reading the text of QuoteString(value) followed by anything that does
    not start with a quote gives back exactly the string value and then the
    tokens of the rest. *)
Theorem QuoteString_roundtrip value rest :
  starts_with "'" rest = false ->
  tokens (QuoteString value +:+ rest) =
  (fun ts => TChar "N" :: TString value :: ts) <$> tokens rest.
Proof.
  intros Hr. unfold tokens. rewrite tokens_from_app, lex_QuoteString. cbn [fst snd].
  rewrite tokens_from_StrClose by done. by destruct (tokens_from Raw rest).
Qed.
Lemma QuoteString_roundtrip_witness :
  tokens (QuoteString "it's" +:+ ";") =
  Some [TChar "N"; TString "it's"; TChar ";"].
Proof. exact (QuoteString_roundtrip "it's" ";" eq_refl). Defined.

(** Distinct names have distinct quotations. *)
Lemma QuoteName_inj a b : QuoteName a = QuoteName b -> a = b.
Proof.
  intros Heq. pose proof (lex_QuoteName a) as Ha. rewrite Heq, lex_QuoteName in Ha.
  congruence.
Qed.

(** *** Permission targets *)
Lemma plain_app a b : plain (a +:+ b) = plain a && plain b.
Proof.
  unfold plain. induction a as [|c a IH]; [done|].
  rewrite string_app_cons. cbn. by rewrite IH, andb_assoc.
Qed.

Section Target.
Context `{GoEnv}.

(** The template of a target: only the scope (or the bare keyword) is text. *)
Definition target_scope (target : string) : string := ToUpper (SplitN2 target "::").1.
Definition target_pieces (target : string) : list piece :=
  match SplitN2 target "::" with
  | (_, None) => [PText (target_scope target)]
  | (_, Some name) =>
      match SplitN2 name "." with
      | (dot0, Some dot1) => [PText (target_scope target +:+ "::"); PId dot0; PText "."; PId dot1]
      | (_, None) => [PText (target_scope target +:+ "::"); PId name]
      end
  end.

Lemma target_render target : QuotePermissionTarget target = render (target_pieces target).
Proof.
  unfold QuotePermissionTarget, target_pieces, target_scope.
  destruct (SplitN2 target "::") as [p [n|]]; cbn [fst].
  - destruct (SplitN2 n ".") as [d0 [d1|]]; cbn [render foldr piece_sql];
      by rewrite ?string_app_nil_r, ?string_app_assoc.
  - cbn. by rewrite string_app_nil_r.
Qed.

Lemma target_template target ps :
  plain (target_scope target) = true -> template_ok ps = true ->
  starts_with "]" (render ps) = false ->
  template_ok (target_pieces target ++ ps) = true.
Proof.
  intros Hp Hps Hs. unfold target_pieces.
  destruct (SplitN2 target "::") as [p [n|]].
  - destruct (SplitN2 n ".") as [d0 [d1|]];
      cbn [app template_ok render foldr piece_sql]; fold (render ps);
      by rewrite plain_app, Hp, Hps, ?Hs.
  - cbn [app template_ok]. by rewrite Hp, Hps.
Qed.

(** The valid permission names are plain text once upper-cased. *)
Lemma IsValidPermission_plain perm : IsValidPermission perm = true -> plain (ToUpper perm) = true.
Proof.
  unfold IsValidPermission. rewrite bool_decide_eq_true.
  unfold valid_permissions. rewrite !elem_of_cons, elem_of_nil. intros Hp.
  by repeat (destruct Hp as [Hp|Hp]; [by rewrite Hp|]).
Qed.
End Target.

(** *** Decimal numbers are plain text *)
Lemma plain_pretty_N_go x s : plain s = true -> plain (pretty_N_go x s) = true.
Proof.
  revert s. induction (N.lt_wf_0 x) as [x _ IH]; intros s Hs.
  destruct (decide (0 < x)%N) as [Hx|Hx].
  - rewrite pretty_N_go_step by done. apply IH; [by apply N.div_lt|].
    cbn [plain string_forallb]. apply andb_true_intro. split; [|exact Hs].
    pose proof (N.mod_lt x 10 ltac:(done)) as Hd.
    revert Hd. generalize (x `mod` 10)%N. intros d Hd.
    by assert (d = 0 \/ d = 1 \/ d = 2 \/ d = 3 \/ d = 4 \/ d = 5 \/ d = 6 \/ d = 7 \/ d = 8 \/ d = 9)%N
      as [-> | [-> | [-> | [-> | [-> | [-> | [-> | [-> | [-> | ->]]]]]]]]] by lia.
  - replace x with 0%N by lia. by rewrite pretty_N_go_0.
Qed.

Lemma plain_fmt_d z : 0 <= z -> plain (fmt_d z) = true.
Proof.
  intros Hz. unfold fmt_d. destruct z as [|p|p]; [done| |lia].
  change (plain (pretty_N (N.pos p)) = true). unfold pretty_N.
  destruct (decide _); [done|]. by apply plain_pretty_N_go.
Qed.
