(* ===== verification/SqlClient.v ===== *)
(** * The SQL client interface (internal/sql/interface.go)

    [SQLClient] is the Go interface: a client handle of type [Conn] and, behind
    all handles, a state [D] (every SQL Server the process can reach). A method
    takes a handle and turns [D] into a result and the next [D]; a Go result
    [(T, error)] is a pair with an [option error]. [SQLClientLaws] is the
    contract the controllers rely on, stated on an abstract view of the servers:
    what each successful call changes and what each successful query reports.
    It says nothing of a call that returns an error, and nothing of the order
    in which calls fail. Names of options, roles and permission targets are
    compared byte for byte, as the operator does. *)
From S2P Require Import Prelude.

(** ** Data exchanged with the server *)
Record AGReplicaConfig := mkAGReplicaConfig {
  arc_ServerName : string;
  arc_EndpointURL : string;
  arc_AvailabilityMode : string;
  arc_FailoverMode : string;
  arc_SeedingMode : string;
  arc_SecondaryRole : string
}.
Record AGConfig := mkAGConfig {
  agc_Name : string;
  agc_Replicas : list AGReplicaConfig;
  agc_Databases : list string;
  agc_AutomatedBackupPreference : string;
  agc_DBFailover : bool;
  agc_ClusterType : string
}.
Record AGListenerIPConfig := mkAGListenerIPConfig { alip_IP : string; alip_SubnetMask : string }.
Record AGListenerConfig := mkAGListenerConfig {
  alc_Name : string;
  alc_Port : Z;
  alc_IPAddresses : list AGListenerIPConfig
}.
Record AGReplicaState := mkAGReplicaState {
  ars_ServerName : string;
  ars_Role : string;
  ars_SynchronizationState : string;
  ars_Connected : bool
}.
Record AGDatabaseState := mkAGDatabaseState {
  ads_Name : string;
  ads_SynchronizationState : string;
  ads_Joined : bool
}.
Record AGStatus := mkAGStatus {
  ags_Name : string;
  ags_PrimaryReplica : string;
  ags_Replicas : list AGReplicaState;
  ags_Databases : list AGDatabaseState
}.
Record PermissionState := mkPermissionState {
  ps_Permission : string;
  ps_Target : string;
  ps_State : string
}.

#[export] Instance PermissionState_eq_dec : EqDecision PermissionState.
Proof. solve_decision. Defined.
#[export] Instance AGReplicaState_eq_dec : EqDecision AGReplicaState.
Proof. solve_decision. Defined.

(** Results of methods returning [error] and [(T, error)]. *)
Abbreviation Op Conn D := (Conn -> D -> option error * D).
Abbreviation Query Conn D T := (Conn -> D -> (T * option error) * D).

(** ** type SQLClient interface *)
Class SQLClient (Conn D : Type) := {
  (* Database operations *)
  DatabaseExists : string -> Query Conn D bool;
  CreateDatabase : string -> option string -> Op Conn D;
  DropDatabase : string -> Op Conn D;
  GetDatabaseOwner : string -> Query Conn D string;
  SetDatabaseOwner : string -> string -> Op Conn D;
  GetDatabaseCollation : string -> Query Conn D string;
  (* Login operations *)
  LoginExists : string -> Query Conn D bool;
  CreateLogin : string -> string -> Op Conn D;
  DropLogin : string -> Op Conn D;
  UpdateLoginPassword : string -> string -> Op Conn D;
  GetLoginDefaultDatabase : string -> Query Conn D string;
  SetLoginDefaultDatabase : string -> string -> Op Conn D;
  GetLoginServerRoles : string -> Query Conn D (list string);
  AddLoginToServerRole : string -> string -> Op Conn D;
  RemoveLoginFromServerRole : string -> string -> Op Conn D;
  (* DatabaseUser operations *)
  UserExists : string -> string -> Query Conn D bool;
  CreateUser : string -> string -> string -> Op Conn D;
  DropUser : string -> string -> Op Conn D;
  GetUserDatabaseRoles : string -> string -> Query Conn D (list string);
  AddUserToDatabaseRole : string -> string -> string -> Op Conn D;
  RemoveUserFromDatabaseRole : string -> string -> string -> Op Conn D;
  UserOwnsObjects : string -> string -> Query Conn D bool;
  (* Schema operations *)
  SchemaExists : string -> string -> Query Conn D bool;
  CreateSchema : string -> string -> option string -> Op Conn D;
  DropSchema : string -> string -> Op Conn D;
  GetSchemaOwner : string -> string -> Query Conn D string;
  SetSchemaOwner : string -> string -> string -> Op Conn D;
  SchemaHasObjects : string -> string -> Query Conn D bool;
  (* Permission operations *)
  GetPermissions : string -> string -> Query Conn D (list PermissionState);
  GrantPermission : string -> string -> string -> string -> Op Conn D;
  DenyPermission : string -> string -> string -> string -> Op Conn D;
  RevokePermission : string -> string -> string -> string -> Op Conn D;
  (* Cross-reference checks *)
  LoginHasUsers : string -> Query Conn D bool;
  (* Backup/Restore operations *)
  BackupDatabase : string -> string -> string -> bool -> Op Conn D;
  RestoreDatabase : string -> string -> Op Conn D;
  (* Availability Group operations *)
  AGExists : string -> Query Conn D bool;
  CreateAG : AGConfig -> Op Conn D;
  GetAGStatus : string -> Query Conn D AGStatus;
  AddDatabaseToAG : string -> string -> Op Conn D;
  RemoveDatabaseFromAG : string -> string -> Op Conn D;
  JoinAG : string -> string -> Op Conn D;
  GrantAGCreateDatabase : string -> Op Conn D;
  AddListenerToAG : string -> AGListenerConfig -> Op Conn D;
  DropAG : string -> Op Conn D;
  FailoverAG : string -> Op Conn D;
  ForceFailoverAG : string -> Op Conn D;
  GetAGReplicaRole : string -> string -> Query Conn D string;
  SetAGRoleSecondary : string -> Op Conn D;
  GetLastHardenedLSN : string -> Query Conn D Z;
  CreateHADREndpoint : Z -> Op Conn D;
  HADREndpointExists : Query Conn D bool;
  (* Certificate and endpoint operations for HADR *)
  CreateMasterKey : string -> Op Conn D;
  MasterKeyExists : Query Conn D bool;
  CreateCertificate : string -> string -> string -> Op Conn D;
  CertificateExists : string -> Query Conn D bool;
  BackupCertificate : string -> string -> string -> string -> Op Conn D;
  CreateCertificateFromBackup : string -> string -> string -> string -> Op Conn D;
  GetCertificateBinary : string -> Query Conn D (list Byte.byte);
  CreateCertificateFromBinary : string -> list Byte.byte -> Op Conn D;
  CreateLoginFromCertificate : string -> string -> Op Conn D;
  GrantEndpointConnect : string -> string -> Op Conn D;
  CreateHADREndpointWithCert : Z -> string -> Op Conn D;
  (* Server info *)
  GetServerVersion : Query Conn D string;
  GetServerEdition : Query Conn D string;
  (* Database configuration *)
  GetDatabaseRecoveryModel : string -> Query Conn D string;
  SetDatabaseRecoveryModel : string -> string -> Op Conn D;
  GetDatabaseCompatibilityLevel : string -> Query Conn D Z;
  SetDatabaseCompatibilityLevel : string -> Z -> Op Conn D;
  GetDatabaseOption : string -> string -> Query Conn D bool;
  SetDatabaseOption : string -> string -> bool -> Op Conn D;
  (* Point-in-Time Restore *)
  RestoreDatabasePIT : string -> string -> string -> string -> Op Conn D;
  RestoreDatabaseWithMove : string -> string -> gmap string string -> Op Conn D;
  (* Connection *)
  Close : Op Conn D;
  Ping : Op Conn D
}.

(** [ClientFactory]: host, port, user, password, tls to a client or an error. *)
Definition ClientFactory (Conn D : Type) : Type :=
  string -> Z -> string -> string -> bool -> D -> (Conn + error) * D.
(** The same with a client id, a tenant id and a client secret, or a client id. *)
Definition AzureADClientFactory (Conn D : Type) : Type :=
  string -> Z -> string -> string -> string -> bool -> D -> (Conn + error) * D.
Definition ManagedIdentityClientFactory (Conn D : Type) : Type :=
  string -> Z -> string -> bool -> D -> (Conn + error) * D.

(** ** The contract *)

(** The entries of a permission list other than [p] on [t]. *)
Definition without_perm (p t : string) (l : list PermissionState) : list PermissionState :=
  filter (fun e => ~ (ps_Permission e = p /\ ps_Target e = t)) l.

(** What the operator can see of a database, a login, a user and a schema. *)
Record DbView := mkDbView {
  dv_owner : string;
  dv_collation : string;
  dv_recovery : string;
  dv_compat : Z;
  dv_options : gset string   (* the options that are ON *)
}.
Record LoginView := mkLoginView {
  lv_password : string;
  lv_default_db : string;
  lv_roles : gset string
}.
Record UserView := mkUserView {
  uv_login : string;
  uv_roles : gset string;
  uv_owns : bool
}.
Record SchemaView := mkSchemaView { sv_owner : string; sv_has_objects : bool }.

(** Turning an option ON or OFF. *)
Definition set_option (o : string) (b : bool) (s : gset string) : gset string :=
  if b then {[o]} ∪ s else s ∖ {[o]}.

(** [Query] and [Op] contracts: only calls without error are constrained. *)
Definition query_spec {Conn D T} (q : Query Conn D T) (P : Conn -> D -> T -> Prop)
    (same : Conn -> D -> D -> Prop) : Prop :=
  forall c d x d', q c d = ((x, None), d') -> P c d x /\ same c d d'.
Definition op_spec {Conn D} (o : Op Conn D) (P : Conn -> D -> D -> Prop) : Prop :=
  forall c d d', o c d = (None, d') -> P c d d'.

Class SQLClientLaws (Conn D : Type) `{SQLClient Conn D} := {
  v_db : Conn -> D -> string -> option DbView;
  v_login : Conn -> D -> string -> option LoginView;
  v_user : Conn -> D -> string -> string -> option UserView;
  v_schema : Conn -> D -> string -> string -> option SchemaView;
  v_perms : Conn -> D -> string -> string -> list PermissionState;
  (* how the server describes a recovery model set by this keyword *)
  v_recovery_desc : string -> string;

  (* databases *)
  DatabaseExists_spec n :
    query_spec (DatabaseExists n) (fun c d b => b = bool_decide (is_Some (v_db c d n)))
      (fun c d d' => v_db c d' = v_db c d);
  CreateDatabase_spec n col :
    op_spec (CreateDatabase n col) (fun c d d' => is_Some (v_db c d' n));
  DropDatabase_spec n :
    op_spec (DropDatabase n) (fun c d d' => v_db c d' n = None);
  GetDatabaseOwner_spec n :
    query_spec (GetDatabaseOwner n) (fun c d o => exists v, v_db c d n = Some v /\ dv_owner v = o)
      (fun c d d' => v_db c d' = v_db c d);
  SetDatabaseOwner_spec n o :
    op_spec (SetDatabaseOwner n o) (fun c d d' => exists v, v_db c d n = Some v /\
      v_db c d' n = Some (mkDbView o (dv_collation v) (dv_recovery v) (dv_compat v) (dv_options v)));
  GetDatabaseCollation_spec n :
    query_spec (GetDatabaseCollation n)
      (fun c d o => exists v, v_db c d n = Some v /\ dv_collation v = o)
      (fun c d d' => v_db c d' = v_db c d);
  GetDatabaseRecoveryModel_spec n :
    query_spec (GetDatabaseRecoveryModel n)
      (fun c d o => exists v, v_db c d n = Some v /\ dv_recovery v = o)
      (fun c d d' => v_db c d' = v_db c d);
  SetDatabaseRecoveryModel_spec n m :
    op_spec (SetDatabaseRecoveryModel n m) (fun c d d' => exists v r, v_db c d n = Some v /\
      v_db c d' n = Some (mkDbView (dv_owner v) (dv_collation v) r (dv_compat v) (dv_options v)) /\
      (m <> "" -> r = v_recovery_desc m));
  GetDatabaseCompatibilityLevel_spec n :
    query_spec (GetDatabaseCompatibilityLevel n)
      (fun c d o => exists v, v_db c d n = Some v /\ dv_compat v = o)
      (fun c d d' => v_db c d' = v_db c d);
  SetDatabaseCompatibilityLevel_spec n l :
    op_spec (SetDatabaseCompatibilityLevel n l) (fun c d d' => exists v l', v_db c d n = Some v /\
      v_db c d' n = Some (mkDbView (dv_owner v) (dv_collation v) (dv_recovery v) l' (dv_options v)) /\
      (l <> 0 -> l' = l));
  GetDatabaseOption_spec n o :
    query_spec (GetDatabaseOption n o)
      (fun c d b => exists v, v_db c d n = Some v /\ bool_decide (o ∈ dv_options v) = b)
      (fun c d d' => v_db c d' = v_db c d);
  SetDatabaseOption_spec n o b :
    op_spec (SetDatabaseOption n o b) (fun c d d' => exists v, v_db c d n = Some v /\
      v_db c d' n = Some (mkDbView (dv_owner v) (dv_collation v) (dv_recovery v) (dv_compat v)
                            (set_option o b (dv_options v))));

  (* logins *)
  LoginExists_spec n :
    query_spec (LoginExists n) (fun c d b => b = bool_decide (is_Some (v_login c d n)))
      (fun c d d' => v_login c d' = v_login c d);
  CreateLogin_spec n p :
    op_spec (CreateLogin n p) (fun c d d' => exists v, v_login c d' n = Some v /\ lv_password v = p);
  DropLogin_spec n :
    op_spec (DropLogin n) (fun c d d' => v_login c d' n = None);
  UpdateLoginPassword_spec n p :
    op_spec (UpdateLoginPassword n p) (fun c d d' => exists v, v_login c d n = Some v /\
      v_login c d' n = Some (mkLoginView p (lv_default_db v) (lv_roles v)));
  GetLoginDefaultDatabase_spec n :
    query_spec (GetLoginDefaultDatabase n)
      (fun c d o => exists v, v_login c d n = Some v /\ lv_default_db v = o)
      (fun c d d' => v_login c d' = v_login c d);
  SetLoginDefaultDatabase_spec n db :
    op_spec (SetLoginDefaultDatabase n db) (fun c d d' => exists v, v_login c d n = Some v /\
      v_login c d' n = Some (mkLoginView (lv_password v) db (lv_roles v)));
  GetLoginServerRoles_spec n :
    query_spec (GetLoginServerRoles n)
      (fun c d l => exists v, v_login c d n = Some v /\ list_to_set l = lv_roles v)
      (fun c d d' => v_login c d' = v_login c d);
  AddLoginToServerRole_spec n r :
    op_spec (AddLoginToServerRole n r) (fun c d d' => exists v, v_login c d n = Some v /\
      v_login c d' n = Some (mkLoginView (lv_password v) (lv_default_db v) ({[r]} ∪ lv_roles v)));
  RemoveLoginFromServerRole_spec n r :
    op_spec (RemoveLoginFromServerRole n r) (fun c d d' => exists v, v_login c d n = Some v /\
      v_login c d' n = Some (mkLoginView (lv_password v) (lv_default_db v) (lv_roles v ∖ {[r]})));

  (* database users *)
  UserExists_spec db u :
    query_spec (UserExists db u) (fun c d b => b = bool_decide (is_Some (v_user c d db u)))
      (fun c d d' => v_user c d' = v_user c d);
  CreateUser_spec db u l :
    op_spec (CreateUser db u l) (fun c d d' => exists v, v_user c d' db u = Some v /\ uv_login v = l);
  DropUser_spec db u :
    op_spec (DropUser db u) (fun c d d' => v_user c d' db u = None);
  GetUserDatabaseRoles_spec db u :
    query_spec (GetUserDatabaseRoles db u)
      (fun c d l => exists v, v_user c d db u = Some v /\ list_to_set l = uv_roles v)
      (fun c d d' => v_user c d' = v_user c d);
  AddUserToDatabaseRole_spec db u r :
    op_spec (AddUserToDatabaseRole db u r) (fun c d d' => exists v, v_user c d db u = Some v /\
      v_user c d' db u = Some (mkUserView (uv_login v) ({[r]} ∪ uv_roles v) (uv_owns v)));
  RemoveUserFromDatabaseRole_spec db u r :
    op_spec (RemoveUserFromDatabaseRole db u r) (fun c d d' => exists v, v_user c d db u = Some v /\
      v_user c d' db u = Some (mkUserView (uv_login v) (uv_roles v ∖ {[r]}) (uv_owns v)));
  UserOwnsObjects_spec db u :
    query_spec (UserOwnsObjects db u)
      (fun c d b => b = match v_user c d db u with Some v => uv_owns v | None => false end)
      (fun c d d' => v_user c d' = v_user c d);

  (* schemas *)
  SchemaExists_spec db s :
    query_spec (SchemaExists db s) (fun c d b => b = bool_decide (is_Some (v_schema c d db s)))
      (fun c d d' => v_schema c d' = v_schema c d);
  CreateSchema_spec db s o :
    op_spec (CreateSchema db s o) (fun c d d' => is_Some (v_schema c d' db s));
  DropSchema_spec db s :
    op_spec (DropSchema db s) (fun c d d' => v_schema c d' db s = None);
  GetSchemaOwner_spec db s :
    query_spec (GetSchemaOwner db s)
      (fun c d o => exists v, v_schema c d db s = Some v /\ sv_owner v = o)
      (fun c d d' => v_schema c d' = v_schema c d);
  SetSchemaOwner_spec db s o :
    op_spec (SetSchemaOwner db s o) (fun c d d' => exists v, v_schema c d db s = Some v /\
      v_schema c d' db s = Some (mkSchemaView o (sv_has_objects v)));
  SchemaHasObjects_spec db s :
    query_spec (SchemaHasObjects db s)
      (fun c d b => b = match v_schema c d db s with Some v => sv_has_objects v | None => false end)
      (fun c d d' => v_schema c d' = v_schema c d);

  (* permissions: one entry per permission and target; Grant, Deny and Revoke
     replace whatever entry there was *)
  GetPermissions_spec db u :
    query_spec (GetPermissions db u) (fun c d l => l = v_perms c d db u)
      (fun c d d' => v_perms c d' = v_perms c d);
  GrantPermission_spec db p t u :
    op_spec (GrantPermission db p t u) (fun c d d' => v_perms c d' db u =
      without_perm p t (v_perms c d db u)
        ++ [mkPermissionState p t "GRANT"]);
  DenyPermission_spec db p t u :
    op_spec (DenyPermission db p t u) (fun c d d' => v_perms c d' db u =
      without_perm p t (v_perms c d db u)
        ++ [mkPermissionState p t "DENY"]);
  RevokePermission_spec db p t u :
    op_spec (RevokePermission db p t u) (fun c d d' => v_perms c d' db u =
      without_perm p t (v_perms c d db u))
}.

(** The methods that only read. *)
Definition read_only_methods : list string :=
  ["DatabaseExists"; "GetDatabaseOwner"; "GetDatabaseCollation"; "LoginExists";
   "GetLoginDefaultDatabase"; "GetLoginServerRoles"; "UserExists"; "GetUserDatabaseRoles";
   "UserOwnsObjects"; "SchemaExists"; "GetSchemaOwner"; "SchemaHasObjects"; "GetPermissions";
   "LoginHasUsers"; "AGExists"; "GetAGStatus"; "GetAGReplicaRole"; "GetLastHardenedLSN";
   "HADREndpointExists"; "MasterKeyExists"; "CertificateExists"; "GetCertificateBinary";
   "GetServerVersion"; "GetServerEdition"; "GetDatabaseRecoveryModel";
   "GetDatabaseCompatibilityLevel"; "GetDatabaseOption"; "Close"; "Ping"].

Lemma set_option_id o (s : gset string) : set_option o (bool_decide (o ∈ s)) s = s.
Proof. unfold set_option. case_bool_decide; set_solver. Qed.
