(* ===== verification/MockClient.v ===== *)
(** * The in-memory SQL Server (internal/sql/mock_client.go)

    [Mock.MockClient] is the struct; every method takes the mutex for its whole
    body, so a method is one atomic step: a function from the struct to a result
    and the struct after the call. [locked]/[lockedq] is the prologue all
    methods share (track the call, fail with [ConnectError], fail with the
    error injected for the method). The file then proves the well-formedness
    invariant of the store over every reachable state, and that a heap of mocks
    implements [SQLClient] and meets its contract. *)
From stdpp Require Import functions.
From S2P Require Import Prelude SqlClient.

Module Mock.

(** ** Data *)
Record MockDatabase := mkMockDatabase {
  db_Name : string;
  db_Collation : string;
  db_Owner : string;
  db_RecoveryModel : string;
  db_CompatibilityLevel : Z;
  db_Options : gmap string bool
}.
Record MockLogin := mkMockLogin {
  l_Name : string;
  l_Password : string;
  l_DefaultDatabase : string;
  l_ServerRoles : list string
}.
Record MockUser := mkMockUser {
  u_DBName : string;
  u_UserName : string;
  u_LoginName : string;
  u_Roles : list string;
  u_OwnsObjects : bool
}.
Record MockSchema := mkMockSchema {
  s_DBName : string;
  s_SchemaName : string;
  s_Owner : string;
  s_HasObjects : bool
}.
(** [MockPermission] converts to [PermissionState] field by field. *)
Abbreviation MockPermission := PermissionState.
Record MockAG := mkMockAG {
  ag_Name : string;
  ag_PrimaryReplica : string;
  ag_Replicas : list AGReplicaState;
  ag_Databases : list AGDatabaseState;
  ag_HasListener : bool
}.

Record MockClient := mkMockClient {
  databases : gmap string MockDatabase;
  logins : gmap string MockLogin;
  users : gmap string MockUser;
  schemas : gmap string MockSchema;
  permissions : gmap string (list MockPermission);
  ags : gmap string MockAG;
  calls : gmap string Z;
  ConnectError : option error;
  MethodErrors : gmap string error;
  MockLSN : Z
}.

Definition NewMockClient : MockClient :=
  mkMockClient ∅ ∅ ∅ ∅ ∅ ∅ ∅ None ∅ 0.

(** Assignments to one field of the struct. *)
Definition set_databases x m := mkMockClient x (logins m) (users m) (schemas m) (permissions m)
  (ags m) (calls m) (ConnectError m) (MethodErrors m) (MockLSN m).
Definition set_logins x m := mkMockClient (databases m) x (users m) (schemas m) (permissions m)
  (ags m) (calls m) (ConnectError m) (MethodErrors m) (MockLSN m).
Definition set_users x m := mkMockClient (databases m) (logins m) x (schemas m) (permissions m)
  (ags m) (calls m) (ConnectError m) (MethodErrors m) (MockLSN m).
Definition set_schemas x m := mkMockClient (databases m) (logins m) (users m) x (permissions m)
  (ags m) (calls m) (ConnectError m) (MethodErrors m) (MockLSN m).
Definition set_permissions x m := mkMockClient (databases m) (logins m) (users m) (schemas m) x
  (ags m) (calls m) (ConnectError m) (MethodErrors m) (MockLSN m).
Definition set_ags x m := mkMockClient (databases m) (logins m) (users m) (schemas m)
  (permissions m) x (calls m) (ConnectError m) (MethodErrors m) (MockLSN m).
Definition set_calls x m := mkMockClient (databases m) (logins m) (users m) (schemas m)
  (permissions m) (ags m) x (ConnectError m) (MethodErrors m) (MockLSN m).
Definition set_MethodErrors x m := mkMockClient (databases m) (logins m) (users m) (schemas m)
  (permissions m) (ags m) (calls m) (ConnectError m) x (MockLSN m).

(** ** Call tracking and error injection *)
Definition track (method : string) (m : MockClient) : MockClient :=
  set_calls (<[method := int64 (default 0 (calls m !! method) + 1)]> (calls m)) m.

Definition CallCount (method : string) (m : MockClient) : Z := default 0 (calls m !! method).
Definition WasCalled (method : string) (m : MockClient) : bool := bool_decide (0 < CallCount method m).
Definition WasCalledLocked (method : string) (m : MockClient) : bool :=
  bool_decide (0 < default 0 (calls m !! method)).
Definition ResetCalls (m : MockClient) : MockClient := set_calls ∅ m.
Definition checkConnect (m : MockClient) : option error := ConnectError m.
Definition checkMethodError (method : string) (m : MockClient) : option error := MethodErrors m !! method.
Definition SetMethodError (method : string) (err : option error) (m : MockClient) : MockClient :=
  match err with
  | None => set_MethodErrors (delete method (MethodErrors m)) m
  | Some e => set_MethodErrors (<[method := e]> (MethodErrors m)) m
  end.

(** A method returning [error]: [inject] says whether it consults
    [checkMethodError]. *)
Definition locked (method : string) (inject : bool)
    (body : MockClient -> option error * MockClient) (m : MockClient) : option error * MockClient :=
  let m := track method m in
  match checkConnect m with
  | Some err => (Some err, m)
  | None =>
      match (if inject then checkMethodError method m else None) with
      | Some err => (Some err, m)
      | None => body m
      end
  end.

(** A method returning [(T, error)]; [zero] is the [T] of the error returns. *)
Definition lockedq {T} (method : string) (inject : bool) (zero : T)
    (body : MockClient -> (T * option error) * MockClient) (m : MockClient) :
    (T * option error) * MockClient :=
  let m := track method m in
  match checkConnect m with
  | Some err => ((zero, Some err), m)
  | None =>
      match (if inject then checkMethodError method m else None) with
      | Some err => ((zero, Some err), m)
      | None => body m
      end
  end.

Definition userKey (dbName userName : string) : string := dbName +:+ "/" +:+ userName.
Definition schemaKey (dbName schemaName : string) : string := dbName +:+ "/" +:+ schemaName.
Definition permKey (dbName userName : string) : string := dbName +:+ "/" +:+ userName.

Section Methods.
Context `{GoEnv}.

(** The [%q not found] errors. *)
Definition not_found (kind name : string) : error :=
  ErrString (kind +:+ " " +:+ strconv_quote name +:+ " not found").
Definition not_found_in (kind name dbName : string) : error :=
  ErrString (kind +:+ " " +:+ strconv_quote name +:+ " not found in database " +:+ strconv_quote dbName).

(** ** Database operations *)
Definition DatabaseExists (name : string) := lockedq "DatabaseExists" false false (fun m =>
  ((bool_decide (is_Some (databases m !! name)), None), m)).

Definition CreateDatabase (name : string) (collation : option string) :=
  locked "CreateDatabase" true (fun m =>
    let col := default "" collation in
    (None, set_databases (<[name := mkMockDatabase name col "dbo" "" 0 ∅]> (databases m)) m)).

Definition DropDatabase (name : string) := locked "DropDatabase" true (fun m =>
  (None, set_databases (delete name (databases m)) m)).

Definition GetDatabaseOwner (name : string) := lockedq "GetDatabaseOwner" false "" (fun m =>
  match databases m !! name with
  | None => (("", Some (not_found "database" name)), m)
  | Some db => ((db_Owner db, None), m)
  end).

Definition SetDatabaseOwner (dbName owner : string) := locked "SetDatabaseOwner" true (fun m =>
  match databases m !! dbName with
  | None => (Some (not_found "database" dbName), m)
  | Some db => (None, set_databases (<[dbName := mkMockDatabase (db_Name db) (db_Collation db) owner
      (db_RecoveryModel db) (db_CompatibilityLevel db) (db_Options db)]> (databases m)) m)
  end).

Definition GetDatabaseCollation (name : string) := lockedq "GetDatabaseCollation" false "" (fun m =>
  match databases m !! name with
  | None => (("", Some (not_found "database" name)), m)
  | Some db => ((db_Collation db, None), m)
  end).

(** Test hook: collation drift. *)
Definition SetDatabaseCollation (name collation : string) (m : MockClient) : MockClient :=
  match databases m !! name with
  | None => m
  | Some db => set_databases (<[name := mkMockDatabase (db_Name db) collation (db_Owner db)
      (db_RecoveryModel db) (db_CompatibilityLevel db) (db_Options db)]> (databases m)) m
  end.

(** ** Login operations *)
Definition LoginExists (name : string) := lockedq "LoginExists" false false (fun m =>
  ((bool_decide (is_Some (logins m !! name)), None), m)).

Definition CreateLogin (name password : string) := locked "CreateLogin" true (fun m =>
  (None, set_logins (<[name := mkMockLogin name password "" []]> (logins m)) m)).

Definition DropLogin (name : string) := locked "DropLogin" true (fun m =>
  (None, set_logins (delete name (logins m)) m)).

Definition UpdateLoginPassword (name password : string) := locked "UpdateLoginPassword" true (fun m =>
  match logins m !! name with
  | None => (Some (not_found "login" name), m)
  | Some l => (None, set_logins (<[name := mkMockLogin (l_Name l) password (l_DefaultDatabase l)
      (l_ServerRoles l)]> (logins m)) m)
  end).

Definition GetLoginDefaultDatabase (name : string) := lockedq "GetLoginDefaultDatabase" false "" (fun m =>
  match logins m !! name with
  | None => (("", Some (not_found "login" name)), m)
  | Some l => ((l_DefaultDatabase l, None), m)
  end).

Definition SetLoginDefaultDatabase (name dbName : string) :=
  locked "SetLoginDefaultDatabase" false (fun m =>
    match logins m !! name with
    | None => (Some (not_found "login" name), m)
    | Some l => (None, set_logins (<[name := mkMockLogin (l_Name l) (l_Password l) dbName
        (l_ServerRoles l)]> (logins m)) m)
    end).

Definition GetLoginServerRoles (name : string) := lockedq "GetLoginServerRoles" false [] (fun m =>
  match logins m !! name with
  | None => (([], Some (not_found "login" name)), m)
  | Some l => ((l_ServerRoles l, None), m)
  end).

(** Appending a role unless the slice already holds it. *)
Definition add_role (role : string) (roles : list string) : list string :=
  if bool_decide (role ∈ roles) then roles else roles ++ [role].
Definition remove_role (role : string) (roles : list string) : list string :=
  filter (fun r => r <> role) roles.

Definition AddLoginToServerRole (login role : string) :=
  locked "AddLoginToServerRole" false (fun m =>
    match logins m !! login with
    | None => (Some (not_found "login" login), m)
    | Some l => (None, set_logins (<[login := mkMockLogin (l_Name l) (l_Password l)
        (l_DefaultDatabase l) (add_role role (l_ServerRoles l))]> (logins m)) m)
    end).

Definition RemoveLoginFromServerRole (login role : string) :=
  locked "RemoveLoginFromServerRole" false (fun m =>
    match logins m !! login with
    | None => (Some (not_found "login" login), m)
    | Some l => (None, set_logins (<[login := mkMockLogin (l_Name l) (l_Password l)
        (l_DefaultDatabase l) (remove_role role (l_ServerRoles l))]> (logins m)) m)
    end).

(** ** DatabaseUser operations *)
Definition UserExists (dbName userName : string) := lockedq "UserExists" false false (fun m =>
  ((bool_decide (is_Some (users m !! userKey dbName userName)), None), m)).

Definition CreateUser (dbName userName loginName : string) := locked "CreateUser" true (fun m =>
  (None, set_users (<[userKey dbName userName := mkMockUser dbName userName loginName [] false]>
    (users m)) m)).

Definition DropUser (dbName userName : string) := locked "DropUser" true (fun m =>
  (None, set_users (delete (userKey dbName userName) (users m)) m)).

Definition GetUserDatabaseRoles (dbName userName : string) :=
  lockedq "GetUserDatabaseRoles" false [] (fun m =>
    match users m !! userKey dbName userName with
    | None => (([], Some (not_found_in "user" userName dbName)), m)
    | Some u => ((u_Roles u, None), m)
    end).

Definition AddUserToDatabaseRole (dbName userName role : string) :=
  locked "AddUserToDatabaseRole" true (fun m =>
    match users m !! userKey dbName userName with
    | None => (Some (not_found_in "user" userName dbName), m)
    | Some u => (None, set_users (<[userKey dbName userName := mkMockUser (u_DBName u) (u_UserName u)
        (u_LoginName u) (add_role role (u_Roles u)) (u_OwnsObjects u)]> (users m)) m)
    end).

Definition RemoveUserFromDatabaseRole (dbName userName role : string) :=
  locked "RemoveUserFromDatabaseRole" false (fun m =>
    match users m !! userKey dbName userName with
    | None => (Some (not_found_in "user" userName dbName), m)
    | Some u => (None, set_users (<[userKey dbName userName := mkMockUser (u_DBName u) (u_UserName u)
        (u_LoginName u) (remove_role role (u_Roles u)) (u_OwnsObjects u)]> (users m)) m)
    end).

Definition UserOwnsObjects (dbName userName : string) := lockedq "UserOwnsObjects" false false (fun m =>
  match users m !! userKey dbName userName with
  | None => ((false, None), m)
  | Some u => ((u_OwnsObjects u, None), m)
  end).

(** Test hooks. *)
Definition SetUserOwnsObjects (dbName userName : string) (owns : bool) (m : MockClient) : MockClient :=
  let key := dbName +:+ "/" +:+ userName in
  match users m !! key with
  | None => m
  | Some u => set_users (<[key := mkMockUser (u_DBName u) (u_UserName u) (u_LoginName u) (u_Roles u)
      owns]> (users m)) m
  end.
Definition GetMockUser (dbName userName : string) (m : MockClient) : option MockUser :=
  users m !! userKey dbName userName.

(** ** Schema operations *)
Definition SchemaExists (dbName schemaName : string) := lockedq "SchemaExists" false false (fun m =>
  ((bool_decide (is_Some (schemas m !! schemaKey dbName schemaName)), None), m)).

Definition CreateSchema (dbName schemaName : string) (owner : option string) :=
  locked "CreateSchema" true (fun m =>
    let o := match owner with
             | Some o => if bool_decide (o <> "") then o else "dbo"
             | None => "dbo"
             end in
    (None, set_schemas (<[schemaKey dbName schemaName := mkMockSchema dbName schemaName o false]>
      (schemas m)) m)).

Definition DropSchema (dbName schemaName : string) := locked "DropSchema" true (fun m =>
  (None, set_schemas (delete (schemaKey dbName schemaName) (schemas m)) m)).

Definition GetSchemaOwner (dbName schemaName : string) := lockedq "GetSchemaOwner" true "" (fun m =>
  match schemas m !! schemaKey dbName schemaName with
  | None => (("", Some (not_found_in "schema" schemaName dbName)), m)
  | Some s => ((s_Owner s, None), m)
  end).

Definition SetSchemaOwner (dbName schemaName owner : string) := locked "SetSchemaOwner" true (fun m =>
  match schemas m !! schemaKey dbName schemaName with
  | None => (Some (not_found_in "schema" schemaName dbName), m)
  | Some s => (None, set_schemas (<[schemaKey dbName schemaName := mkMockSchema (s_DBName s)
      (s_SchemaName s) owner (s_HasObjects s)]> (schemas m)) m)
  end).

Definition SchemaHasObjects (dbName schemaName : string) :=
  lockedq "SchemaHasObjects" false false (fun m =>
    match schemas m !! schemaKey dbName schemaName with
    | None => ((false, None), m)
    | Some s => ((s_HasObjects s, None), m)
    end).

Definition SetSchemaHasObjects (dbName schemaName : string) (has : bool) (m : MockClient) : MockClient :=
  let key := schemaKey dbName schemaName in
  match schemas m !! key with
  | None => m
  | Some s => set_schemas (<[key := mkMockSchema (s_DBName s) (s_SchemaName s) (s_Owner s) has]>
      (schemas m)) m
  end.

(** ** Permission operations; a missing key reads as the empty slice *)
Definition GetPermissions (dbName userName : string) := lockedq "GetPermissions" false [] (fun m =>
  ((default [] (permissions m !! permKey dbName userName), None), m)).

Definition removePermLocked (key permission target : string) (m : MockClient) : MockClient :=
  set_permissions (<[key := without_perm permission target (default [] (permissions m !! key))]>
    (permissions m)) m.

(** [m.permissions[key] = append(m.permissions[key], p)]. *)
Definition append_perm (key : string) (p : MockPermission) (m : MockClient) : MockClient :=
  set_permissions (<[key := default [] (permissions m !! key) ++ [p]]> (permissions m)) m.

Definition GrantPermission (dbName permission target userName : string) :=
  locked "GrantPermission" true (fun m =>
    let key := permKey dbName userName in
    let m := removePermLocked key permission target m in
    (None, append_perm key (mkPermissionState permission target "GRANT") m)).

Definition DenyPermission (dbName permission target userName : string) :=
  locked "DenyPermission" true (fun m =>
    let key := permKey dbName userName in
    let m := removePermLocked key permission target m in
    (None, append_perm key (mkPermissionState permission target "DENY") m)).

Definition RevokePermission (dbName permission target userName : string) :=
  locked "RevokePermission" true (fun m =>
    let key := permKey dbName userName in
    (None, removePermLocked key permission target m)).

(** ** Cross-reference checks *)
Definition LoginHasUsers (loginName : string) := lockedq "LoginHasUsers" false false (fun m =>
  ((existsb (fun ku => String.eqb (u_LoginName ku.2) loginName) (map_to_list (users m)), None), m)).

(** ** Availability Group operations *)
Definition AGExists (agName : string) := lockedq "AGExists" false false (fun m =>
  ((bool_decide (is_Some (ags m !! agName)), None), m)).

Definition CreateAG (config : AGConfig) := locked "CreateAG" true (fun m =>
  let replicas := imap (fun i r => mkAGReplicaState (arc_ServerName r)
                          (if Nat.eqb i 0 then "PRIMARY" else "SECONDARY") "SYNCHRONIZED" true)
                    (agc_Replicas config) in
  let databases := (fun db => mkAGDatabaseState db "SYNCHRONIZED" true) <$> agc_Databases config in
  let primary := match agc_Replicas config with r :: _ => arc_ServerName r | [] => "" end in
  (None, set_ags (<[agc_Name config :=
    mkMockAG (agc_Name config) primary replicas databases false]> (ags m)) m)).

Definition zero_AGStatus : AGStatus := mkAGStatus "" "" [] [].

Definition GetAGStatus (agName : string) := lockedq "GetAGStatus" true zero_AGStatus (fun m =>
  match ags m !! agName with
  | None => ((zero_AGStatus, Some (not_found "availability group" agName)), m)
  | Some ag => ((mkAGStatus (ag_Name ag) (ag_PrimaryReplica ag) (ag_Replicas ag) (ag_Databases ag),
                 None), m)
  end).

(** Assignment through the pointer [m.ags[agName]], when it is there. *)
Definition alter_ag (agName : string) (f : MockAG -> MockAG) (m : MockClient) : MockClient :=
  match ags m !! agName with
  | None => m
  | Some ag => set_ags (<[agName := f ag]> (ags m)) m
  end.

Definition AddDatabaseToAG (agName dbName : string) := locked "AddDatabaseToAG" true (fun m =>
  (None, alter_ag agName (fun ag => mkMockAG (ag_Name ag) (ag_PrimaryReplica ag) (ag_Replicas ag)
    (ag_Databases ag ++ [mkAGDatabaseState dbName "SYNCHRONIZED" true]) (ag_HasListener ag)) m)).

Definition RemoveDatabaseFromAG (agName dbName : string) := locked "RemoveDatabaseFromAG" true (fun m =>
  (None, alter_ag agName (fun ag => mkMockAG (ag_Name ag) (ag_PrimaryReplica ag) (ag_Replicas ag)
    (filter (fun db => ads_Name db <> dbName) (ag_Databases ag)) (ag_HasListener ag)) m)).

Definition JoinAG (agName clusterType : string) := locked "JoinAG" true (fun m => (None, m)).
Definition GrantAGCreateDatabase (agName : string) :=
  locked "GrantAGCreateDatabase" true (fun m => (None, m)).

Definition AddListenerToAG (agName : string) (listener : AGListenerConfig) :=
  locked "AddListenerToAG" true (fun m =>
    (None, alter_ag agName (fun ag => mkMockAG (ag_Name ag) (ag_PrimaryReplica ag) (ag_Replicas ag)
      (ag_Databases ag) true) m)).

Definition set_Role (role : string) (r : AGReplicaState) : AGReplicaState :=
  mkAGReplicaState (ars_ServerName r) role (ars_SynchronizationState r) (ars_Connected r).

(** The inner loop of the failovers: the first PRIMARY becomes SECONDARY. *)
Fixpoint demote_first (rs : list AGReplicaState) : list AGReplicaState :=
  match rs with
  | [] => []
  | r :: rs' => if String.eqb (ars_Role r) "PRIMARY" then set_Role "SECONDARY" r :: rs'
                else r :: demote_first rs'
  end.

(** The outer loop: the first SECONDARY is promoted, after demoting the
    primary; without a SECONDARY nothing happens. *)
Definition swap_primary (ag : MockAG) : MockAG :=
  match list_find (fun r => ars_Role r = "SECONDARY") (ag_Replicas ag) with
  | None => ag
  | Some (i, r) =>
      mkMockAG (ag_Name ag) (ars_ServerName r)
        (alter (set_Role "PRIMARY") i (demote_first (ag_Replicas ag)))
        (ag_Databases ag) (ag_HasListener ag)
  end.

Definition FailoverAG (agName : string) := locked "FailoverAG" true (fun m =>
  (None, alter_ag agName swap_primary m)).
Definition ForceFailoverAG (agName : string) := locked "ForceFailoverAG" true (fun m =>
  (None, alter_ag agName swap_primary m)).

Definition GetAGReplicaRole (agName serverName : string) := lockedq "GetAGReplicaRole" true "" (fun m =>
  let err := ErrString ("replica " +:+ serverName +:+ " not found in AG " +:+ agName) in
  match ags m !! agName with
  | None => (("", Some err), m)
  | Some ag =>
      match list_find (fun r => ars_ServerName r = serverName) (ag_Replicas ag) with
      | Some (_, r) => ((ars_Role r, None), m)
      | None => (("", Some err), m)
      end
  end).

Definition SetAGRoleSecondary (agName : string) := locked "SetAGRoleSecondary" true (fun m =>
  (None, alter_ag agName (fun ag => mkMockAG (ag_Name ag) (ag_PrimaryReplica ag)
    ((fun r => if String.eqb (ars_Role r) "PRIMARY" then set_Role "SECONDARY" r else r)
       <$> ag_Replicas ag)
    (ag_Databases ag) (ag_HasListener ag)) m)).

Definition GetLastHardenedLSN (agName : string) := lockedq "GetLastHardenedLSN" true 0 (fun m =>
  ((MockLSN m, None), m)).

Definition GetMockAG (agName : string) (m : MockClient) : option MockAG := ags m !! agName.

Definition DropAG (agName : string) := locked "DropAG" true (fun m =>
  (None, set_ags (delete agName (ags m)) m)).

Definition CreateHADREndpoint (port : Z) := locked "CreateHADREndpoint" true (fun m => (None, m)).
Definition HADREndpointExists := lockedq "HADREndpointExists" false false (fun m =>
  ((WasCalledLocked "CreateHADREndpoint" m, None), m)).

(** ** Certificate operations *)
Definition CreateMasterKey (password : string) := locked "CreateMasterKey" true (fun m => (None, m)).
Definition MasterKeyExists := lockedq "MasterKeyExists" false false (fun m =>
  ((WasCalledLocked "CreateMasterKey" m, None), m)).
Definition CreateCertificate (certName subject expiry : string) :=
  locked "CreateCertificate" true (fun m => (None, m)).
Definition CertificateExists (certName : string) := lockedq "CertificateExists" false false (fun m =>
  ((WasCalledLocked "CreateCertificate" m, None), m)).
Definition BackupCertificate (certName certPath keyPath password : string) :=
  locked "BackupCertificate" true (fun m => (None, m)).
Definition CreateCertificateFromBackup (certName certPath keyPath password : string) :=
  locked "CreateCertificateFromBackup" true (fun m => (None, m)).
Definition GetCertificateBinary (certName : string) :=
  lockedq "GetCertificateBinary" true [] (fun m => (([Byte.x30; Byte.x82], None), m)).
Definition CreateCertificateFromBinary (certName : string) (certDER : list Byte.byte) :=
  locked "CreateCertificateFromBinary" true (fun m => (None, m)).
Definition CreateLoginFromCertificate (loginName certName : string) :=
  locked "CreateLoginFromCertificate" true (fun m => (None, m)).
Definition GrantEndpointConnect (endpointName loginName : string) :=
  locked "GrantEndpointConnect" true (fun m => (None, m)).
Definition CreateHADREndpointWithCert (port : Z) (certName : string) :=
  locked "CreateHADREndpointWithCert" true (fun m => (None, m)).

(** ** Backup/Restore operations *)
Definition BackupDatabase (dbName destination backupType : string) (compression : bool) :=
  locked "BackupDatabase" true (fun m => (None, m)).
Definition RestoreDatabase (dbName source : string) :=
  locked "RestoreDatabase" true (fun m => (None, m)).

(** ** Server info *)
Definition GetServerVersion := lockedq "GetServerVersion" true "" (fun m =>
  (("2022 (16.0.4135.4)", None), m)).
Definition GetServerEdition := lockedq "GetServerEdition" true "" (fun m =>
  (("Developer Edition (64-bit)", None), m)).

(** ** Database configuration *)
Definition GetDatabaseRecoveryModel (name : string) := lockedq "GetDatabaseRecoveryModel" true "" (fun m =>
  match databases m !! name with
  | None => (("", Some (not_found "database" name)), m)
  | Some db => if String.eqb (db_RecoveryModel db) "" then (("FULL", None), m)
               else ((db_RecoveryModel db, None), m)
  end).

Definition SetDatabaseRecoveryModel (name model : string) :=
  locked "SetDatabaseRecoveryModel" true (fun m =>
    match databases m !! name with
    | None => (Some (not_found "database" name), m)
    | Some db => (None, set_databases (<[name := mkMockDatabase (db_Name db) (db_Collation db)
        (db_Owner db) model (db_CompatibilityLevel db) (db_Options db)]> (databases m)) m)
    end).

Definition GetDatabaseCompatibilityLevel (name : string) :=
  lockedq "GetDatabaseCompatibilityLevel" true 0 (fun m =>
    match databases m !! name with
    | None => ((0, Some (not_found "database" name)), m)
    | Some db => if db_CompatibilityLevel db =? 0 then ((160, None), m)
                 else ((db_CompatibilityLevel db, None), m)
    end).

Definition SetDatabaseCompatibilityLevel (name : string) (level : Z) :=
  locked "SetDatabaseCompatibilityLevel" true (fun m =>
    match databases m !! name with
    | None => (Some (not_found "database" name), m)
    | Some db => (None, set_databases (<[name := mkMockDatabase (db_Name db) (db_Collation db)
        (db_Owner db) (db_RecoveryModel db) level (db_Options db)]> (databases m)) m)
    end).

Definition GetDatabaseOption (name option : string) := lockedq "GetDatabaseOption" true false (fun m =>
  match databases m !! name with
  | None => ((false, Some (not_found "database" name)), m)
  | Some db => ((default false (db_Options db !! option), None), m)
  end).

Definition SetDatabaseOption (name option : string) (value : bool) :=
  locked "SetDatabaseOption" true (fun m =>
    match databases m !! name with
    | None => (Some (not_found "database" name), m)
    | Some db => (None, set_databases (<[name := mkMockDatabase (db_Name db) (db_Collation db)
        (db_Owner db) (db_RecoveryModel db) (db_CompatibilityLevel db)
        (<[option := value]> (db_Options db))]> (databases m)) m)
    end).

(** ** Point-in-time restore *)
Definition RestoreDatabasePIT (dbName fullSource logSource stopAt : string) :=
  locked "RestoreDatabasePIT" true (fun m => (None, m)).
Definition RestoreDatabaseWithMove (dbName source : string) (withMove : gmap string string) :=
  locked "RestoreDatabaseWithMove" true (fun m => (None, m)).

(** ** Connection *)
Definition Close (m : MockClient) : option error * MockClient := (None, track "Close" m).
Definition Ping (m : MockClient) : option error * MockClient :=
  let m := track "Ping" m in (checkConnect m, m).
End Methods.

(** ** Well-formedness of the store *)

(** The number of replicas in role PRIMARY. *)
Definition primary_count (rs : list AGReplicaState) : nat :=
  length (filter (fun r => ars_Role r = "PRIMARY") rs).

Record wf (m : MockClient) : Prop := {
  wf_databases : map_Forall (fun k db => db_Name db = k) (databases m);
  wf_logins : map_Forall (fun k l => l_Name l = k /\ NoDup (l_ServerRoles l)) (logins m);
  wf_users : map_Forall (fun k u => userKey (u_DBName u) (u_UserName u) = k /\ NoDup (u_Roles u)) (users m);
  wf_schemas : map_Forall (fun k s => schemaKey (s_DBName s) (s_SchemaName s) = k) (schemas m);
  wf_permissions : map_Forall (fun _ l =>
    NoDup ((fun e => (ps_Permission e, ps_Target e)) <$> l) /\
    Forall (fun e => ps_State e = "GRANT" \/ ps_State e = "DENY") l) (permissions m);
  wf_ags : map_Forall (fun k ag => ag_Name ag = k /\ (primary_count (ag_Replicas ag) <= 1)%nat) (ags m)
}.

Lemma wf_new : wf NewMockClient.
Proof. split; apply map_Forall_empty. Qed.

Lemma wf_set_calls c m : wf m -> wf (set_calls c m).
Proof. by destruct 1. Qed.
Lemma wf_set_MethodErrors c m : wf m -> wf (set_MethodErrors c m).
Proof. by destruct 1. Qed.
Lemma wf_track n m : wf m -> wf (track n m).
Proof. apply wf_set_calls. Qed.
Lemma wf_set_databases x m :
  wf m -> map_Forall (fun k db => db_Name db = k) x -> wf (set_databases x m).
Proof. by destruct 1. Qed.
Lemma wf_set_logins x m :
  wf m -> map_Forall (fun k l => l_Name l = k /\ NoDup (l_ServerRoles l)) x -> wf (set_logins x m).
Proof. by destruct 1. Qed.
Lemma wf_set_users x m :
  wf m -> map_Forall (fun k u => userKey (u_DBName u) (u_UserName u) = k /\ NoDup (u_Roles u)) x ->
  wf (set_users x m).
Proof. by destruct 1. Qed.
Lemma wf_set_schemas x m :
  wf m -> map_Forall (fun k s => schemaKey (s_DBName s) (s_SchemaName s) = k) x -> wf (set_schemas x m).
Proof. by destruct 1. Qed.
Lemma wf_set_ags x m :
  wf m -> map_Forall (fun k ag => ag_Name ag = k /\ (primary_count (ag_Replicas ag) <= 1)%nat) x ->
  wf (set_ags x m).
Proof. by destruct 1. Qed.

Lemma wf_locked n inj body m :
  (forall m, wf m -> wf (body m).2) -> wf m -> wf (locked n inj body m).2.
Proof.
  intros Hb Hm. unfold locked. pose proof (wf_track n m Hm) as Ht.
  destruct (checkConnect _); [done|].
  destruct (if inj then _ else _); [done | by apply Hb].
Qed.

Lemma wf_lockedq {T} n inj (z : T) body m :
  (forall m, wf m -> (body m).2 = m) -> wf m -> wf (lockedq n inj z body m).2.
Proof.
  intros Hb Hm. unfold lockedq. pose proof (wf_track n m Hm) as Ht.
  destruct (checkConnect _); [done|].
  destruct (if inj then _ else _); [done | by rewrite Hb].
Qed.

Lemma NoDup_add_role r l : NoDup l -> NoDup (add_role r l).
Proof.
  intros Hl. unfold add_role. case_bool_decide as Hr; [done|].
  apply NoDup_app. split_and!; [done | | apply NoDup_singleton].
  intros x Hx ->%list_elem_of_singleton. done.
Qed.
Lemma NoDup_remove_role r l : NoDup l -> NoDup (remove_role r l).
Proof. apply NoDup_filter. Qed.

(** Entries other than [(p, t)] keep the list free of duplicates, and [(p, t)]
    can then be added back. *)
Lemma NoDup_without_perm p t s l :
  NoDup ((fun e => (ps_Permission e, ps_Target e)) <$> l) ->
  NoDup ((fun e => (ps_Permission e, ps_Target e)) <$> without_perm p t l) /\
  NoDup ((fun e => (ps_Permission e, ps_Target e)) <$> (without_perm p t l ++ [mkPermissionState p t s])).
Proof.
  intros Hl.
  assert (Hw : NoDup ((fun e => (ps_Permission e, ps_Target e)) <$> without_perm p t l)).
  { apply (sublist_NoDup _ ((fun e => (ps_Permission e, ps_Target e)) <$> l)); [done|].
    apply fmap_sublist, sublist_filter. }
  split; [done|]. rewrite fmap_app. apply NoDup_app. split_and!; [done| |apply NoDup_singleton].
  intros x Hx ->%list_elem_of_singleton.
  apply list_elem_of_fmap in Hx as (e & [= Hp Ht] & He).
  apply list_elem_of_filter in He as [Hne _]. by apply Hne.
Qed.

Lemma Forall_without_perm p t (P : PermissionState -> Prop) l :
  Forall P l -> Forall P (without_perm p t l).
Proof. rewrite !Forall_forall. intros Hl x [_ Hx]%list_elem_of_filter. by apply Hl. Qed.

Lemma wf_removePermLocked key p t m : wf m -> wf (removePermLocked key p t m).
Proof.
  intros []. split; [done..| |done]. cbn. apply map_Forall_insert_2; [|done].
  destruct (permissions m !! key) as [l|] eqn:E; cbn.
  - destruct (wf_permissions0 _ _ E). split.
    + by apply (NoDup_without_perm p t "").
    + by apply Forall_without_perm.
  - by split; constructor.
Qed.

Lemma wf_append_perm key p t s m :
  s = "GRANT" \/ s = "DENY" -> wf m ->
  wf (append_perm key (mkPermissionState p t s) (removePermLocked key p t m)).
Proof.
  intros Hs []. split; [done..| |done]. cbn. rewrite lookup_insert_eq, insert_insert_eq. cbn.
  apply map_Forall_insert_2; [|done].
  destruct (permissions m !! key) as [l|] eqn:E; cbn.
  - destruct (wf_permissions0 _ _ E). split.
    + by apply NoDup_without_perm.
    + apply Forall_app. split; [by apply Forall_without_perm | by constructor].
  - split; [apply NoDup_singleton | by constructor].
Qed.

(** ** Counting primaries *)
Lemma primary_count_app l1 l2 :
  primary_count (l1 ++ l2) = (primary_count l1 + primary_count l2)%nat.
Proof. unfold primary_count. by rewrite filter_app, length_app. Qed.

Lemma primary_count_cons r rs :
  primary_count (r :: rs) = ((if decide (ars_Role r = "PRIMARY") then 1 else 0) + primary_count rs)%nat.
Proof. unfold primary_count. rewrite filter_cons. by case_decide. Qed.

Lemma primary_count_demote rs : primary_count (demote_first rs) = pred (primary_count rs).
Proof.
  induction rs as [|r rs IH]; [done|]. cbn [demote_first].
  destruct (String.eqb_spec (ars_Role r) "PRIMARY") as [E|E]; rewrite !primary_count_cons.
  - by rewrite (decide_True (P := ars_Role r = _)) by done.
  - rewrite (decide_False (P := ars_Role r = _)) by done. apply IH.
Qed.

Lemma primary_count_promote i rs :
  (primary_count (alter (set_Role "PRIMARY") i rs) <= S (primary_count rs))%nat.
Proof.
  revert i; induction rs as [|r rs IH]; intros [|i]; [apply Nat.le_succ_diag_r..| |].
  - change (alter (set_Role "PRIMARY") 0%nat (r :: rs)) with (set_Role "PRIMARY" r :: rs).
    rewrite !primary_count_cons. case_decide; case_decide; lia.
  - change (alter (set_Role "PRIMARY") (S i) (r :: rs)) with (r :: alter (set_Role "PRIMARY") i rs).
    rewrite !primary_count_cons. specialize (IH i). lia.
Qed.

Lemma wf_swap_primary k ag :
  ag_Name ag = k /\ (primary_count (ag_Replicas ag) <= 1)%nat ->
  ag_Name (swap_primary ag) = k /\ (primary_count (ag_Replicas (swap_primary ag)) <= 1)%nat.
Proof.
  intros [Hn Hp]. unfold swap_primary. destruct (list_find _ _) as [[i r]|]; [|done]. split; [done|].
  cbn [ag_Replicas]. pose proof (primary_count_promote i (demote_first (ag_Replicas ag))) as H.
  rewrite primary_count_demote in H. lia.
Qed.

Lemma primary_count_all_demoted rs :
  primary_count ((fun r => if String.eqb (ars_Role r) "PRIMARY" then set_Role "SECONDARY" r else r) <$> rs)
  = 0%nat.
Proof.
  induction rs as [|r rs IH]; [done|]. cbn [fmap list_fmap]. rewrite primary_count_cons, IH.
  destruct (String.eqb_spec (ars_Role r) "PRIMARY"); [done | by rewrite decide_False].
Qed.

Lemma primary_count_created (rs : list AGReplicaConfig) :
  (primary_count (imap (fun i r => mkAGReplicaState (arc_ServerName r)
     (if Nat.eqb i 0 then "PRIMARY" else "SECONDARY") "SYNCHRONIZED" true) rs) <= 1)%nat.
Proof.
  destruct rs as [|r rs]; [apply Nat.le_0_l|]. rewrite imap_cons, primary_count_cons. cbn.
  enough (forall k, primary_count (imap (fun i r => mkAGReplicaState (arc_ServerName r)
     (if Nat.eqb (k + S i) 0 then "PRIMARY" else "SECONDARY") "SYNCHRONIZED" true) rs) = 0%nat) as H
    by (specialize (H 0%nat); cbn in H; rewrite decide_True by done;
        unfold compose; cbn; rewrite H; lia).
  clear r. induction rs as [|r rs IH]; intros k; [done|].
  rewrite imap_cons, primary_count_cons. unfold compose.
  replace (k + 1)%nat with (S k) by lia. cbn.
  erewrite imap_ext; [exact (IH (S k))|].
  intros i x _. cbn. by rewrite !Nat.add_succ_r.
Qed.

Lemma wf_alter_ag agName f m :
  (forall k ag, ag_Name ag = k /\ (primary_count (ag_Replicas ag) <= 1)%nat ->
     ag_Name (f ag) = k /\ (primary_count (ag_Replicas (f ag)) <= 1)%nat) ->
  wf m -> wf (alter_ag agName f m).
Proof.
  intros Hf Hm. unfold alter_ag. destruct (ags m !! agName) as [ag|] eqn:E; [|done].
  apply wf_set_ags; [done|]. apply map_Forall_insert_2; [|apply Hm].
  apply Hf. by apply Hm.
Qed.

(** ** Reachable states

    One step is one method call (or one of the test hooks). Queries and the
    methods the mock does not simulate share a constructor each. *)
Section Reachability.
Context `{GoEnv}.

Inductive step (m : MockClient) : MockClient -> Prop :=
| step_query {T} n inj (z : T) body : (forall m, (body m).2 = m) -> step m (lockedq n inj z body m).2
| step_stub n inj : step m (locked n inj (fun m => (None, m)) m).2
| step_Close : step m (Close m).2
| step_Ping : step m (Ping m).2
| step_ResetCalls : step m (ResetCalls m)
| step_SetMethodError n e : step m (SetMethodError n e m)
| step_ConnectError e lsn : step m (mkMockClient (databases m) (logins m) (users m) (schemas m)
    (permissions m) (ags m) (calls m) e (MethodErrors m) lsn)
| step_CreateDatabase n c : step m (CreateDatabase n c m).2
| step_DropDatabase n : step m (DropDatabase n m).2
| step_SetDatabaseOwner n o : step m (SetDatabaseOwner n o m).2
| step_SetDatabaseCollation n c : step m (SetDatabaseCollation n c m)
| step_SetDatabaseRecoveryModel n r : step m (SetDatabaseRecoveryModel n r m).2
| step_SetDatabaseCompatibilityLevel n l : step m (SetDatabaseCompatibilityLevel n l m).2
| step_SetDatabaseOption n o b : step m (SetDatabaseOption n o b m).2
| step_CreateLogin n p : step m (CreateLogin n p m).2
| step_DropLogin n : step m (DropLogin n m).2
| step_UpdateLoginPassword n p : step m (UpdateLoginPassword n p m).2
| step_SetLoginDefaultDatabase n d : step m (SetLoginDefaultDatabase n d m).2
| step_AddLoginToServerRole n r : step m (AddLoginToServerRole n r m).2
| step_RemoveLoginFromServerRole n r : step m (RemoveLoginFromServerRole n r m).2
| step_CreateUser d u l : step m (CreateUser d u l m).2
| step_DropUser d u : step m (DropUser d u m).2
| step_AddUserToDatabaseRole d u r : step m (AddUserToDatabaseRole d u r m).2
| step_RemoveUserFromDatabaseRole d u r : step m (RemoveUserFromDatabaseRole d u r m).2
| step_SetUserOwnsObjects d u b : step m (SetUserOwnsObjects d u b m)
| step_CreateSchema d s o : step m (CreateSchema d s o m).2
| step_DropSchema d s : step m (DropSchema d s m).2
| step_SetSchemaOwner d s o : step m (SetSchemaOwner d s o m).2
| step_SetSchemaHasObjects d s b : step m (SetSchemaHasObjects d s b m)
| step_GrantPermission d p t u : step m (GrantPermission d p t u m).2
| step_DenyPermission d p t u : step m (DenyPermission d p t u m).2
| step_RevokePermission d p t u : step m (RevokePermission d p t u m).2
| step_CreateAG c : step m (CreateAG c m).2
| step_DropAG a : step m (DropAG a m).2
| step_AddDatabaseToAG a d : step m (AddDatabaseToAG a d m).2
| step_RemoveDatabaseFromAG a d : step m (RemoveDatabaseFromAG a d m).2
| step_AddListenerToAG a l : step m (AddListenerToAG a l m).2
| step_FailoverAG a : step m (FailoverAG a m).2
| step_ForceFailoverAG a : step m (ForceFailoverAG a m).2
| step_SetAGRoleSecondary a : step m (SetAGRoleSecondary a m).2.

(** The store after any sequence of calls on a new client. *)
Definition reachable (m : MockClient) : Prop := rtc step NewMockClient m.

(** The body of an update of an existing entry. *)
Ltac wf_update :=
  match goal with
  | |- wf (match ?o with Some _ => _ | None => _ end).2 => destruct o eqn:?; [|done]; cbn
  | |- wf (match ?o with Some _ => _ | None => _ end) => destruct o eqn:?; [|done]; cbn
  | |- wf (set_databases _ _) => apply wf_set_databases; [done|]
  | |- wf (set_logins _ _) => apply wf_set_logins; [done|]
  | |- wf (set_users _ _) => apply wf_set_users; [done|]
  | |- wf (set_schemas _ _) => apply wf_set_schemas; [done|]
  | |- wf (set_ags _ _) => apply wf_set_ags; [done|]
  | |- map_Forall _ (<[_ := _]> _) => apply map_Forall_insert_2
  | |- map_Forall _ (delete _ _) => apply map_Forall_delete
  | Hm : wf ?m |- map_Forall _ (_ ?m) => by apply Hm
  | Hm : wf ?m, E : _ ?m !! _ = Some _ |- _ => solve [by eapply Hm in E]
  end.

Lemma step_wf m m' : step m m' -> wf m -> wf m'.
Proof.
  destruct 1; intros Hm; try (apply wf_locked; [clear m Hm; intros m Hm; cbn|done]);
    try solve [done | repeat wf_update; done].
  - by apply wf_lockedq.
  - by apply wf_track.
  - by apply wf_track.
  - by apply wf_set_calls.
  - by destruct e; apply wf_set_MethodErrors.
  - by destruct Hm.
  - unfold SetDatabaseCollation. repeat wf_update.
  - repeat wf_update. by repeat constructor.
  - repeat wf_update. eapply Hm in Heqo as [? ?]. by split; [|apply NoDup_add_role].
  - repeat wf_update. eapply Hm in Heqo as [? ?]. by split; [|apply NoDup_remove_role].
  - repeat wf_update. by repeat constructor.
  - repeat wf_update. eapply Hm in Heqo as [? ?]. by split; [|apply NoDup_add_role].
  - repeat wf_update. eapply Hm in Heqo as [? ?]. by split; [|apply NoDup_remove_role].
  - unfold SetUserOwnsObjects. cbn zeta. repeat wf_update.
  - unfold SetSchemaHasObjects. cbn zeta. repeat wf_update.
  - apply wf_append_perm; auto.
  - apply wf_append_perm; auto.
  - by apply wf_removePermLocked.
  - repeat wf_update. cbn. split; [done|apply primary_count_created].
  - by apply wf_alter_ag.
  - by apply wf_alter_ag.
  - by apply wf_alter_ag.
  - apply wf_alter_ag; [apply wf_swap_primary | done].
  - apply wf_alter_ag; [apply wf_swap_primary | done].
  - apply wf_alter_ag; [|done]. cbn [ag_Name ag_Replicas]. intros k ag [? _].
    rewrite primary_count_all_demoted. auto with lia.
Qed.

(** C21: after any sequence of calls on a new in-memory client, the maps are
    keyed by the names of their entries, no role occurs twice, and no
    availability group has two primaries. *)
Theorem reachable_wf m : reachable m -> wf m.
Proof.
  unfold reachable. intros Hr. pose proof wf_new as Hw. revert Hw.
  induction Hr; eauto using step_wf.
Qed.
End Reachability.

Lemma reachable_wf_witness :
  wf (FailoverAG "ag" (CreateAG (mkAGConfig "ag"
        [mkAGReplicaConfig "a" "" "" "" "" ""; mkAGReplicaConfig "b" "" "" "" "" ""] [] "" true "") NewMockClient).2).2.
Proof.
  apply (@reachable_wf example_env). unfold reachable.
  eapply rtc_l; [apply step_CreateAG|]. eapply rtc_l; [apply step_FailoverAG|]. apply rtc_refl.
Defined.

End Mock.

(** ** A heap of mocks implements the interface

    A handle is a pointer (its name); the state is the heap. *)
Section Instance_.
Context `{GoEnv}.
Abbreviation Heap := (string -> Mock.MockClient).

Definition deref {A} (f : Mock.MockClient -> A * Mock.MockClient) (p : string) (h : Heap) : A * Heap :=
  let '(x, m) := f (h p) in (x, <[p := m]> h).

#[export] Instance mock_heap : SQLClient string Heap := {
  DatabaseExists n := deref (Mock.DatabaseExists n);
  CreateDatabase n c := deref (Mock.CreateDatabase n c);
  DropDatabase n := deref (Mock.DropDatabase n);
  GetDatabaseOwner n := deref (Mock.GetDatabaseOwner n);
  SetDatabaseOwner n o := deref (Mock.SetDatabaseOwner n o);
  GetDatabaseCollation n := deref (Mock.GetDatabaseCollation n);
  LoginExists n := deref (Mock.LoginExists n);
  CreateLogin n p := deref (Mock.CreateLogin n p);
  DropLogin n := deref (Mock.DropLogin n);
  UpdateLoginPassword n p := deref (Mock.UpdateLoginPassword n p);
  GetLoginDefaultDatabase n := deref (Mock.GetLoginDefaultDatabase n);
  SetLoginDefaultDatabase n d := deref (Mock.SetLoginDefaultDatabase n d);
  GetLoginServerRoles n := deref (Mock.GetLoginServerRoles n);
  AddLoginToServerRole n r := deref (Mock.AddLoginToServerRole n r);
  RemoveLoginFromServerRole n r := deref (Mock.RemoveLoginFromServerRole n r);
  UserExists d u := deref (Mock.UserExists d u);
  CreateUser d u l := deref (Mock.CreateUser d u l);
  DropUser d u := deref (Mock.DropUser d u);
  GetUserDatabaseRoles d u := deref (Mock.GetUserDatabaseRoles d u);
  AddUserToDatabaseRole d u r := deref (Mock.AddUserToDatabaseRole d u r);
  RemoveUserFromDatabaseRole d u r := deref (Mock.RemoveUserFromDatabaseRole d u r);
  UserOwnsObjects d u := deref (Mock.UserOwnsObjects d u);
  SchemaExists d s := deref (Mock.SchemaExists d s);
  CreateSchema d s o := deref (Mock.CreateSchema d s o);
  DropSchema d s := deref (Mock.DropSchema d s);
  GetSchemaOwner d s := deref (Mock.GetSchemaOwner d s);
  SetSchemaOwner d s o := deref (Mock.SetSchemaOwner d s o);
  SchemaHasObjects d s := deref (Mock.SchemaHasObjects d s);
  GetPermissions d u := deref (Mock.GetPermissions d u);
  GrantPermission d p t u := deref (Mock.GrantPermission d p t u);
  DenyPermission d p t u := deref (Mock.DenyPermission d p t u);
  RevokePermission d p t u := deref (Mock.RevokePermission d p t u);
  LoginHasUsers l := deref (Mock.LoginHasUsers l);
  BackupDatabase n dst t c := deref (Mock.BackupDatabase n dst t c);
  RestoreDatabase n s := deref (Mock.RestoreDatabase n s);
  AGExists a := deref (Mock.AGExists a);
  CreateAG c := deref (Mock.CreateAG c);
  GetAGStatus a := deref (Mock.GetAGStatus a);
  AddDatabaseToAG a d := deref (Mock.AddDatabaseToAG a d);
  RemoveDatabaseFromAG a d := deref (Mock.RemoveDatabaseFromAG a d);
  JoinAG a c := deref (Mock.JoinAG a c);
  GrantAGCreateDatabase a := deref (Mock.GrantAGCreateDatabase a);
  AddListenerToAG a l := deref (Mock.AddListenerToAG a l);
  DropAG a := deref (Mock.DropAG a);
  FailoverAG a := deref (Mock.FailoverAG a);
  ForceFailoverAG a := deref (Mock.ForceFailoverAG a);
  GetAGReplicaRole a s := deref (Mock.GetAGReplicaRole a s);
  SetAGRoleSecondary a := deref (Mock.SetAGRoleSecondary a);
  GetLastHardenedLSN a := deref (Mock.GetLastHardenedLSN a);
  CreateHADREndpoint p := deref (Mock.CreateHADREndpoint p);
  HADREndpointExists := deref Mock.HADREndpointExists;
  CreateMasterKey p := deref (Mock.CreateMasterKey p);
  MasterKeyExists := deref Mock.MasterKeyExists;
  CreateCertificate n s e := deref (Mock.CreateCertificate n s e);
  CertificateExists n := deref (Mock.CertificateExists n);
  BackupCertificate n c k p := deref (Mock.BackupCertificate n c k p);
  CreateCertificateFromBackup n c k p := deref (Mock.CreateCertificateFromBackup n c k p);
  GetCertificateBinary n := deref (Mock.GetCertificateBinary n);
  CreateCertificateFromBinary n b := deref (Mock.CreateCertificateFromBinary n b);
  CreateLoginFromCertificate l c := deref (Mock.CreateLoginFromCertificate l c);
  GrantEndpointConnect e l := deref (Mock.GrantEndpointConnect e l);
  CreateHADREndpointWithCert p c := deref (Mock.CreateHADREndpointWithCert p c);
  GetServerVersion := deref Mock.GetServerVersion;
  GetServerEdition := deref Mock.GetServerEdition;
  GetDatabaseRecoveryModel n := deref (Mock.GetDatabaseRecoveryModel n);
  SetDatabaseRecoveryModel n m := deref (Mock.SetDatabaseRecoveryModel n m);
  GetDatabaseCompatibilityLevel n := deref (Mock.GetDatabaseCompatibilityLevel n);
  SetDatabaseCompatibilityLevel n l := deref (Mock.SetDatabaseCompatibilityLevel n l);
  GetDatabaseOption n o := deref (Mock.GetDatabaseOption n o);
  SetDatabaseOption n o b := deref (Mock.SetDatabaseOption n o b);
  RestoreDatabasePIT n f l s := deref (Mock.RestoreDatabasePIT n f l s);
  RestoreDatabaseWithMove n s w := deref (Mock.RestoreDatabaseWithMove n s w);
  Close := deref Mock.Close;
  Ping := deref Mock.Ping
}.

(** *** The view of a mock *)
Definition view_db (db : Mock.MockDatabase) : DbView :=
  mkDbView (Mock.db_Owner db) (Mock.db_Collation db)
    (if String.eqb (Mock.db_RecoveryModel db) "" then "FULL" else Mock.db_RecoveryModel db)
    (if Mock.db_CompatibilityLevel db =? 0 then 160 else Mock.db_CompatibilityLevel db)
    (dom (filter (fun kv => kv.2 = true) (Mock.db_Options db))).
Definition view_login (l : Mock.MockLogin) : LoginView :=
  mkLoginView (Mock.l_Password l) (Mock.l_DefaultDatabase l) (list_to_set (Mock.l_ServerRoles l)).
Definition view_user (u : Mock.MockUser) : UserView :=
  mkUserView (Mock.u_LoginName u) (list_to_set (Mock.u_Roles u)) (Mock.u_OwnsObjects u).
Definition view_schema (s : Mock.MockSchema) : SchemaView :=
  mkSchemaView (Mock.s_Owner s) (Mock.s_HasObjects s).

Lemma view_options_lookup o (opts : gmap string bool) :
  bool_decide (o ∈ (dom (filter (fun kv => kv.2 = true) opts) : gset string)) = default false (opts !! o).
Proof.
  case_bool_decide as Ho.
  - apply elem_of_dom in Ho as [b Hb]. apply map_lookup_filter_Some in Hb as [-> Hb]. done.
  - destruct (opts !! o) as [[]|] eqn:E; [|done..]. destruct Ho.
    apply elem_of_dom. exists true. by apply map_lookup_filter_Some.
Qed.

Lemma view_options_insert o b (opts : gmap string bool) :
  (dom (filter (fun kv => kv.2 = true) (<[o := b]> opts)) : gset string) =
  set_option o b (dom (filter (fun kv => kv.2 = true) opts)).
Proof.
  apply set_eq. intros x.
  rewrite elem_of_dom. unfold is_Some. setoid_rewrite map_lookup_filter_Some.
  destruct (decide (x = o)) as [->|Hne].
  - setoid_rewrite lookup_insert_eq. destruct b; cbn; set_solver.
  - setoid_rewrite lookup_insert_ne; [|done]. 
    assert (Hx : x ∈ (dom (filter (fun kv => kv.2 = true) opts) : gset string) <->
                 exists y, opts !! x = Some y /\ y = true).
    { rewrite elem_of_dom. unfold is_Some. by setoid_rewrite map_lookup_filter_Some. }
    destruct b; cbn; rewrite ?elem_of_union, ?elem_of_difference, ?elem_of_singleton, Hx; naive_solver.
Qed.

Lemma view_add_role r (l : list string) :
  (list_to_set (Mock.add_role r l) : gset string) = {[r]} ∪ list_to_set l.
Proof.
  unfold Mock.add_role. case_bool_decide; [set_solver|]. rewrite list_to_set_app_L. set_solver.
Qed.
Lemma view_remove_role r (l : list string) :
  (list_to_set (Mock.remove_role r l) : gset string) = list_to_set l ∖ {[r]}.
Proof.
  unfold Mock.remove_role. apply set_eq. intros x.
  rewrite elem_of_difference, !elem_of_list_to_set, list_elem_of_filter, elem_of_singleton. tauto.
Qed.

(** A successful call got past the prologue. *)
Lemma locked_ok n inj body m m' :
  Mock.locked n inj body m = (None, m') -> body (Mock.track n m) = (None, m').
Proof.
  unfold Mock.locked. destruct (Mock.checkConnect _); [done|].
  by destruct (if inj then _ else _).
Qed.
Lemma lockedq_ok {T} n inj (z : T) body m x m' :
  Mock.lockedq n inj z body m = ((x, None), m') -> body (Mock.track n m) = ((x, None), m').
Proof.
  unfold Mock.lockedq. destruct (Mock.checkConnect _); [done|].
  by destruct (if inj then _ else _).
Qed.
Lemma deref_inv {A} (f : Mock.MockClient -> A * Mock.MockClient) p h x h' :
  deref f p h = (x, h') -> exists m', f (h p) = (x, m') /\ h' = <[p := m']> h.
Proof. unfold deref. destruct (f (h p)) as [y m']. intros [= -> <-]. by exists m'. Qed.

(** Run a law of [SQLClientLaws] on the heap: invert the call, read the entry
    it touched, compute. *)
Ltac mock_law :=
  intros;
  match goal with
  | |- query_spec _ _ _ =>
      intros c d x d' Hc; apply deref_inv in Hc as (m' & Hc & ->); apply lockedq_ok in Hc; cbn in Hc
  | |- op_spec _ _ =>
      intros c d d' Hc; apply deref_inv in Hc as (m' & Hc & ->); apply locked_ok in Hc; cbn in Hc
  end;
  repeat match goal with
  | H : context [match ?o with Some _ => _ | None => _ end] |- _ => destruct o eqn:?
  | H : (if ?b then (_, _) else _) = _ |- _ => destruct b eqn:?
  end; simplify_eq; rewrite ?fn_lookup_insert; cbn;
  rewrite ?lookup_insert_eq, ?lookup_delete_eq; cbn;
  repeat match goal with E : _ !! _ = _ |- _ => rewrite E; clear E end; cbn.

#[export] Instance mock_heap_laws : SQLClientLaws string Heap.
Proof.
  refine (Build_SQLClientLaws string Heap mock_heap
    (fun p h n => view_db <$> (Mock.databases (h p) !! n))
    (fun p h n => view_login <$> (Mock.logins (h p) !! n))
    (fun p h d u => view_user <$> (Mock.users (h p) !! Mock.userKey d u))
    (fun p h d s => view_schema <$> (Mock.schemas (h p) !! Mock.schemaKey d s))
    (fun p h d u => default [] (Mock.permissions (h p) !! Mock.permKey d u))
    (fun m => m)
    _ _ _ _ _ _ _ _ _ _ _ _ _ _ _ _ _ _ _ _ _ _ _ _ _ _ _ _ _ _ _ _ _ _ _ _ _ _).
  all: mock_law.
  all: try solve [eexists; split; reflexivity].
  all: lazymatch goal with
       | |- (exists _, _) => idtac
       | |- _ => split; [|try reflexivity]
       end.
  all: try (apply bool_decide_ext; by rewrite fmap_is_Some).
  all: try (eexists; split; [reflexivity|]; cbn; try reflexivity).
  all: unfold view_db, view_login, view_user, view_schema; cbn;
       rewrite ?view_options_insert, ?view_options_lookup, ?view_add_role, ?view_remove_role;
       try reflexivity.
  all: try match goal with E : _ = true |- _ => by rewrite E | E : _ = false |- _ => by rewrite E end.
  - do 2 eexists. split_and!; [reflexivity..|]. intros Hne. by rewrite (proj2 (String.eqb_neq _ _)).
  - do 2 eexists. split_and!; [reflexivity..|]. intros Hne. by rewrite (proj2 (Z.eqb_neq _ _)).
Defined.
End Instance_.
