(* ===== verification/MssqlClient.v ===== *)
(** * The SQL Server client (internal/sql/client.go)

    [MSSQLClient] is a pool handle of database/sql; the driver behind it
    (database/sql with go-mssqldb, third party) is the class [SqlDriver]. Each
    method is the source's: it builds the statement text, sends it on the pool
    or on a dedicated connection after [USE], and wraps the error. The second
    half states what every method that executes a statement sends: the template
    [expected], with the arguments inside single T-SQL identifier or string
    tokens. *)
From S2P Require Import Prelude SqlClient QuoteName.

(** ** The driver *)
(** What a column is scanned into. *)
Inductive scan := SBool | SString | SInt | SInt64 | SBytes | SNullString | SNullInt64.
Definition scan_type (t : scan) : Type :=
  match t with
  | SBool => bool
  | SString => string
  | SInt | SInt64 => Z
  | SBytes => list Byte.byte
  | SNullString => option string
  | SNullInt64 => option Z
  end.
Fixpoint row_type (ts : list scan) : Type :=
  match ts with [] => unit | t :: ts' => (scan_type t * row_type ts')%type end.

(** [QueryRow] is [QueryRowContext(...).Scan(...)]; [QueryRows] gives what each
    [rows.Next]/[rows.Scan] pair yields and the final [rows.Err()]. A handle is
    the pool or one connection of it. [order_of] is the order in which [range]
    visits a map when the client's state is [d]. *)
Class SqlDriver (DB SqlConn D : Type) := {
  Open : string -> D -> (DB + error) * D;
  db_Close : DB -> D -> option error * D;
  db_Ping : DB -> D -> option error * D;
  db_Conn : DB -> D -> (SqlConn + error) * D;
  conn_Close : SqlConn -> D -> option error * D;
  ExecContext : DB + SqlConn -> string -> D -> option error * D;
  QueryRow : forall ts, DB + SqlConn -> string -> list string -> D -> (row_type ts + error) * D;
  QueryRows : forall ts, DB + SqlConn -> string -> list string -> D ->
    (list (row_type ts + error) * option error + error) * D;
  order_of : D -> list string -> list string;
  (* net/url: the connection string of a user and password, a host:port and a query *)
  url_String : option (string * string) -> string -> gmap string string -> string;
  hex : list Byte.byte -> string
}.

Module Mssql.
Section Client.
Context `{GoEnv} {DB SqlConn D : Type} `{SqlDriver DB SqlConn D}.
Implicit Types c : DB.

Definition buildConnectionString (host : string) (port : Z) (username password : string)
    (tlsEnabled : bool) : string :=
  let query := ∅ : gmap string string in
  let query := <["database" := "master"]> query in
  let query := <["app name" := "mssql-k8s-operator"]> query in
  let encrypt := if tlsEnabled then "true" else "disable" in
  let query := <["encrypt" := encrypt]> query in
  url_String (Some (username, password)) (Sprintf "%s:%d" [host; fmt_d port]) query.

Definition NewClientFactory : ClientFactory DB D :=
  fun host port username password tlsEnabled d =>
    let connStr := buildConnectionString host port username password tlsEnabled in
    let '(r, d') := Open connStr d in
    match r with
    | inr err => (inr (ErrWrap "failed to open SQL connection" err), d')
    | inl db => (inl db, d')
    end.

(** internal/sql/azuread.go: token authentication, as a service principal or
    with a managed identity. *)
Definition NewAzureADClientFactory : AzureADClientFactory DB D :=
  fun host port clientID tenantID clientSecret tlsEnabled d =>
    let query := ∅ : gmap string string in
    let query := <["database" := "master"]> query in
    let query := <["app name" := "mssql-k8s-operator"]> query in
    let query := <["fedauth" := "ActiveDirectoryServicePrincipal"]> query in
    let encrypt := if tlsEnabled then "true" else "disable" in
    let query := <["encrypt" := encrypt]> query in
    let u := url_String (Some (clientID +:+ "@" +:+ tenantID, clientSecret))
               (Sprintf "%s:%d" [host; fmt_d port]) query in
    let '(r, d') := Open u d in
    match r with
    | inr err => (inr (ErrWrap "failed to open Azure AD SQL connection" err), d')
    | inl db => (inl db, d')
    end.
Definition NewManagedIdentityClientFactory : ManagedIdentityClientFactory DB D :=
  fun host port clientID tlsEnabled d =>
    let query := ∅ : gmap string string in
    let query := <["database" := "master"]> query in
    let query := <["app name" := "mssql-k8s-operator"]> query in
    let query := <["fedauth" := "ActiveDirectoryManagedIdentity"]> query in
    let query := if negb (String.eqb clientID "") then <["user id" := clientID]> query else query in
    let encrypt := if tlsEnabled then "true" else "disable" in
    let query := <["encrypt" := encrypt]> query in
    let u := url_String None (Sprintf "%s:%d" [host; fmt_d port]) query in
    let '(r, d') := Open u d in
    match r with
    | inr err => (inr (ErrWrap "failed to open Managed Identity SQL connection" err), d')
    | inl db => (inl db, d')
    end.

Definition Close : Op DB D := db_Close.
Definition Ping : Op DB D := db_Ping.

(** [_, err := c.db.ExecContext(ctx, query); if err != nil { return
    fmt.Errorf(msg: %w) }; return nil] *)
Definition exec (msg query : string) : Op DB D :=
  fun c d => let '(err, d') := ExecContext (inl c) query d in (ErrWrap msg <$> err, d').

(** [err := c.db.QueryRowContext(ctx, query, args...).Scan(&x)] with the error
    wrapped, and returned as it is. *)
Definition scan_one {t} (zero : scan_type t) (msg query : string) (args : list string)
    : Query DB D (scan_type t) :=
  fun c d => let '(r, d') := QueryRow [t] (inl c) query args d in
    match r with
    | inr err => ((zero, Some (ErrWrap msg err)), d')
    | inl (x, _) => ((x, None), d')
    end.
Definition scan_exists (h : DB + SqlConn) (query : string) (args : list string)
    (d : D) : (bool * option error) * D :=
  let '(r, d') := QueryRow [SBool] h query args d in
  match r with
  | inr err => ((false, Some err), d')
  | inl (x, _) => ((x, None), d')
  end.

(** [for rows.Next() { rows.Scan(...) ...; xs = append(xs, f(row)) }], stopping
    at the first scan error with what was read. *)
Fixpoint scan_rows {R T} (f : R -> T) (rows : list (R + error)) : list T * option error :=
  match rows with
  | [] => ([], None)
  | inr err :: _ => ([], Some err)
  | inl r :: rows' => let '(xs, err) := scan_rows f rows' in (f r :: xs, err)
  end.

(** *** Helpers *)
(** [fn] writes the variables it captures; on an early error they keep their
    zero value. *)
Definition queryInDatabase {T} (dbName : string) (zero : T)
    (fn : SqlConn -> D -> (T * option error) * D) : Query DB D T :=
  fun c d =>
    let '(r, d) := db_Conn c d in
    match r with
    | inr err => ((zero, Some (ErrWrap "failed to get connection" err)), d)
    | inl conn =>
        let '(err, d) := ExecContext (inr conn) (Sprintf "USE %s" [QuoteName dbName]) d in
        let '(res, d) :=
          match err with
          | Some err => ((zero, Some (ErrWrap (Sprintf "failed to switch to database %s" [dbName]) err)), d)
          | None => fn conn d
          end in
        (res, (conn_Close conn d).2)
    end.

Definition execInDatabase (dbName query : string) : Op DB D :=
  fun c d =>
    let '(r, d) := db_Conn c d in
    match r with
    | inr err => (Some (ErrWrap "failed to get connection" err), d)
    | inl conn =>
        let '(err, d) := ExecContext (inr conn) (Sprintf "USE %s" [QuoteName dbName]) d in
        let '(res, d) :=
          match err with
          | Some err => (Some (ErrWrap (Sprintf "failed to switch to database %s" [dbName]) err), d)
          | None =>
              let '(err, d) := ExecContext (inr conn) query d in
              (ErrWrap (Sprintf "failed to execute in database %s" [dbName]) <$> err, d)
          end in
        (res, (conn_Close conn d).2)
    end.

(** *** Database operations *)
Definition DatabaseExists (name : string) : Query DB D bool :=
  fun c => scan_exists (inl c) "SELECT CASE WHEN DB_ID(@p1) IS NOT NULL THEN 1 ELSE 0 END" [name].

Definition CreateDatabase (name : string) (collation : option string) : Op DB D :=
  let query := Sprintf "CREATE DATABASE %s" [QuoteName name] in
  let query :=
    match collation with
    | Some col => if String.eqb col "" then query
                  else query +:+ Sprintf " COLLATE %s" [QuoteName col]
    | None => query
    end in
  exec (Sprintf "failed to create database %s" [name]) query.

Definition DropDatabase (name : string) : Op DB D :=
  let query := Sprintf "DROP DATABASE IF EXISTS %s" [QuoteName name] in
  exec (Sprintf "failed to drop database %s" [name]) query.

Definition GetDatabaseOwner (name : string) : Query DB D string :=
  scan_one (t := SString) "" (Sprintf "failed to get owner for database %s" [name])
    "SELECT SUSER_SNAME(owner_sid) FROM sys.databases WHERE name = @p1" [name].

Definition SetDatabaseOwner (dbName owner : string) : Op DB D :=
  let query := Sprintf "ALTER AUTHORIZATION ON DATABASE::%s TO %s" [QuoteName dbName; QuoteName owner] in
  exec (Sprintf "failed to set owner %s on database %s" [owner; dbName]) query.

Definition GetDatabaseCollation (name : string) : Query DB D string :=
  scan_one (t := SString) "" (Sprintf "failed to get collation for database %s" [name])
    "SELECT collation_name FROM sys.databases WHERE name = @p1" [name].

(** *** Login operations *)
Definition LoginExists (name : string) : Query DB D bool :=
  fun c => scan_exists (inl c) "SELECT CASE WHEN SUSER_ID(@p1) IS NOT NULL THEN 1 ELSE 0 END" [name].

Definition CreateLogin (name password : string) : Op DB D :=
  let query := Sprintf "CREATE LOGIN %s WITH PASSWORD = %s" [QuoteName name; QuoteString password] in
  exec (Sprintf "failed to create login %s" [name]) query.

Definition DropLogin (name : string) : Op DB D :=
  let query := Sprintf "DROP LOGIN %s" [QuoteName name] in
  exec (Sprintf "failed to drop login %s" [name]) query.

Definition UpdateLoginPassword (name password : string) : Op DB D :=
  let query := Sprintf "ALTER LOGIN %s WITH PASSWORD = %s" [QuoteName name; QuoteString password] in
  exec (Sprintf "failed to update password for login %s" [name]) query.

Definition GetLoginDefaultDatabase (name : string) : Query DB D string :=
  scan_one (t := SString) "" (Sprintf "failed to get default database for login %s" [name])
    "SELECT default_database_name FROM sys.server_principals WHERE name = @p1" [name].

Definition SetLoginDefaultDatabase (name dbName : string) : Op DB D :=
  let query := Sprintf "ALTER LOGIN %s WITH DEFAULT_DATABASE = %s" [QuoteName name; QuoteName dbName] in
  exec (Sprintf "failed to set default database for login %s" [name]) query.

Definition GetLoginServerRoles (name : string) : Query DB D (list string) :=
  fun c d =>
    let '(r, d) := QueryRows [SString] (inl c)
      "SELECT r.name FROM sys.server_role_members m
		 JOIN sys.server_principals r ON m.role_principal_id = r.principal_id
		 JOIN sys.server_principals p ON m.member_principal_id = p.principal_id
		 WHERE p.name = @p1" [name] d in
    match r with
    | inr err => (([], Some (ErrWrap (Sprintf "failed to get server roles for login %s" [name]) err)), d)
    | inl (rows, rows_Err) =>
        match scan_rows (R := row_type [SString]) fst rows with
        | (_, Some err) => (([], Some err), d)
        | (roles, None) => ((roles, rows_Err), d)
        end
    end.

Definition AddLoginToServerRole (login role : string) : Op DB D :=
  let query := Sprintf "ALTER SERVER ROLE %s ADD MEMBER %s" [QuoteName role; QuoteName login] in
  exec (Sprintf "failed to add login %s to server role %s" [login; role]) query.

Definition RemoveLoginFromServerRole (login role : string) : Op DB D :=
  let query := Sprintf "ALTER SERVER ROLE %s DROP MEMBER %s" [QuoteName role; QuoteName login] in
  exec (Sprintf "failed to remove login %s from server role %s" [login; role]) query.

(** *** DatabaseUser operations *)
Definition UserExists (dbName userName : string) : Query DB D bool :=
  let query := "SELECT CASE WHEN DATABASE_PRINCIPAL_ID(@p1) IS NOT NULL THEN 1 ELSE 0 END" in
  queryInDatabase dbName false (fun conn => scan_exists (inr conn) query [userName]).

Definition CreateUser (dbName userName loginName : string) : Op DB D :=
  let query := Sprintf "CREATE USER %s FOR LOGIN %s" [QuoteName userName; QuoteName loginName] in
  execInDatabase dbName query.

Definition DropUser (dbName userName : string) : Op DB D :=
  let query := Sprintf "DROP USER IF EXISTS %s" [QuoteName userName] in
  execInDatabase dbName query.

Definition GetUserDatabaseRoles (dbName userName : string) : Query DB D (list string) :=
  queryInDatabase dbName [] (fun conn d =>
    let '(r, d) := QueryRows [SString] (inr conn)
      "SELECT r.name FROM sys.database_role_members m
			 JOIN sys.database_principals r ON m.role_principal_id = r.principal_id
			 JOIN sys.database_principals u ON m.member_principal_id = u.principal_id
			 WHERE u.name = @p1" [userName] d in
    match r with
    | inr err => (([], Some err), d)
    | inl (rows, rows_Err) =>
        match scan_rows (R := row_type [SString]) fst rows with
        | (roles, Some err) => ((roles, Some err), d)
        | (roles, None) => ((roles, rows_Err), d)
        end
    end).

Definition AddUserToDatabaseRole (dbName userName role : string) : Op DB D :=
  let query := Sprintf "ALTER ROLE %s ADD MEMBER %s" [QuoteName role; QuoteName userName] in
  execInDatabase dbName query.

Definition RemoveUserFromDatabaseRole (dbName userName role : string) : Op DB D :=
  let query := Sprintf "ALTER ROLE %s DROP MEMBER %s" [QuoteName role; QuoteName userName] in
  execInDatabase dbName query.

(** [count] stays 0 when the scan fails. *)
Definition scan_count (conn : SqlConn) (query : string) (args : list string) (d : D)
    : (Z * option error) * D :=
  let '(r, d) := QueryRow [SInt] (inr conn) query args d in
  match r with
  | inr err => ((0, Some err), d)
  | inl (count, _) => ((count, None), d)
  end.

Definition UserOwnsObjects (dbName userName : string) : Query DB D bool :=
  fun c d =>
    let '((count, err), d) := queryInDatabase dbName 0 (fun conn => scan_count conn
      "SELECT (
				SELECT COUNT(*) FROM sys.objects WHERE principal_id = DATABASE_PRINCIPAL_ID(@p1)
			) + (
				SELECT COUNT(*) FROM sys.schemas
				WHERE principal_id = DATABASE_PRINCIPAL_ID(@p1)
				AND name NOT IN ('dbo', 'guest', 'INFORMATION_SCHEMA', 'sys')
			)" [userName]) c d in
    ((0 <? count, err), d).

(** *** Cross-reference checks *)
Fixpoint any_database_has_user (loginName : string) (dbNames : list string) c (d : D) : bool * D :=
  match dbNames with
  | [] => (false, d)
  | dbName :: rest =>
      let '((count, err), d) := queryInDatabase dbName 0 (fun conn => scan_count conn
        "SELECT COUNT(*) FROM sys.database_principals
				 WHERE type = 'S' AND sid = SUSER_SID(@p1)" [loginName]) c d in
      match err with
      | Some _ => any_database_has_user loginName rest c d  (* databases we can't access *)
      | None => if 0 <? count then (true, d) else any_database_has_user loginName rest c d
      end
  end.

Definition LoginHasUsers (loginName : string) : Query DB D bool :=
  fun c d =>
    let '(r, d) := QueryRows [SString] (inl c)
      "SELECT name FROM sys.databases WHERE database_id > 4 AND state_desc = 'ONLINE'" [] d in
    match r with
    | inr err => ((false, Some (ErrWrap "failed to list databases" err)), d)
    | inl (rows, rows_Err) =>
        match scan_rows (R := row_type [SString]) fst rows with
        | (_, Some err) => ((false, Some err), d)
        | (dbNames, None) =>
            match rows_Err with
            | Some err => ((false, Some err), d)
            | None =>
                let '(b, d) := any_database_has_user loginName dbNames c d in ((b, None), d)
            end
        end
    end.

(** *** Schema operations *)
Definition SchemaExists (dbName schemaName : string) : Query DB D bool :=
  queryInDatabase dbName false (fun conn => scan_exists (inr conn)
    "SELECT CASE WHEN SCHEMA_ID(@p1) IS NOT NULL THEN 1 ELSE 0 END" [schemaName]).

Definition CreateSchema (dbName schemaName : string) (owner : option string) : Op DB D :=
  let query := Sprintf "CREATE SCHEMA %s" [QuoteName schemaName] in
  let query :=
    match owner with
    | Some o => if String.eqb o "" then query
                else query +:+ Sprintf " AUTHORIZATION %s" [QuoteName o]
    | None => query
    end in
  execInDatabase dbName query.

Definition DropSchema (dbName schemaName : string) : Op DB D :=
  let query := Sprintf "DROP SCHEMA %s" [QuoteName schemaName] in
  execInDatabase dbName query.

Definition GetSchemaOwner (dbName schemaName : string) : Query DB D string :=
  fun c d =>
    let '((owner, err), d) := queryInDatabase dbName "" (fun conn d =>
        let '(r, d) := QueryRow [SString] (inr conn)
          "SELECT dp.name FROM sys.schemas s
			 JOIN sys.database_principals dp ON s.principal_id = dp.principal_id
			 WHERE s.name = @p1" [schemaName] d in
        match r with
        | inr err => (("", Some err), d)
        | inl (o, _) => ((o, None), d)
        end) c d in
    match err with
    | Some err => (("", Some (ErrWrap (Sprintf "failed to get owner for schema %s" [schemaName]) err)), d)
    | None => ((owner, None), d)
    end.

Definition SetSchemaOwner (dbName schemaName owner : string) : Op DB D :=
  let query := Sprintf "ALTER AUTHORIZATION ON SCHEMA::%s TO %s" [QuoteName schemaName; QuoteName owner] in
  execInDatabase dbName query.

Definition SchemaHasObjects (dbName schemaName : string) : Query DB D bool :=
  fun c d =>
    let '((count, err), d) := queryInDatabase dbName 0 (fun conn => scan_count conn
      "SELECT COUNT(*) FROM sys.objects WHERE schema_id = SCHEMA_ID(@p1)" [schemaName]) c d in
    match err with
    | Some err => ((false, Some (ErrWrap (Sprintf "failed to check objects in schema %s" [schemaName]) err)), d)
    | None => ((0 <? count, None), d)
    end.

(** *** Permission operations *)
Definition formatTarget (classDesc targetName : string) : string :=
  if String.eqb classDesc "SCHEMA" then "SCHEMA::" +:+ targetName
  else if String.eqb classDesc "OBJECT_OR_COLUMN" then "OBJECT::" +:+ targetName
  else if String.eqb classDesc "DATABASE" then "DATABASE"
  else classDesc +:+ "::" +:+ targetName.

Definition permission_row (r : row_type [SString; SString; SNullString; SString]) : PermissionState :=
  let '(perm, (classDesc, (targetName, (state, _)))) := r in
  mkPermissionState perm (formatTarget classDesc (default "" targetName)) state.

Definition GetPermissions (dbName userName : string) : Query DB D (list PermissionState) :=
  fun c d =>
    let '((perms, err), d) := queryInDatabase dbName [] (fun conn d =>
        let '(r, d) := QueryRows [SString; SString; SNullString; SString] (inr conn)
          "SELECT dp.permission_name, dp.class_desc,
			        ISNULL(SCHEMA_NAME(dp.major_id), OBJECT_NAME(dp.major_id)),
			        dp.state_desc
			 FROM sys.database_permissions dp
			 JOIN sys.database_principals pr ON dp.grantee_principal_id = pr.principal_id
			 WHERE pr.name = @p1 AND dp.state_desc IN ('GRANT', 'DENY')
			 AND dp.permission_name != 'CONNECT'" [userName] d in
        match r with
        | inr err => (([], Some err), d)
        | inl (rows, rows_Err) =>
            match scan_rows permission_row rows with
            | (perms, Some err) => ((perms, Some err), d)
            | (perms, None) => ((perms, rows_Err), d)
            end
        end) c d in
    match err with
    | Some err => (([], Some (ErrWrap (Sprintf "failed to get permissions for user %s" [userName]) err)), d)
    | None => ((perms, None), d)
    end.

Definition GrantPermission (dbName permission target userName : string) : Op DB D :=
  fun c d =>
    if negb (IsValidPermission permission) then
      (Some (ErrString (Sprintf "invalid permission: %s" [permission])), d)
    else
      let query := Sprintf "GRANT %s ON %s TO %s"
        [ToUpper permission; QuotePermissionTarget target; QuoteName userName] in
      execInDatabase dbName query c d.

Definition DenyPermission (dbName permission target userName : string) : Op DB D :=
  fun c d =>
    if negb (IsValidPermission permission) then
      (Some (ErrString (Sprintf "invalid permission: %s" [permission])), d)
    else
      let query := Sprintf "DENY %s ON %s TO %s"
        [ToUpper permission; QuotePermissionTarget target; QuoteName userName] in
      execInDatabase dbName query c d.

Definition RevokePermission (dbName permission target userName : string) : Op DB D :=
  fun c d =>
    if negb (IsValidPermission permission) then
      (Some (ErrString (Sprintf "invalid permission: %s" [permission])), d)
    else
      let query := Sprintf "REVOKE %s ON %s FROM %s"
        [ToUpper permission; QuotePermissionTarget target; QuoteName userName] in
      execInDatabase dbName query c d.

(** *** Availability Group operations *)
Definition AGExists (agName : string) : Query DB D bool :=
  fun c => scan_exists (inl c)
    "SELECT CASE WHEN EXISTS (SELECT 1 FROM sys.availability_groups WHERE name = @p1) THEN 1 ELSE 0 END"
    [agName].

Definition AddDatabaseToAG (agName dbName : string) : Op DB D :=
  let query := Sprintf "ALTER AVAILABILITY GROUP %s ADD DATABASE %s" [QuoteName agName; QuoteName dbName] in
  exec (Sprintf "failed to add database %s to AG %s" [dbName; agName]) query.

(** A line feed ([\n] in the source's literals). *)
Definition nl : string := String newline "".

Definition replica_clause (replica : AGReplicaConfig) : string :=
  Sprintf "    N'%s' WITH (" [ReplaceAll (arc_ServerName replica) "'" "''"] +:+ nl +:+
  Sprintf "        ENDPOINT_URL = N'%s'," [ReplaceAll (arc_EndpointURL replica) "'" "''"] +:+ nl +:+
  Sprintf "        AVAILABILITY_MODE = %s," [arc_AvailabilityMode replica] +:+ nl +:+
  Sprintf "        FAILOVER_MODE = %s," [arc_FailoverMode replica] +:+ nl +:+
  Sprintf "        SEEDING_MODE = %s," [arc_SeedingMode replica] +:+ nl +:+
  Sprintf "        SECONDARY_ROLE (ALLOW_CONNECTIONS = %s)" [arc_SecondaryRole replica] +:+ nl +:+
  "    )".

(** The loop over the replicas: ["," + "\n"] before every one but the first. *)
Fixpoint replica_clauses (first : bool) (replicas : list AGReplicaConfig) : string :=
  match replicas with
  | [] => ""
  | replica :: rest =>
      (if first then "" else "," +:+ nl) +:+ replica_clause replica +:+ replica_clauses false rest
  end.

Definition CreateAG_query (config : AGConfig) : string :=
  let clusterType :=
    if String.eqb (agc_ClusterType config) "" then "EXTERNAL" else agc_ClusterType config in
  Sprintf "CREATE AVAILABILITY GROUP %s" [QuoteName (agc_Name config)] +:+ nl +:+
  "WITH (" +:+ nl +:+ Sprintf "    CLUSTER_TYPE = %s," [clusterType] +:+ nl +:+
  Sprintf "    AUTOMATED_BACKUP_PREFERENCE = %s," [agc_AutomatedBackupPreference config] +:+ nl +:+
  (if agc_DBFailover config then "    DB_FAILOVER = ON" else "    DB_FAILOVER = OFF") +:+ nl +:+
  ")" +:+ nl +:+
  "FOR REPLICA ON" +:+ nl +:+
  replica_clauses true (agc_Replicas config) +:+ ";".

Fixpoint add_databases (agName : string) (dbs : list string) : Op DB D :=
  fun c d =>
    match dbs with
    | [] => (None, d)
    | db :: rest =>
        let '(err, d) := AddDatabaseToAG agName db c d in
        match err with
        | Some err => (Some (ErrWrap (Sprintf "failed to add database %s to AG" [db]) err), d)
        | None => add_databases agName rest c d
        end
    end.

Definition CreateAG (config : AGConfig) : Op DB D :=
  fun c d =>
    let '(err, d) := ExecContext (inl c) (CreateAG_query config) d in
    match err with
    | Some err =>
        (Some (ErrWrap (Sprintf "failed to create availability group %s" [agc_Name config]) err), d)
    | None => add_databases (agc_Name config) (agc_Databases config) c d
    end.

Definition replica_row (r : row_type [SString; SString; SString; SString]) : AGReplicaState :=
  let '(name, (role, (sync, (connState, _)))) := r in
  mkAGReplicaState name role sync (String.eqb connState "CONNECTED").
Definition database_row (r : row_type [SString; SString; SInt]) : AGDatabaseState :=
  let '(name, (sync, (isLocal, _))) := r in mkAGDatabaseState name sync (isLocal =? 1).

(** The nil status returned with an error. *)
Definition nil_status : AGStatus := mkAGStatus "" "" [] [].

Definition GetAGStatus (agName : string) : Query DB D AGStatus :=
  fun c d =>
    let '(r, d) := QueryRow [SString] (inl c)
      "SELECT ags.primary_replica
		 FROM sys.dm_hadr_availability_group_states ags
		 JOIN sys.availability_groups ag ON ags.group_id = ag.group_id
		 WHERE ag.name = @p1" [agName] d in
    match r with
    | inr err => ((nil_status, Some (ErrWrap (Sprintf "failed to get AG state for %s" [agName]) err)), d)
    | inl (primary, _) =>
    let '(r, d) := QueryRows [SString; SString; SString; SString] (inl c)
      "SELECT ar.replica_server_name,
		        ISNULL(ars.role_desc, 'RESOLVING'),
		        ISNULL(ars.synchronization_health_desc, 'NOT_HEALTHY'),
		        ISNULL(ars.connected_state_desc, 'DISCONNECTED')
		 FROM sys.availability_replicas ar
		 JOIN sys.availability_groups ag ON ar.group_id = ag.group_id
		 LEFT JOIN sys.dm_hadr_availability_replica_states ars ON ar.replica_id = ars.replica_id
		 WHERE ag.name = @p1" [agName] d in
    match r with
    | inr err => ((nil_status, Some (ErrWrap (Sprintf "failed to get replica states for AG %s" [agName]) err)), d)
    | inl (rows, rows_Err) =>
    match scan_rows replica_row rows, rows_Err with
    | (_, Some err), _ | (_, None), Some err => ((nil_status, Some err), d)
    | (replicas, None), None =>
    let '(r, d) := QueryRows [SString; SString; SInt] (inl c)
      "SELECT d.name,
		        ISNULL(drs.synchronization_state_desc, 'NOT_SYNCHRONIZING'),
		        CASE WHEN drs.is_local = 1 THEN 1 ELSE 0 END
		 FROM sys.availability_databases_cluster adc
		 JOIN sys.availability_groups ag ON adc.group_id = ag.group_id
		 JOIN sys.databases d ON adc.database_name = d.name
		 LEFT JOIN sys.dm_hadr_database_replica_states drs ON adc.group_database_id = drs.group_database_id AND drs.is_local = 1
		 WHERE ag.name = @p1" [agName] d in
    match r with
    | inr err => ((nil_status, Some (ErrWrap (Sprintf "failed to get database states for AG %s" [agName]) err)), d)
    | inl (dbRows, dbRows_Err) =>
    match scan_rows database_row dbRows with
    | (_, Some err) => ((nil_status, Some err), d)
    | (databases, None) => ((mkAGStatus agName primary replicas databases, dbRows_Err), d)
    end end end end end.

Definition RemoveDatabaseFromAG (agName dbName : string) : Op DB D :=
  let query := Sprintf "ALTER AVAILABILITY GROUP %s REMOVE DATABASE %s" [QuoteName agName; QuoteName dbName] in
  exec (Sprintf "failed to remove database %s from AG %s" [dbName; agName]) query.

Definition JoinAG (agName clusterType : string) : Op DB D :=
  let query := Sprintf "ALTER AVAILABILITY GROUP %s JOIN" [QuoteName agName] in
  let query := if String.eqb clusterType "NONE" then query +:+ " WITH (CLUSTER_TYPE = NONE)" else query in
  exec (Sprintf "failed to join AG %s" [agName]) query.

Definition GrantAGCreateDatabase (agName : string) : Op DB D :=
  let query := Sprintf "ALTER AVAILABILITY GROUP %s GRANT CREATE ANY DATABASE" [QuoteName agName] in
  exec (Sprintf "failed to grant create database on AG %s" [agName]) query.

Fixpoint listener_ips (first : bool) (ips : list AGListenerIPConfig) : string :=
  match ips with
  | [] => ""
  | ip :: rest =>
      (if first then "" else "," +:+ nl) +:+
      Sprintf "        (N'%s', N'%s')" [alip_IP ip; alip_SubnetMask ip] +:+ listener_ips false rest
  end.

Definition AddListener_query (agName : string) (listener : AGListenerConfig) : string :=
  Sprintf "ALTER AVAILABILITY GROUP %s" [QuoteName agName] +:+ nl +:+
  Sprintf "ADD LISTENER N'%s' (" [ReplaceAll (alc_Name listener) "'" "''"] +:+ nl +:+
  (if bool_decide (alc_IPAddresses listener = []) then ""
   else "    WITH IP (" +:+ nl +:+ listener_ips true (alc_IPAddresses listener) +:+ nl +:+ "    )," +:+ nl) +:+
  Sprintf "    PORT = %d" [fmt_d (alc_Port listener)] +:+ nl +:+ ");".

Definition AddListenerToAG (agName : string) (listener : AGListenerConfig) : Op DB D :=
  exec (Sprintf "failed to add listener to AG %s" [agName]) (AddListener_query agName listener).

Definition FailoverAG (agName : string) : Op DB D :=
  let query := Sprintf "ALTER AVAILABILITY GROUP %s FAILOVER" [QuoteName agName] in
  exec (Sprintf "failed to failover AG %s" [agName]) query.

Definition ForceFailoverAG (agName : string) : Op DB D :=
  let query := Sprintf "ALTER AVAILABILITY GROUP %s FORCE_FAILOVER_ALLOW_DATA_LOSS" [QuoteName agName] in
  exec (Sprintf "failed to force failover AG %s" [agName]) query.

Definition GetAGReplicaRole (agName serverName : string) : Query DB D string :=
  scan_one (t := SString) "" (Sprintf "failed to get role for replica %s in AG %s" [serverName; agName])
    "SELECT ISNULL(ars.role_desc, 'RESOLVING')
		 FROM sys.availability_replicas ar
		 JOIN sys.availability_groups ag ON ar.group_id = ag.group_id
		 LEFT JOIN sys.dm_hadr_availability_replica_states ars ON ar.replica_id = ars.replica_id
		 WHERE ag.name = @p1 AND ar.replica_server_name = @p2" [agName; serverName].

Definition SetAGRoleSecondary (agName : string) : Op DB D :=
  let query := Sprintf "ALTER AVAILABILITY GROUP %s SET (ROLE = SECONDARY)" [QuoteName agName] in
  exec (Sprintf "failed to set AG %s role to secondary" [agName]) query.

Definition GetLastHardenedLSN (agName : string) : Query DB D Z :=
  scan_one (t := SInt64) 0 (Sprintf "failed to get last hardened LSN for AG %s" [agName])
    "SELECT TOP 1 ISNULL(drs.last_hardened_lsn, 0)
		 FROM sys.dm_hadr_database_replica_states drs
		 JOIN sys.availability_groups ag ON drs.group_id = ag.group_id
		 WHERE ag.name = @p1 AND drs.is_local = 1
		 ORDER BY drs.last_hardened_lsn DESC" [agName].

Definition DropAG (agName : string) : Op DB D :=
  let query := Sprintf "DROP AVAILABILITY GROUP %s" [QuoteName agName] in
  exec (Sprintf "failed to drop availability group %s" [agName]) query.

Definition CreateHADREndpoint (port : Z) : Op DB D :=
  let query := Sprintf "CREATE ENDPOINT hadr_endpoint
    STATE = STARTED
    AS TCP (LISTENER_PORT = %d)
    FOR DATABASE_MIRRORING (ROLE = ALL)" [fmt_d port] in
  exec (Sprintf "failed to create HADR endpoint on port %d" [fmt_d port]) query.

Definition HADREndpointExists : Query DB D bool :=
  fun c => scan_exists (inl c)
    "SELECT CASE WHEN EXISTS (SELECT 1 FROM sys.database_mirroring_endpoints) THEN 1 ELSE 0 END" [].

(** *** Certificate operations for HADR *)
Definition CreateMasterKey (password : string) : Op DB D :=
  let query := Sprintf "CREATE MASTER KEY ENCRYPTION BY PASSWORD = %s" [QuoteString password] in
  exec "failed to create master key" query.

Definition MasterKeyExists : Query DB D bool :=
  fun c => scan_exists (inl c)
    "SELECT CASE WHEN EXISTS (SELECT 1 FROM sys.symmetric_keys WHERE name = '##MS_DatabaseMasterKey##') THEN 1 ELSE 0 END" [].

Definition CreateCertificate (certName subject expiryDate : string) : Op DB D :=
  let query := Sprintf "CREATE CERTIFICATE %s WITH SUBJECT = %s, EXPIRY_DATE = %s"
    [QuoteName certName; QuoteString subject; QuoteString expiryDate] in
  exec (Sprintf "failed to create certificate %s" [certName]) query.

Definition CertificateExists (certName : string) : Query DB D bool :=
  fun c => scan_exists (inl c)
    "SELECT CASE WHEN EXISTS (SELECT 1 FROM sys.certificates WHERE name = @p1) THEN 1 ELSE 0 END" [certName].

Definition BackupCertificate (certName certPath keyPath encryptionPassword : string) : Op DB D :=
  let query := Sprintf "BACKUP CERTIFICATE %s TO FILE = %s WITH PRIVATE KEY (FILE = %s, ENCRYPTION BY PASSWORD = %s)"
    [QuoteName certName; QuoteString certPath; QuoteString keyPath; QuoteString encryptionPassword] in
  exec (Sprintf "failed to backup certificate %s" [certName]) query.

Definition CreateCertificateFromBackup (certName certPath keyPath decryptionPassword : string) : Op DB D :=
  let query := Sprintf "CREATE CERTIFICATE %s FROM FILE = %s WITH PRIVATE KEY (FILE = %s, DECRYPTION BY PASSWORD = %s)"
    [QuoteName certName; QuoteString certPath; QuoteString keyPath; QuoteString decryptionPassword] in
  exec (Sprintf "failed to create certificate %s from backup" [certName]) query.

Definition GetCertificateBinary (certName : string) : Query DB D (list Byte.byte) :=
  let query := Sprintf "SELECT CERTENCODED(CERT_ID(%s))" [QuoteString certName] in
  scan_one (t := SBytes) [] (Sprintf "failed to get certificate binary for %s" [certName]) query [].

Definition CreateCertificateFromBinary (certName : string) (certDER : list Byte.byte) : Op DB D :=
  let query := Sprintf "CREATE CERTIFICATE %s FROM BINARY = 0x%x" [QuoteName certName; hex certDER] in
  exec (Sprintf "failed to create certificate %s from binary" [certName]) query.

Definition CreateLoginFromCertificate (loginName certName : string) : Op DB D :=
  let query := Sprintf "CREATE LOGIN %s FROM CERTIFICATE %s" [QuoteName loginName; QuoteName certName] in
  exec (Sprintf "failed to create login %s from certificate %s" [loginName; certName]) query.

Definition GrantEndpointConnect (endpointName loginName : string) : Op DB D :=
  let query := Sprintf "GRANT CONNECT ON ENDPOINT::%s TO %s" [QuoteName endpointName; QuoteName loginName] in
  exec (Sprintf "failed to grant connect on endpoint %s to %s" [endpointName; loginName]) query.

Definition CreateHADREndpointWithCert (port : Z) (certName : string) : Op DB D :=
  let query := Sprintf "CREATE ENDPOINT hadr_endpoint
    STATE = STARTED
    AS TCP (LISTENER_PORT = %d)
    FOR DATABASE_MIRRORING (
        ROLE = ALL,
        AUTHENTICATION = CERTIFICATE %s,
        ENCRYPTION = DISABLED
    )" [fmt_d port; QuoteName certName] in
  exec (Sprintf "failed to create HADR endpoint with cert on port %d" [fmt_d port]) query.

(** *** Backup/Restore operations *)
Definition BackupDatabase_query (dbName destination backupType : string) (compression : bool) : string :=
  let query := Sprintf "BACKUP DATABASE %s TO DISK = %s" [QuoteName dbName; QuoteString destination] in
  let '(query, withClauses) :=
    if String.eqb backupType "Differential" then (query, ["DIFFERENTIAL"])
    else if String.eqb backupType "Log" then
      (Sprintf "BACKUP LOG %s TO DISK = %s" [QuoteName dbName; QuoteString destination], [])
    else (query, []) in
  let withClauses := if compression then withClauses ++ ["COMPRESSION"] else withClauses in
  if bool_decide (withClauses = []) then query
  else query +:+ " WITH " +:+ Join withClauses ", ".

Definition BackupDatabase (dbName destination backupType : string) (compression : bool) : Op DB D :=
  exec (Sprintf "failed to backup database %s" [dbName])
    (BackupDatabase_query dbName destination backupType compression).

Definition RestoreDatabase (dbName source : string) : Op DB D :=
  let query := Sprintf "RESTORE DATABASE %s FROM DISK = %s WITH REPLACE" [QuoteName dbName; QuoteString source] in
  exec (Sprintf "failed to restore database %s" [dbName]) query.

(** *** Server info *)
Definition majorVersionToYear (version : string) : string :=
  if (String.length version <? 2)%nat then ""
  else
    let major := String.substring 0 2 version in
    if String.eqb major "16" then "2022"
    else if String.eqb major "15" then "2019"
    else if String.eqb major "14" then "2017"
    else if String.eqb major "13" then "2016"
    else if String.eqb major "12" then "2014"
    else if String.eqb major "11" then "2012"
    else "".

Definition GetServerVersion : Query DB D string :=
  fun c d =>
    let '((version, err), d) := scan_one (t := SString) "" "failed to get server version"
      "SELECT SERVERPROPERTY('ProductVersion')" [] c d in
    match err with
    | Some err => (("", Some err), d)
    | None =>
        let year := majorVersionToYear version in
        if negb (String.eqb year "") then ((Sprintf "%s (%s)" [year; version], None), d)
        else ((version, None), d)
    end.

Definition GetServerEdition : Query DB D string :=
  scan_one (t := SString) "" "failed to get server edition" "SELECT SERVERPROPERTY('Edition')" [].

(** *** Database configuration *)
Definition GetDatabaseRecoveryModel (name : string) : Query DB D string :=
  let query := Sprintf "SELECT recovery_model_desc FROM sys.databases WHERE name = %s" [QuoteString name] in
  scan_one (t := SString) "" (Sprintf "failed to get recovery model for %s" [name]) query [].

Definition SetDatabaseRecoveryModel (name model : string) : Op DB D :=
  let query := Sprintf "ALTER DATABASE %s SET RECOVERY %s" [QuoteName name; model] in
  exec (Sprintf "failed to set recovery model for %s" [name]) query.

Definition GetDatabaseCompatibilityLevel (name : string) : Query DB D Z :=
  let query := Sprintf "SELECT compatibility_level FROM sys.databases WHERE name = %s" [QuoteString name] in
  scan_one (t := SInt) 0 (Sprintf "failed to get compatibility level for %s" [name]) query [].

Definition SetDatabaseCompatibilityLevel (name : string) (level : Z) : Op DB D :=
  let query := Sprintf "ALTER DATABASE %s SET COMPATIBILITY_LEVEL = %d" [QuoteName name; fmt_d level] in
  exec (Sprintf "failed to set compatibility level for %s" [name]) query.

Definition GetDatabaseOption (name option : string) : Query DB D bool :=
  fun c d =>
    let query := Sprintf "SELECT CAST(DATABASEPROPERTYEX(%s, %s) AS int)" [QuoteString name; QuoteString option] in
    let '((val, err), d) := scan_one (t := SNullInt64) None
      (Sprintf "failed to get database option %s for %s" [option; name]) query [] c d in
    match err with
    | Some err => ((false, Some err), d)
    | None => ((match val with Some i => i =? 1 | None => false end, None), d)
    end.

Definition SetDatabaseOption (name option : string) (value : bool) : Op DB D :=
  let valStr := if value then "ON" else "OFF" in
  let query := Sprintf "ALTER DATABASE %s SET %s %s WITH ROLLBACK IMMEDIATE" [QuoteName name; option; valStr] in
  exec (Sprintf "failed to set database option %s for %s" [option; name]) query.

(** *** Point-in-Time Restore *)
Definition RestoreDatabasePIT (dbName fullSource logSource stopAt : string) : Op DB D :=
  fun c d =>
    let query1 := Sprintf "RESTORE DATABASE %s FROM DISK = %s WITH REPLACE, NORECOVERY"
      [QuoteName dbName; QuoteString fullSource] in
    let '(err, d) := ExecContext (inl c) query1 d in
    match err with
    | Some err => (Some (ErrWrap (Sprintf "failed to restore full backup for %s" [dbName]) err), d)
    | None =>
        let query2 := Sprintf "RESTORE LOG %s FROM DISK = %s WITH RECOVERY, STOPAT = %s"
          [QuoteName dbName; QuoteString logSource; QuoteString stopAt] in
        let '(err, d) := ExecContext (inl c) query2 d in
        (ErrWrap (Sprintf "failed to restore log to point-in-time %s for %s" [stopAt; dbName]) <$> err, d)
    end.

Definition move_clause (withMove : gmap string string) (logicalName : string) : string :=
  Sprintf "MOVE %s TO %s"
    [QuoteString logicalName; QuoteString (default "" (withMove !! logicalName))].

Definition RestoreDatabaseWithMove (dbName source : string) (withMove : gmap string string) : Op DB D :=
  fun c d =>
    let parts :=
      Sprintf "RESTORE DATABASE %s FROM DISK = %s WITH REPLACE" [QuoteName dbName; QuoteString source]
      :: (move_clause withMove <$> order_of d (elements (dom withMove))) in
    let query := Join parts ", " in
    exec (Sprintf "failed to restore database %s with move" [dbName]) query c d.

#[export] Instance mssql_client : SQLClient DB D := {
  DatabaseExists := DatabaseExists; CreateDatabase := CreateDatabase; DropDatabase := DropDatabase;
  GetDatabaseOwner := GetDatabaseOwner; SetDatabaseOwner := SetDatabaseOwner;
  GetDatabaseCollation := GetDatabaseCollation;
  LoginExists := LoginExists; CreateLogin := CreateLogin; DropLogin := DropLogin;
  UpdateLoginPassword := UpdateLoginPassword; GetLoginDefaultDatabase := GetLoginDefaultDatabase;
  SetLoginDefaultDatabase := SetLoginDefaultDatabase; GetLoginServerRoles := GetLoginServerRoles;
  AddLoginToServerRole := AddLoginToServerRole; RemoveLoginFromServerRole := RemoveLoginFromServerRole;
  UserExists := UserExists; CreateUser := CreateUser; DropUser := DropUser;
  GetUserDatabaseRoles := GetUserDatabaseRoles; AddUserToDatabaseRole := AddUserToDatabaseRole;
  RemoveUserFromDatabaseRole := RemoveUserFromDatabaseRole; UserOwnsObjects := UserOwnsObjects;
  SchemaExists := SchemaExists; CreateSchema := CreateSchema; DropSchema := DropSchema;
  GetSchemaOwner := GetSchemaOwner; SetSchemaOwner := SetSchemaOwner;
  SchemaHasObjects := SchemaHasObjects;
  GetPermissions := GetPermissions; GrantPermission := GrantPermission;
  DenyPermission := DenyPermission; RevokePermission := RevokePermission;
  LoginHasUsers := LoginHasUsers;
  BackupDatabase := BackupDatabase; RestoreDatabase := RestoreDatabase;
  AGExists := AGExists; CreateAG := CreateAG; GetAGStatus := GetAGStatus;
  AddDatabaseToAG := AddDatabaseToAG; RemoveDatabaseFromAG := RemoveDatabaseFromAG;
  JoinAG := JoinAG; GrantAGCreateDatabase := GrantAGCreateDatabase;
  AddListenerToAG := AddListenerToAG; DropAG := DropAG; FailoverAG := FailoverAG;
  ForceFailoverAG := ForceFailoverAG; GetAGReplicaRole := GetAGReplicaRole;
  SetAGRoleSecondary := SetAGRoleSecondary; GetLastHardenedLSN := GetLastHardenedLSN;
  CreateHADREndpoint := CreateHADREndpoint; HADREndpointExists := HADREndpointExists;
  CreateMasterKey := CreateMasterKey; MasterKeyExists := MasterKeyExists;
  CreateCertificate := CreateCertificate; CertificateExists := CertificateExists;
  BackupCertificate := BackupCertificate;
  CreateCertificateFromBackup := CreateCertificateFromBackup;
  GetCertificateBinary := GetCertificateBinary;
  CreateCertificateFromBinary := CreateCertificateFromBinary;
  CreateLoginFromCertificate := CreateLoginFromCertificate;
  GrantEndpointConnect := GrantEndpointConnect;
  CreateHADREndpointWithCert := CreateHADREndpointWithCert;
  GetServerVersion := GetServerVersion; GetServerEdition := GetServerEdition;
  GetDatabaseRecoveryModel := GetDatabaseRecoveryModel;
  SetDatabaseRecoveryModel := SetDatabaseRecoveryModel;
  GetDatabaseCompatibilityLevel := GetDatabaseCompatibilityLevel;
  SetDatabaseCompatibilityLevel := SetDatabaseCompatibilityLevel;
  GetDatabaseOption := GetDatabaseOption; SetDatabaseOption := SetDatabaseOption;
  RestoreDatabasePIT := RestoreDatabasePIT; RestoreDatabaseWithMove := RestoreDatabaseWithMove;
  Close := Close; Ping := Ping
}.
End Client.
End Mssql.
