(* ===== verification/MssqlStatements.v ===== *)
(** * What the SQL Server client sends (specification of internal/sql/client.go)

    [Call] lists the methods of [SQLClient] that pass statements to
    [ExecContext] ([LoginHasUsers] apart, whose statements depend on what the
    server lists: [login_has_users_switches]), [expected] the statement
    templates of each, and [recorder] any driver that also keeps these texts. [statements_are_templates] refines the
    methods of MssqlClient.v against the templates: a call sends a prefix of its
    templates, all of them when it reports no error, and each text tokenizes to
    its template, so no argument can end an identifier or a string early. The
    arguments the code emits unquoted are listed by [raw_args]. *)
From S2P Require Import Prelude SqlClient QuoteName MssqlClient.

(** ** Calls and their templates *)
Inductive Call :=
| CCreateDatabase (name : string) (collation : option string)
| CDropDatabase (name : string)
| CSetDatabaseOwner (name owner : string)
| CCreateLogin (name password : string)
| CDropLogin (name : string)
| CUpdateLoginPassword (name password : string)
| CSetLoginDefaultDatabase (name db : string)
| CAddLoginToServerRole (login role : string)
| CRemoveLoginFromServerRole (login role : string)
| CCreateUser (db user login : string)
| CDropUser (db user : string)
| CAddUserToDatabaseRole (db user role : string)
| CRemoveUserFromDatabaseRole (db user role : string)
| CCreateSchema (db schema : string) (owner : option string)
| CDropSchema (db schema : string)
| CSetSchemaOwner (db schema owner : string)
| CGrantPermission (db permission target user : string)
| CDenyPermission (db permission target user : string)
| CRevokePermission (db permission target user : string)
| CBackupDatabase (db destination backupType : string) (compression : bool)
| CRestoreDatabase (db source : string)
| CCreateAG (config : AGConfig)
| CAddDatabaseToAG (ag db : string)
| CRemoveDatabaseFromAG (ag db : string)
| CJoinAG (ag clusterType : string)
| CGrantAGCreateDatabase (ag : string)
| CDropAG (ag : string)
| CFailoverAG (ag : string)
| CForceFailoverAG (ag : string)
| CSetAGRoleSecondary (ag : string)
| CCreateHADREndpoint (port : Z)
| CCreateMasterKey (password : string)
| CCreateCertificate (name subject expiry : string)
| CBackupCertificate (name certPath keyPath password : string)
| CCreateCertificateFromBackup (name certPath keyPath password : string)
| CCreateLoginFromCertificate (login cert : string)
| CGrantEndpointConnect (endpoint login : string)
| CCreateHADREndpointWithCert (port : Z) (cert : string)
| CSetDatabaseRecoveryModel (name model : string)
| CSetDatabaseCompatibilityLevel (name : string) (level : Z)
| CSetDatabaseOption (name option : string) (value : bool)
| CRestoreDatabasePIT (db fullSource logSource stopAt : string)
| CRestoreDatabaseWithMove (db source : string) (withMove : gmap string string)
| CCreateCertificateFromBinary (name : string) (der : list Byte.byte)
| CAddListenerToAG (ag : string) (listener : AGListenerConfig)
| CUserExists (db user : string)
| CGetUserDatabaseRoles (db user : string)
| CUserOwnsObjects (db user : string)
| CSchemaExists (db schema : string)
| CGetSchemaOwner (db schema : string)
| CSchemaHasObjects (db schema : string)
| CGetPermissions (db user : string).

Section Templates.
Context `{GoEnv}.

(** The error of a query; what it answers does not matter here. *)
Definition ask {Conn D A} (q : Query Conn D A) : Op Conn D :=
  fun c d => let '((_, err), d') := q c d in (err, d').

Definition perform {Conn D} `{SQLClient Conn D} (call : Call) : Op Conn D :=
  match call with
  | CCreateDatabase n c => CreateDatabase n c
  | CDropDatabase n => DropDatabase n
  | CSetDatabaseOwner n o => SetDatabaseOwner n o
  | CCreateLogin n p => CreateLogin n p
  | CDropLogin n => DropLogin n
  | CUpdateLoginPassword n p => UpdateLoginPassword n p
  | CSetLoginDefaultDatabase n d => SetLoginDefaultDatabase n d
  | CAddLoginToServerRole l r => AddLoginToServerRole l r
  | CRemoveLoginFromServerRole l r => RemoveLoginFromServerRole l r
  | CCreateUser d u l => CreateUser d u l
  | CDropUser d u => DropUser d u
  | CAddUserToDatabaseRole d u r => AddUserToDatabaseRole d u r
  | CRemoveUserFromDatabaseRole d u r => RemoveUserFromDatabaseRole d u r
  | CCreateSchema d s o => CreateSchema d s o
  | CDropSchema d s => DropSchema d s
  | CSetSchemaOwner d s o => SetSchemaOwner d s o
  | CGrantPermission d p t u => GrantPermission d p t u
  | CDenyPermission d p t u => DenyPermission d p t u
  | CRevokePermission d p t u => RevokePermission d p t u
  | CBackupDatabase d dst t c => BackupDatabase d dst t c
  | CRestoreDatabase d s => RestoreDatabase d s
  | CCreateAG c => CreateAG c
  | CAddDatabaseToAG a d => AddDatabaseToAG a d
  | CRemoveDatabaseFromAG a d => RemoveDatabaseFromAG a d
  | CJoinAG a c => JoinAG a c
  | CGrantAGCreateDatabase a => GrantAGCreateDatabase a
  | CDropAG a => DropAG a
  | CFailoverAG a => FailoverAG a
  | CForceFailoverAG a => ForceFailoverAG a
  | CSetAGRoleSecondary a => SetAGRoleSecondary a
  | CCreateHADREndpoint p => CreateHADREndpoint p
  | CCreateMasterKey p => CreateMasterKey p
  | CCreateCertificate n s e => CreateCertificate n s e
  | CBackupCertificate n c k p => BackupCertificate n c k p
  | CCreateCertificateFromBackup n c k p => CreateCertificateFromBackup n c k p
  | CCreateLoginFromCertificate l c => CreateLoginFromCertificate l c
  | CGrantEndpointConnect e l => GrantEndpointConnect e l
  | CCreateHADREndpointWithCert p c => CreateHADREndpointWithCert p c
  | CSetDatabaseRecoveryModel n m => SetDatabaseRecoveryModel n m
  | CSetDatabaseCompatibilityLevel n l => SetDatabaseCompatibilityLevel n l
  | CSetDatabaseOption n o b => SetDatabaseOption n o b
  | CRestoreDatabasePIT d f l s => RestoreDatabasePIT d f l s
  | CRestoreDatabaseWithMove d s m => RestoreDatabaseWithMove d s m
  | CCreateCertificateFromBinary n der => CreateCertificateFromBinary n der
  | CAddListenerToAG a l => AddListenerToAG a l
  | CUserExists d u => ask (UserExists d u)
  | CGetUserDatabaseRoles d u => ask (GetUserDatabaseRoles d u)
  | CUserOwnsObjects d u => ask (UserOwnsObjects d u)
  | CSchemaExists d s => ask (SchemaExists d s)
  | CGetSchemaOwner d s => ask (GetSchemaOwner d s)
  | CSchemaHasObjects d s => ask (SchemaHasObjects d s)
  | CGetPermissions d u => ask (GetPermissions d u)
  end.

(** An optional clause: nothing for nil and for the empty string. *)
Definition opt_clause (text : string) (x : option string) : list piece :=
  match x with
  | Some s => if String.eqb s "" then [] else [PText text; PId s]
  | None => []
  end.

Definition use (db : string) : list piece := [PText "USE "; PId db].

Definition permission_statement (verb preposition db permission target user : string)
    : list (list piece) :=
  if IsValidPermission permission then
    [use db;
     [PText verb; PText (ToUpper permission); PText " ON "] ++ target_pieces target
       ++ [PText preposition; PId user]]
  else [].

Definition nl := Mssql.nl.

Definition replica_template (r : AGReplicaConfig) : list piece :=
  [PText "    "; PStr (arc_ServerName r); PText (" WITH (" +:+ nl +:+ "        ENDPOINT_URL = ");
   PStr (arc_EndpointURL r);
   PText ("," +:+ nl +:+ "        AVAILABILITY_MODE = "); PText (arc_AvailabilityMode r);
   PText ("," +:+ nl +:+ "        FAILOVER_MODE = "); PText (arc_FailoverMode r);
   PText ("," +:+ nl +:+ "        SEEDING_MODE = "); PText (arc_SeedingMode r);
   PText ("," +:+ nl +:+ "        SECONDARY_ROLE (ALLOW_CONNECTIONS = "); PText (arc_SecondaryRole r);
   PText (")" +:+ nl +:+ "    )")].

Fixpoint replicas_template (first : bool) (rs : list AGReplicaConfig) : list piece :=
  match rs with
  | [] => []
  | r :: rest =>
      (if first then [] else [PText ("," +:+ nl)]) ++ replica_template r
        ++ replicas_template false rest
  end.

Definition create_ag_template (c : AGConfig) : list piece :=
  [PText "CREATE AVAILABILITY GROUP "; PId (agc_Name c);
   PText (nl +:+ "WITH (" +:+ nl +:+ "    CLUSTER_TYPE = ");
   PText (if String.eqb (agc_ClusterType c) "" then "EXTERNAL" else agc_ClusterType c);
   PText ("," +:+ nl +:+ "    AUTOMATED_BACKUP_PREFERENCE = ");
   PText (agc_AutomatedBackupPreference c);
   PText ("," +:+ nl +:+ (if agc_DBFailover c then "    DB_FAILOVER = ON" else "    DB_FAILOVER = OFF")
          +:+ nl +:+ ")" +:+ nl +:+ "FOR REPLICA ON" +:+ nl)]
  ++ replicas_template true (agc_Replicas c) ++ [PText ";"].

Definition add_db_template (ag db : string) : list piece :=
  [PText "ALTER AVAILABILITY GROUP "; PId ag; PText " ADD DATABASE "; PId db].

Definition backup_suffix (backupType : string) (compression : bool) : string :=
  if String.eqb backupType "Differential" then
    (if compression then " WITH DIFFERENTIAL, COMPRESSION" else " WITH DIFFERENTIAL")
  else (if compression then " WITH COMPRESSION" else "").

(** One clause for each moved file, in the order the map is visited. *)
Definition move_template (withMove : gmap string string) (l : string) : list piece :=
  [PText ", MOVE "; PStr l; PText " TO "; PStr (default "" (withMove !! l))].

(** The addresses of a listener, and the whole of it. *)
Fixpoint addresses_template (first : bool) (ips : list AGListenerIPConfig) : list piece :=
  match ips with
  | [] => []
  | ip :: rest =>
      (if first then [] else [PText ("," +:+ nl)]) ++
      [PText "        ("; PStr (alip_IP ip); PText ", "; PStr (alip_SubnetMask ip); PText ")"] ++
      addresses_template false rest
  end.
Definition add_listener_template (ag : string) (l : AGListenerConfig) : list piece :=
  [PText "ALTER AVAILABILITY GROUP "; PId ag; PText (nl +:+ "ADD LISTENER "); PStr (alc_Name l);
   PText (" (" +:+ nl)] ++
  (if bool_decide (alc_IPAddresses l = []) then []
   else [PText ("    WITH IP (" +:+ nl)] ++ addresses_template true (alc_IPAddresses l) ++
        [PText (nl +:+ "    )," +:+ nl)]) ++
  [PText "    PORT = "; PText (fmt_d (alc_Port l)); PText (nl +:+ ");")].

(** The hexadecimal text of bytes, and the order in which a map is visited. *)
Variables (hex : list Byte.byte -> string) (order : list string -> list string).
Definition expected (call : Call) : list (list piece) :=
  match call with
  | CCreateDatabase n c => [[PText "CREATE DATABASE "; PId n] ++ opt_clause " COLLATE " c]
  | CDropDatabase n => [[PText "DROP DATABASE IF EXISTS "; PId n]]
  | CSetDatabaseOwner n o => [[PText "ALTER AUTHORIZATION ON DATABASE::"; PId n; PText " TO "; PId o]]
  | CCreateLogin n p => [[PText "CREATE LOGIN "; PId n; PText " WITH PASSWORD = "; PStr p]]
  | CDropLogin n => [[PText "DROP LOGIN "; PId n]]
  | CUpdateLoginPassword n p => [[PText "ALTER LOGIN "; PId n; PText " WITH PASSWORD = "; PStr p]]
  | CSetLoginDefaultDatabase n d => [[PText "ALTER LOGIN "; PId n; PText " WITH DEFAULT_DATABASE = "; PId d]]
  | CAddLoginToServerRole l r => [[PText "ALTER SERVER ROLE "; PId r; PText " ADD MEMBER "; PId l]]
  | CRemoveLoginFromServerRole l r => [[PText "ALTER SERVER ROLE "; PId r; PText " DROP MEMBER "; PId l]]
  | CCreateUser d u l => [use d; [PText "CREATE USER "; PId u; PText " FOR LOGIN "; PId l]]
  | CDropUser d u => [use d; [PText "DROP USER IF EXISTS "; PId u]]
  | CAddUserToDatabaseRole d u r => [use d; [PText "ALTER ROLE "; PId r; PText " ADD MEMBER "; PId u]]
  | CRemoveUserFromDatabaseRole d u r => [use d; [PText "ALTER ROLE "; PId r; PText " DROP MEMBER "; PId u]]
  | CCreateSchema d s o => [use d; [PText "CREATE SCHEMA "; PId s] ++ opt_clause " AUTHORIZATION " o]
  | CDropSchema d s => [use d; [PText "DROP SCHEMA "; PId s]]
  | CSetSchemaOwner d s o => [use d; [PText "ALTER AUTHORIZATION ON SCHEMA::"; PId s; PText " TO "; PId o]]
  | CGrantPermission d p t u => permission_statement "GRANT " " TO " d p t u
  | CDenyPermission d p t u => permission_statement "DENY " " TO " d p t u
  | CRevokePermission d p t u => permission_statement "REVOKE " " FROM " d p t u
  | CBackupDatabase d dst t c =>
      [[PText (if String.eqb t "Log" then "BACKUP LOG " else "BACKUP DATABASE "); PId d;
        PText " TO DISK = "; PStr dst; PText (backup_suffix t c)]]
  | CRestoreDatabase d s => [[PText "RESTORE DATABASE "; PId d; PText " FROM DISK = "; PStr s; PText " WITH REPLACE"]]
  | CCreateAG c => create_ag_template c :: (add_db_template (agc_Name c) <$> agc_Databases c)
  | CAddDatabaseToAG a d => [add_db_template a d]
  | CRemoveDatabaseFromAG a d => [[PText "ALTER AVAILABILITY GROUP "; PId a; PText " REMOVE DATABASE "; PId d]]
  | CJoinAG a c => [[PText "ALTER AVAILABILITY GROUP "; PId a;
                     PText (" JOIN" +:+ if String.eqb c "NONE" then " WITH (CLUSTER_TYPE = NONE)" else "")]]
  | CGrantAGCreateDatabase a => [[PText "ALTER AVAILABILITY GROUP "; PId a; PText " GRANT CREATE ANY DATABASE"]]
  | CDropAG a => [[PText "DROP AVAILABILITY GROUP "; PId a]]
  | CFailoverAG a => [[PText "ALTER AVAILABILITY GROUP "; PId a; PText " FAILOVER"]]
  | CForceFailoverAG a => [[PText "ALTER AVAILABILITY GROUP "; PId a; PText " FORCE_FAILOVER_ALLOW_DATA_LOSS"]]
  | CSetAGRoleSecondary a => [[PText "ALTER AVAILABILITY GROUP "; PId a; PText " SET (ROLE = SECONDARY)"]]
  | CCreateHADREndpoint p => [[PText "CREATE ENDPOINT hadr_endpoint
    STATE = STARTED
    AS TCP (LISTENER_PORT = "; PText (fmt_d p); PText ")
    FOR DATABASE_MIRRORING (ROLE = ALL)"]]
  | CCreateMasterKey p => [[PText "CREATE MASTER KEY ENCRYPTION BY PASSWORD = "; PStr p]]
  | CCreateCertificate n s e =>
      [[PText "CREATE CERTIFICATE "; PId n; PText " WITH SUBJECT = "; PStr s; PText ", EXPIRY_DATE = "; PStr e]]
  | CBackupCertificate n c k p =>
      [[PText "BACKUP CERTIFICATE "; PId n; PText " TO FILE = "; PStr c;
        PText " WITH PRIVATE KEY (FILE = "; PStr k; PText ", ENCRYPTION BY PASSWORD = "; PStr p; PText ")"]]
  | CCreateCertificateFromBackup n c k p =>
      [[PText "CREATE CERTIFICATE "; PId n; PText " FROM FILE = "; PStr c;
        PText " WITH PRIVATE KEY (FILE = "; PStr k; PText ", DECRYPTION BY PASSWORD = "; PStr p; PText ")"]]
  | CCreateLoginFromCertificate l c => [[PText "CREATE LOGIN "; PId l; PText " FROM CERTIFICATE "; PId c]]
  | CGrantEndpointConnect e l => [[PText "GRANT CONNECT ON ENDPOINT::"; PId e; PText " TO "; PId l]]
  | CCreateHADREndpointWithCert p c => [[PText "CREATE ENDPOINT hadr_endpoint
    STATE = STARTED
    AS TCP (LISTENER_PORT = "; PText (fmt_d p); PText ")
    FOR DATABASE_MIRRORING (
        ROLE = ALL,
        AUTHENTICATION = CERTIFICATE "; PId c; PText ",
        ENCRYPTION = DISABLED
    )"]]
  | CSetDatabaseRecoveryModel n m => [[PText "ALTER DATABASE "; PId n; PText " SET RECOVERY "; PText m]]
  | CSetDatabaseCompatibilityLevel n l =>
      [[PText "ALTER DATABASE "; PId n; PText " SET COMPATIBILITY_LEVEL = "; PText (fmt_d l)]]
  | CSetDatabaseOption n o b =>
      [[PText "ALTER DATABASE "; PId n; PText " SET "; PText o; PText (if b then " ON" else " OFF");
        PText " WITH ROLLBACK IMMEDIATE"]]
  | CRestoreDatabasePIT d f l s =>
      [[PText "RESTORE DATABASE "; PId d; PText " FROM DISK = "; PStr f; PText " WITH REPLACE, NORECOVERY"];
       [PText "RESTORE LOG "; PId d; PText " FROM DISK = "; PStr l; PText " WITH RECOVERY, STOPAT = "; PStr s]]
  | CRestoreDatabaseWithMove d s m =>
      [[PText "RESTORE DATABASE "; PId d; PText " FROM DISK = "; PStr s; PText " WITH REPLACE"]
       ++ (order (elements (dom m)) ≫= move_template m)]
  | CCreateCertificateFromBinary n der =>
      [[PText "CREATE CERTIFICATE "; PId n; PText " FROM BINARY = 0x"; PText (hex der)]]
  | CAddListenerToAG a l => [add_listener_template a l]
  | CUserExists d _ | CGetUserDatabaseRoles d _ | CUserOwnsObjects d _ | CSchemaExists d _
  | CGetSchemaOwner d _ | CSchemaHasObjects d _ | CGetPermissions d _ => [use d]
  end.

(** The arguments the code puts in the text as they are. *)
Definition raw_args (call : Call) : list string :=
  match call with
  | CGrantPermission _ _ t _ | CDenyPermission _ _ t _ | CRevokePermission _ _ t _ => [target_scope t]
  | CCreateAG c =>
      [agc_ClusterType c; agc_AutomatedBackupPreference c] ++
      (agc_Replicas c ≫= fun r =>
        [arc_AvailabilityMode r; arc_FailoverMode r; arc_SeedingMode r; arc_SecondaryRole r])
  | CCreateHADREndpoint p | CCreateHADREndpointWithCert p _ => [fmt_d p]
  | CSetDatabaseRecoveryModel _ m => [m]
  | CSetDatabaseCompatibilityLevel _ l => [fmt_d l]
  | CSetDatabaseOption _ o _ => [o]
  | CCreateCertificateFromBinary _ der => [hex der]
  | CAddListenerToAG _ l =>
      fmt_d (alc_Port l) :: (alc_IPAddresses l ≫= fun ip => [alip_IP ip; alip_SubnetMask ip])
  | _ => []
  end.
End Templates.

(** ** A driver that records the statements executed through it *)
Section Recorder.
Context `{GoEnv} {DB SqlConn D0 : Type} `{SqlDriver DB SqlConn D0}.
Abbreviation D := (D0 * list string)%type.

Definition silent {A} (f : D0 -> A * D0) : D -> A * D :=
  fun '(d, l) => let '(x, d') := f d in (x, (d', l)).

#[export] Instance recorder : SqlDriver DB SqlConn D := {
  Open s := silent (Open s);
  db_Close c := silent (db_Close c);
  db_Ping c := silent (db_Ping c);
  db_Conn c := silent (db_Conn c);
  conn_Close c := silent (conn_Close c);
  ExecContext h q := fun '(d, l) => let '(x, d') := ExecContext h q d in (x, (d', l ++ [q]));
  QueryRow ts h q args := silent (QueryRow ts h q args);
  QueryRows ts h q args := silent (QueryRows ts h q args);
  order_of d := order_of d.1;
  url_String := url_String;
  hex := hex
}.

(** [m] sends a prefix of [stmts], and all of it when it reports no error. *)
Definition sends (m : Op DB D) (stmts : list string) : Prop :=
  forall c d l err d' l', m c (d, l) = (err, (d', l')) ->
  exists sent, l' = l ++ sent /\ sent `prefix_of` stmts /\ (err = None -> sent = stmts).

Lemma sends_exec msg q q' : q = q' -> sends (Mssql.exec msg q) [q'].
Proof.
  intros <- c d l err d' l'. unfold Mssql.exec. cbn.
  destruct (ExecContext (inl c) q d) as [e d1]. intros [= <- <- <-]. by exists [q].
Qed.

Lemma sends_in_database db q q' :
  q = q' -> sends (Mssql.execInDatabase db q) [render (use db); q'].
Proof.
  intros <- c d l err d' l'. unfold Mssql.execInDatabase. cbn.
  destruct (db_Conn c d) as [[conn|e] d1]; cbn.
  2: { intros [= <- <- <-]. exists []. rewrite app_nil_r. by split_and!; [|apply prefix_nil|]. }
  destruct (ExecContext (inr conn) _ d1) as [[e|] d2]; cbn.
  { destruct (conn_Close conn d2) as [? d3]; cbn. intros [= <- <- <-].
    eexists [_]. split_and!; [done| |done]. by exists [q]. }
  destruct (ExecContext (inr conn) q d2) as [e d3]; cbn.
  destruct (conn_Close conn d3) as [? d4]; cbn. intros [= <- <- <-].
  eexists [_; _]. rewrite <- (assoc_L (++)). done.
Qed.

Lemma sends_error (e : error) : sends (fun _ d => (Some e, d)) [].
Proof. intros c d l err d' l' [= <- <- <-]. exists []. by rewrite app_nil_r. Qed.

(** A call, then, unless it fails, the rest. *)
Lemma sends_seq (m k : Op DB D) (f : error -> error) s1 s2 :
  sends m s1 -> sends k s2 ->
  sends (fun c d => let '(err, d) := m c d in
                    match err with Some e => (Some (f e), d) | None => k c d end) (s1 ++ s2).
Proof.
  intros Hm Hk c d l err d' l'. destruct (m c (d, l)) as [[e|] [d1 l1]] eqn:E.
  - intros [= <- <- <-]. apply Hm in E as (s & -> & Hs & _). exists s.
    split_and!; [done| |done]. by apply prefix_app_r.
  - apply Hm in E as (s & -> & _ & Hs). rewrite (Hs eq_refl). intros Ek.
    apply Hk in Ek as (s' & -> & Hp & He). exists (s1 ++ s').
    rewrite (assoc_L (++)). split_and!; [done|by apply prefix_app|].
    intros Hnone. by rewrite He.
Qed.

Lemma sends_add_databases ag dbs :
  sends (Mssql.add_databases ag dbs) (render <$> (add_db_template ag <$> dbs)).
Proof.
  induction dbs as [|db dbs IH].
  - intros c d l err d' l' [= <- <- <-]. exists []. by rewrite app_nil_r.
  - cbn [Mssql.add_databases fmap list_fmap].
    apply (sends_seq (Mssql.AddDatabaseToAG ag db) (Mssql.add_databases ag dbs) _ [_]); [|done].
    by apply sends_exec.
Qed.

Lemma sends_permission verb prep db p t u msg :
  sends (fun c d => if negb (IsValidPermission p) then (Some msg, d)
                    else Mssql.execInDatabase db
                           (verb +:+ ToUpper p +:+ " ON " +:+ QuotePermissionTarget t
                              +:+ prep +:+ QuoteName u +:+ "") c d)
    (render <$> permission_statement verb prep db p t u).
Proof.
  unfold permission_statement. destruct (IsValidPermission p); cbn [negb]; [|apply sends_error].
  apply (sends_in_database db). rewrite target_render.
  unfold render. rewrite !foldr_app. cbn [foldr piece_sql].
  do 3 f_equal. generalize (prep +:+ QuoteName u +:+ ""). intros s.
  induction (target_pieces t) as [|x l IH]; cbn; [done|]. by rewrite string_app_assoc, IH.
Qed.

Lemma replica_clause_render r s :
  Mssql.replica_clause r +:+ s = foldr (fun p s => piece_sql p +:+ s) s (replica_template r).
Proof.
  unfold Mssql.replica_clause, replica_template. cbn [foldr piece_sql].
  unfold QuoteString. rewrite !string_app_assoc. cbn -[ReplaceAll String.append].
  cbn [Sprintf is_verb Ascii.eqb Bool.eqb andb orb].
  rewrite ?string_app_cons, ?string_app_assoc. reflexivity.
Qed.
Lemma replica_clauses_render b rs s :
  Mssql.replica_clauses b rs +:+ s = foldr (fun p s => piece_sql p +:+ s) s (replicas_template b rs).
Proof.
  revert b. induction rs as [|r rs IH]; intros b; [done|].
  cbn [Mssql.replica_clauses replicas_template]. rewrite !foldr_app, !string_app_assoc.
  rewrite replica_clause_render, IH. by destruct b.
Qed.

Lemma CreateAG_query_render c : Mssql.CreateAG_query c = render (create_ag_template c).
Proof.
  unfold Mssql.CreateAG_query, create_ag_template, render. rewrite !foldr_app.
  rewrite replica_clauses_render. cbn [foldr piece_sql]. rewrite !string_app_assoc.
  cbn [Sprintf is_verb Ascii.eqb Bool.eqb andb orb].
  rewrite ?string_app_cons, ?string_app_assoc, ?string_app_nil_l.
  by destruct (agc_DBFailover c).
Qed.

Lemma BackupDatabase_query_render order d dst t c :
  [Mssql.BackupDatabase_query d dst t c] = render <$> expected hex order (CBackupDatabase d dst t c).
Proof.
  unfold Mssql.BackupDatabase_query. cbn [expected fmap list_fmap render foldr piece_sql].
  unfold backup_suffix.
  destruct (String.eqb_spec t "Differential") as [->|]; [destruct c|destruct (String.eqb t "Log"), c];
    cbn -[QuoteName QuoteString]; by string_norm.
Qed.

Lemma opt_clause_render text o s :
  render (s ++ opt_clause text o) =
  match o with
  | Some x => if String.eqb x "" then render s else render s +:+ (text +:+ QuoteName x)
  | None => render s
  end.
Proof.
  assert (Happ : forall a b, render (a ++ b) = render a +:+ render b).
  { intros a b. induction a as [|p a IH]; [done|].
    unfold render in *. cbn. by rewrite IH, string_app_assoc. }
  rewrite Happ. unfold opt_clause. destruct o as [x|]; [destruct (String.eqb x "")|];
    cbn; by rewrite ?string_app_nil_r.
Qed.

(** The methods that only read: the connection they take is switched to the
    database, and nothing else is executed. *)
Lemma sends_query {T} db (zero : T) (fn : SqlConn -> D -> (T * option error) * D) :
  (forall conn d l, (fn conn (d, l)).2.2 = l) ->
  sends (ask (Mssql.queryInDatabase db zero fn)) [render (use db)].
Proof.
  intros Hfn c d l err d' l'. unfold ask, Mssql.queryInDatabase. cbn.
  destruct (db_Conn c d) as [[conn|e] d1]; cbn.
  2: { intros [= <- <- <-]. exists []. rewrite app_nil_r. by split_and!; [|apply prefix_nil|]. }
  destruct (ExecContext (inr conn) _ d1) as [[e|] d2]; cbn.
  { destruct (conn_Close conn d2) as [? d3]; cbn. intros [= <- <- <-]. by eexists [_]. }
  match goal with |- context [fn conn (d2, ?k)] => pose proof (Hfn conn d2 k) as Hk;
    destruct (fn conn (d2, k)) as [[x e] [d3 l3]] end.
  cbn in *. subst l3. destruct (conn_Close conn d3) as [? d4]; cbn. intros [= <- <- <-]. by eexists [_].
Qed.
(** A query that goes on from another without executing anything. *)
Lemma sends_after {A B} (q1 : Query DB D A) (q2 : Query DB D B) s :
  sends (ask q1) s ->
  (forall c d x e d1, q1 c d = ((x, e), d1) -> exists y e', q2 c d = ((y, e'), d1) /\ (e' = None -> e = None)) ->
  sends (ask q2) s.
Proof.
  intros H1 H2 c d l err d' l'. unfold ask. destruct (q1 c (d, l)) as [[x e] [d1 l1]] eqn:E.
  destruct (H2 _ _ _ _ _ E) as (y & e' & -> & He). intros [= <- <- <-].
  destruct (H1 c d l e d1 l1) as (sent & ? & ? & Hs); [by unfold ask; rewrite E|].
  exists sent. split_and!; auto.
Qed.
Ltac silently := intros ? ? ?; cbn; unfold Mssql.scan_exists, Mssql.scan_count; cbn; unfold silent; repeat case_match; simplify_eq; done.
Ltac afterwards :=
  cbv [perform SqlClient.UserOwnsObjects SqlClient.GetSchemaOwner SqlClient.SchemaHasObjects
       SqlClient.GetPermissions Mssql.mssql_client Mssql.UserOwnsObjects Mssql.GetSchemaOwner
       Mssql.SchemaHasObjects Mssql.GetPermissions];
  match goal with |- context [Mssql.queryInDatabase ?db ?zero ?fn] =>
    apply (sends_after (Mssql.queryInDatabase db zero fn)); [apply sends_query; silently|] end;
  intros ? ? ? e ? Hq; rewrite Hq; destruct e; do 2 eexists; (split; [reflexivity|done]).

Ltac text_norm := repeat first [rewrite string_app_cons | rewrite string_app_assoc | rewrite string_app_nil_l].
(** Plain text is quoted as it is. *)
Lemma plain_quote s : plain s = true -> QuoteString s = "N'" +:+ s +:+ "'".
Proof.
  intros Hs. unfold QuoteString. do 2 f_equal. induction s as [|ch s IH]; [done|].
  apply andb_prop in Hs as [Hc Hs]. cbn. rewrite IH by done.
  unfold plain_char in Hc. apply negb_true_iff in Hc. rewrite !orb_false_iff in Hc.
  destruct Hc as [[[[_ Hc] _] _] _]. by rewrite Hc.
Qed.
Lemma listener_ips_render b ips s :
  forallb plain (ips ≫= fun ip => [alip_IP ip; alip_SubnetMask ip]) = true ->
  Mssql.listener_ips b ips +:+ s = foldr (fun p s => piece_sql p +:+ s) s (addresses_template b ips).
Proof.
  revert b. induction ips as [|ip ips IH]; intros b; [done|]. cbn [mbind list_bind app forallb].
  rewrite !andb_true_iff. intros (Hip & Hmask & Hips).
  cbn [Mssql.listener_ips addresses_template]. rewrite !foldr_app, !string_app_assoc, IH by done.
  cbn [foldr piece_sql]. rewrite !plain_quote by done.
  cbn [Sprintf is_verb Ascii.eqb Bool.eqb andb orb].
  text_norm. by destruct b.
Qed.
Lemma AddListener_query_render ag l :
  forallb plain (alc_IPAddresses l ≫= fun ip => [alip_IP ip; alip_SubnetMask ip]) = true ->
  Mssql.AddListener_query ag l = render (add_listener_template ag l).
Proof.
  intros Hips. unfold Mssql.AddListener_query, add_listener_template, render. rewrite !foldr_app.
  case_bool_decide.
  - cbn [foldr piece_sql app]. unfold QuoteString.
    cbn [Sprintf is_verb Ascii.eqb Bool.eqb andb orb].
    text_norm. reflexivity.
  - rewrite !foldr_app, !string_app_assoc, listener_ips_render by done. cbn [foldr piece_sql]. unfold QuoteString.
    cbn [Sprintf is_verb Ascii.eqb Bool.eqb andb orb].
    text_norm. reflexivity.
Qed.
(** The moved files, each clause after a separator. *)
Lemma moves_render m ls s :
  Join (s :: (Mssql.move_clause m <$> ls)) ", " =
  s +:+ foldr (fun p s => piece_sql p +:+ s) "" (ls ≫= move_template m).
Proof.
  revert s. induction ls as [|l ls IH]; intros s; [cbn; by rewrite string_app_nil_r|].
  change (Join (s :: (Mssql.move_clause m <$> l :: ls)) ", ")
    with (s +:+ ", " +:+ Join (Mssql.move_clause m l :: (Mssql.move_clause m <$> ls)) ", ").
  rewrite IH. cbn [mbind list_bind]. rewrite foldr_app. cbn [foldr piece_sql move_template].
  unfold Mssql.move_clause. cbn [Sprintf is_verb Ascii.eqb Bool.eqb andb orb].
  text_norm. reflexivity.
Qed.

#[local] Existing Instance Mssql.mssql_client.

(** Every method sends its templates; only one depends on the order of a map. *)
Definition moves_files (call : Call) : bool :=
  match call with CRestoreDatabaseWithMove _ _ _ => true | _ => false end.
Lemma perform_sends_fixed order call :
  forallb plain (raw_args hex call) = true -> moves_files call = false ->
  sends (perform call) (render <$> expected hex order call).
Proof.
  intros Hraw. destruct call; try done; intros _;
    try (apply sends_exec; reflexivity);
    try (apply sends_in_database; reflexivity);
    try (apply sends_query; silently);
    try afterwards.
  - cbn [expected fmap list_fmap]. apply sends_exec. rewrite opt_clause_render.
    destruct collation as [x|]; [destruct (String.eqb x "")|];
      cbn -[QuoteName]; by string_norm.
  - cbn [expected fmap list_fmap]. apply (sends_in_database db). rewrite opt_clause_render.
    destruct owner as [x|]; [destruct (String.eqb x "")|];
      cbn -[QuoteName]; by string_norm.
  - exact (sends_permission "GRANT " " TO " db permission target user _).
  - exact (sends_permission "DENY " " TO " db permission target user _).
  - exact (sends_permission "REVOKE " " FROM " db permission target user _).
  - cbn [perform]. rewrite <- BackupDatabase_query_render. by apply sends_exec.
  - cbn [expected fmap list_fmap].
    apply (sends_seq (fun c d => ExecContext (inl c) _ d) _ _ [_]); [|apply sends_add_databases].
    intros c d l err d' l'. cbn. rewrite CreateAG_query_render.
    destruct (ExecContext _ _ _) as [e d1]. intros [= <- <- <-]. by eexists [_].
  - apply sends_exec. destruct (String.eqb clusterType "NONE") eqn:E;
      cbn -[QuoteName String.eqb]; rewrite ?E; by string_norm.
  - apply sends_exec. destruct value; cbn -[QuoteName]; by string_norm.
  - apply (sends_seq (fun c d => ExecContext (inl c) _ d) (Mssql.exec _ _) _ [_] [_]);
      [|by apply sends_exec].
    intros c d l err d' l'. cbn.
    destruct (ExecContext _ _ _) as [e d1]. intros [= <- <- <-]. by eexists [_].
  - apply sends_exec, AddListener_query_render. cbn [raw_args forallb] in Hraw.
    by apply andb_prop in Hraw as [_ Hraw].
Qed.
Lemma perform_sends call c d l err d' l' :
  forallb plain (raw_args hex call) = true -> perform call c (d, l) = (err, (d', l')) ->
  exists sent, l' = l ++ sent /\ sent `prefix_of` (render <$> expected hex (order_of d) call) /\
    (err = None -> sent = render <$> expected hex (order_of d) call).
Proof.
  intros Hraw. destruct (moves_files call) eqn:Hm; [|by apply perform_sends_fixed].
  destruct call; try done. intros Hrun. eapply sends_exec; [|exact Hrun].
  rewrite moves_render. unfold render. rewrite foldr_app. cbn [foldr piece_sql].
  cbn [Sprintf is_verb Ascii.eqb Bool.eqb andb orb]. text_norm. reflexivity.
Qed.

(** The templates are well formed when the raw arguments are plain text. *)
Lemma replicas_template_ok b rs ps :
  forallb plain (rs ≫= fun r =>
    [arc_AvailabilityMode r; arc_FailoverMode r; arc_SeedingMode r; arc_SecondaryRole r]) = true ->
  template_ok ps = true -> template_ok (replicas_template b rs ++ ps) = true.
Proof.
  revert b. induction rs as [|r rs IH]; intros b Hr Hps; [done|].
  cbn in Hr. rewrite !andb_true_iff in Hr. destruct Hr as (Ha & Hf & Hs & Hsec & Hr).
  cbn [replicas_template]. rewrite <- !(assoc_L (++)).
  assert (Hrest : template_ok (replica_template r ++ replicas_template false rs ++ ps) = true).
  { cbn -[plain replicas_template]. rewrite Ha, Hf, Hs, Hsec, (IH false Hr Hps). done. }
  destruct b; cbn [app]; [done|]. by cbn -[plain replica_template replicas_template].
Qed.

Lemma moves_ok m ls : template_ok (ls ≫= move_template m) = true.
Proof.
  induction ls as [|l ls IH]; [done|]. cbn [mbind list_bind]. cbn -[render].
  change (list_bind _ _ (move_template m) ls) with (ls ≫= move_template m). rewrite IH, andb_true_r.
  by destruct ls.
Qed.
Lemma addresses_ok b ips ps :
  template_ok ps = true -> template_ok (addresses_template b ips ++ ps) = true.
Proof.
  revert b. induction ips as [|ip ips IH]; intros b Hps; [done|].
  cbn [addresses_template]. rewrite <- !(assoc_L (++)).
  assert (Hrest : template_ok ([PText "        ("; PStr (alip_IP ip); PText ", "; PStr (alip_SubnetMask ip);
    PText ")"] ++ addresses_template false ips ++ ps) = true) by (cbn -[addresses_template]; by rewrite IH).
  by destruct b.
Qed.

Lemma expected_ok order call :
  forallb plain (raw_args hex call) = true -> Forall (fun ps => template_ok ps = true) (expected hex order call).
Proof.
  destruct call; cbn [raw_args expected forallb]; rewrite ?andb_true_r; intros Hraw;
    try (unfold permission_statement; destruct (IsValidPermission permission) eqn:Hp; [|done];
         apply IsValidPermission_plain in Hp);
    repeat constructor; try done;
    try (cbn -[plain]; by rewrite ?Hraw, ?Hp);
    try (cbn [app template_ok]; rewrite Hp; by apply target_template).
  - destruct collation as [x|]; [|done]. unfold opt_clause. by destruct (String.eqb x "").
  - destruct owner as [x|]; [|done]. unfold opt_clause. by destruct (String.eqb x "").
  - unfold backup_suffix. destruct (String.eqb backupType "Log"),
      (String.eqb backupType "Differential"), compression; done.
  - cbn [app forallb] in Hraw. rewrite !andb_true_iff in Hraw. destruct Hraw as (Hc & Hp & Hr).
    unfold create_ag_template. cbn -[plain replicas_template].
    rewrite Hp, (replicas_template_ok true _ [PText ";"] Hr eq_refl), !andb_true_r.
    destruct (String.eqb _ ""), (agc_DBFailover config); rewrite ?Hc; done.
  - apply Forall_fmap, Forall_true. done.
  - by destruct (String.eqb clusterType "NONE").
  - cbn -[plain]. rewrite Hraw. by destruct value.
  - apply moves_ok.
  - cbn -[plain] in *. by rewrite Hraw.
  - apply andb_prop in Hraw as [Hport _]. unfold add_listener_template.
    assert (Hend : template_ok [PText "    PORT = "; PText (fmt_d (alc_Port listener)); PText (nl +:+ ");")] = true)
      by (cbn -[plain]; by rewrite Hport).
    case_bool_decide; [exact Hend|]. rewrite <- !(assoc_L (++)). cbn -[addresses_template plain].
    by rewrite addresses_ok.
Qed.

(** [LoginHasUsers] executes nothing but switches to the databases it looks at,
    each one a single statement. *)
Lemma any_database_switches login names c d l b d' l' :
  Mssql.any_database_has_user login names c (d, l) = (b, (d', l')) ->
  exists dbs, l' = l ++ (render <$> (use <$> dbs)).
Proof.
  revert d l. induction names as [|n names IH]; intros d l; cbn [Mssql.any_database_has_user].
  { intros [= _ _ <-]. exists []. cbn. by rewrite app_nil_r. }
  match goal with |- context [Mssql.queryInDatabase ?db ?zero ?fn c ?s] =>
    pose proof (sends_query db zero fn ltac:(silently) c d l) as Hq; unfold ask in Hq;
    destruct (Mssql.queryInDatabase db zero fn c s) as [[cnt err] [d1 l1]] end.
  destruct (Hq _ _ _ eq_refl) as (sent & -> & Hp & _).
  assert (exists dbs, sent = render <$> (use <$> dbs)) as [dbs ->].
  { destruct sent as [|x sent]; [by exists []|]. pose proof (prefix_cons_inv_1 _ _ _ _ Hp) as ->.
    apply prefix_cons_inv_2, prefix_nil_inv in Hp as ->. by exists [n]. }
  destruct err as [e|]; [|destruct (0 <? cnt); [intros [= _ _ <-]; by exists dbs|]];
    (intros (dbs' & ->)%IH; exists (dbs ++ dbs'); by rewrite !fmap_app, (assoc_L (++))).
Qed.
Lemma login_has_users_switches login c d l d' l' r :
  Mssql.LoginHasUsers login c (d, l) = (r, (d', l')) ->
  exists dbs, l' = l ++ (render <$> (use <$> dbs)) /\
    Forall (fun ps => tokens (render ps) = Some (template_tokens ps)) (use <$> dbs).
Proof.
  intros Hrun. cut (exists dbs, l' = l ++ (render <$> (use <$> dbs))).
  { intros [dbs ->]. exists dbs. split; [done|]. apply Forall_fmap, Forall_true. intros db. by apply tokens_render. }
  revert Hrun. unfold Mssql.LoginHasUsers. cbn. assert (exists dbs, l = l ++ (render <$> (use <$> dbs))).
  { exists []. cbn. by rewrite app_nil_r. }
  destruct (QueryRows _ _ _ _ d) as [[[rows rerr]|e] d1]; cbn; [|by intros [= _ _ <-]].
  match goal with |- context [Mssql.scan_rows ?f ?rs] => destruct (Mssql.scan_rows f rs) as [names [e|]] end;
    [by intros [= _ _ <-]|]. destruct rerr as [e|]; [by intros [= _ _ <-]|].
  destruct (Mssql.any_database_has_user login names c (d1, l)) as [b [d2 l2]] eqn:Hany.
  intros [= _ _ <-]. by eapply any_database_switches.
Qed.

(** C13: every method of the SQL Server client that passes statements to
    ExecContext (all that change something, and the queries that switch to a
    database; LoginHasUsers apart, whose USE statements name databases the
    server lists) passes its T-SQL templates with the names and strings in
    single identifier or string tokens: a prefix of the templates, all of
    them when it reports no error, whatever the arguments hold, provided the
    few arguments the code emits as they are hold plain text (no bracket,
    quote, dash or slash): the scope of a permission target, the modes of
    the replicas of a new group, its cluster type and backup preference, a
    recovery model, the name of an option, numbers, the hexadecimal of a
    certificate, and the addresses and masks of a listener. *)
Theorem statements_are_templates call c d err d' sent :
  forallb plain (raw_args hex call) = true ->
  perform call c (d, []) = (err, (d', sent)) ->
  sent `prefix_of` (render <$> expected hex (order_of d) call) /\
  (err = None -> sent = render <$> expected hex (order_of d) call) /\
  Forall (fun ps => tokens (render ps) = Some (template_tokens ps)) (expected hex (order_of d) call).
Proof.
  intros Hraw Hrun. apply perform_sends in Hrun as (s & -> & Hp & He); [|done].
  split_and!; [done..|].
  eapply Forall_impl; [by apply expected_ok|]. apply tokens_render.
Qed.
End Recorder.

(** ** Examples *)
(** A driver that accepts every statement and has no rows. *)
Definition accepting_driver : SqlDriver unit unit unit := {|
  Open _ d := (inl tt, d);
  db_Close _ d := (None, d);
  db_Ping _ d := (None, d);
  db_Conn _ d := (inl tt, d);
  conn_Close _ d := (None, d);
  ExecContext _ _ d := (None, d);
  QueryRow _ _ _ _ d := (inr (ErrString "no rows"), d);
  QueryRows _ _ _ _ d := (inl ([], None), d);
  order_of _ l := l;
  url_String _ host _ := host;
  hex _ := ""
|}.

(** A call on a recorded connection of that driver. *)
Definition run_call (call : Call) : option error * list string :=
  let '(err, (_, sent)) :=
    perform (H0 := @Mssql.mssql_client example_env unit unit _ (@recorder unit unit unit accepting_driver))
      call tt (tt, []) in (err, sent).

Lemma statements_are_templates_witness :
  run_call (CCreateUser "app]db" "u" "l'x") = (None, ["USE [app]]db]"; "CREATE USER [u] FOR LOGIN [l'x]"]) /\
  ["USE [app]]db]"; "CREATE USER [u] FOR LOGIN [l'x]"] =
    render <$> expected (H := example_env) (fun _ => "") (fun l => l) (CCreateUser "app]db" "u" "l'x").
Proof.
  split; [by vm_compute|].
  exact (proj1 (proj2 (@statements_are_templates example_env unit unit unit accepting_driver
    (CCreateUser "app]db" "u" "l'x") tt tt None tt _ eq_refl eq_refl)) eq_refl).
Defined.

(** A bare permission target is sent as it is written, upper-cased. *)
Lemma GrantPermission_bare_target :
  run_call (CGrantPermission "db" "SELECT" "database to [u]; drop table t; select 1 as x" "u") =
  (None, ["USE [db]"; "GRANT SELECT ON DATABASE TO [U]; DROP TABLE T; SELECT 1 AS X TO [u]"]).
Proof. by vm_compute. Qed.

(** So is an address of a listener: a quote in it ends the string. *)
Lemma AddListenerToAG_bare_address :
  (run_call (CAddListenerToAG "ag" (mkAGListenerConfig "l" 1433
    [mkAGListenerIPConfig "10.0.0.1', N'255.0.0.0')), PORT = 1); DROP LOGIN [sa]; --" "255.0.0.0"]))).2 =
  ["ALTER AVAILABILITY GROUP [ag]" +:+ nl +:+ "ADD LISTENER N'l' (" +:+ nl +:+ "    WITH IP (" +:+ nl +:+
   "        (N'10.0.0.1', N'255.0.0.0')), PORT = 1); DROP LOGIN [sa]; --', N'255.0.0.0')" +:+ nl +:+
   "    )," +:+ nl +:+ "    PORT = 1433" +:+ nl +:+ ");"].
Proof. by vm_compute. Qed.

(** Moved files and a certificate. *)
Example run_move :
  run_call (CRestoreDatabaseWithMove "app" "/b.bak" {["a'b" := "/d.mdf"]}) =
  (None, ["RESTORE DATABASE [app] FROM DISK = N'/b.bak' WITH REPLACE, MOVE N'a''b' TO N'/d.mdf'"]).
Proof. by vm_compute. Qed.
