(* ===== verification/Kube.v ===== *)
(** * The Kubernetes side and the world of a reconciler

    controller-runtime's client and the helpers of k8s.io/apimachinery are third
    party: classes [KubeClient] and [KubeUtil], with the behaviour the operator
    relies on in [KubeUtilLaws]. A reconciler runs in the [Go] monad on a
    [World]: the API server, the SQL servers, a log of everything it did (each
    action with the state of the SQL servers at that moment), and the number of
    observations of the environment made so far. Contexts and their timeouts are
    not modelled: a call that times out is one that returns an error, which
    every call may do.

    The judgement [does P m F E w] is how the reconcilers are specified: run
    from [w], [m] does not panic, performs only actions allowed by [P] (which
    sees the SQL state the action is performed in), and ends either falling
    through with [F] or leaving the function with [E]. *)
From Stdlib Require Import Eqdep_dec.
From S2P Require Import Prelude Types SqlClient.

(** ** controller-runtime *)
(** [Get] and [List] (in a namespace, with [MatchingLabels]) return the decoded
    objects; the writes return the object
    as the server sent it back, which the Go client decodes into its argument.
    A patch is [client.MergeFrom(base)] applied to the modified object. *)
Class KubeClient (K : Type) := {
  kube_Get : forall k, NamespacedName -> K -> (obj k + error) * K;
  kube_List : forall k, option string -> gmap string string -> K -> (list (obj k) + error) * K;
  kube_Create : forall k, obj k -> K -> (obj k + error) * K;
  kube_Update : forall k, obj k -> K -> (obj k + error) * K;
  kube_Delete : forall k, obj k -> K -> option error * K;
  kube_Patch : forall k, obj k -> obj k -> K -> (obj k + error) * K;
  kube_StatusPatch : forall k, obj k -> obj k -> K -> (obj k + error) * K
}.

(** controllerutil and apimachinery/pkg/api/meta. *)
Class KubeUtil := {
  ContainsFinalizer : ObjectMeta -> string -> bool;
  AddFinalizer : ObjectMeta -> string -> ObjectMeta;
  RemoveFinalizer : ObjectMeta -> string -> ObjectMeta;
  SetStatusCondition : list Condition -> Condition -> list Condition;
  (* owner, object: the object's metadata with the owner as its controller *)
  SetControllerReference : ObjectMeta -> ObjectMeta -> ObjectMeta + error
}.

Definition find_condition (t : string) (conds : list Condition) : option Condition :=
  List.find (fun c => String.eqb (c_Type c) t) conds.

Class KubeUtilLaws `{KubeUtil} := {
  ContainsFinalizer_spec m f : ContainsFinalizer m f = bool_decide (f ∈ Finalizers m);
  AddFinalizer_spec m f :
    f ∈ Finalizers (AddFinalizer m f) /\ with_finalizers (Finalizers m) (AddFinalizer m f) = m;
  RemoveFinalizer_spec m f :
    RemoveFinalizer m f = with_finalizers (filter (fun g => g <> f) (Finalizers m)) m;
  SetStatusCondition_spec conds c :
    find_condition (c_Type c) (SetStatusCondition conds c) = Some c /\
    forall t, t <> c_Type c ->
      find_condition t (SetStatusCondition conds c) = find_condition t conds;
  SetControllerReference_spec owner m m' :
    SetControllerReference owner m = inl m' ->
    m' = with_owners (OwnerReferences m') m /\ mkOwner (Name owner) true ∈ OwnerReferences m'
}.

(** ** The world of a reconciler *)
(** What is done to the metric with these labels; the duration observed is not
    modelled. *)
Inductive MetricOp := Inc | Observed | SetTo (v : Z) | SetToCurrentTime.

Inductive Action (Conn : Type) : Type :=
| AUpdate (k : Kind) (o : obj k)
| ACreate (k : Kind) (o : obj k)
| ADelete (k : Kind) (o : obj k)
| APatch (k : Kind) (base o : obj k)
| AStatusPatch (k : Kind) (base o : obj k)
| AConnect (host : string) (port : Z) (username password : string) (tls : bool) (c : Conn)
| ASql (c : Conn) (method : string) (args : list string)
| AEvent (eventtype reason message : string)
| AMetric (metric : string) (labels : list string) (op : MetricOp).
Arguments AUpdate {Conn} k o.
Arguments ACreate {Conn} k o.
Arguments ADelete {Conn} k o.
Arguments APatch {Conn} k base o.
Arguments AStatusPatch {Conn} k base o.
Arguments AConnect {Conn} host port username password tls c.
Arguments ASql {Conn} c method args.
Arguments AEvent {Conn} eventtype reason message.
Arguments AMetric {Conn} metric labels op.

Record World (K D Conn : Type) := mkWorld {
  w_kube : K;
  w_sql : D;
  w_log : list (Action Conn * D);   (* each with the SQL state it was done in *)
  w_tick : nat
}.
Arguments mkWorld {K D Conn} _ _ _ _.
Arguments w_kube {K D Conn} _.
Arguments w_sql {K D Conn} _.
Arguments w_log {K D Conn} _.
Arguments w_tick {K D Conn} _.

(** [ctrl.Result]. *)
Record Result := mkResult { Requeue : bool; RequeueAfter : Z }.
Definition Result0 : Result := mkResult false 0.
Definition RequeueIn (d : Z) : Result := mkResult false d.

Definition EventTypeNormal := "Normal".
Definition EventTypeWarning := "Warning".

Section World_.
Context `{GoEnv} {K D Conn : Type} `{KubeClient K}.
Abbreviation W := (World K D Conn).

Definition log_world (a : Action Conn) (w : W) : W :=
  mkWorld (w_kube w) (w_sql w) (w_log w ++ [(a, w_sql w)]) (w_tick w).
Definition logged {R} (a : Action Conn) : Go W R unit := modify (log_world a).
Definition Event {R} (t reason msg : string) : Go W R unit := logged (AEvent t reason msg).
Definition Metric {R} (m : string) (labels : list string) (op : MetricOp) : Go W R unit :=
  logged (AMetric m labels op).

(** API calls; the writes are logged with what was asked. *)
Definition on_kube {R A} (f : K -> A * K) : Go W R A := fun w =>
  let '(x, k') := f (w_kube w) in (Next x, mkWorld k' (w_sql w) (w_log w) (w_tick w)).
Definition Get {R} k (key : NamespacedName) : Go W R (obj k + error) := on_kube (kube_Get k key).
Definition List_ {R} k (ns : option string) (labels : gmap string string)
    : Go W R (list (obj k) + error) := on_kube (kube_List k ns labels).
Definition Create {R} k (o : obj k) : Go W R (obj k + error) :=
  logged (ACreate k o) ;; on_kube (kube_Create k o).
Definition Update {R} k (o : obj k) : Go W R (obj k + error) :=
  logged (AUpdate k o) ;; on_kube (kube_Update k o).
Definition Delete_ {R} k (o : obj k) : Go W R (option error) :=
  logged (ADelete k o) ;; on_kube (kube_Delete k o).
Definition Patch {R} k (base o : obj k) : Go W R (obj k + error) :=
  logged (APatch k base o) ;; on_kube (kube_Patch k base o).
Definition StatusPatch {R} k (base o : obj k) : Go W R (obj k + error) :=
  logged (AStatusPatch k base o) ;; on_kube (kube_StatusPatch k base o).

(** SQL calls: [sql c "M" args (M args)]. *)
Definition on_sql {R A} (f : D -> A * D) : Go W R A := fun w =>
  let '(x, d') := f (w_sql w) in (Next x, mkWorld (w_kube w) d' (w_log w) (w_tick w)).
Definition sql {R A} (c : Conn) (method : string) (args : list string)
    (f : Conn -> D -> A * D) : Go W R A :=
  logged (ASql c method args) ;; on_sql (f c).

(** Observations of the environment. *)
Definition observe {R A} (f : nat -> A) : Go W R A := fun w =>
  (Next (f (w_tick w)), mkWorld (w_kube w) (w_sql w) (w_log w) (S (w_tick w))).
Definition Now {R} : Go W R Z := observe clock.
(** [time.Since(t) < d]. *)
Definition since_less {R} (t d : Z) : Go W R bool :=
  now ← Now; mret (time_sub now t <? d).
(** [rand.Int63n]: uniform in [0, n), panics when n <= 0. *)
Definition Int63n {R} (n : Z) : Go W R Z :=
  if n <=? 0 then panic "invalid argument to Int63n"
  else observe (fun t => rand63 t mod n).
(** The order in which [range] visits a map with these keys. *)
Definition range_keys {R} (keys : list string) : Go W R (list string) :=
  observe (fun t => range_order t keys).

(** ** The judgement *)
(** The last conjunct but one is for times read from the clock: they are read
    in order. *)
Definition does {R A} (P : Action Conn -> D -> Prop) (m : Go W R A)
    (F : A -> W -> Prop) (E : R -> W -> Prop) (w : W) : Prop :=
  wp m (fun o w' =>
    (exists l, w_log w' = w_log w ++ l /\ Forall (fun x => P x.1 x.2) l) /\
    (w_tick w <= w_tick w')%nat /\
    match o with Next a => F a w' | Return r => E r w' | Panic _ => False end) w.

Section Rules.
Context {R : Type}.
Implicit Types (w : W) (P : Action Conn -> D -> Prop) (E : R -> W -> Prop).

Lemma does_run {A} P (m : Go W R A) F E w o w' :
  does P m F E w -> m w = (o, w') ->
  (exists l, w_log w' = w_log w ++ l /\ Forall (fun x => P x.1 x.2) l) /\
  (w_tick w <= w_tick w')%nat /\
  match o with Next a => F a w' | Return r => E r w' | Panic _ => False end.
Proof. intros Hd Hrun. by apply (wp_run m _ w o w' Hrun) in Hd. Qed.

Lemma does_intro {A} P (m : Go W R A) F E w :
  (forall o w', m w = (o, w') ->
    (exists l, w_log w' = w_log w ++ l /\ Forall (fun x => P x.1 x.2) l) /\
    (w_tick w <= w_tick w')%nat /\
    match o with Next a => F a w' | Return r => E r w' | Panic _ => False end) ->
  does P m F E w.
Proof. intros Hr. unfold does. by apply run_wp. Qed.

Lemma no_action P w : exists l, w_log w = w_log w ++ l /\ Forall (fun x => P x.1 x.2) l.
Proof. exists []. by rewrite app_nil_r. Qed.

Lemma does_mono {A} P P' (m : Go W R A) (F F' : A -> W -> Prop) E E' w :
  does P m F E w -> (forall a d, P a d -> P' a d) ->
  (forall a w', F a w' -> F' a w') -> (forall r w', E r w' -> E' r w') ->
  does P' m F' E' w.
Proof.
  intros Hd HP HF HE. apply does_intro. intros o w' Hrun.
  destruct (does_run _ _ _ _ _ _ _ Hd Hrun) as ((l & Hl & HlP) & Ht & Ho).
  split; [exists l; split; [done|]; eapply Forall_impl; [exact HlP|]; auto|].
  split; [done|]. destruct o; auto.
Qed.

Lemma does_post {A} P (m : Go W R A) (F F' : A -> W -> Prop) E E' w :
  does P m F E w ->
  (forall a w', F a w' -> F' a w') -> (forall r w', E r w' -> E' r w') ->
  does P m F' E' w.
Proof. intros Hd HF HE. by eapply does_mono. Qed.

(** Two judgements of the same run. *)
Lemma does_and {A} P P' (m : Go W R A) (F F' : A -> W -> Prop) E E' w :
  does P m F E w -> does P' m F' E' w ->
  does (fun a d => P a d /\ P' a d) m (fun a w' => F a w' /\ F' a w') (fun r w' => E r w' /\ E' r w') w.
Proof.
  intros H1 H2. apply does_intro. intros o w' Hrun.
  destruct (does_run _ _ _ _ _ _ _ H1 Hrun) as ((l & Hl & HP) & Ht & Ho).
  destruct (does_run _ _ _ _ _ _ _ H2 Hrun) as ((l' & Hl' & HP') & _ & Ho').
  assert (l' = l) as -> by (rewrite Hl in Hl'; by apply app_inv_head in Hl').
  split; [exists l; split; [done|by apply Forall_and]|]. split; [done|]. by destruct o.
Qed.

(** The log and the number of observations only grow. *)
Definition later (w w' : W) : Prop :=
  (exists l, w_log w' = w_log w ++ l) /\ (w_tick w <= w_tick w')%nat.
Lemma does_later {A} P (m : Go W R A) (F : A -> W -> Prop) E w :
  does P m F E w -> does P m (fun a w' => F a w' /\ later w w') (fun r w' => E r w' /\ later w w') w.
Proof.
  intros Hd. apply does_intro. intros o w' Hrun.
  destruct (does_run _ _ _ _ _ _ _ Hd Hrun) as ((l & Hl & HP) & Ht & Ho).
  assert (later w w') by (split; [by exists l|done]).
  split_and!; [by exists l|done|]. by destruct o.
Qed.

(** The outcome is known. *)
Lemma does_known {A} P (m : Go W R A) F E w a w' :
  does P m (fun _ _ => True) (fun _ _ => True) w -> m w = (Next a, w') -> F a w' -> does P m F E w.
Proof.
  intros Hd Hrun HF. apply does_intro. intros o w1 Hrun'. rewrite Hrun in Hrun'. injection Hrun' as <- <-.
  destruct (does_run _ _ _ _ _ _ _ Hd Hrun) as (? & ? & _). by split_and!.
Qed.

Lemma does_ret {A} P (a : A) F E w : F a w -> does P (mret a) F E w.
Proof. intros HF. apply does_intro. intros ?? [= <- <-]. split_and!; [exact (no_action P w)|cbn; lia|done]. Qed.

Lemma does_return {A} P (r : R) (F : A -> W -> Prop) E w : E r w -> does P (return_ r) F E w.
Proof. intros HE. apply does_intro. intros ?? [= <- <-]. split_and!; [exact (no_action P w)|cbn; lia|done]. Qed.

Lemma does_bind {A B} P (m : Go W R A) (k : A -> Go W R B) F E w :
  does P m (fun a => does P (k a) F E) E w -> does P (m ≫= k) F E w.
Proof.
  intros Hm. apply does_intro. intros o w' Hrun. unfold mbind, go_bind in Hrun.
  destruct (m w) as [om w1] eqn:Em.
  destruct (does_run _ _ _ _ _ _ _ Hm Em) as ((l1 & Hl1 & HP1) & Ht1 & Ho).
  destruct om as [a|r|s]; [|by simplify_eq; eauto|done].
  destruct (does_run _ _ _ _ _ _ _ Ho Hrun) as ((l2 & Hl2 & HP2) & Ht2 & Ho2).
  split; [|by split; [lia|]]. exists (l1 ++ l2). rewrite Hl2, Hl1, (assoc_L (++)).
  split; [done|]. by apply Forall_app.
Qed.

Lemma does_logged P a (F : unit -> W -> Prop) E w :
  P a (w_sql w) -> F tt (log_world a w) -> does P (logged a) F E w.
Proof.
  intros HP HF. apply does_intro. intros ?? [= <- <-]. split; [|by split].
  exists [(a, w_sql w)]. by repeat constructor.
Qed.

Lemma does_on_kube {A} P (f : K -> A * K) F E w :
  (forall x k', f (w_kube w) = (x, k') -> F x (mkWorld k' (w_sql w) (w_log w) (w_tick w))) ->
  does P (on_kube f) F E w.
Proof.
  intros HF. apply does_intro. unfold on_kube. intros o w'.
  destruct (f (w_kube w)) as [x k'] eqn:Ef. intros [= <- <-].
  split; [exact (no_action P w)|]. split; [done|]. by apply HF.
Qed.

Lemma does_on_sql {A} P (f : D -> A * D) F E w :
  (forall x d', f (w_sql w) = (x, d') -> F x (mkWorld (w_kube w) d' (w_log w) (w_tick w))) ->
  does P (on_sql f) F E w.
Proof.
  intros HF. apply does_intro. unfold on_sql. intros o w'.
  destruct (f (w_sql w)) as [x d'] eqn:Ef. intros [= <- <-].
  split; [exact (no_action P w)|]. split; [done|]. by apply HF.
Qed.

Lemma does_observe {A} P (f : nat -> A) F E w :
  F (f (w_tick w)) (mkWorld (w_kube w) (w_sql w) (w_log w) (S (w_tick w))) ->
  does P (observe f) F E w.
Proof. intros HF. apply does_intro. intros ?? [= <- <-]. split_and!; [exact (no_action P w)|cbn; lia|done]. Qed.

Lemma does_Int63n P n (F : Z -> W -> Prop) E w :
  0 < n ->
  (forall v, 0 <= v < n -> F v (mkWorld (w_kube w) (w_sql w) (w_log w) (S (w_tick w)))) ->
  does P (Int63n n) F E w.
Proof.
  intros Hn HF. unfold Int63n. destruct (Z.leb_spec n 0); [lia|].
  apply does_observe, HF, Z.mod_pos_bound, Hn.
Qed.

(** The cleanup runs after whatever the body did. *)
Lemma does_defer {A} P (cleanup : Go W R unit) (m : Go W R A) F E w :
  does P m (fun a => does P cleanup (fun _ w' => F a w') (fun _ w' => F a w'))
           (fun r => does P cleanup (fun _ w' => E r w') (fun _ w' => E r w')) w ->
  does P (defer_ cleanup m) F E w.
Proof.
  intros Hm. apply does_intro. intros o w'. unfold defer_.
  destruct (m w) as [om w1] eqn:Em. destruct (cleanup w1) as [oc w2] eqn:Ec. intros Hrun.
  destruct (does_run _ _ _ _ _ _ _ Hm Em) as ((l1 & Hl1 & HP1) & Ht1 & Ho).
  assert (Hc : exists l, w_log w2 = w_log w ++ l /\ Forall (fun x => P x.1 x.2) l /\
             (w_tick w <= w_tick w2)%nat /\
             match oc with Panic _ => False | _ =>
               match om with Next a => F a w2 | Return r => E r w2 | Panic _ => False end end).
  { destruct om as [a|r|s]; [| |done];
      destruct (does_run _ _ _ _ _ _ _ Ho Ec) as ((l2 & Hl2 & HP2) & Ht2 & Hoc);
      exists (l1 ++ l2); rewrite Hl2, Hl1, (assoc_L (++));
      (split_and!; [done|by apply Forall_app|lia|by destruct oc]). }
  destruct Hc as (l & Hl & HPl & Ht & Hoc). destruct oc; [| |done];
    injection Hrun as <- <-; (split_and!; [by exists l|done|done]).
Qed.

(** A loop over [xs], with an invariant on what is left to visit. *)
Lemma does_for_each {A} (I : list A -> W -> Prop) P (body : A -> Go W R unit) xs
    (F : unit -> W -> Prop) E w :
  I xs w ->
  (forall x xs' w', I (x :: xs') w' -> does P (body x) (fun _ => I xs') E w') ->
  (forall w', I [] w' -> F tt w') ->
  does P (for_each xs body) F E w.
Proof.
  intros HI Hstep Hend. revert w HI. induction xs as [|x xs IH]; intros w HI; cbn.
  - by apply does_ret, Hend.
  - apply does_bind. eapply does_mono; [by apply Hstep|done| |done]. intros [] w'. apply IH.
Qed.

(** A loop whose rounds only need to know their element. *)
Lemma does_for_each_in {A} P (body : A -> Go W R unit) xs (F : unit -> W -> Prop) E w :
  (forall x w', x ∈ xs -> does P (body x) (fun _ _ => True) E w') -> (forall w', F tt w') ->
  does P (for_each xs body) F E w.
Proof.
  intros Hbody HF. apply (does_for_each (fun xs' _ => xs' ⊆ xs)); [done| |done].
  intros x xs' w' Hsub. eapply does_post; [apply Hbody; set_solver| |done]. set_solver.
Qed.

(** A loop with a local variable. *)
Lemma does_fold_each {S A} (I : list A -> S -> W -> Prop) P (body : S -> A -> Go W R S) xs s
    (F : S -> W -> Prop) E w :
  I xs s w ->
  (forall x xs' s' w', I (x :: xs') s' w' -> does P (body s' x) (fun s'' => I xs' s'') E w') ->
  (forall s' w', I [] s' w' -> F s' w') ->
  does P (fold_each xs s body) F E w.
Proof.
  intros HI Hstep Hend. revert s w HI. induction xs as [|x xs IH]; intros s w HI; cbn.
  - by apply does_ret, Hend.
  - apply does_bind. eapply does_mono; [by apply Hstep|done| |done]. intros s' w'. apply IH.
Qed.
End Rules.

Lemma does_fn {R R'} P (m : Go W R' R') (F : R' -> W -> Prop) (E : R -> W -> Prop) (w : W) :
  does P m F F w -> does P (fn m) F E w.
Proof.
  intros Hm. apply does_intro. intros o w'. unfold fn.
  destruct (m w) as [om w1] eqn:Em.
  pose proof (does_run _ _ _ _ _ _ _ Hm Em) as (Hl & Ht & Ho).
  destruct om; intros [= <- <-]; by split_and!.
Qed.
(** *** Runs
    When only the actions matter: from every world, [m] performs actions
    allowed by [P], does not panic, and falls through with values in [F]. *)
Definition runs {R A} (P : Action Conn -> D -> Prop) (F : A -> Prop) (m : Go W R A) : Prop :=
  forall w, does P m (fun a _ => F a) (fun _ _ => True) w.

Section RunsRules.
Context {R : Type} (P : Action Conn -> D -> Prop).

Lemma runs_does {A} (F : A -> Prop) (m : Go W R A) (F' : A -> W -> Prop) (E : R -> W -> Prop) w :
  runs P F m -> (forall a w', F a -> F' a w') -> (forall r w', E r w') -> does P m F' E w.
Proof. intros Hm HF HE. eapply does_post; [apply Hm| |]; cbn; auto. Qed.
Lemma runs_ret {A} (F : A -> Prop) a : F a -> runs (R := R) P F (mret a).
Proof. intros HF w. by apply does_ret. Qed.
Lemma runs_return {A} (F : A -> Prop) (r : R) : runs P F (return_ r).
Proof. intros w. by apply does_return. Qed.
Lemma runs_bind {A B} (F : B -> Prop) (m : Go W R A) k :
  runs P (fun _ => True) m -> (forall a, runs P F (k a)) -> runs P F (m ≫= k).
Proof. intros Hm Hk w. apply does_bind. eapply runs_does; [done| |done]. intros a w' _. apply Hk. Qed.
Lemma runs_logged (F : unit -> Prop) a :
  (forall d, P a d) -> F tt -> runs (R := R) P F (logged a).
Proof. intros HP HF w. by apply does_logged. Qed.
Lemma runs_on_kube {A} (F : A -> Prop) (f : K -> A * K) :
  (forall a, F a) -> runs (R := R) P F (on_kube f).
Proof. intros HF w. apply does_on_kube. auto. Qed.
Lemma runs_on_sql {A} (F : A -> Prop) (f : D -> A * D) :
  (forall a, F a) -> runs (R := R) P F (on_sql f).
Proof. intros HF w. apply does_on_sql. auto. Qed.
Lemma runs_observe {A} (F : A -> Prop) (f : nat -> A) :
  (forall a, F a) -> runs (R := R) P F (observe f).
Proof. intros HF w. apply does_observe. auto. Qed.
Lemma runs_for_each {A} (F : unit -> Prop) (body : A -> Go W R unit) xs :
  (forall x, runs P (fun _ => True) (body x)) -> F tt -> runs P F (for_each xs body).
Proof.
  intros Hb HF w. apply (does_for_each (fun _ _ => True)); [done| |done].
  intros x xs' w' _. apply Hb.
Qed.
Lemma runs_fold_each {S A} (F : S -> Prop) (body : S -> A -> Go W R S) xs s :
  (forall s x, runs P (fun _ => True) (body s x)) -> (forall s, F s) -> runs P F (fold_each xs s body).
Proof.
  intros Hb HF w. apply (does_fold_each (fun _ _ _ => True)); [done| |auto].
  intros x xs' s' w' _. apply Hb.
Qed.
Lemma runs_defer {A} (F : A -> Prop) (cleanup : Go W R unit) (m : Go W R A) :
  runs P F m -> runs P (fun _ => True) cleanup -> runs P F (defer_ cleanup m).
Proof.
  intros Hm Hc w. apply does_defer. eapply does_post; [apply Hm| |]; cbn; intros;
    (eapply does_post; [apply Hc| |]; done).
Qed.
End RunsRules.

Lemma runs_fn {R R'} P (F : R' -> Prop) (m : Go W R' R') :
  runs P (fun _ => True) m -> (forall a, F a) -> runs (R := R) P F (fn m).
Proof. intros Hm HF w. apply does_fn. eapply runs_does; eauto. Qed.

(** [m], run from [w], returns, having performed only actions allowed by [P]. *)
Definition performs {R} (P : Action Conn -> D -> Prop) (m : Go W R R) (w : W) : Prop :=
  exists r w' l, m w = (Return r, w') /\ w_log w' = w_log w ++ l /\
    Forall (fun x => P x.1 x.2) l.

Lemma performs_intro {R} P (m : Go W R R) (w : W) :
  does P m (fun _ _ => False) (fun _ _ => True) w -> performs P m w.
Proof.
  intros Hd. destruct (m w) as [o w'] eqn:Hrun.
  destruct (does_run _ _ _ _ _ _ _ Hd Hrun) as ((l & Hl & HP) & _ & Ho).
  destruct o as [|r|]; [done| |done]. by exists r, w', l.
Qed.

Lemma performs_mono {R} (P P' : Action Conn -> D -> Prop) (m : Go W R R) (w : W) :
  performs P m w -> (forall a d, P a d -> P' a d) -> performs P' m w.
Proof.
  intros (r & w' & l & Hrun & Hl & HP) Himp. exists r, w', l. split_and!; [done|done|].
  eapply Forall_impl; [exact HP|]. cbn. auto.
Qed.

(** [m], run from [w], returns, with the result and the world in [Q]. *)
Definition ends {R} (m : Go W R R) (Q : R -> W -> Prop) (w : W) : Prop :=
  exists r w', m w = (Return r, w') /\ Q r w'.

Lemma ends_intro {R} P (m : Go W R R) Q (w : W) :
  does P m (fun _ _ => False) Q w -> ends m Q w.
Proof.
  intros Hd. destruct (m w) as [o w'] eqn:Hrun.
  destruct (does_run _ _ _ _ _ _ _ Hd Hrun) as (_ & _ & Ho).
  destruct o as [|r|]; [done| |done]. by exists r, w'.
Qed.
End World_.

#[global] Opaque does.

(** *** Classes of actions *)
(** A status write that leaves the object Ready. *)
Definition is_ready (conds : list Condition) : Prop :=
  exists c, find_condition ConditionReady conds = Some c /\ c_Status c = ConditionTrue.
Definition ready_patch {Conn} (a : Action Conn) : Prop :=
  match a with AStatusPatch k _ o => is_ready (obj_conditions k o) | _ => False end.

(** A Ready=True write of an object of kind [k0] makes the claim [C] of the
    object it was based on, the object written and the SQL state at that moment. *)
Definition ready_claim {Conn D} (k0 : Kind) (C : obj k0 -> obj k0 -> D -> Prop)
    (a : Action Conn) (d : D) : Prop :=
  match a with
  | AStatusPatch k base o =>
      match decide (k = k0) with
      | left e => is_ready (obj_conditions k o) ->
                  C (eq_rect k obj base k0 e) (eq_rect k obj o k0 e) d
      | right _ => True
      end
  | _ => True
  end.

Section ReadyClaim.
Context {Conn D : Type} (k0 : Kind).
Implicit Types (a : Action Conn) (d : D).

Lemma ready_claim_not_ready C a d : ~ ready_patch a -> ready_claim k0 C a d.
Proof. destruct a as [| | | |k b o| | | |]; try done. cbn. by destruct (decide _). Qed.

Lemma ready_claim_mono (C C' : obj k0 -> obj k0 -> D -> Prop) a d :
  (forall base o, C base o d -> C' base o d) -> ready_claim k0 C a d -> ready_claim k0 C' a d.
Proof. destruct a as [| | | |k b o| | | |]; try done. cbn. destruct (decide _); auto. Qed.

Lemma ready_claim_patch C (base o : obj k0) d :
  (is_ready (obj_conditions k0 o) -> C base o d) ->
  ready_claim (Conn := Conn) k0 C (AStatusPatch k0 base o) d.
Proof.
  intros HC. cbn. destruct (decide (k0 = k0)) as [e|]; [|done].
  by rewrite <- !(Eqdep_dec.eq_rect_eq_dec Kind_eq_dec).
Qed.
End ReadyClaim.

(** No SQL call but queries. *)
Definition read_only {Conn} (a : Action Conn) : Prop :=
  match a with ASql _ m _ => m ∈ read_only_methods | _ => True end.

Lemma read_only_sql {Conn} (c : Conn) m args :
  bool_decide (m ∈ read_only_methods) = true -> read_only (ASql c m args).
Proof. apply bool_decide_eq_true_1. Qed.

(** Shows that an action is allowed; each file sets it for its own [P]. *)
Ltac permit := done.

(** [runs] by the structure of the program; leaves the permissions [permit]
    does not solve. *)
Ltac runs_step :=
  lazymatch goal with
  | |- runs _ _ (_ ≫= _) => apply runs_bind; [|intros ?]
  | |- runs _ _ (mret _) => apply runs_ret; try done
  | |- runs _ _ (return_ _) => apply runs_return
  | |- runs _ _ (fn _) => apply runs_fn; [|done]
  | |- runs _ _ (defer_ _ _) => apply runs_defer
  | |- runs _ _ (for_each _ _) => apply runs_for_each; [intros ?|done]
  | |- runs _ _ (fold_each _ _ _) => apply runs_fold_each; [intros ? ?|done]
  | |- runs _ _ (since_less _ _) => unfold since_less
  | |- runs _ _ (logged _) => apply runs_logged; [intros ?; try solve [permit]|done]
  | |- runs _ _ (Event _ _ _) => apply runs_logged; [intros ?; try solve [permit]|done]
  | |- runs _ _ (Metric _ _ _) => apply runs_logged; [intros ?; try solve [permit]|done]
  | |- runs _ _ (Get _ _) => apply runs_on_kube; done
  | |- runs _ _ (List_ _ _ _) => apply runs_on_kube; done
  | |- runs _ _ (on_kube _) => apply runs_on_kube; done
  | |- runs _ _ (Create _ _) => unfold Create; apply runs_bind; [|intros ?]
  | |- runs _ _ (Update _ _) => unfold Update; apply runs_bind; [|intros ?]
  | |- runs _ _ (Delete_ _ _) => unfold Delete_; apply runs_bind; [|intros ?]
  | |- runs _ _ (Patch _ _ _) => unfold Patch; apply runs_bind; [|intros ?]
  | |- runs _ _ (StatusPatch _ _ _) => unfold StatusPatch; apply runs_bind; [|intros ?]
  | |- runs _ _ (sql _ _ _ _) => unfold sql; apply runs_bind; [|intros ?]
  | |- runs _ _ (on_sql _) => apply runs_on_sql; done
  | |- runs _ _ (observe _) => apply runs_observe; done
  | |- runs _ _ Now => apply runs_observe; done
  | |- runs _ _ (range_keys _) => apply runs_observe; done
  | |- runs _ _ (let '(_, _) := ?p in _) => destruct p
  | |- runs _ _ (when ?b _) => destruct b; unfold when
  | |- runs _ _ (on_err ?e _) => destruct e; unfold on_err
  | |- runs _ _ (if_some ?x _) => destruct x; unfold if_some
  | |- runs _ _ (match ?x with _ => _ end) => destruct x eqn:?
  end; cbn beta iota zeta.

(** Symbolic execution: [does_step] applies the rule of the construct at
    the head, [does_case] splits on what the code tests. *)
Ltac does_step :=
  lazymatch goal with
  | |- does _ (_ ≫= _) _ _ _ => apply does_bind
  | |- does _ (mret _) _ _ _ => apply does_ret
  | |- does _ (return_ _) _ _ _ => apply does_return
  | |- does _ (fn _) _ _ _ => apply does_fn
  | |- does _ (defer_ _ _) _ _ _ => apply does_defer
  | |- does _ (since_less _ _) _ _ _ => unfold since_less
  | |- does _ (logged _) _ _ _ => apply does_logged; [try solve [permit]|]
  | |- does _ (Event _ _ _) _ _ _ => apply does_logged; [try solve [permit]|]
  | |- does _ (Metric _ _ _) _ _ _ => apply does_logged; [try solve [permit]|]
  | |- does _ (Get _ _) _ _ _ => unfold Get; apply does_on_kube; intros ? ? ?
  | |- does _ (List_ _ _ _) _ _ _ => unfold List_; apply does_on_kube; intros ? ? ?
  | |- does _ (on_kube _) _ _ _ => apply does_on_kube; intros ? ? ?
  | |- does _ (Create _ _) _ _ _ => unfold Create; apply does_bind
  | |- does _ (Update _ _) _ _ _ => unfold Update; apply does_bind
  | |- does _ (Delete_ _ _) _ _ _ => unfold Delete_; apply does_bind
  | |- does _ (Patch _ _ _) _ _ _ => unfold Patch; apply does_bind
  | |- does _ (StatusPatch _ _ _) _ _ _ => unfold StatusPatch; apply does_bind
  | |- does _ (sql _ _ _ _) _ _ _ => unfold sql; apply does_bind
  | |- does _ (on_sql _) _ _ _ => apply does_on_sql; intros ? ? ?
  | |- does _ (observe _) _ _ _ => apply does_observe
  | |- does _ Now _ _ _ => apply does_observe
  | |- does _ (range_keys _) _ _ _ => apply does_observe
  end; cbn beta iota zeta.
Ltac does_case :=
  match goal with
  | |- does _ (let '(_, _) := ?p in _) _ _ _ => destruct p
  | |- does _ (when ?b _) _ _ _ => unfold when; destruct b eqn:?
  | |- does _ (on_err ?e _) _ _ _ => destruct e; unfold on_err
  | |- does _ (if_some ?x _) _ _ _ => destruct x eqn:?; unfold if_some
  | |- does _ (match ?x with _ => _ end) _ _ _ => destruct x eqn:?
  end; cbn beta iota zeta.
Ltac does_auto := repeat first [does_step | does_case].
