(* ===== verification/Helpers.v ===== *)
(** * Shared controller code (internal/controller/helpers.go)

    Credentials and server resolution, the connection, the maps from a Secret to
    the custom resources that use it, and the requeue interval. *)
From S2P Require Import Prelude Types SqlClient Kube.

Definition requeueInterval : Z := 30 * Second.
Lemma requeueInterval_pos : 0 < requeueInterval.
Proof. by vm_compute. Qed.

Section Helpers.
Context `{GoEnv} {K D Conn : Type} `{KubeClient K} `{SQLClient Conn D} {R : Type}.
Abbreviation M A := (Go (World K D Conn) R A).

Definition getCredentialsFromSecret (namespace secretName : string) : M (string * string + error) :=
  r ← Get KSecret (mkKey namespace secretName);
  match r with
  | inr err => mret (inr err)
  | inl secret =>
      match o_spec secret !! "username" with
      | None => mret (inr (ErrString (Sprintf "secret %q missing 'username' key" [strconv_quote secretName])))
      | Some username =>
          match o_spec secret !! "password" with
          | None => mret (inr (ErrString (Sprintf "secret %q missing 'password' key" [strconv_quote secretName])))
          | Some password => mret (inl (username, password))
          end
      end
  end.

Definition getCredentialsFromSAPasswordSecret (namespace secretName : string)
    : M (string * string + error) :=
  r ← Get KSecret (mkKey namespace secretName);
  match r with
  | inr err => mret (inr err)
  | inl secret =>
      match o_spec secret !! "MSSQL_SA_PASSWORD" with
      | None => mret (inr (ErrString (Sprintf "secret %q missing 'MSSQL_SA_PASSWORD' key" [strconv_quote secretName])))
      | Some password => mret (inl ("sa", password))
      end
  end.

Definition server_port (server : ServerReference) : Z := default 1433 (Port server).
Definition server_tls (server : ServerReference) : bool := default false (TLS server).

Definition connectToSQL (server : ServerReference) (username password : string)
    (factory : ClientFactory Conn D) : M (Conn + error) :=
  let port := server_port server in
  let tlsEnabled := server_tls server in
  r ← on_sql (factory (Host server) port username password tlsEnabled);
  match r with
  | inr err => mret (inr err)
  | inl c => logged (AConnect (Host server) port username password tlsEnabled c) ;; mret (inl c)
  end.

Definition toSet (items : list string) : gset string := list_to_set items.

(** *** From a Secret to the resources to reconcile *)
(** [for i := range list.Items { if test { requests = append(requests, key) } }] *)
Definition requests_of {k} (meta : obj k -> ObjectMeta) (test : obj k -> bool)
    (items : list (obj k)) : list NamespacedName :=
  (fun o => mkKey (Namespace (meta o)) (Name (meta o))) <$> filter (fun o => test o = true) items.

Definition map_secret k (meta : obj k -> ObjectMeta) (test : obj k -> string -> bool)
    (secret : Secret) : M (list NamespacedName) :=
  r ← List_ k (Some (Namespace (o_meta secret))) ∅;
  match r with
  | inr _ => mret []
  | inl items => mret (requests_of meta (fun o => test o (Name (o_meta secret))) items)
  end.

Definition uses_secret (server : ServerReference) (name : string) : bool :=
  String.eqb (sec_Name (CredentialsSecret server)) name.

Definition mapSecretToDatabases : Secret -> M (list NamespacedName) :=
  map_secret KDatabase o_meta (fun db name => uses_secret (db_Server (o_spec db)) name).
Definition mapSecretToLogins : Secret -> M (list NamespacedName) :=
  map_secret KLogin o_meta (fun l name =>
    uses_secret (login_Server (o_spec l)) name ||
    String.eqb (sec_Name (login_PasswordSecret (o_spec l))) name).
Definition mapSecretToDatabaseUsers : Secret -> M (list NamespacedName) :=
  map_secret KDatabaseUser o_meta (fun u name => uses_secret (user_Server (o_spec u)) name).
Definition mapSecretToSchemas : Secret -> M (list NamespacedName) :=
  map_secret KSchema o_meta (fun s name => uses_secret (schema_Server (o_spec s)) name).
Definition mapSecretToPermissions : Secret -> M (list NamespacedName) :=
  map_secret KPermission o_meta (fun p name => uses_secret (perm_Server (o_spec p)) name).
Definition mapSecretToBackups : Secret -> M (list NamespacedName) :=
  map_secret KBackup o_meta (fun b name => uses_secret (bak_Server (o_spec b)) name).
Definition mapSecretToRestores : Secret -> M (list NamespacedName) :=
  map_secret KRestore o_meta (fun r name => uses_secret (rst_Server (o_spec r)) name).
(** The inner loop breaks at the first replica that uses the secret. *)
Definition mapSecretToAGs : Secret -> M (list NamespacedName) :=
  map_secret KAvailabilityGroup o_meta (fun ag name =>
    existsb (fun r => uses_secret (rep_Server r) name) (ag_Replicas (o_spec ag))).

(** *** sqlServerRef *)
Definition resolveServerReference (namespace : string) (ref : ServerReference)
    : M (ServerReference + error) :=
  match SQLServerRef ref with
  | None => mret (inl ref)
  | Some name =>
      r ← Get KSQLServer (mkKey namespace name);
      match r with
      | inr err => mret (inr (ErrWrap (Sprintf "failed to resolve SQLServer %q" [strconv_quote name]) err))
      | inl srv =>
          let host := if String.eqb (srv_Host (o_spec srv)) "" then srvst_Host (extra (o_status srv))
                      else srv_Host (o_spec srv) in
          let secret := match srv_CredentialsSecret (o_spec srv) with
                        | Some s => mkSecretRef (xsec_Name s)
                        | None => mkSecretRef ""
                        end in
          mret (inl (mkServerRef host (srv_Port (o_spec srv)) secret (srv_TLS (o_spec srv)) None))
      end
  end.

Definition resolveServerCredentials (namespace : string) (ref : ServerReference)
    : M (string * string + error) :=
  match SQLServerRef ref with
  | None => getCredentialsFromSecret namespace (sec_Name (CredentialsSecret ref))
  | Some name =>
      r ← Get KSQLServer (mkKey namespace name);
      match r with
      | inr err => mret (inr (ErrWrap (Sprintf "failed to resolve SQLServer %q" [strconv_quote name]) err))
      | inl srv =>
          match srv_CredentialsSecret (o_spec srv), srv_Instance (o_spec srv) with
          | Some s, _ => getCredentialsFromSecret (default namespace (xsec_Namespace s)) (xsec_Name s)
          | None, Some inst =>
              getCredentialsFromSAPasswordSecret namespace (sec_Name (inst_SAPasswordSecret inst))
          | None, None =>
              mret (inr (ErrString (Sprintf "SQLServer %q has no credentialsSecret and is not in managed mode"
                [strconv_quote name])))
          end
      end
  end.

(** The requeue interval: durations are int64, [base*2] wraps, divisions truncate. *)
Definition requeueWithJitter (base : Z) : M Z :=
  v ← Int63n (int64 (base * 2) ÷ 5);
  let jitter := int64 (v - base ÷ 5) in
  mret (int64 (base + jitter)).

(** *** Status conditions *)
Context `{KubeUtil}.

(** [meta.SetStatusCondition(&obj.Status.Conditions, metav1.Condition{Type:
    Ready, Status: status, Reason: reason, Message: message,
    ObservedGeneration: obj.Generation})] *)
Definition with_ready_condition {Sp X} (status reason message : string)
    (o : Object Sp (CRStatus X)) : Object Sp (CRStatus X) :=
  with_status (mkStatus
    (SetStatusCondition (Conditions (o_status o))
      (mkCondition ConditionReady status reason message (Generation (o_meta o))))
    (ObservedGeneration (o_status o)) (extra (o_status o))) o.

(** [obj.Status.ObservedGeneration = obj.Generation] *)
Definition with_observed_generation {Sp X} (o : Object Sp (CRStatus X)) : Object Sp (CRStatus X) :=
  with_status (mkStatus (Conditions (o_status o)) (Generation (o_meta o)) (extra (o_status o))) o.

(** The fields every copy of [setConditionAndReturn] sets. *)
Definition with_ready {Sp X} (status reason message : string)
    (o : Object Sp (CRStatus X)) : Object Sp (CRStatus X) :=
  with_observed_generation (with_ready_condition status reason message o).
End Helpers.

(** The result and error of a [Reconcile]. *)
Abbreviation ReconcileResult := (Result * option error)%type.

Section Returns.
Context {W : Type}.
(** [return ctrl.Result{}, fmt.Errorf(msg: %w, err)] *)
Definition fail {A} (msg : string) (err : error) : Go W ReconcileResult A :=
  return_ (Result0, Some (ErrWrap msg err)).
(** [x, err := f(); if err != nil { return ctrl.Result{}, fmt.Errorf(msg: %w, err) }] *)
Definition try_query {A} (m : Go W ReconcileResult (A * option error)) (msg : string)
    : Go W ReconcileResult A :=
  ' (x, err) ← m;
  match err with Some e => fail msg e | None => mret x end.
(** The same for a call that only returns an error. *)
Definition try_op (m : Go W ReconcileResult (option error)) (msg : string)
    : Go W ReconcileResult unit :=
  err ← m; on_err err (fail msg).
(** [if err := write(); err != nil { return ctrl.Result{}, err }] *)
Definition try_write {A} (m : Go W ReconcileResult (A + error)) : Go W ReconcileResult A :=
  r ← m;
  match r with inr err => return_ (Result0, Some err) | inl x => mret x end.
End Returns.

Section SetCondition.
Context `{GoEnv} {K D Conn : Type} `{KubeClient K} `{SQLClient Conn D} `{KubeUtil}.
(** The body shared by the copies of [setConditionAndReturn]: [patch] is the
    [Status().Patch] of the kind. *)
Definition set_condition_and_return {Sp X}
    (patch : Object Sp (CRStatus X) -> Object Sp (CRStatus X) ->
             Go (World K D Conn) ReconcileResult (Object Sp (CRStatus X) + error))
    (o : Object Sp (CRStatus X)) (status reason message : string)
    : Go (World K D Conn) ReconcileResult ReconcileResult :=
  try_write (patch o (with_ready status reason message o)) ;;
  if String.eqb status ConditionTrue then
    d ← requeueWithJitter requeueInterval;
    return_ (RequeueIn d, None)
  else return_ (Result0, None).
End SetCondition.

(** ** Rules for the shared code *)
Section Rules.
Context `{GoEnv} {K D Conn : Type} `{KubeClient K} `{SQLClient Conn D} `{KubeUtil}.
Abbreviation W := (World K D Conn).
Implicit Types (w : W) (P : Action Conn -> D -> Prop).

Definition at_kube (k' : K) (w : W) : W := mkWorld k' (w_sql w) (w_log w) (w_tick w).

Lemma does_getCredentialsFromSecret {R} ns s P F (E : R -> W -> Prop) w :
  (forall r k', F r (at_kube k' w)) -> does P (getCredentialsFromSecret ns s) F E w.
Proof. intros HF. unfold getCredentialsFromSecret. does_auto; apply HF. Qed.

Lemma does_getCredentialsFromSAPasswordSecret {R} ns s P F (E : R -> W -> Prop) w :
  (forall r k', F r (at_kube k' w)) -> does P (getCredentialsFromSAPasswordSecret ns s) F E w.
Proof. intros HF. unfold getCredentialsFromSAPasswordSecret. does_auto; apply HF. Qed.

Lemma does_resolveServerReference {R} ns ref P F (E : R -> W -> Prop) w :
  (forall r k', (SQLServerRef ref = None -> r = inl ref) -> F r (at_kube k' w)) ->
  does P (resolveServerReference ns ref) F E w.
Proof.
  intros HF. unfold resolveServerReference. destruct w. destruct (SQLServerRef ref) eqn:E'; does_auto;
    apply HF; congruence.
Qed.

Lemma does_resolveServerCredentials {R} ns ref P F (E : R -> W -> Prop) w :
  (forall r k', F r (at_kube k' w)) -> does P (resolveServerCredentials ns ref) F E w.
Proof.
  intros HF. unfold resolveServerCredentials. does_auto;
    lazymatch goal with
    | |- does _ (getCredentialsFromSecret _ _) _ _ _ =>
        apply does_getCredentialsFromSecret; intros; apply HF
    | |- does _ (getCredentialsFromSAPasswordSecret _ _) _ _ _ =>
        apply does_getCredentialsFromSAPasswordSecret; intros; apply HF
    | |- _ => apply HF
    end.
Qed.

(** [c] is a connection the factory gave for this server. *)
Definition connected (factory : ClientFactory Conn D) (server : ServerReference) (c : Conn) : Prop :=
  exists user pass d d',
    factory (Host server) (server_port server) user pass (server_tls server) d = (inl c, d').

Lemma does_connectToSQL {R} server user pass factory P (F : Conn + error -> W -> Prop)
    (E : R -> W -> Prop) w :
  (forall err d', F (inr err) (mkWorld (w_kube w) d' (w_log w) (w_tick w))) ->
  (forall c d', connected factory server c ->
    P (AConnect (Host server) (server_port server) user pass (server_tls server) c) d' /\
    F (inl c) (mkWorld (w_kube w) d'
      (w_log w ++ [(AConnect (Host server) (server_port server) user pass (server_tls server) c, d')])
      (w_tick w))) ->
  does P (connectToSQL server user pass factory) F E w.
Proof.
  intros Herr Hok. unfold connectToSQL. does_step. does_step. destruct x as [c|err].
  - destruct (Hok c d') as [HP HF]; [unfold connected; eauto|].
    does_step. apply does_logged; [done|]. by does_step.
  - does_step. apply Herr.
Qed.

(** The requeue interval stays within 20% of the base and never panics. *)
Lemma does_requeueWithJitter {R} base P F (E : R -> W -> Prop) w :
  3 <= base <= 2 ^ 61 ->
  (forall d, base * 4 <= d * 5 < base * 6 ->
     F d (mkWorld (w_kube w) (w_sql w) (w_log w) (S (w_tick w)))) ->
  does P (requeueWithJitter base) F E w.
Proof.
  intros Hb HF. unfold requeueWithJitter.
  assert (Hr : int64 (base * 2) = base * 2) by (apply int64_id; unfold min_int64, max_int64; lia).
  rewrite Hr, !Z.quot_div_nonneg by lia.
  pose proof (Z.div_mod (base * 2) 5 ltac:(lia)). pose proof (Z.mod_pos_bound (base * 2) 5 ltac:(lia)).
  pose proof (Z.div_mod base 5 ltac:(lia)). pose proof (Z.mod_pos_bound base 5 ltac:(lia)).
  does_step. apply does_Int63n; [lia|]. intros v Hv. does_step.
  rewrite (int64_id (v - _)) by (unfold min_int64, max_int64; lia).
  rewrite int64_id by (unfold min_int64, max_int64; lia). apply HF. lia.
Qed.

Lemma find_ready_condition `{!KubeUtilLaws} {Sp X} st r m (o : Object Sp (CRStatus X)) :
  find_condition ConditionReady (Conditions (o_status (with_ready st r m o))) =
  Some (mkCondition ConditionReady st r m (Generation (o_meta o))).
Proof. cbn. apply (SetStatusCondition_spec _ (mkCondition ConditionReady st r m _)). Qed.
End Rules.

Lemma is_ready_with `{KubeUtilLaws} {Sp X} st r m (o : Object Sp (CRStatus X)) :
  is_ready (Conditions (o_status (with_ready st r m o))) <-> st = ConditionTrue.
Proof.
  unfold is_ready. rewrite find_ready_condition. split; [by intros (c & [= <-] & ?)|].
  intros ->. by eexists.
Qed.

Lemma is_ready_with_condition `{KubeUtilLaws} {Sp X} st r m (o : Object Sp (CRStatus X)) :
  is_ready (Conditions (o_status (with_ready_condition st r m o))) <-> st = ConditionTrue.
Proof. exact (is_ready_with st r m o). Qed.

(** *** Calls under their contract *)
Section Calls.
Context {K D Conn : Type} `{SQLClient Conn D}.
Abbreviation W := (World K D Conn).

(** A call on connection [c] gets a result or an error; a successful one is
    known by its contract. *)
Lemma does_sql_query {R A} c m args (q : Query Conn D A) T same P F (E : R -> W -> Prop) (w : W) :
  query_spec q T same -> P (ASql c m args) (w_sql w) ->
  (forall x e w', F (x, Some e) w') ->
  (forall x w', T c (w_sql w) x -> same c (w_sql w) (w_sql w') -> F (x, None) w') ->
  does P (sql c m args q) F E w.
Proof.
  intros Hq HP Herr Hok. unfold sql. do 3 does_step.
  destruct x as [x [e|]]; [apply Herr|]. cbn in H0. by apply Hq in H0 as [? ?]; apply Hok.
Qed.

Lemma does_sql_op {R} c m args (o : Op Conn D) T P F (E : R -> W -> Prop) (w : W) :
  op_spec o T -> P (ASql c m args) (w_sql w) ->
  (forall e w', F (Some e) w') ->
  (forall w', T c (w_sql w) (w_sql w') -> F None w') ->
  does P (sql c m args o) F E w.
Proof.
  intros Hq HP Herr Hok. unfold sql. do 3 does_step.
  destruct x as [e|]; [apply Herr|]. by apply Hok, Hq.
Qed.

Lemma does_try_query {A} c m args (q : Query Conn D A) T same msg P F
    (E : ReconcileResult -> W -> Prop) (w : W) :
  query_spec q T same -> P (ASql c m args) (w_sql w) ->
  (forall e w', E (Result0, Some (ErrWrap msg e)) w') ->
  (forall x w', T c (w_sql w) x -> same c (w_sql w) (w_sql w') -> F x w') ->
  does P (try_query (sql c m args q) msg) F E w.
Proof.
  intros Hq HP Herr Hok. unfold try_query. does_step.
  eapply does_sql_query; [done..| |]; intros; unfold fail; does_step; auto.
Qed.

(** A comparison that finds nothing to do: the action [k] is not taken. *)
Lemma does_settled {A} c m args (q : Query Conn D A) T same msg (test : A -> bool) k P
    (F : unit -> W -> Prop) (E : ReconcileResult -> W -> Prop) (w : W) :
  query_spec q T same -> P (ASql c m args) (w_sql w) ->
  (forall x, T c (w_sql w) x -> test x = true) ->
  (forall e w', E (Result0, Some (ErrWrap msg e)) w') ->
  (forall w', same c (w_sql w) (w_sql w') -> F tt w') ->
  does P (x ← try_query (sql c m args q) msg; when (negb (test x)) (k x)) F E w.
Proof.
  intros Hq HP Ht Herr Hok. does_step. eapply does_try_query; [done..|].
  intros x w' HT Hs. rewrite (Ht _ HT). cbn [negb when]. does_step. by apply Hok.
Qed.

Lemma does_try_op c m args (o : Op Conn D) T msg P (F : unit -> W -> Prop)
    (E : ReconcileResult -> W -> Prop) (w : W) :
  op_spec o T -> P (ASql c m args) (w_sql w) ->
  (forall e w', E (Result0, Some (ErrWrap msg e)) w') ->
  (forall w', T c (w_sql w) (w_sql w') -> F tt w') ->
  does P (try_op (sql c m args o) msg) F E w.
Proof.
  intros Hq HP Herr Hok. unfold try_op. does_step.
  eapply does_sql_op; [done..| |]; intros; unfold on_err, fail; does_step; auto.
Qed.
End Calls.

Lemma policy_delete (p : option string) :
  String.eqb (default DeletionPolicyRetain p) DeletionPolicyDelete = true -> p = Some DeletionPolicyDelete.
Proof. destruct p as [p|]; cbn; [|done]. by intros ->%String.eqb_eq. Qed.

(** Dispatch on the shared functions, then the generic symbolic execution. *)
Ltac does_helper :=
  lazymatch goal with
  | |- does _ (getCredentialsFromSecret _ _) _ _ _ =>
      apply does_getCredentialsFromSecret; intros ? ?
  | |- does _ (getCredentialsFromSAPasswordSecret _ _) _ _ _ =>
      apply does_getCredentialsFromSAPasswordSecret; intros ? ?
  | |- does _ (resolveServerReference _ _) _ _ _ =>
      apply does_resolveServerReference; intros ? ? ?
  | |- does _ (resolveServerCredentials _ _) _ _ _ =>
      apply does_resolveServerCredentials; intros ? ?
  | |- does _ (connectToSQL _ _ _ _) _ _ _ =>
      apply does_connectToSQL; [intros ? ? | intros ? ? ?; split; [try solve [permit]|]]
  | |- does _ (requeueWithJitter requeueInterval) _ _ _ =>
      apply does_requeueWithJitter; [by vm_compute | intros ? ?]
  | |- does _ (fail _ _) _ _ _ => unfold fail
  | |- does _ (try_query _ _) _ _ _ => unfold try_query
  | |- does _ (try_op _ _) _ _ _ => unfold try_op
  | |- does _ (try_write _) _ _ _ => unfold try_write
  | |- does _ (set_condition_and_return _ _ _ _ _) _ _ _ => unfold set_condition_and_return
  end; cbn beta iota zeta.
Ltac does_all := repeat first [does_step | does_helper | does_case].

Section RunsHelpers.
Context `{GoEnv} {K D Conn : Type} `{KubeClient K} `{SQLClient Conn D} (P : Action Conn -> D -> Prop).
Abbreviation Wd := (World K D Conn).

Lemma runs_getCredentialsFromSecret {R} ns s :
  runs (R := R) P (fun _ => True) (getCredentialsFromSecret ns s : Go Wd R _).
Proof. intros w. by apply does_getCredentialsFromSecret. Qed.
Lemma runs_getCredentialsFromSAPasswordSecret {R} ns s :
  runs (R := R) P (fun _ => True) (getCredentialsFromSAPasswordSecret ns s : Go Wd R _).
Proof. intros w. by apply does_getCredentialsFromSAPasswordSecret. Qed.
Lemma runs_resolveServerReference {R} ns ref :
  runs (R := R) P (fun _ => True) (resolveServerReference ns ref : Go Wd R _).
Proof. intros w. by apply does_resolveServerReference. Qed.
Lemma runs_resolveServerCredentials {R} ns ref :
  runs (R := R) P (fun _ => True) (resolveServerCredentials ns ref : Go Wd R _).
Proof. intros w. by apply does_resolveServerCredentials. Qed.
Lemma runs_requeueWithJitter {R} :
  runs (R := R) P (fun _ => True) (requeueWithJitter requeueInterval : Go Wd R _).
Proof. intros w. apply does_requeueWithJitter; [by vm_compute|done]. Qed.
Lemma runs_connectToSQL {R} server u p factory :
  (forall c d, P (AConnect (Host server) (server_port server) u p (server_tls server) c) d) ->
  runs (R := R) P (fun _ => True) (connectToSQL server u p factory : Go Wd R _).
Proof. intros HP w. by apply does_connectToSQL. Qed.
End RunsHelpers.

Ltac runs_helper :=
  lazymatch goal with
  | |- runs _ _ (getCredentialsFromSecret _ _) => apply runs_getCredentialsFromSecret
  | |- runs _ _ (getCredentialsFromSAPasswordSecret _ _) =>
      apply runs_getCredentialsFromSAPasswordSecret
  | |- runs _ _ (resolveServerReference _ _) => apply runs_resolveServerReference
  | |- runs _ _ (resolveServerCredentials _ _) => apply runs_resolveServerCredentials
  | |- runs _ _ (connectToSQL _ _ _ _) =>
      apply runs_connectToSQL; intros ? ?; try solve [permit]
  | |- runs _ _ (requeueWithJitter requeueInterval) => apply runs_requeueWithJitter
  | |- runs _ _ (fail _ _) => unfold fail
  | |- runs _ _ (try_query _ _) => unfold try_query
  | |- runs _ _ (try_op _ _) => unfold try_op
  | |- runs _ _ (try_write _) => unfold try_write
  | |- runs _ _ (set_condition_and_return _ _ _ _ _) => unfold set_condition_and_return
  end; cbn beta iota zeta.
Ltac runs_auto := repeat first [runs_step | runs_helper].

Section JitterTheorems.
Context `{GoEnv} {K D Conn : Type} `{KubeClient K} `{SQLClient Conn D}.

(** C22: for a base between 3 ns and 2^61 ns, requeueWithJitter returns a
    duration within 20 percent of the base, whatever the random source. *)
Theorem requeueWithJitter_bounds {R} base (w : World K D Conn) (o : outcome R Z) w' :
  3 <= base <= 2 ^ 61 -> requeueWithJitter base w = (o, w') ->
  exists d, o = Next d /\ base * 4 <= d * 5 < base * 6 /\ w_sql w' = w_sql w /\ w_log w' = w_log w.
Proof.
  intros Hb Hrun.
  assert (Hd : does (fun _ _ => True) (requeueWithJitter base)
    (fun d w' => base * 4 <= d * 5 < base * 6 /\ w_sql w' = w_sql w /\ w_log w' = w_log w)
    (fun (_ : R) _ => False) w) by by apply does_requeueWithJitter.
  apply does_run with (1 := Hd) in Hrun as (_ & _ & Ho). destruct o; [eauto|done..].
Qed.

(** For a base below 3 ns (zero and negative included) requeueWithJitter
    panics, because the range it draws from is empty. *)
Theorem requeueWithJitter_panics {R} base (w : World K D Conn) :
  - 2 ^ 61 <= base < 3 ->
  requeueWithJitter (R := R) base w = (Panic "invalid argument to Int63n", w).
Proof.
  intros Hb. unfold requeueWithJitter, mbind, go_bind.
  rewrite (int64_id (base * 2)) by (unfold min_int64, max_int64; lia).
  assert (Hq : base * 2 ÷ 5 <= 0).
  { destruct (Z.le_gt_cases 0 base).
    - rewrite Z.quot_small; lia.
    - apply Z.quot_le_upper_bound; lia. }
  unfold Int63n. by destruct (Z.leb_spec (base * 2 ÷ 5) 0); [|lia].
Qed.
End JitterTheorems.
