(* ===== verification/DatabaseController.v ===== *)
(** * The Database controller (internal/controller/database_controller.go)

    [Reconcile] is split along the source's numbered steps. The theorems: what
    holds of the SQL server whenever the controller writes Ready=True, that the
    database is dropped only under the Delete policy, that a reconcile never
    panics, and that one that finds the database as specified changes nothing. *)
From S2P Require Import Prelude Types SqlClient Kube Helpers.

Module Database.
Section Controller.
Context `{GoEnv} {K D Conn : Type} `{KubeClient K} `{SQLClient Conn D} `{KubeUtil}.
(** [r.SQLClientFactory]. *)
Variable factory : ClientFactory Conn D.
Abbreviation M A := (Go (World K D Conn) ReconcileResult A).

Definition setConditionAndReturn (db : Database) (status reason message : string) : M ReconcileResult :=
  set_condition_and_return (StatusPatch KDatabase) db status reason message.

(** Step 6: create the database; the result is [exists]. *)
Definition ensure_exists (db : Database) (c : Conn) : M bool :=
  let name := db_DatabaseName (o_spec db) in
  exists_ ← try_query (sql c "DatabaseExists" [name] (DatabaseExists name))
              "failed to check database existence";
  when (negb exists_) (
    try_op (sql c "CreateDatabase" [name] (CreateDatabase name (db_Collation (o_spec db))))
      (Sprintf "failed to create database %s" [name]) ;;
    Event EventTypeNormal "DatabaseCreated" (Sprintf "Database %s created" [name])) ;;
  mret exists_.

Definition reconcile_owner (db : Database) (c : Conn) : M unit :=
  let name := db_DatabaseName (o_spec db) in
  if_some (db_Owner (o_spec db)) (fun owner =>
    currentOwner ← try_query (sql c "GetDatabaseOwner" [name] (GetDatabaseOwner name))
                     "failed to get database owner";
    when (negb (String.eqb currentOwner owner)) (
      try_op (sql c "SetDatabaseOwner" [name; owner] (SetDatabaseOwner name owner))
        "failed to set database owner" ;;
      Event EventTypeNormal "DatabaseOwnerUpdated"
        (Sprintf "Database %s owner set to %s" [name; owner]))).

Definition desired_recovery (desiredRM : string) : string :=
  if String.eqb desiredRM "BulkLogged" then "BULK_LOGGED" else desiredRM.

Definition reconcile_recovery_model (db : Database) (c : Conn) (exists_ : bool) : M unit :=
  let name := db_DatabaseName (o_spec db) in
  if_some (db_RecoveryModel (o_spec db)) (fun desiredRM =>
    when exists_ (
      currentRM ← try_query (sql c "GetDatabaseRecoveryModel" [name] (GetDatabaseRecoveryModel name))
                    "failed to get recovery model";
      let desiredRMSQL := desired_recovery desiredRM in
      when (negb (String.eqb currentRM desiredRMSQL)) (
        try_op (sql c "SetDatabaseRecoveryModel" [name; desiredRMSQL]
                  (SetDatabaseRecoveryModel name desiredRMSQL))
          "failed to set recovery model" ;;
        Event EventTypeNormal "RecoveryModelUpdated"
          (Sprintf "Database %s recovery model set to %s" [name; desiredRM])))).

Definition reconcile_compatibility_level (db : Database) (c : Conn) (exists_ : bool) : M unit :=
  let name := db_DatabaseName (o_spec db) in
  if_some (db_CompatibilityLevel (o_spec db)) (fun desiredCL =>
    when exists_ (
      currentCL ← try_query (sql c "GetDatabaseCompatibilityLevel" [name] (GetDatabaseCompatibilityLevel name))
                    "failed to get compatibility level";
      when (negb (currentCL =? desiredCL)) (
        try_op (sql c "SetDatabaseCompatibilityLevel" [name; fmt_d desiredCL]
                  (SetDatabaseCompatibilityLevel name desiredCL))
          "failed to set compatibility level" ;;
        Event EventTypeNormal "CompatibilityLevelUpdated"
          (Sprintf "Database %s compatibility level set to %d" [name; fmt_d desiredCL])))).

Definition fmt_bool (b : bool) : string := if b then "true" else "false".

Definition reconcile_option (db : Database) (c : Conn) (opt : DatabaseOption) : M unit :=
  let name := db_DatabaseName (o_spec db) in
  currentVal ← try_query (sql c "GetDatabaseOption" [name; opt_Name opt] (GetDatabaseOption name (opt_Name opt)))
                 (Sprintf "failed to get database option %s" [opt_Name opt]);
  when (negb (Bool.eqb currentVal (opt_Value opt))) (
    try_op (sql c "SetDatabaseOption" [name; opt_Name opt; fmt_bool (opt_Value opt)]
              (SetDatabaseOption name (opt_Name opt) (opt_Value opt)))
      (Sprintf "failed to set database option %s" [opt_Name opt]) ;;
    Event EventTypeNormal "DatabaseOptionUpdated"
      (Sprintf "Database %s option %s set to %v" [name; opt_Name opt; fmt_bool (opt_Value opt)])).

Definition reconcile_options (db : Database) (c : Conn) : M unit :=
  for_each (db_Options (o_spec db)) (reconcile_option db c).

Definition check_collation (db : Database) (c : Conn) (exists_ : bool) : M unit :=
  let name := db_DatabaseName (o_spec db) in
  if_some (db_Collation (o_spec db)) (fun desired =>
    when exists_ (
      currentCollation ← try_query (sql c "GetDatabaseCollation" [name] (GetDatabaseCollation name))
                           "failed to get database collation";
      when (negb (String.eqb currentCollation desired)) (
        Event EventTypeWarning ReasonCollationChangeNotSupported
          (Sprintf "Database %s collation is %s but spec requires %s — collation is immutable"
             [name; currentCollation; desired]) ;;
        Metric "ReconcileErrors" ["Database"; ReasonCollationChangeNotSupported] Inc ;;
        res ← fn (setConditionAndReturn db ConditionFalse ReasonCollationChangeNotSupported
                (Sprintf "Collation mismatch: actual %s, desired %s — collation is immutable after creation"
                   [currentCollation; desired]));
        return_ res))).

Definition reconcile_settings (db : Database) (c : Conn) (exists_ : bool) : M unit :=
  reconcile_owner db c ;;
  reconcile_recovery_model db c exists_ ;;
  reconcile_compatibility_level db c exists_ ;;
  reconcile_options db c ;;
  check_collation db c exists_.

(** Steps 5 to 7, once connected. *)
Definition reconcile_connected (db : Database) (c : Conn) : M ReconcileResult :=
  exists_ ← ensure_exists db c;
  reconcile_settings db c exists_ ;;
  Metric "ReconcileTotal" ["Database"; "success"] Inc ;;
  Metric "DatabaseState" [Name (o_meta db); Namespace (o_meta db); db_DatabaseName (o_spec db);
                          Host (db_Server (o_spec db))] (SetTo 1) ;;
  setConditionAndReturn db ConditionTrue ReasonReady
    (Sprintf "Database %s is ready" [db_DatabaseName (o_spec db)]).

Definition drop_database (db : Database) (c : Conn) : M unit :=
  let name := db_DatabaseName (o_spec db) in
  err ← sql c "DropDatabase" [name] (DropDatabase name);
  match err with
  | Some _ => mret tt  (* removing finalizer anyway *)
  | None => Event EventTypeNormal "DatabaseDropped" (Sprintf "Database %s dropped" [name])
  end.

Definition release (db : Database) : M ReconcileResult :=
  let db := with_meta (RemoveFinalizer (o_meta db) Finalizer) db in
  try_write (Update KDatabase db) ;;
  return_ (Result0, None).

(** The deferred [Close] runs when the function returns, after [release]. *)
Definition handleDeletion (db : Database) : M ReconcileResult :=
  if negb (ContainsFinalizer (o_meta db) Finalizer) then return_ (Result0, None)
  else
    let ns := Namespace (o_meta db) in
    let policy := default DeletionPolicyRetain (db_DeletionPolicy (o_spec db)) in
    if String.eqb policy DeletionPolicyDelete then
      r ← resolveServerCredentials ns (db_Server (o_spec db));
      match r with
      | inr _ => release db  (* removing finalizer anyway *)
      | inl (username, password) =>
          r ← resolveServerReference ns (db_Server (o_spec db));
          let serverRef := match r with inl ref => ref | inr _ => db_Server (o_spec db) end in
          r ← connectToSQL serverRef username password factory;
          match r with
          | inr _ => release db  (* removing finalizer anyway *)
          | inl c => defer_ (sql c "Close" [] Close ;; mret tt) (drop_database db c ;; release db)
          end
      end
    else release db.

(** Steps 2 to 5 for a live object. *)
Definition reconcile_live (db : Database) : M ReconcileResult :=
  db ← (if ContainsFinalizer (o_meta db) Finalizer then mret db
        else try_write (Update KDatabase (with_meta (AddFinalizer (o_meta db) Finalizer) db)));
  r ← resolveServerReference (Namespace (o_meta db)) (db_Server (o_spec db));
  match r with
  | inr err =>
      setConditionAndReturn db ConditionFalse ReasonConnectionFailed
        (Sprintf "Failed to resolve server reference: %v" [err_text err])
  | inl serverRef =>
  r ← resolveServerCredentials (Namespace (o_meta db)) (db_Server (o_spec db));
  match r with
  | inr err =>
      if IsNotFound err then setConditionAndReturn db ConditionFalse ReasonSecretNotFound (err_text err)
      else setConditionAndReturn db ConditionFalse ReasonInvalidCredentialsSecret (err_text err)
  | inl (username, password) =>
  r ← connectToSQL serverRef username password factory;
  match r with
  | inr err =>
      Event EventTypeWarning ReasonConnectionFailed (err_text err) ;;
      fail "failed to connect to SQL Server" err
  | inl c => defer_ (sql c "Close" [] Close ;; mret tt) (reconcile_connected db c)
  end end end.

Definition Reconcile (req : NamespacedName) : M ReconcileResult :=
  _ ← Now;
  defer_ (_ ← Now; Metric "ReconcileDuration" ["Database"] Observed) (
    r ← Get KDatabase req;
    match r with
    | inr err => if IsNotFound err then return_ (Result0, None) else return_ (Result0, Some err)
    | inl db =>
        match DeletionTimestamp (o_meta db) with
        | Some _ => handleDeletion db
        | None => reconcile_live db
        end
    end).

(** ** Theorems *)
Context `{!SQLClientLaws Conn D} `{!KubeUtilLaws}.
Implicit Types (w : World K D Conn) (P : Action Conn -> D -> Prop) (db : Database).

(** The options after the loop: each entry applied in order. *)
Definition apply_options (opts : list DatabaseOption) (s : gset string) : gset string :=
  foldl (fun s opt => set_option (opt_Name opt) (opt_Value opt) s) s opts.
Definition with_options (s : gset string) (v : DbView) : DbView :=
  mkDbView (dv_owner v) (dv_collation v) (dv_recovery v) (dv_compat v) s.

Lemma apply_options_notin opts s o :
  o ∉ opt_Name <$> opts -> bool_decide (o ∈ apply_options opts s) = bool_decide (o ∈ s).
Proof.
  revert s. induction opts as [|x opts IH]; intros s Ho; [done|].
  cbn in Ho. apply not_elem_of_cons in Ho as [Hne Ho].
  change (apply_options (x :: opts) s)
    with (apply_options opts (set_option (opt_Name x) (opt_Value x) s)).
  rewrite IH by done.
  apply bool_decide_ext. unfold set_option. destruct (opt_Value x); set_solver.
Qed.

Lemma apply_options_in opts s opt :
  NoDup (opt_Name <$> opts) -> opt ∈ opts ->
  bool_decide (opt_Name opt ∈ apply_options opts s) = opt_Value opt.
Proof.
  revert s. induction opts as [|x opts IH]; intros s; [by rewrite elem_of_nil|].
  change (apply_options (x :: opts) s)
    with (apply_options opts (set_option (opt_Name x) (opt_Value x) s)).
  cbn [fmap list_fmap]. rewrite NoDup_cons, elem_of_cons. intros [Hx Hnd] [->|Hin]; [|by apply IH].
  rewrite (apply_options_notin opts) by done.
  unfold set_option. destruct (opt_Value x); case_bool_decide; set_solver.
Qed.

(** *** The SQL state each step leaves *)
Section Steps.
Context (db : Database) (c : Conn) (P : Action Conn -> D -> Prop).
Let name := db_DatabaseName (o_spec db).
(** The step may perform anything but a Ready=True write. *)
Context (HP : forall a d, ~ ready_patch a -> P a d).
Ltac permit ::= solve [ apply HP; intros [] | auto ].

Definition at_view (v : DbView) w : Prop := v_db c (w_sql w) name = Some v.

Lemma ensure_exists_spec w :
  does P (ensure_exists db c)
    (fun b w' => b = bool_decide (is_Some (v_db c (w_sql w) name)) /\
       exists v, at_view v w' /\ (b = true -> at_view v w)) (fun _ _ => True) w.
Proof.
  unfold ensure_exists, at_view. fold name. does_step.
  eapply does_try_query; [apply DatabaseExists_spec|permit|done|].
  intros b w1 Hb Hsame. does_step. destruct b; cbn [negb when].
  - pose proof Hb as Hb'. symmetry in Hb'. apply bool_decide_eq_true in Hb' as [v Hv].
    do 2 does_step. split; [done|]. exists v. by rewrite Hsame.
  - does_step.
    eapply does_try_op; [apply CreateDatabase_spec|permit|done|].
    intros w2 [v Hv]. do 2 does_step. split; [done|]. by exists v.
Qed.

Lemma reconcile_owner_spec v w :
  at_view v w ->
  does P (reconcile_owner db c)
    (fun _ => at_view (mkDbView (default (dv_owner v) (db_Owner (o_spec db))) (dv_collation v)
                (dv_recovery v) (dv_compat v) (dv_options v))) (fun _ _ => True) w.
Proof.
  unfold reconcile_owner, at_view. fold name. intros Hv.
  destruct (db_Owner (o_spec db)) as [owner|]; cbn [if_some default]; [|does_step; by destruct v].
  does_step. eapply does_try_query; [apply GetDatabaseOwner_spec|permit|done|].
  intros cur w1 (v1 & Hv1 & <-) Hsame. rewrite Hv in Hv1. injection Hv1 as <-.
  destruct (String.eqb_spec (dv_owner v) owner) as [<-|Hne]; cbn [negb when].
  - does_step. rewrite Hsame. by destruct v.
  - does_step. eapply does_try_op; [apply SetDatabaseOwner_spec|permit|done|].
    intros w2 (v2 & Hv2 & Hv2'). does_step. cbn. rewrite Hsame in Hv2. congruence.
Qed.

(** The recovery model reported afterwards. *)
Definition recovery_synced (b : bool) (r : string) : Prop :=
  forall m, db_RecoveryModel (o_spec db) = Some m -> b = true -> desired_recovery m <> "" ->
  r = desired_recovery m \/ r = v_recovery_desc (desired_recovery m).

Lemma reconcile_recovery_model_spec b v w :
  at_view v w ->
  does P (reconcile_recovery_model db c b)
    (fun _ w' => exists r, at_view (mkDbView (dv_owner v) (dv_collation v) r (dv_compat v) (dv_options v)) w'
                /\ recovery_synced b r) (fun _ _ => True) w.
Proof.
  unfold reconcile_recovery_model, at_view, recovery_synced. fold name. intros Hv.
  destruct (db_RecoveryModel (o_spec db)) as [m|]; cbn [if_some].
  2: { does_step. exists (dv_recovery v). by destruct v. }
  destruct b; cbn [when]; [|does_step; exists (dv_recovery v); by destruct v].
  does_step. eapply does_try_query; [apply GetDatabaseRecoveryModel_spec|permit|done|].
  intros cur w1 (v1 & Hv1 & <-) Hsame. rewrite Hv in Hv1. injection Hv1 as <-.
  destruct (String.eqb_spec (dv_recovery v) (desired_recovery m)) as [Heq|Hne]; cbn [negb when].
  - does_step. exists (dv_recovery v). rewrite Hsame. split; [by destruct v|].
    intros ? [= <-]. auto.
  - does_step. eapply does_try_op; [apply SetDatabaseRecoveryModel_spec|permit|done|].
    intros w2 (v2 & r & Hv2 & Hv2' & Hr). does_step. cbn. rewrite Hsame, Hv in Hv2. injection Hv2 as <-.
    exists r. split; [done|]. intros ? [= <-]. auto.
Qed.

Definition compat_synced (b : bool) (l : Z) : Prop :=
  forall l', db_CompatibilityLevel (o_spec db) = Some l' -> b = true -> l' <> 0 -> l = l'.

Lemma reconcile_compatibility_level_spec b v w :
  at_view v w ->
  does P (reconcile_compatibility_level db c b)
    (fun _ w' => exists l, at_view (mkDbView (dv_owner v) (dv_collation v) (dv_recovery v) l (dv_options v)) w'
                /\ compat_synced b l) (fun _ _ => True) w.
Proof.
  unfold reconcile_compatibility_level, at_view, compat_synced. fold name. intros Hv.
  destruct (db_CompatibilityLevel (o_spec db)) as [l'|]; cbn [if_some].
  2: { does_step. exists (dv_compat v). by destruct v. }
  destruct b; cbn [when]; [|does_step; exists (dv_compat v); by destruct v].
  does_step. eapply does_try_query; [apply GetDatabaseCompatibilityLevel_spec|permit|done|].
  intros cur w1 (v1 & Hv1 & <-) Hsame. rewrite Hv in Hv1. injection Hv1 as <-.
  destruct (Z.eqb_spec (dv_compat v) l') as [Heq|Hne]; cbn [negb when].
  - does_step. exists (dv_compat v). rewrite Hsame. split; [by destruct v|].
    intros ? [= <-]. auto.
  - does_step. eapply does_try_op; [apply SetDatabaseCompatibilityLevel_spec|permit|done|].
    intros w2 (v2 & l & Hv2 & Hv2' & Hl). does_step. cbn. rewrite Hsame, Hv in Hv2. injection Hv2 as <-.
    exists l. split; [done|]. intros ? [= <-]. auto.
Qed.

Lemma reconcile_option_spec opt v w :
  at_view v w ->
  does P (reconcile_option db c opt)
    (fun _ => at_view (with_options (set_option (opt_Name opt) (opt_Value opt) (dv_options v)) v))
    (fun _ _ => True) w.
Proof.
  unfold reconcile_option, at_view. fold name. intros Hv.
  does_step. eapply does_try_query; [apply GetDatabaseOption_spec|permit|done|].
  intros cur w1 (v1 & Hv1 & <-) Hsame. rewrite Hv in Hv1. injection Hv1 as <-.
  destruct (Bool.eqb _ (opt_Value opt)) eqn:Heq; cbn [negb when].
  - does_step. apply Bool.eqb_prop in Heq as <-. rewrite set_option_id, Hsame. by destruct v.
  - does_step. eapply does_try_op; [apply SetDatabaseOption_spec|permit|done|].
    intros w2 (v2 & Hv2 & Hv2'). does_step. cbn. rewrite Hsame in Hv2. unfold with_options. congruence.
Qed.

Lemma reconcile_options_spec v w :
  at_view v w ->
  does P (reconcile_options db c)
    (fun _ => at_view (with_options (apply_options (db_Options (o_spec db)) (dv_options v)) v))
    (fun _ _ => True) w.
Proof.
  intros Hv. unfold reconcile_options.
  apply (does_for_each (fun rest w' => exists done, db_Options (o_spec db) = done ++ rest /\
           at_view (with_options (apply_options done (dv_options v)) v) w')).
  - exists []. split; [done|]. by destruct v.
  - intros opt rest w' (pre & Hpre & Hw'). eapply does_post;
      [by apply (reconcile_option_spec opt _ _ Hw')| |done].
    intros [] w'' Hw''. exists (pre ++ [opt]). rewrite <- (assoc_L (++)). split; [done|].
    unfold apply_options. rewrite foldl_app. exact Hw''.
  - intros w' (pre & Hpre & Hw'). rewrite app_nil_r in Hpre. by rewrite Hpre.
Qed.

Lemma check_collation_spec b v w :
  at_view v w ->
  does P (check_collation db c b)
    (fun _ w' => at_view v w' /\
       forall x, db_Collation (o_spec db) = Some x -> b = true -> dv_collation v = x)
    (fun _ _ => True) w.
Proof.
  unfold check_collation, at_view. fold name. intros Hv.
  destruct (db_Collation (o_spec db)) as [x|]; cbn [if_some]; [|by does_step].
  destruct b; cbn [when]; [|by does_step].
  does_step. eapply does_try_query; [apply GetDatabaseCollation_spec|permit|done|].
  intros cur w1 (v1 & Hv1 & <-) Hsame. rewrite Hv in Hv1. injection Hv1 as <-.
  destruct (String.eqb_spec (dv_collation v) x) as [Heq|Hne]; cbn [negb when].
  - does_step. rewrite Hsame. split; [done|]. by intros ? [= <-].
  - unfold setConditionAndReturn. does_all; try done.
    apply HP. intros Hr. by apply is_ready_with in Hr.
Qed.
End Steps.

(** *** What Ready=True means *)
(** The view matches the spec: the owner and the options always (option names
    without repetition); recovery model, compatibility level and collation for
    a database that existed before ([existed]), which is when the controller
    looks at them. *)
Record synced (sp : DatabaseSpec) (existed : bool) (v : DbView) : Prop := {
  synced_owner o : db_Owner sp = Some o -> dv_owner v = o;
  synced_options opt : NoDup (opt_Name <$> db_Options sp) -> opt ∈ db_Options sp ->
    bool_decide (opt_Name opt ∈ dv_options v) = opt_Value opt;
  synced_recovery m : db_RecoveryModel sp = Some m -> existed = true -> desired_recovery m <> "" ->
    dv_recovery v = desired_recovery m \/ dv_recovery v = v_recovery_desc (desired_recovery m);
  synced_compat l : db_CompatibilityLevel sp = Some l -> existed = true -> l <> 0 -> dv_compat v = l;
  synced_collation x : db_Collation sp = Some x -> existed = true -> dv_collation v = x
}.

Lemma synced_weaken sp b v : synced sp b v -> synced sp false v.
Proof. intros []; by split. Qed.

Lemma reconcile_settings_synced db c b (C : Database -> Database -> D -> Prop) v w :
  v_db c (w_sql w) (db_DatabaseName (o_spec db)) = Some v ->
  does (ready_claim KDatabase C) (reconcile_settings db c b)
    (fun _ w' => exists v', v_db c (w_sql w') (db_DatabaseName (o_spec db)) = Some v' /\
                            synced (o_spec db) b v') (fun _ _ => True) w.
Proof.
  intros Hv. pose proof (ready_claim_not_ready (Conn := Conn) KDatabase C) as HP. unfold reconcile_settings.
  does_step. eapply does_post; [by apply (reconcile_owner_spec db c _ HP v)| |done].
  intros [] w2 Hw2. does_step.
  eapply does_post; [by apply (reconcile_recovery_model_spec db c _ HP b _ _ Hw2)| |done].
  intros [] w3 (r & Hw3 & Hr). does_step.
  eapply does_post; [by apply (reconcile_compatibility_level_spec db c _ HP b _ _ Hw3)| |done].
  intros [] w4 (l & Hw4 & Hl). does_step.
  eapply does_post; [by apply (reconcile_options_spec db c _ HP _ _ Hw4)| |done].
  intros [] w5 Hw5.
  eapply does_post; [by apply (check_collation_spec db c _ HP b _ _ Hw5)| |done].
  intros [] w6 [Hw6 Hcol]. cbn in Hcol.
  eexists. split; [exact Hw6|]. split; cbn in *.
  - by intros o ->.
  - intros opt Hnd Hin. by apply apply_options_in.
  - exact Hr.
  - exact Hl.
  - exact Hcol.
Qed.

Lemma db_connected_claims db c w :
  does (ready_claim KDatabase (fun _ o d => exists v, v_db c d (db_DatabaseName (o_spec db)) = Some v /\ o_spec o = o_spec db /\
          synced (o_spec db) (bool_decide (is_Some (v_db c (w_sql w) (db_DatabaseName (o_spec db))))) v))
    (reconcile_connected db c) (fun _ _ => False) (fun _ _ => True) w.
Proof.
  unfold reconcile_connected. does_step.
  eapply does_post; [apply (ensure_exists_spec db c _ (ready_claim_not_ready KDatabase _))| |done].
  intros b w1 (<- & v1 & Hv1 & _). does_step.
  eapply does_post; [by apply (reconcile_settings_synced db c b _ v1)| |done].
  intros [] w2 (v2 & Hw2 & Hs2).
  unfold setConditionAndReturn. does_all; try done.
  apply ready_claim_patch. intros _. by exists v2.
Qed.

Ltac permit ::= solve [ done | apply ready_claim_not_ready; intros Hr; by apply is_ready_with in Hr ].
(** C7: every reconcile of a Database returns (it never panics), and whenever it
    writes Ready=True the database exists on the server the factory
    connected to for the resolved server reference, its owner is the one of
    the spec and every option of the spec (named once) has its value. *)
Theorem Reconcile_ready_sound req w :
  performs (ready_claim KDatabase (fun _ db d => exists ref c v,
      (SQLServerRef (db_Server (o_spec db)) = None -> ref = db_Server (o_spec db)) /\
      connected factory ref c /\
      v_db c d (db_DatabaseName (o_spec db)) = Some v /\ synced (o_spec db) false v))
    (Reconcile req) w.
Proof.
  apply performs_intro.
  unfold Reconcile, handleDeletion, release, drop_database, reconcile_live, setConditionAndReturn.
  does_all; try done;
    (eapply does_mono; [apply db_connected_claims| |done|intros; does_all; done]);
    intros a d; apply ready_claim_mono; intros base' db' (v & Hv & Hsp & Hs); rewrite Hsp;
    match goal with Hc : connected _ ?ref _ |- _ => exists ref, c, v end;
    (split_and!; [naive_solver|done..|by eapply synced_weaken]).
Qed.

(** For a database that already exists, Ready=True is written only when the
    recovery model is the one of the spec (as asked or as the server
    describes it), and the compatibility level and the collation are the
    ones of the spec, besides the owner and the options. *)
Theorem reconcile_connected_existing db c v0 w :
  v_db c (w_sql w) (db_DatabaseName (o_spec db)) = Some v0 ->
  performs (ready_claim KDatabase (fun _ _ d => exists v,
      v_db c d (db_DatabaseName (o_spec db)) = Some v /\ synced (o_spec db) true v))
    (reconcile_connected db c) w.
Proof.
  intros Hv0. apply performs_intro.
  eapply does_mono; [apply db_connected_claims| |done|done].
  intros a d. apply ready_claim_mono. intros base' db' (v & Hv & _ & Hs). exists v.
  by rewrite Hv0 in Hs.
Qed.

(** *** Deletion *)
(** A drop of the database is issued for the object under deletion that [Get]
    returned, still holding the finalizer, with the Delete policy. *)
Definition drop_justified (req : NamespacedName) (a : Action Conn) : Prop :=
  match a with
  | ASql c m args => m = "DropDatabase" ->
      exists k k' db, kube_Get KDatabase req k = (inl db, k') /\
        is_Some (DeletionTimestamp (o_meta db)) /\ Finalizer ∈ Finalizers (o_meta db) /\
        db_DeletionPolicy (o_spec db) = Some DeletionPolicyDelete /\
        args = [db_DatabaseName (o_spec db)]
  | _ => True
  end.

Ltac permit ::= done.
(** A live reconcile drops nothing. *)
Lemma runs_db_connected req db c :
  runs (fun a _ => drop_justified req a) (fun _ => False) (reconcile_connected db c).
Proof.
  unfold reconcile_connected, reconcile_settings, ensure_exists, reconcile_owner, reconcile_recovery_model,
    reconcile_compatibility_level, reconcile_options, reconcile_option, check_collation,
    setConditionAndReturn.
  runs_auto.
Qed.

Ltac permit ::= done.
(** C8: a reconcile of a Database issues DROP DATABASE only for the object it
    fetched, under deletion, still holding the finalizer and with deletion
    policy Delete, and for the database name of its spec. *)
Theorem Reconcile_drop_justified req w :
  performs (fun a _ => drop_justified req a) (Reconcile req) w.
Proof.
  apply performs_intro.
  unfold Reconcile, handleDeletion, release, drop_database, reconcile_live, setConditionAndReturn.
  does_all; try done;
    [|eapply runs_does; [apply runs_db_connected|done|intros; by does_all]..].
  intros _. rewrite ContainsFinalizer_spec in *.
  do 3 eexists. split_and!; [eassumption|by eauto| | |done].
  - by eapply bool_decide_eq_true, negb_false_iff.
  - by destruct (db_DeletionPolicy (o_spec o)) as [p|];
      [cbn in *; match goal with E : String.eqb p _ = true |- _ => apply String.eqb_eq in E as -> end|].
Qed.

Ltac permit ::= done.
(** C9: deleting a Database that holds the finalizer always ends with an update
    that removes it, whatever the credentials, the connection and the drop
    do. *)
Theorem handleDeletion_releases db w :
  Finalizer ∈ Finalizers (o_meta db) ->
  ends (handleDeletion db) (fun _ w' => exists d,
    (AUpdate KDatabase (with_meta (RemoveFinalizer (o_meta db) Finalizer) db), d) ∈ w_log w') w.
Proof.
  intros Hf. apply (ends_intro (fun _ _ => True)).
  unfold handleDeletion, release, drop_database. rewrite ContainsFinalizer_spec, bool_decide_true by done.
  cbn [negb]. does_all; try done; eexists; cbn; rewrite !elem_of_app, !list_elem_of_singleton; eauto 10.
Qed.

(** *** Stability *)
(** Nothing is left to change. The recovery model is compared with the text the
    controller wants, which is the server's only for [BulkLogged]. *)
Record settled (sp : DatabaseSpec) (v : DbView) : Prop := {
  settled_owner o : db_Owner sp = Some o -> dv_owner v = o;
  settled_recovery m : db_RecoveryModel sp = Some m -> dv_recovery v = desired_recovery m;
  settled_compat l : db_CompatibilityLevel sp = Some l -> dv_compat v = l;
  settled_options opt : opt ∈ db_Options sp -> bool_decide (opt_Name opt ∈ dv_options v) = opt_Value opt
}.

Ltac permit ::= solve [ done | by apply read_only_sql ].
Ltac keep := intros ? Hs; cbn in *; congruence.
Lemma reconcile_settled db c b v w :
  v_db c (w_sql w) (db_DatabaseName (o_spec db)) = Some v ->
  settled (o_spec db) v ->
  does (fun a _ => read_only a)
    (reconcile_settings db c b)
    (fun _ _ => True) (fun _ _ => True) w.
Proof.
  intros Hv [Ho Hr Hl Hopt].
  pose (same := fun w' : World K D Conn => v_db c (w_sql w') = v_db c (w_sql w)).
  unfold reconcile_settings.
  does_step. eapply (does_post _ _ (fun _ w' => same w') _ (fun _ _ => True)); [| |done].
  { unfold reconcile_owner. destruct (db_Owner (o_spec db)) as [x|]; cbn [if_some]; [|by does_step].
    eapply does_settled; [apply GetDatabaseOwner_spec|permit| |done|keep].
    cbn. intros y (v1 & Hv1 & <-). apply String.eqb_eq. rewrite Hv in Hv1. naive_solver. }
  intros [] w1 Hw1. does_step. eapply (does_post _ _ (fun _ w' => same w') _ (fun _ _ => True)); [| |done].
  { unfold reconcile_recovery_model. destruct (db_RecoveryModel (o_spec db)) as [x|]; cbn [if_some]; [|by does_step].
    destruct b; cbn [when]; [|by does_step].
    eapply does_settled; [apply GetDatabaseRecoveryModel_spec|permit| |done|keep].
    cbn. rewrite Hw1, Hv. intros y (v1 & [= <-] & <-). apply String.eqb_eq. auto. }
  intros [] w2 Hw2. does_step. eapply (does_post _ _ (fun _ w' => same w') _ (fun _ _ => True)); [| |done].
  { unfold reconcile_compatibility_level. destruct (db_CompatibilityLevel (o_spec db)) as [x|]; cbn [if_some]; [|by does_step].
    destruct b; cbn [when]; [|by does_step].
    eapply does_settled; [apply GetDatabaseCompatibilityLevel_spec|permit| |done|keep].
    cbn. rewrite Hw2, Hv. intros y (v1 & [= <-] & <-). apply Z.eqb_eq. auto. }
  intros [] w3 Hw3. does_step. eapply (does_post _ _ (fun _ w' => same w') _ (fun _ _ => True)); [| |done].
  { unfold reconcile_options.
    apply (does_for_each (fun rest w' => rest ⊆ db_Options (o_spec db) /\ same w'));
      [done| |by intros ? [_ ?]].
    intros opt rest w' [Hsub Hw']. unfold reconcile_option.
    eapply does_settled; [apply GetDatabaseOption_spec|permit| |done| ].
    - cbn. rewrite Hw', Hv. intros y (v1 & [= <-] & <-). rewrite Hopt; [apply Bool.eqb_reflx|set_solver].
    - intros w'' Hs. split; [set_solver|]. by unfold same; rewrite Hs. }
  intros [] w4 Hw4. apply (runs_does _ (fun _ => True)); [|done|done].
  unfold check_collation, setConditionAndReturn. runs_auto.
Qed.

Ltac permit ::= solve [ done | by apply read_only_sql ].
Lemma database_connected_stable db c v w :
  v_db c (w_sql w) (db_DatabaseName (o_spec db)) = Some v ->
  settled (o_spec db) v ->
  does (fun a _ => read_only a) (reconcile_connected db c) (fun _ _ => False) (fun _ _ => True) w.
Proof.
  intros Hv Hset.
  unfold reconcile_connected, ensure_exists.
  do 2 does_step. eapply does_try_query; [apply DatabaseExists_spec|permit|done|].
  intros b w1 -> Hs1. rewrite Hv, bool_decide_true by done. cbn [negb].
  unfold when at 1. do 4 does_step. eapply does_post; [apply (reconcile_settled _ _ _ v)| |done].
  - cbn. by rewrite Hs1.
  - done.
  - intros [] w2 _. unfold setConditionAndReturn. by does_all.
Qed.

(** A reconcile that finds the existing database as the spec asks only
    reads: it sends no statement that changes the server. *)
Theorem reconcile_connected_stable db c v w :
  v_db c (w_sql w) (db_DatabaseName (o_spec db)) = Some v ->
  settled (o_spec db) v ->
  performs (fun a _ => read_only a) (reconcile_connected db c) w.
Proof. intros Hv Hs. by eapply performs_intro, database_connected_stable. Qed.

(** *** The recovery models Full and Simple *)
Ltac permit ::= done.
(** When the spec asks for the recovery model Full and the server reports
    FULL, the step still issues SetDatabaseRecoveryModel. *)
Theorem recovery_full_always_altered db c v w w' :
  db_RecoveryModel (o_spec db) = Some RecoveryModelFull ->
  v_db c (w_sql w) (db_DatabaseName (o_spec db)) = Some v -> dv_recovery v = "FULL" ->
  reconcile_recovery_model db c true w = (Next tt, w') ->
  exists d, (ASql c "SetDatabaseRecoveryModel" [db_DatabaseName (o_spec db); "Full"], d) ∈ w_log w'.
Proof.
  intros Hm Hv Hfull Hrun.
  assert (Hd : does (fun _ _ => True) (reconcile_recovery_model db c true)
    (fun _ w' => exists d, (ASql c "SetDatabaseRecoveryModel" [db_DatabaseName (o_spec db); "Full"], d)
       ∈ w_log w') (fun _ _ => True) w); [|by apply (does_run _ _ _ _ _ _ _ Hd) in Hrun as (_ & _ & ?)].
  unfold reconcile_recovery_model. rewrite Hm. cbn [if_some when].
  does_step. eapply does_try_query; [apply GetDatabaseRecoveryModel_spec|done..|].
  intros cur w1 (v1 & Hv1 & <-) _. rewrite Hv in Hv1. injection Hv1 as <-. rewrite Hfull. cbn.
  does_all; try done. eexists. cbn. rewrite !elem_of_app, !list_elem_of_singleton. eauto.
Qed.
End Controller.
End Database.
