(* ===== verification/SetReconcile.v ===== *)
(** * Reconciling a set

    [reconcileServerRoles] (login_controller.go), [reconcileDatabaseRoles]
    (databaseuser_controller.go) and [reconcileDatabases]
    (availabilitygroup_controller.go) are the same two loops over two maps; here
    they are once, over the calls they make, with their specification: when no
    error is reported the set is exactly the desired one, whatever the order in
    which [range] visits the maps. *)
From S2P Require Import Prelude Types SqlClient Kube Helpers.

Section Roles.
Context `{GoEnv} {K D Conn : Type} `{KubeClient K} `{SQLClient Conn D}.
Abbreviation M A := (Go (World K D Conn) (option error) A).

(** The calls: the current items, adding and removing one; the errors made of
    theirs; [added] and [removed] emit the events. *)
Record SetCalls := mkSetCalls {
  get_items : M (list string * option error);
  add_item : string -> M (option error);
  remove_item : string -> M (option error);
  get_failed : error -> error;
  add_failed : string -> error -> error;
  remove_failed : string -> error -> error;
  added : string -> M unit;
  removed : string -> M unit
}.

(** [for role := range set { if skip[role] { continue }; err := call(role);
    if err != nil { return failed(role, err) }; event(role) }] *)
Definition set_loop (roles : list string) (skip : gset string)
    (call : string -> M (option error)) (failed : string -> error -> error) (event : string -> M unit)
    : M unit :=
  for_each roles (fun role =>
    if bool_decide (role ∈ skip) then mret tt
    else
      err ← call role;
      on_err err (fun e => return_ (Some (failed role e))) ;;
      event role).

Definition reconcile_set (rc : SetCalls) (desiredRoles : list string)
    : M (option error) :=
  ' (currentRoles, err) ← get_items rc;
  match err with
  | Some e => return_ (Some (get_failed rc e))
  | None =>
      let currentSet := toSet currentRoles in
      let desiredSet := toSet desiredRoles in
      keys ← range_keys (elements desiredSet);
      set_loop keys currentSet (add_item rc) (add_failed rc) (added rc) ;;
      keys ← range_keys (elements currentSet);
      set_loop keys desiredSet (remove_item rc) (remove_failed rc) (removed rc) ;;
      return_ None
  end.

Lemma runs_reconcile_set (P : Action Conn -> D -> Prop) F (rc : SetCalls) desired :
  runs P (fun _ => True) (get_items rc) ->
  (forall r, runs P (fun _ => True) (add_item rc r)) ->
  (forall r, runs P (fun _ => True) (remove_item rc r)) ->
  (forall r, runs P (fun _ => True) (added rc r)) ->
  (forall r, runs P (fun _ => True) (removed rc r)) ->
  runs P F (reconcile_set rc desired).
Proof.
  intros. unfold reconcile_set, set_loop.
  repeat first [runs_step | solve [auto]].
Qed.

(** ** Specification *)
Lemma fold_add (keys : list string) (skip s : gset string) :
  skip ⊆ s ->
  foldl (fun s r => if bool_decide (r ∈ skip) then s else {[r]} ∪ s) s keys = s ∪ list_to_set keys.
Proof.
  revert s. induction keys as [|r keys IH]; intros s Hs; cbn; [set_solver|].
  case_bool_decide; rewrite IH by set_solver; set_solver.
Qed.

Lemma fold_remove (keys : list string) (skip s : gset string) :
  foldl (fun s r => if bool_decide (r ∈ skip) then s else s ∖ {[r]}) s keys =
  s ∖ (list_to_set keys ∖ skip).
Proof.
  revert s. induction keys as [|r keys IH]; intros s; cbn; [set_solver|].
  case_bool_decide; rewrite IH; [set_solver|].
  apply set_eq. intros x. destruct (decide (x ∈ skip)); set_solver.
Qed.

Section Spec.
Context `{!GoEnvLaws}.
Lemma range_set n (s : gset string) : list_to_set (range_order n (elements s)) = s.
Proof. rewrite range_order_perm. apply list_to_set_elements_L. Qed.

Context (rc : SetCalls) (P : Action Conn -> D -> Prop).
(** [St s d]: the roles are [s] in the state [d]. *)
Context (St : gset string -> D -> Prop).
Abbreviation W := (World K D Conn).

(** What a call may report: the new state, or an error, when [fails] allows it. *)
Definition reports (fails : Prop) (T : W -> Prop) (err : option error) (w : W) : Prop :=
  match err with None => T w | Some _ => fails end.
Definition call_reports (fails : Prop) (m : M (option error)) (s : gset string) (w : W) : Prop :=
  does P m (reports fails (fun w' => St s (w_sql w'))) (fun _ _ => False) w.

Hypothesis added_ok : forall r (w : W), does P (added rc r) (fun _ w' => w_sql w' = w_sql w) (fun _ _ => False) w.
Hypothesis removed_ok : forall r (w : W), does P (removed rc r) (fun _ w' => w_sql w' = w_sql w) (fun _ _ => False) w.

(** One loop: the roles not skipped are applied with [step]. *)
Lemma set_loop_reports fails (step : string -> gset string -> gset string) call failed event keys skip s (w : W) :
  (forall r s w, r ∈ keys -> r ∉ skip -> St s (w_sql w) -> call_reports fails (call r) (step r s) w) ->
  (forall r (w : W), does P (event r) (fun _ w' => w_sql w' = w_sql w) (fun _ _ => False) w) ->
  St s (w_sql w) ->
  does P (set_loop keys skip call failed event)
    (fun _ w' => St (foldl (fun s r => if bool_decide (r ∈ skip) then s else step r s) s keys) (w_sql w'))
    (fun e _ => is_Some e /\ fails) w.
Proof.
  intros Hcall Hev Hs. unfold set_loop.
  set (f := fun s r => if bool_decide (r ∈ skip) then s else step r s).
  apply (does_for_each (fun rest w' => exists pre, keys = pre ++ rest /\ St (foldl f s pre) (w_sql w'))).
  - by exists [].
  - intros r rest w' (pre & -> & Hpre).
    assert (Hnext : pre ++ r :: rest = (pre ++ [r]) ++ rest) by by rewrite <- (assoc_L (++)).
    assert (Hf : foldl f s (pre ++ [r]) = f (foldl f s pre) r) by by rewrite foldl_app.
    case_bool_decide as Hin.
    + does_step. exists (pre ++ [r]). rewrite Hf. unfold f at 1. by rewrite bool_decide_true.
    + does_step. eapply does_post; [apply Hcall; [set_solver|done..]| |done].
      intros e w1 He. cbn. does_step. destruct e as [e|]; cbn; does_step; [done|].
      eapply does_post; [by apply Hev| |done]. intros [] w2 Hw2. cbn.
      exists (pre ++ [r]). rewrite Hf, Hw2. unfold f at 1. rewrite bool_decide_false by done. auto.
  - intros w' (pre & -> & Hpre). by rewrite app_nil_r.
Qed.

Lemma reconcile_set_reports fails desired s (w : W) :
  (forall s w, St s (w_sql w) ->
     does P (get_items rc) (fun r => reports fails (fun w' => list_to_set r.1 = s /\ St s (w_sql w')) r.2)
       (fun _ _ => False) w) ->
  (forall r s w, r ∈ desired -> St s (w_sql w) -> call_reports fails (add_item rc r) ({[r]} ∪ s) w) ->
  (forall r s w, r ∉ desired -> St s (w_sql w) -> call_reports fails (remove_item rc r) (s ∖ {[r]}) w) ->
  St s (w_sql w) ->
  does P (reconcile_set rc desired) (fun _ _ => False)
    (reports fails (fun w' => St (toSet desired) (w_sql w'))) w.
Proof.
  intros Hget Hadd Hremove Hs. unfold reconcile_set. does_step. eapply does_post; [by apply Hget| |done].
  intros [current [e|]] w1 Hr; cbn in *; [by does_step|]. destruct Hr as [Hcur Hw1].
  unfold toSet. rewrite Hcur. do 3 does_step.
  eapply does_post; [apply (set_loop_reports fails (fun r s => {[r]} ∪ s)); [|done|exact Hw1]| |].
  { intros r s' w'. rewrite range_order_perm, elem_of_elements, elem_of_list_to_set. auto. }
  2: by intros e w' [[e' ->] ?].
  intros [] w2 Hw2. cbn. rewrite fold_add, range_set in Hw2 by done. do 3 does_step.
  eapply does_post; [apply (set_loop_reports fails (fun r s => s ∖ {[r]})); [|done|exact Hw2]| |].
  { intros r s' w' _. rewrite elem_of_list_to_set. auto. }
  2: by intros e w' [[e' ->] ?].
  intros [] w3 Hw3. cbn. rewrite fold_remove, range_set in Hw3. does_step.
  replace (list_to_set desired : gset string)
    with ((s ∪ list_to_set desired) ∖ (s ∖ list_to_set desired)); [done|].
  apply set_eq. intros x. destruct (decide (x ∈ (list_to_set desired : gset string))); set_solver.
Qed.

(** When calls may fail. *)
Definition call_spec (m : M (option error)) (s : gset string) (w : W) : Prop :=
  does P m (fun e w' => e = None -> St s (w_sql w')) (fun _ _ => False) w.
Lemma reconcile_set_spec desired s (w : W) :
  (forall s w, St s (w_sql w) ->
     does P (get_items rc) (fun r w' => r.2 = None -> list_to_set r.1 = s /\ St s (w_sql w'))
       (fun _ _ => False) w) ->
  (forall r s w, St s (w_sql w) -> call_spec (add_item rc r) ({[r]} ∪ s) w) ->
  (forall r s w, St s (w_sql w) -> call_spec (remove_item rc r) (s ∖ {[r]}) w) ->
  St s (w_sql w) ->
  does P (reconcile_set rc desired) (fun _ _ => False)
    (fun e w' => e = None -> St (toSet desired) (w_sql w')) w.
Proof.
  intros Hget Hadd Hremove Hs.
  eapply does_post; [eapply (reconcile_set_reports True); [..|exact Hs]|done|by intros [e|] w'].
  - intros s' w' Hs'. eapply does_post; [by apply Hget| |done]. intros [x [e|]] w1 Hx; cbn; [done|auto].
  - intros r s' w' _ Hs'. eapply does_post; [by apply Hadd| |done]. intros [e|] w1 Hx; cbn; [done|auto].
  - intros r s' w' _ Hs'. eapply does_post; [by apply Hremove| |done]. intros [e|] w1 Hx; cbn; [done|auto].
Qed.
End Spec.

(** Roles already as desired: nothing is called but [get_items]. *)
Lemma set_loop_all_skipped P keys skip call failed event F E (w : World K D Conn) :
  (forall r, r ∈ keys -> r ∈ skip) -> F tt w -> does P (set_loop keys skip call failed event) F E w.
Proof.
  intros Hin HF. unfold set_loop.
  apply (does_for_each (fun rest w' => (forall r, r ∈ rest -> r ∈ skip) /\ F tt w'));
    [done| |by intros w' []].
  intros r rest w' [Hrest Hw']. rewrite bool_decide_true by (apply Hrest; left).
  does_step. split; [|done]. intros r' Hr'. apply Hrest. by right.
Qed.

Lemma reconcile_set_settled `{!GoEnvLaws} rc P desired (w : World K D Conn) :
  does P (get_items rc) (fun r _ => r.2 = None -> toSet r.1 = toSet desired) (fun _ _ => False) w ->
  does P (reconcile_set rc desired) (fun _ _ => False) (fun _ _ => True) w.
Proof.
  intros Hget. unfold reconcile_set. does_step. eapply does_post; [exact Hget| |done].
  intros [current [e|]] w1 Hcur; cbn; [by does_step|]. specialize (Hcur eq_refl). cbn in Hcur.
  change (toSet current = toSet desired) in Hcur. rewrite Hcur. do 3 does_step.
  apply set_loop_all_skipped; [intros r; by rewrite range_order_perm, elem_of_elements|].
  do 3 does_step.
  apply set_loop_all_skipped; [intros r; by rewrite range_order_perm, elem_of_elements|].
  by does_step.
Qed.
End Roles.
