(* ===== verification/LoginController.v ===== *)
(** * The Login controller (internal/controller/login_controller.go)

    Creation, password rotation keyed on the Secret's resource version, default
    database, server roles, and deletion blocked while the login has users. *)
From S2P Require Import Prelude Types SqlClient Kube Helpers SetReconcile.

Module LoginCtl.
Section Controller.
Context `{GoEnv} {K D Conn : Type} `{KubeClient K} `{SQLClient Conn D} `{KubeUtil}.
(** [r.SQLClientFactory]. *)
Variable factory : ClientFactory Conn D.
Abbreviation M A := (Go (World K D Conn) ReconcileResult A).

Definition setConditionAndReturn (login : Login) (status reason message : string) : M ReconcileResult :=
  set_condition_and_return (StatusPatch KLogin) login status reason message.

(** Step 7: create the login, or set the password when the Secret changed. *)
Definition ensure_login (login : Login) (c : Conn) (pwSecret : Secret) (loginPassword : string) : M unit :=
  let name := login_LoginName (o_spec login) in
  exists_ ← try_query (sql c "LoginExists" [name] (LoginExists name))
              "failed to check login existence";
  if negb exists_ then
    try_op (sql c "CreateLogin" [name; loginPassword] (CreateLogin name loginPassword))
      (Sprintf "failed to create login %s" [name]) ;;
    Event EventTypeNormal "LoginCreated" (Sprintf "Login %s created" [name])
  else if negb (String.eqb (ResourceVersion (o_meta pwSecret))
                  (PasswordSecretResourceVersion (extra (o_status login)))) then
    try_op (sql c "UpdateLoginPassword" [name; loginPassword] (UpdateLoginPassword name loginPassword))
      "failed to update login password" ;;
    Event EventTypeNormal "LoginPasswordRotated" (Sprintf "Login %s password rotated" [name])
  else mret tt.

Definition reconcile_default_database (login : Login) (c : Conn) : M unit :=
  let name := login_LoginName (o_spec login) in
  if_some (login_DefaultDatabase (o_spec login)) (fun desired =>
    currentDB ← try_query (sql c "GetLoginDefaultDatabase" [name] (GetLoginDefaultDatabase name))
                  "failed to get default database";
    when (negb (String.eqb currentDB desired)) (
      try_op (sql c "SetLoginDefaultDatabase" [name; desired] (SetLoginDefaultDatabase name desired))
        "failed to set default database")).

Definition role_calls (c : Conn) (loginName : string) : SetCalls (K := K) (D := D) (Conn := Conn) := {|
  get_items := sql c "GetLoginServerRoles" [loginName] (GetLoginServerRoles loginName);
  add_item role := sql c "AddLoginToServerRole" [loginName; role] (AddLoginToServerRole loginName role);
  remove_item role :=
    sql c "RemoveLoginFromServerRole" [loginName; role] (RemoveLoginFromServerRole loginName role);
  get_failed := ErrWrap "failed to get server roles";
  add_failed role := ErrWrap (Sprintf "failed to add role %s" [role]);
  remove_failed role := ErrWrap (Sprintf "failed to remove role %s" [role]);
  added role := Event EventTypeNormal "ServerRoleAdded"
    (Sprintf "Login %s added to server role %s" [loginName; role]);
  removed role := Event EventTypeNormal "ServerRoleRemoved"
    (Sprintf "Login %s removed from server role %s" [loginName; role])
|}.

Definition reconcileServerRoles (c : Conn) (loginName : string) (desiredRoles : list string)
    : Go (World K D Conn) (option error) (option error) :=
  reconcile_set (role_calls c loginName) desiredRoles.

(** Step 8. *)
Definition report_ready (login : Login) (pwSecret : Secret) : M ReconcileResult :=
  Metric "ReconcileTotal" ["Login"; "success"] Inc ;;
  Metric "LoginCount" [Name (o_meta login); Namespace (o_meta login); login_LoginName (o_spec login)] (SetTo 1) ;;
  let updated := with_ready ConditionTrue ReasonReady
    (Sprintf "Login %s is ready" [login_LoginName (o_spec login)])
    (with_extra (mkLoginStatus (ResourceVersion (o_meta pwSecret))) login) in
  try_write (StatusPatch KLogin login updated) ;;
  d ← requeueWithJitter requeueInterval;
  return_ (RequeueIn d, None).

(** Steps 6 to 8, once connected. *)
Definition reconcile_connected (login : Login) (c : Conn) (pwSecret : Secret) (loginPassword : string)
    : M ReconcileResult :=
  ensure_login login c pwSecret loginPassword ;;
  reconcile_default_database login c ;;
  err ← fn (reconcileServerRoles c (login_LoginName (o_spec login)) (login_ServerRoles (o_spec login)));
  on_err err (fun e =>
    Metric "ReconcileErrors" ["Login"; "ServerRoleReconciliation"] Inc ;;
    return_ (Result0, Some e)) ;;
  report_ready login pwSecret.

Definition reconcile_live (login : Login) : M ReconcileResult :=
  login ← (if ContainsFinalizer (o_meta login) Finalizer then mret login
           else try_write (Update KLogin (with_meta (AddFinalizer (o_meta login) Finalizer) login)));
  let ns := Namespace (o_meta login) in
  let secretName := sec_Name (CredentialsSecret (login_Server (o_spec login))) in
  let pwName := sec_Name (login_PasswordSecret (o_spec login)) in
  r ← getCredentialsFromSecret ns secretName;
  match r with
  | inr err =>
      if IsNotFound err then
        setConditionAndReturn login ConditionFalse ReasonSecretNotFound
          (Sprintf "Secret %q not found" [strconv_quote secretName])
      else setConditionAndReturn login ConditionFalse ReasonInvalidCredentialsSecret (err_text err)
  | inl (username, saPassword) =>
  r ← Get KSecret (mkKey ns pwName);
  match r with
  | inr err =>
      if IsNotFound err then
        setConditionAndReturn login ConditionFalse ReasonSecretNotFound
          (Sprintf "Password secret %q not found" [strconv_quote pwName])
      else setConditionAndReturn login ConditionFalse ReasonConnectionFailed
             (Sprintf "Failed to fetch password secret: %v" [err_text err])
  | inl pwSecret =>
  match o_spec pwSecret !! "password" with
  | None =>
      setConditionAndReturn login ConditionFalse ReasonInvalidCredentialsSecret
        (Sprintf "Password secret %q missing 'password' key" [strconv_quote pwName])
  | Some loginPassword =>
  r ← connectToSQL (login_Server (o_spec login)) username saPassword factory;
  match r with
  | inr err =>
      Event EventTypeWarning ReasonConnectionFailed (err_text err) ;;
      fail "failed to connect to SQL Server" err
  | inl c =>
      defer_ (sql c "Close" [] Close ;; mret tt) (reconcile_connected login c pwSecret loginPassword)
  end end end end.

Definition release (login : Login) : M ReconcileResult :=
  let login := with_meta (RemoveFinalizer (o_meta login) Finalizer) login in
  try_write (Update KLogin login) ;;
  return_ (Result0, None).

(** The login still has users: report it and come back later. *)
Definition in_use (login : Login) : M ReconcileResult :=
  Event EventTypeWarning ReasonLoginInUse
    (Sprintf "Login %s is still in use by database users" [login_LoginName (o_spec login)]) ;;
  StatusPatch KLogin login (with_ready_condition ConditionFalse ReasonLoginInUse
    "Login is still in use by database users, delete DatabaseUser CRs first" login) ;;
  d ← requeueWithJitter requeueInterval;
  return_ (RequeueIn d, None).

Definition drop_login (login : Login) (c : Conn) : M unit :=
  let name := login_LoginName (o_spec login) in
  err ← sql c "DropLogin" [name] (DropLogin name);
  match err with
  | Some _ => mret tt
  | None => Event EventTypeNormal "LoginDropped" (Sprintf "Login %s dropped" [name])
  end.

(** The cleanup once connected: nothing is dropped while the login has users. *)
Definition delete_connected (login : Login) (c : Conn) : M ReconcileResult :=
  let name := login_LoginName (o_spec login) in
  ' (hasUsers, err) ← sql c "LoginHasUsers" [name] (LoginHasUsers name);
  match err with
  | Some _ => drop_login login c ;; release login  (* failed to check if login has users *)
  | None => if hasUsers : bool then in_use login else drop_login login c ;; release login
  end.

Definition handleDeletion (login : Login) : M ReconcileResult :=
  if negb (ContainsFinalizer (o_meta login) Finalizer) then return_ (Result0, None)
  else
    let policy := default DeletionPolicyRetain (login_DeletionPolicy (o_spec login)) in
    if String.eqb policy DeletionPolicyDelete then
      r ← getCredentialsFromSecret (Namespace (o_meta login))
            (sec_Name (CredentialsSecret (login_Server (o_spec login))));
      match r with
      | inr _ => release login
      | inl (username, password) =>
          r ← connectToSQL (login_Server (o_spec login)) username password factory;
          match r with
          | inr _ => release login
          | inl c => defer_ (sql c "Close" [] Close ;; mret tt) (delete_connected login c)
          end
      end
    else release login.

Definition Reconcile (req : NamespacedName) : M ReconcileResult :=
  _ ← Now;
  defer_ (_ ← Now; Metric "ReconcileDuration" ["Login"] Observed) (
    r ← Get KLogin req;
    match r with
    | inr err => if IsNotFound err then return_ (Result0, None) else return_ (Result0, Some err)
    | inl login =>
        match DeletionTimestamp (o_meta login) with
        | Some _ => handleDeletion login
        | None => reconcile_live login
        end
    end).

(** ** Theorems *)
Context `{!GoEnvLaws} `{!SQLClientLaws Conn D} `{!KubeUtilLaws}.
Implicit Types (w : World K D Conn) (login : Login).

(** *** The SQL state each step leaves *)
Section Steps.
Context (login : Login) (c : Conn) (P : Action Conn -> D -> Prop).
Let name := login_LoginName (o_spec login).
(** The step may perform anything but a Ready=True write. *)
Context (HP : forall a d, ~ ready_patch a -> P a d).
Ltac permit ::= solve [ apply HP; intros [] | auto ].

Definition at_view (v : LoginView) w : Prop := v_login c (w_sql w) name = Some v.

(** The password is [pw] when it was just set: the login is new, or the
    Secret's version differs from the recorded one. *)
Definition rotated (pwSecret : Secret) (pw : string) (v : LoginView) : Prop :=
  ResourceVersion (o_meta pwSecret) <> PasswordSecretResourceVersion (extra (o_status login)) ->
  lv_password v = pw.

Lemma ensure_login_spec pwSecret pw w :
  does P (ensure_login login c pwSecret pw)
    (fun _ w' => exists v, at_view v w' /\ rotated pwSecret pw v /\
       (v_login c (w_sql w) name = None -> lv_password v = pw)) (fun _ _ => True) w.
Proof.
  unfold ensure_login, at_view, rotated. fold name. does_step.
  eapply does_try_query; [apply LoginExists_spec|permit|done|].
  intros b w1 -> Hsame. case_bool_decide as Hex; cbn [negb].
  - destruct Hex as [v Hv]. destruct (String.eqb_spec (ResourceVersion (o_meta pwSecret))
      (PasswordSecretResourceVersion (extra (o_status login)))) as [Heq|Hne]; cbn [negb].
    + does_step. exists v. rewrite Hsame. split_and!; [done|by rewrite Heq|congruence].
    + does_step. eapply does_try_op; [apply UpdateLoginPassword_spec|permit|done|].
      intros w2 (v2 & Hv2 & Hv2'). does_step. eexists. by split_and!.
  - does_step. eapply does_try_op; [apply CreateLogin_spec|permit|done|].
    intros w2 (v & Hv & Hpw). does_step. exists v. by split_and!.
Qed.

Lemma reconcile_default_database_spec v w :
  at_view v w ->
  does P (reconcile_default_database login c)
    (fun _ => at_view (mkLoginView (lv_password v)
                (default (lv_default_db v) (login_DefaultDatabase (o_spec login))) (lv_roles v)))
    (fun _ _ => True) w.
Proof.
  unfold reconcile_default_database, at_view. fold name. intros Hv.
  destruct (login_DefaultDatabase (o_spec login)) as [db|]; cbn [if_some default]; [|does_step; by destruct v].
  does_step. eapply does_try_query; [apply GetLoginDefaultDatabase_spec|permit|done|].
  intros cur w1 (v1 & Hv1 & <-) Hsame. rewrite Hv in Hv1. injection Hv1 as <-.
  destruct (String.eqb_spec (lv_default_db v) db) as [<-|Hne]; cbn [negb when].
  - does_step. rewrite Hsame. by destruct v.
  - eapply does_try_op; [apply SetLoginDefaultDatabase_spec|permit|done|].
    intros w2 (v2 & Hv2 & Hv2'). rewrite Hsame in Hv2. cbn. congruence.
Qed.

(** The roles end exactly as in the spec, the rest of the login is kept. *)
Lemma reconcileServerRoles_spec roles v w :
  at_view v w ->
  does P (reconcileServerRoles c name roles) (fun _ _ => False)
    (fun e w' => e = None -> at_view (mkLoginView (lv_password v) (lv_default_db v) (toSet roles)) w') w.
Proof.
  intros Hv. unfold reconcileServerRoles.
  apply (reconcile_set_spec _ _ (fun s d =>
    v_login c d name = Some (mkLoginView (lv_password v) (lv_default_db v) s))) with (s := lv_roles v).
  - intros r w'. cbn. by does_step.
  - intros r w'. cbn. by does_step.
  - intros s w' Hs. eapply does_sql_query; [apply GetLoginServerRoles_spec|permit|done|].
    intros x w'' (v1 & Hv1 & Hx) Hsame _. rewrite Hs in Hv1. injection Hv1 as <-. by rewrite Hsame.
  - intros r s w' Hs. eapply does_sql_op; [apply AddLoginToServerRole_spec|permit|done|].
    intros w'' (v1 & Hv1 & Hv1') _. rewrite Hs in Hv1. by injection Hv1 as <-.
  - intros r s w' Hs. eapply does_sql_op; [apply RemoveLoginFromServerRole_spec|permit|done|].
    intros w'' (v1 & Hv1 & Hv1') _. rewrite Hs in Hv1. by injection Hv1 as <-.
  - unfold at_view in Hv. rewrite Hv. by destruct v.
Qed.
End Steps.

(** *** What Ready=True means *)
(** The login on the server, as the spec and the password Secret ask; [recorded]
    is the Secret version of the status the reconcile started from, [written]
    the one it writes. *)
Record synced (login : Login) (pwSecret : Secret) (pw : string) (written : Login) (v : LoginView)
    : Prop := {
  synced_roles : lv_roles v = toSet (login_ServerRoles (o_spec login));
  synced_default_db db : login_DefaultDatabase (o_spec login) = Some db -> lv_default_db v = db;
  synced_password : rotated login pwSecret pw v;
  synced_version : PasswordSecretResourceVersion (extra (o_status written)) =
                   ResourceVersion (o_meta pwSecret)
}.

Definition connected_claim (login : Login) (c : Conn) (pwSecret : Secret) (pw : string)
    (base written : Login) (d : D) : Prop :=
  base = login /\ exists v, v_login c d (login_LoginName (o_spec login)) = Some v /\
    synced login pwSecret pw written v.

Lemma login_connected_claims login c pwSecret pw w :
  does (ready_claim KLogin (connected_claim login c pwSecret pw))
    (reconcile_connected login c pwSecret pw) (fun _ _ => False) (fun _ _ => True) w.
Proof.
  pose proof (ready_claim_not_ready (Conn := Conn) KLogin (connected_claim login c pwSecret pw)) as HP.
  unfold reconcile_connected. does_step.
  eapply does_post; [apply (ensure_login_spec login c _ HP)| |done].
  intros [] w1 (v1 & Hv1 & Hrot & _). does_step.
  eapply does_post; [by apply (reconcile_default_database_spec login c _ HP v1)| |done].
  intros [] w2 Hv2. do 2 does_step.
  eapply does_post; [by apply (reconcileServerRoles_spec login c _ HP)|done|].
  intros [e|] w3 Hv3; cbn.
  { does_all; try done; by apply HP. }
  specialize (Hv3 eq_refl). unfold report_ready. does_all; try done; try (by apply HP).
  apply ready_claim_patch. intros _. split; [done|]. eexists. split; [exact Hv3|].
  split; cbn; [done|by intros db ->|exact Hrot|done].
Qed.

Ltac permit ::= solve [ done | apply ready_claim_not_ready; intros Hr; by apply is_ready_with in Hr ].
(** C23: every reconcile of a Login returns, and whenever it writes Ready=True
    the login exists on the server the factory connected to, its server
    roles are exactly those of the spec, its default database is the one of
    the spec, the status written records the version of the password Secret
    it read, and if that version differs from the one recorded before, the
    password on the server is the one of the Secret. *)
Theorem Reconcile_login_ready_sound req w :
  performs (ready_claim KLogin (fun login written d => exists c pwSecret pw v k k',
      connected factory (login_Server (o_spec login)) c /\
      kube_Get KSecret (mkKey (Namespace (o_meta login)) (sec_Name (login_PasswordSecret (o_spec login)))) k
        = (inl pwSecret, k') /\
      o_spec pwSecret !! "password" = Some pw /\
      v_login c d (login_LoginName (o_spec login)) = Some v /\
      synced login pwSecret pw written v))
    (Reconcile req) w.
Proof.
  apply performs_intro.
  unfold Reconcile, handleDeletion, delete_connected, in_use, release, drop_login, reconcile_live,
    setConditionAndReturn.
  does_all; try done;
    (eapply does_mono; [apply login_connected_claims| |done|intros; does_all; done]);
    intros a d; apply ready_claim_mono; intros base written [-> (v & Hv & Hs)];
    do 6 eexists; split_and!; eassumption.
Qed.

(** *** Deletion *)
(** DROP LOGIN is issued for the object under deletion that [Get] returned,
    still holding the finalizer, with the Delete policy, right after
    [LoginHasUsers] answered, but not that the login has users. *)
Definition drop_justified (req : NamespacedName) (a : Action Conn) (d : D) : Prop :=
  match a with
  | ASql c m args => m = "DropLogin" ->
      exists k k' login, kube_Get KLogin req k = (inl login, k') /\
        is_Some (DeletionTimestamp (o_meta login)) /\ Finalizer ∈ Finalizers (o_meta login) /\
        login_DeletionPolicy (o_spec login) = Some DeletionPolicyDelete /\
        args = [login_LoginName (o_spec login)] /\
        exists d0 hasUsers err, LoginHasUsers (login_LoginName (o_spec login)) c d0 = ((hasUsers, err), d) /\
          (err = None -> hasUsers = false)
  | _ => True
  end.

Ltac permit ::= done.
Lemma runs_reconcileServerRoles req c name roles :
  runs (drop_justified req) (fun _ => True) (reconcileServerRoles c name roles).
Proof. apply runs_reconcile_set; cbn; intros; runs_auto. Qed.

Lemma runs_login_connected req login c pwSecret pw :
  runs (drop_justified req) (fun _ => False) (reconcile_connected login c pwSecret pw).
Proof.
  unfold reconcile_connected, ensure_login, reconcile_default_database, report_ready.
  runs_auto. apply runs_reconcileServerRoles.
Qed.


(** C24: a reconcile of a Login issues DROP LOGIN only for the object it
    fetched, under deletion, still holding the finalizer and with deletion
    policy Delete, right after the server was asked whether the login has
    users and did not answer that it has. *)
Theorem Reconcile_login_drop_justified req w :
  performs (drop_justified req) (Reconcile req) w.
Proof.
  apply performs_intro.
  unfold Reconcile, handleDeletion, delete_connected, in_use, release, drop_login, reconcile_live,
    setConditionAndReturn.
  does_all; try done;
    try (eapply runs_does; [apply runs_login_connected|done|intros; by does_all]);
    intros _; rewrite ContainsFinalizer_spec in *;
    do 3 eexists; (split_and!; [eassumption|by eauto| |by eapply policy_delete|done|]);
    first [by eapply bool_decide_eq_true, negb_false_iff | do 3 eexists; split; [eassumption|done]].
Qed.



Ltac permit ::= solve [ done | split; [solve [done | by apply read_only_sql] | done] ].
(** While the login has users the cleanup changes nothing and keeps the finalizer. *)
Lemma delete_login_in_use login c w d' :
  LoginHasUsers (login_LoginName (o_spec login)) c (w_sql w) = ((true, None), d') ->
  performs (fun a _ => read_only a /\ forall o, a <> AUpdate KLogin o) (delete_connected login c) w.
Proof.
  intros Hu. apply performs_intro. unfold delete_connected, in_use.
  do 4 does_step.
  match goal with E : LoginHasUsers _ _ _ = _ |- _ => cbn in E; rewrite Hu in E; simplify_eq end.
  by does_all.
Qed.

Ltac permit ::= done.
(** Deleting a Login that holds the finalizer ends with an update that
    removes it, or, when the server answered that the login has users, with
    a requeue after a positive delay and no error. *)
Theorem login_deletion_ends login w :
  Finalizer ∈ Finalizers (o_meta login) ->
  ends (handleDeletion login) (fun r w' =>
    (exists d, (AUpdate KLogin (with_meta (RemoveFinalizer (o_meta login) Finalizer) login), d) ∈ w_log w') \/
    (r.2 = None /\ 0 < RequeueAfter r.1 /\
     exists c d0 d1, LoginHasUsers (login_LoginName (o_spec login)) c d0 = ((true, None), d1))) w.
Proof.
  intros Hf. apply (ends_intro (fun _ _ => True)).
  unfold handleDeletion, delete_connected, in_use, release, drop_login.
  rewrite ContainsFinalizer_spec, bool_decide_true by done. cbn [negb].
  does_all; try done;
    try (left; eexists; cbn; rewrite !elem_of_app, !list_elem_of_singleton; eauto 10; done).
  right. pose proof requeueInterval_pos. split_and!; [done|cbn; lia|by do 3 eexists].
Qed.

(** *** Stability *)
(** Nothing is left to change on the server. *)
Record settled (login : Login) (pwSecret : Secret) (v : LoginView) : Prop := {
  settled_version : PasswordSecretResourceVersion (extra (o_status login)) =
                    ResourceVersion (o_meta pwSecret);
  settled_default_db db : login_DefaultDatabase (o_spec login) = Some db -> lv_default_db v = db;
  settled_roles : lv_roles v = toSet (login_ServerRoles (o_spec login))
}.

Ltac permit ::= solve [ done | by apply read_only_sql ].
Lemma login_connected_stable login c pwSecret pw v w :
  v_login c (w_sql w) (login_LoginName (o_spec login)) = Some v ->
  settled login pwSecret v ->
  does (fun a _ => read_only a) (reconcile_connected login c pwSecret pw)
    (fun _ _ => False) (fun _ _ => True) w.
Proof.
  intros Hv [Hver Hdb Hroles]. unfold reconcile_connected, ensure_login.
  do 2 does_step. eapply does_try_query; [apply LoginExists_spec|permit|done|].
  intros b w1 -> Hs1. rewrite Hv, bool_decide_true by done. cbn [negb].
  rewrite <- Hver, String.eqb_refl. cbn [negb]. do 2 does_step.
  eapply (does_post _ _ (fun _ w' => v_login c (w_sql w') = v_login c (w_sql w)) _ (fun _ _ => True)); [| |done].
  { unfold reconcile_default_database. destruct (login_DefaultDatabase (o_spec login)) as [db|];
      cbn [if_some]; [|by does_step].
    eapply does_settled; [apply GetLoginDefaultDatabase_spec|permit| |done|intros ? Hs; cbn in Hs; congruence].
    cbn. rewrite Hs1, Hv. intros x (v1 & [= <-] & <-). apply String.eqb_eq. auto. }
  intros [] w2 Hs2. do 2 does_step.
  unfold reconcileServerRoles. eapply does_post; [apply reconcile_set_settled| |].
  - cbn. eapply does_sql_query; [apply GetLoginServerRoles_spec|permit|done|].
    intros l w3 (v1 & Hv1 & Hl) _ _. cbn. rewrite Hs2, Hv in Hv1. injection Hv1 as <-.
    by rewrite <- Hroles, <- Hl.
  - done.
  - intros e w3 _. unfold report_ready. by does_all.
Qed.

(** A reconcile of a login that exists with the default database and the
    roles of the spec and whose password Secret did not change since the
    recorded version only reads: the password is not set again. *)
Theorem login_reconcile_stable login c pwSecret pw v w :
  v_login c (w_sql w) (login_LoginName (o_spec login)) = Some v ->
  settled login pwSecret v ->
  performs (fun a _ => read_only a) (reconcile_connected login c pwSecret pw) w.
Proof. intros Hv Hs. by eapply performs_intro, login_connected_stable. Qed.
End Controller.
End LoginCtl.
