(* ===== verification/DatabaseUserController.v ===== *)
(** * The DatabaseUser controller (internal/controller/databaseuser_controller.go)

    A database user of the login its [loginRef] names, and its roles; deletion is
    blocked while the user owns objects. *)
From S2P Require Import Prelude Types SqlClient Kube Helpers SetReconcile.

Module UserCtl.
Section Controller.
Context `{GoEnv} {K D Conn : Type} `{KubeClient K} `{SQLClient Conn D} `{KubeUtil}.
(** [r.SQLClientFactory]. *)
Variable factory : ClientFactory Conn D.
Abbreviation M A := (Go (World K D Conn) ReconcileResult A).

Definition setConditionAndReturn (dbUser : DatabaseUser) (status reason message : string)
    : M ReconcileResult :=
  set_condition_and_return (StatusPatch KDatabaseUser) dbUser status reason message.

(** Steps 6 and 7. *)
Definition ensure_user (dbUser : DatabaseUser) (c : Conn) (loginName : string) : M unit :=
  let db := user_DatabaseName (o_spec dbUser) in
  let name := user_UserName (o_spec dbUser) in
  exists_ ← try_query (sql c "UserExists" [db; name] (UserExists db name))
              "failed to check user existence";
  when (negb exists_) (
    try_op (sql c "CreateUser" [db; name; loginName] (CreateUser db name loginName))
      (Sprintf "failed to create user %s" [name]) ;;
    Event EventTypeNormal "DatabaseUserCreated" (Sprintf "User %s created in database %s" [name; db])).

Definition role_calls (c : Conn) (dbName userName : string) : SetCalls (K := K) (D := D) (Conn := Conn) := {|
  get_items := sql c "GetUserDatabaseRoles" [dbName; userName] (GetUserDatabaseRoles dbName userName);
  add_item role :=
    sql c "AddUserToDatabaseRole" [dbName; userName; role] (AddUserToDatabaseRole dbName userName role);
  remove_item role :=
    sql c "RemoveUserFromDatabaseRole" [dbName; userName; role]
      (RemoveUserFromDatabaseRole dbName userName role);
  get_failed := ErrWrap "failed to get database roles";
  add_failed role := ErrWrap (Sprintf "failed to add role %s" [role]);
  remove_failed role := ErrWrap (Sprintf "failed to remove role %s" [role]);
  added role := Event EventTypeNormal "DatabaseRoleAdded"
    (Sprintf "User %s added to database role %s" [userName; role]);
  removed role := Event EventTypeNormal "DatabaseRoleRemoved"
    (Sprintf "User %s removed from database role %s" [userName; role])
|}.

Definition reconcileDatabaseRoles (c : Conn) (dbName userName : string) (desiredRoles : list string)
    : Go (World K D Conn) (option error) (option error) :=
  reconcile_set (role_calls c dbName userName) desiredRoles.

(** Steps 6 to 8, once connected. *)
Definition reconcile_connected (dbUser : DatabaseUser) (c : Conn) (loginName : string)
    : M ReconcileResult :=
  let db := user_DatabaseName (o_spec dbUser) in
  let name := user_UserName (o_spec dbUser) in
  ensure_user dbUser c loginName ;;
  err ← fn (reconcileDatabaseRoles c db name (user_DatabaseRoles (o_spec dbUser)));
  on_err err (fun e =>
    Metric "ReconcileErrors" ["DatabaseUser"; "DatabaseRoleReconciliation"] Inc ;;
    return_ (Result0, Some e)) ;;
  Metric "ReconcileTotal" ["DatabaseUser"; "success"] Inc ;;
  setConditionAndReturn dbUser ConditionTrue ReasonReady
    (Sprintf "User %s is ready in database %s" [name; db]).

(** Steps 2 to 5 for a live object. *)
Definition reconcile_live (dbUser : DatabaseUser) : M ReconcileResult :=
  dbUser ← (if ContainsFinalizer (o_meta dbUser) Finalizer then mret dbUser
            else try_write (Update KDatabaseUser (with_meta (AddFinalizer (o_meta dbUser) Finalizer) dbUser)));
  let ns := Namespace (o_meta dbUser) in
  let refName := loginref_Name (user_LoginRef (o_spec dbUser)) in
  let secretName := sec_Name (CredentialsSecret (user_Server (o_spec dbUser))) in
  r ← Get KLogin (mkKey ns refName);
  match r with
  | inr err =>
      if IsNotFound err then
        setConditionAndReturn dbUser ConditionFalse ReasonLoginRefNotFound
          (Sprintf "Login CR %q not found" [strconv_quote refName])
      else return_ (Result0, Some err)
  | inl login =>
  r ← getCredentialsFromSecret ns secretName;
  match r with
  | inr err =>
      if IsNotFound err then
        setConditionAndReturn dbUser ConditionFalse ReasonSecretNotFound
          (Sprintf "Secret %q not found" [strconv_quote secretName])
      else setConditionAndReturn dbUser ConditionFalse ReasonInvalidCredentialsSecret (err_text err)
  | inl (username, password) =>
  r ← connectToSQL (user_Server (o_spec dbUser)) username password factory;
  match r with
  | inr err =>
      Event EventTypeWarning ReasonConnectionFailed (err_text err) ;;
      fail "failed to connect to SQL Server" err
  | inl c =>
      defer_ (sql c "Close" [] Close ;; mret tt)
        (reconcile_connected dbUser c (login_LoginName (o_spec login)))
  end end end.

Definition release (dbUser : DatabaseUser) : M ReconcileResult :=
  let dbUser := with_meta (RemoveFinalizer (o_meta dbUser) Finalizer) dbUser in
  try_write (Update KDatabaseUser dbUser) ;;
  return_ (Result0, None).

(** The user still owns objects: report it and come back later. *)
Definition owns_objects (dbUser : DatabaseUser) : M ReconcileResult :=
  Event EventTypeWarning ReasonUserOwnsObjects
    (Sprintf "User %s owns objects in database %s"
      [user_UserName (o_spec dbUser); user_DatabaseName (o_spec dbUser)]) ;;
  StatusPatch KDatabaseUser dbUser (with_ready_condition ConditionFalse ReasonUserOwnsObjects
    "User owns objects in the database, transfer ownership first" dbUser) ;;
  d ← requeueWithJitter requeueInterval;
  return_ (RequeueIn d, None).

Definition drop_user (dbUser : DatabaseUser) (c : Conn) : M unit :=
  let db := user_DatabaseName (o_spec dbUser) in
  let name := user_UserName (o_spec dbUser) in
  err ← sql c "DropUser" [db; name] (DropUser db name);
  match err with
  | Some _ => mret tt
  | None => Event EventTypeNormal "DatabaseUserDropped"
              (Sprintf "User %s dropped from database %s" [name; db])
  end.

(** The cleanup once connected. *)
Definition delete_connected (dbUser : DatabaseUser) (c : Conn) : M ReconcileResult :=
  let db := user_DatabaseName (o_spec dbUser) in
  let name := user_UserName (o_spec dbUser) in
  ' (owns, err) ← sql c "UserOwnsObjects" [db; name] (UserOwnsObjects db name);
  match err with
  | Some _ => drop_user dbUser c ;; release dbUser  (* failed to check if user owns objects *)
  | None => if owns : bool then owns_objects dbUser else drop_user dbUser c ;; release dbUser
  end.

(** There is no deletion policy: the user is always dropped. *)
Definition handleDeletion (dbUser : DatabaseUser) : M ReconcileResult :=
  if negb (ContainsFinalizer (o_meta dbUser) Finalizer) then return_ (Result0, None)
  else
    r ← getCredentialsFromSecret (Namespace (o_meta dbUser))
          (sec_Name (CredentialsSecret (user_Server (o_spec dbUser))));
    match r with
    | inr _ => release dbUser
    | inl (username, password) =>
        r ← connectToSQL (user_Server (o_spec dbUser)) username password factory;
        match r with
        | inr _ => release dbUser
        | inl c => defer_ (sql c "Close" [] Close ;; mret tt) (delete_connected dbUser c)
        end
    end.

Definition Reconcile (req : NamespacedName) : M ReconcileResult :=
  _ ← Now;
  defer_ (_ ← Now; Metric "ReconcileDuration" ["DatabaseUser"] Observed) (
    r ← Get KDatabaseUser req;
    match r with
    | inr err => if IsNotFound err then return_ (Result0, None) else return_ (Result0, Some err)
    | inl dbUser =>
        match DeletionTimestamp (o_meta dbUser) with
        | Some _ => handleDeletion dbUser
        | None => reconcile_live dbUser
        end
    end).

(** ** Theorems *)
Context `{!GoEnvLaws} `{!SQLClientLaws Conn D} `{!KubeUtilLaws}.
Implicit Types (w : World K D Conn) (dbUser : DatabaseUser).

Section Steps.
Context (dbUser : DatabaseUser) (c : Conn) (P : Action Conn -> D -> Prop).
Let db := user_DatabaseName (o_spec dbUser).
Let name := user_UserName (o_spec dbUser).
Context (HP : forall a d, ~ ready_patch a -> P a d).
Ltac permit ::= solve [ apply HP; intros [] | auto ].

Definition at_view (v : UserView) w : Prop := v_user c (w_sql w) db name = Some v.

(** A user there was is left as it is; a new one belongs to the login. *)
Lemma ensure_user_spec loginName w :
  does P (ensure_user dbUser c loginName)
    (fun _ w' => exists v, at_view v w' /\
       match v_user c (w_sql w) db name with
       | Some v0 => v = v0
       | None => uv_login v = loginName
       end) (fun _ _ => True) w.
Proof.
  unfold ensure_user, at_view. fold db name. does_step.
  eapply does_try_query; [apply UserExists_spec|permit|done|].
  intros b w1 -> Hsame. case_bool_decide as Hex; cbn [negb when].
  - destruct Hex as [v Hv]. does_step. exists v. by rewrite Hsame, Hv.
  - does_step. eapply does_try_op; [apply CreateUser_spec|permit|done|].
    intros w2 (v & Hv & Hl). does_step. exists v. split; [done|].
    by apply eq_None_not_Some in Hex as ->.
Qed.

Lemma reconcileDatabaseRoles_spec roles v w :
  at_view v w ->
  does P (reconcileDatabaseRoles c db name roles) (fun _ _ => False)
    (fun e w' => e = None -> at_view (mkUserView (uv_login v) (toSet roles) (uv_owns v)) w') w.
Proof.
  intros Hv. unfold reconcileDatabaseRoles.
  apply (reconcile_set_spec _ _ (fun s d =>
    v_user c d db name = Some (mkUserView (uv_login v) s (uv_owns v)))) with (s := uv_roles v).
  - intros r w'. cbn. by does_step.
  - intros r w'. cbn. by does_step.
  - intros s w' Hs. eapply does_sql_query; [apply GetUserDatabaseRoles_spec|permit|done|].
    intros x w'' (v1 & Hv1 & Hx) Hsame _. rewrite Hs in Hv1. injection Hv1 as <-. by rewrite Hsame.
  - intros r s w' Hs. eapply does_sql_op; [apply AddUserToDatabaseRole_spec|permit|done|].
    intros w'' (v1 & Hv1 & Hv1') _. rewrite Hs in Hv1. by injection Hv1 as <-.
  - intros r s w' Hs. eapply does_sql_op; [apply RemoveUserFromDatabaseRole_spec|permit|done|].
    intros w'' (v1 & Hv1 & Hv1') _. rewrite Hs in Hv1. by injection Hv1 as <-.
  - unfold at_view in Hv. rewrite Hv. by destruct v.
Qed.
End Steps.

(** *** What Ready=True means *)
(** The user as the spec asks, seen in [d]; [v0] is what there was before: an
    existing user keeps its login, whichever it is. *)
Definition synced (dbUser : DatabaseUser) (loginName : string) (v0 : option UserView) (v : UserView) : Prop :=
  uv_roles v = toSet (user_DatabaseRoles (o_spec dbUser)) /\
  match v0 with Some v0 => uv_login v = uv_login v0 | None => uv_login v = loginName end.

Lemma user_connected_claims dbUser c loginName w :
  let db := user_DatabaseName (o_spec dbUser) in
  let name := user_UserName (o_spec dbUser) in
  does (ready_claim KDatabaseUser (fun base _ d => base = dbUser /\
         exists v, v_user c d db name = Some v /\
           synced dbUser loginName (v_user c (w_sql w) db name) v))
    (reconcile_connected dbUser c loginName) (fun _ _ => False) (fun _ _ => True) w.
Proof.
  intros db name.
  pose proof (ready_claim_not_ready (Conn := Conn) KDatabaseUser (fun base _ d => base = dbUser /\
         exists v, v_user c d db name = Some v /\
           synced dbUser loginName (v_user c (w_sql w) db name) v)) as HP.
  unfold reconcile_connected. does_step.
  eapply does_post; [apply (ensure_user_spec dbUser c _ HP)| |done].
  intros [] w1 (v1 & Hv1 & Hlog). fold db name in Hlog. do 2 does_step.
  eapply does_post; [by apply (reconcileDatabaseRoles_spec dbUser c _ HP)|done|].
  intros [e|] w2 Hv2; cbn.
  { does_all; try done; by apply HP. }
  specialize (Hv2 eq_refl). unfold setConditionAndReturn. does_all; try done; try (by apply HP).
  apply ready_claim_patch. intros _. split; [done|]. eexists. split; [exact Hv2|]. split; [done|].
  by destruct (v_user c (w_sql w) db name) as [v0|]; subst.
Qed.

Ltac permit ::= solve [ done | apply ready_claim_not_ready; intros Hr; by apply is_ready_with in Hr ].
(** C25: every reconcile of a DatabaseUser returns, and whenever it writes
    Ready=True the Login its loginRef names was found, and the user exists
    in its database on the connected server with exactly the database roles
    of the spec. *)
Theorem Reconcile_user_ready_sound req w :
  performs (ready_claim KDatabaseUser (fun dbUser _ d => exists c login v k k',
      connected factory (user_Server (o_spec dbUser)) c /\
      kube_Get KLogin (mkKey (Namespace (o_meta dbUser)) (loginref_Name (user_LoginRef (o_spec dbUser)))) k
        = (inl login, k') /\
      v_user c d (user_DatabaseName (o_spec dbUser)) (user_UserName (o_spec dbUser)) = Some v /\
      uv_roles v = toSet (user_DatabaseRoles (o_spec dbUser))))
    (Reconcile req) w.
Proof.
  apply performs_intro.
  unfold Reconcile, handleDeletion, delete_connected, owns_objects, release, drop_user, reconcile_live,
    setConditionAndReturn.
  does_all; try done;
    (eapply does_mono; [apply user_connected_claims| |done|intros; does_all; done]);
    intros a d; apply ready_claim_mono; intros base written [-> (v & Hv & Hs & _)];
    do 5 eexists; split_and!; eassumption.
Qed.

(** C?: x *)
Theorem user_connected_login dbUser c loginName w :
  let db := user_DatabaseName (o_spec dbUser) in
  let name := user_UserName (o_spec dbUser) in
  performs (ready_claim KDatabaseUser (fun _ _ d => exists v,
      v_user c d db name = Some v /\ synced dbUser loginName (v_user c (w_sql w) db name) v))
    (reconcile_connected dbUser c loginName) w.
Proof.
  intros db name. apply performs_intro.
  eapply does_mono; [apply user_connected_claims| |done|done].
  intros a d. apply ready_claim_mono. by intros ?? [_ ?].
Qed.

(** *** Deletion *)
(** DROP USER is issued for the object under deletion that [Get] returned, still
    holding the finalizer, right after [UserOwnsObjects] answered, but not that
    the user owns objects. *)
Definition drop_justified (req : NamespacedName) (a : Action Conn) (d : D) : Prop :=
  match a with
  | ASql c m args => m = "DropUser" ->
      exists k k' dbUser, kube_Get KDatabaseUser req k = (inl dbUser, k') /\
        is_Some (DeletionTimestamp (o_meta dbUser)) /\ Finalizer ∈ Finalizers (o_meta dbUser) /\
        let db := user_DatabaseName (o_spec dbUser) in
        let name := user_UserName (o_spec dbUser) in
        args = [db; name] /\
        exists d0 owns err, UserOwnsObjects db name c d0 = ((owns, err), d) /\ (err = None -> owns = false)
  | _ => True
  end.

Ltac permit ::= done.
Lemma runs_user_connected req dbUser c loginName :
  runs (drop_justified req) (fun _ => False) (reconcile_connected dbUser c loginName).
Proof.
  unfold reconcile_connected, ensure_user, setConditionAndReturn.
  runs_auto. apply runs_reconcile_set; cbn; intros; runs_auto.
Qed.

(** A reconcile of a DatabaseUser issues DROP USER only for the object it
    fetched, under deletion and still holding the finalizer, right after the
    server was asked whether the user owns objects and did not answer that
    it does. *)
Theorem Reconcile_user_drop_justified req w :
  performs (drop_justified req) (Reconcile req) w.
Proof.
  apply performs_intro.
  unfold Reconcile, handleDeletion, delete_connected, owns_objects, release, drop_user, reconcile_live,
    setConditionAndReturn.
  does_all; try done;
    try (eapply runs_does; [apply runs_user_connected|done|intros; by does_all]);
    intros _; rewrite ContainsFinalizer_spec in *;
    do 3 eexists; (split; [eassumption|split; [by eauto|split; [|split; [done|]]]]);
    first [by eapply bool_decide_eq_true, negb_false_iff | do 3 eexists; split; [eassumption|done]].
Qed.

(** The finalizer goes unless the user owns objects, which is asked again later. *)
Lemma user_deletion_ends dbUser w :
  Finalizer ∈ Finalizers (o_meta dbUser) ->
  ends (handleDeletion dbUser) (fun r w' =>
    (exists d, (AUpdate KDatabaseUser (with_meta (RemoveFinalizer (o_meta dbUser) Finalizer) dbUser), d)
       ∈ w_log w') \/
    (r.2 = None /\ 0 < RequeueAfter r.1 /\ exists c d0 d1,
       UserOwnsObjects (user_DatabaseName (o_spec dbUser)) (user_UserName (o_spec dbUser)) c d0
         = ((true, None), d1))) w.
Proof.
  intros Hf. apply (ends_intro (fun _ _ => True)).
  unfold handleDeletion, delete_connected, owns_objects, release, drop_user.
  rewrite ContainsFinalizer_spec, bool_decide_true by done. cbn [negb].
  does_all; try done;
    try (left; eexists; cbn; rewrite !elem_of_app, !list_elem_of_singleton; eauto 10; done).
  right. pose proof requeueInterval_pos. split_and!; [done|cbn; lia|by do 3 eexists].
Qed.

(** *** Stability *)
Ltac permit ::= solve [ done | by apply read_only_sql ].
Lemma user_connected_stable dbUser c loginName v w :
  v_user c (w_sql w) (user_DatabaseName (o_spec dbUser)) (user_UserName (o_spec dbUser)) = Some v ->
  uv_roles v = toSet (user_DatabaseRoles (o_spec dbUser)) ->
  does (fun a _ => read_only a) (reconcile_connected dbUser c loginName)
    (fun _ _ => False) (fun _ _ => True) w.
Proof.
  intros Hv Hroles. unfold reconcile_connected, ensure_user.
  do 2 does_step. eapply does_try_query; [apply UserExists_spec|permit|done|].
  intros b w1 -> Hs1. rewrite Hv, bool_decide_true by done. cbn [negb when]. do 3 does_step.
  unfold reconcileDatabaseRoles. eapply does_post; [apply reconcile_set_settled| |].
  - cbn. eapply does_sql_query; [apply GetUserDatabaseRoles_spec|permit|done|].
    intros l w3 (v1 & Hv1 & Hl) _ _. cbn. rewrite Hs1, Hv in Hv1. injection Hv1 as <-.
    by rewrite <- Hroles, <- Hl.
  - done.
  - intros e w3 _. unfold setConditionAndReturn. by does_all.
Qed.
(** A user that has the roles of the spec is only read. *)
Lemma user_reconcile_stable dbUser c loginName v w :
  v_user c (w_sql w) (user_DatabaseName (o_spec dbUser)) (user_UserName (o_spec dbUser)) = Some v ->
  uv_roles v = toSet (user_DatabaseRoles (o_spec dbUser)) ->
  performs (fun a _ => read_only a) (reconcile_connected dbUser c loginName) w.
Proof. intros Hv Hr. by eapply performs_intro, user_connected_stable. Qed.
End Controller.
End UserCtl.
