(* ===== verification/SchemaController.v ===== *)
(** * The Schema controller (internal/controller/schema_controller.go)

    A schema of a database and its owner; under the Delete policy it is dropped,
    but not while it contains objects. *)
From S2P Require Import Prelude Types SqlClient Kube Helpers.

Module SchemaCtl.
Section Controller.
Context `{GoEnv} {K D Conn : Type} `{KubeClient K} `{SQLClient Conn D} `{KubeUtil}.
(** [r.SQLClientFactory]. *)
Variable factory : ClientFactory Conn D.
Abbreviation M A := (Go (World K D Conn) ReconcileResult A).

Definition setConditionAndReturn (schema : Schema) (status reason message : string) : M ReconcileResult :=
  set_condition_and_return (StatusPatch KSchema) schema status reason message.

(** Steps 5 and 6. *)
Definition ensure_schema (schema : Schema) (c : Conn) : M unit :=
  let db := schema_DatabaseName (o_spec schema) in
  let name := schema_SchemaName (o_spec schema) in
  exists_ ← try_query (sql c "SchemaExists" [db; name] (SchemaExists db name))
              "failed to check schema existence";
  when (negb exists_) (
    try_op (sql c "CreateSchema" [db; name] (CreateSchema db name (schema_Owner (o_spec schema))))
      (Sprintf "failed to create schema %s" [name]) ;;
    Event EventTypeNormal "SchemaCreated" (Sprintf "Schema %s created in database %s" [name; db])).

Definition reconcile_owner (schema : Schema) (c : Conn) : M unit :=
  let db := schema_DatabaseName (o_spec schema) in
  let name := schema_SchemaName (o_spec schema) in
  if_some (schema_Owner (o_spec schema)) (fun owner =>
    currentOwner ← try_query (sql c "GetSchemaOwner" [db; name] (GetSchemaOwner db name))
                     "failed to get schema owner";
    when (negb (String.eqb currentOwner owner)) (
      try_op (sql c "SetSchemaOwner" [db; name; owner] (SetSchemaOwner db name owner))
        "failed to set schema owner" ;;
      Event EventTypeNormal "SchemaOwnerUpdated" (Sprintf "Schema %s owner set to %s" [name; owner]))).

(** Steps 5 to 7, once connected. *)
Definition reconcile_connected (schema : Schema) (c : Conn) : M ReconcileResult :=
  ensure_schema schema c ;;
  reconcile_owner schema c ;;
  Metric "ReconcileTotal" ["Schema"; "success"] Inc ;;
  setConditionAndReturn schema ConditionTrue ReasonReady
    (Sprintf "Schema %s is ready in database %s"
      [schema_SchemaName (o_spec schema); schema_DatabaseName (o_spec schema)]).

(** Steps 2 to 4 for a live object. *)
Definition reconcile_live (schema : Schema) : M ReconcileResult :=
  schema ← (if ContainsFinalizer (o_meta schema) Finalizer then mret schema
            else try_write (Update KSchema (with_meta (AddFinalizer (o_meta schema) Finalizer) schema)));
  let secretName := sec_Name (CredentialsSecret (schema_Server (o_spec schema))) in
  r ← getCredentialsFromSecret (Namespace (o_meta schema)) secretName;
  match r with
  | inr err =>
      if IsNotFound err then
        setConditionAndReturn schema ConditionFalse ReasonSecretNotFound
          (Sprintf "Secret %q not found" [strconv_quote secretName])
      else setConditionAndReturn schema ConditionFalse ReasonInvalidCredentialsSecret (err_text err)
  | inl (username, password) =>
  r ← connectToSQL (schema_Server (o_spec schema)) username password factory;
  match r with
  | inr err =>
      Event EventTypeWarning ReasonConnectionFailed (err_text err) ;;
      fail "failed to connect to SQL Server" err
  | inl c => defer_ (sql c "Close" [] Close ;; mret tt) (reconcile_connected schema c)
  end end.

Definition release (schema : Schema) : M ReconcileResult :=
  let schema := with_meta (RemoveFinalizer (o_meta schema) Finalizer) schema in
  try_write (Update KSchema schema) ;;
  return_ (Result0, None).

(** The schema still has objects: report it and come back later. *)
Definition not_empty (schema : Schema) : M ReconcileResult :=
  Event EventTypeWarning ReasonSchemaNotEmpty
    (Sprintf "Schema %s contains objects in database %s"
      [schema_SchemaName (o_spec schema); schema_DatabaseName (o_spec schema)]) ;;
  StatusPatch KSchema schema (with_ready_condition ConditionFalse ReasonSchemaNotEmpty
    "Schema contains objects, move or drop them first" schema) ;;
  d ← requeueWithJitter requeueInterval;
  return_ (RequeueIn d, None).

Definition drop_schema (schema : Schema) (c : Conn) : M unit :=
  let db := schema_DatabaseName (o_spec schema) in
  let name := schema_SchemaName (o_spec schema) in
  err ← sql c "DropSchema" [db; name] (DropSchema db name);
  match err with
  | Some _ => mret tt  (* removing finalizer anyway *)
  | None => Event EventTypeNormal "SchemaDropped"
              (Sprintf "Schema %s dropped from database %s" [name; db])
  end.

(** The cleanup once connected. *)
Definition delete_connected (schema : Schema) (c : Conn) : M ReconcileResult :=
  let db := schema_DatabaseName (o_spec schema) in
  let name := schema_SchemaName (o_spec schema) in
  ' (hasObjects, err) ← sql c "SchemaHasObjects" [db; name] (SchemaHasObjects db name);
  match err with
  | Some _ => drop_schema schema c ;; release schema  (* failed to check if schema has objects *)
  | None => if hasObjects : bool then not_empty schema else drop_schema schema c ;; release schema
  end.

Definition handleDeletion (schema : Schema) : M ReconcileResult :=
  if negb (ContainsFinalizer (o_meta schema) Finalizer) then return_ (Result0, None)
  else
    let policy := default DeletionPolicyRetain (schema_DeletionPolicy (o_spec schema)) in
    if String.eqb policy DeletionPolicyDelete then
      r ← getCredentialsFromSecret (Namespace (o_meta schema))
            (sec_Name (CredentialsSecret (schema_Server (o_spec schema))));
      match r with
      | inr _ => release schema  (* removing finalizer anyway *)
      | inl (username, password) =>
          r ← connectToSQL (schema_Server (o_spec schema)) username password factory;
          match r with
          | inr _ => release schema  (* removing finalizer anyway *)
          | inl c => defer_ (sql c "Close" [] Close ;; mret tt) (delete_connected schema c)
          end
      end
    else release schema.

Definition Reconcile (req : NamespacedName) : M ReconcileResult :=
  _ ← Now;
  defer_ (_ ← Now; Metric "ReconcileDuration" ["Schema"] Observed) (
    r ← Get KSchema req;
    match r with
    | inr err => if IsNotFound err then return_ (Result0, None) else return_ (Result0, Some err)
    | inl schema =>
        match DeletionTimestamp (o_meta schema) with
        | Some _ => handleDeletion schema
        | None => reconcile_live schema
        end
    end).

(** ** Theorems *)
Context `{!SQLClientLaws Conn D} `{!KubeUtilLaws}.
Implicit Types (w : World K D Conn) (schema : Schema).

(** What the spec asks of the schema: it exists, with the owner of the spec. *)
Definition synced (schema : Schema) (c : Conn) (d : D) : Prop :=
  exists v, v_schema c d (schema_DatabaseName (o_spec schema)) (schema_SchemaName (o_spec schema)) = Some v /\
    forall o, schema_Owner (o_spec schema) = Some o -> sv_owner v = o.

Ltac permit ::= solve [ done | apply ready_claim_not_ready; solve [intros [] | intros Hr; by apply is_ready_with in Hr] ].
Lemma schema_connected_claims schema c w :
  does (ready_claim KSchema (fun base _ d => base = schema /\ synced schema c d))
    (reconcile_connected schema c) (fun _ _ => False) (fun _ _ => True) w.
Proof.
  set (db := schema_DatabaseName (o_spec schema)). set (name := schema_SchemaName (o_spec schema)).
  unfold reconcile_connected. does_step.
  eapply (does_post _ _ (fun _ w' => is_Some (v_schema c (w_sql w') db name)) _ (fun _ _ => True)); [| |done].
  { unfold ensure_schema. does_step. eapply does_try_query; [apply SchemaExists_spec|permit|done|].
    intros b w1 -> Hs. case_bool_decide as Hex; cbn [negb when].
    - does_step. by rewrite Hs.
    - does_step. eapply does_try_op; [apply CreateSchema_spec|permit|done|].
      intros w2 Hv. does_step. exact Hv. }
  intros [] w1 [v1 Hv1]. does_step.
  eapply (does_post _ _ (fun _ w' => synced schema c (w_sql w')) _ (fun _ _ => True)); [| |done].
  { unfold reconcile_owner, synced. destruct (schema_Owner (o_spec schema)) as [o|]; cbn [if_some];
      [|does_step; by exists v1].
    does_step. eapply does_try_query; [apply GetSchemaOwner_spec|permit|done|].
    intros cur w2 (v2 & Hv2 & <-) Hs. fold db name in Hv2 |- *.
    destruct (String.eqb_spec (sv_owner v2) o) as [<-|Hne]; cbn [negb when].
    - does_step. rewrite Hs. exists v2. split; [done|]. by intros ? [= <-].
    - does_step. eapply does_try_op; [apply SetSchemaOwner_spec|permit|done|].
      intros w3 (v3 & _ & Hv3). does_step. eexists. split; [exact Hv3|].
      by intros ? [= <-]. }
  intros [] w2 Hv2. unfold setConditionAndReturn. does_all; try done.
Qed.

(** C26: every reconcile of a Schema returns, and whenever it writes Ready=True
    the schema exists in its database on the connected server and its owner
    is the one of the spec. *)
Theorem Reconcile_schema_ready_sound req w :
  performs (ready_claim KSchema (fun schema _ d => exists c,
      connected factory (schema_Server (o_spec schema)) c /\ synced schema c d))
    (Reconcile req) w.
Proof.
  apply performs_intro.
  unfold Reconcile, handleDeletion, delete_connected, not_empty, release, drop_schema, reconcile_live,
    setConditionAndReturn.
  does_all; try done;
    (eapply does_mono; [apply schema_connected_claims| |done|intros; does_all; done]);
    intros a d; apply ready_claim_mono; intros base written [-> Hs]; eexists; split; eassumption.
Qed.

(** *** Deletion *)
(** DROP SCHEMA is issued for the object under deletion that [Get] returned,
    still holding the finalizer, with the Delete policy, right after
    [SchemaHasObjects] answered, but not that it has objects. *)
Definition drop_justified (req : NamespacedName) (a : Action Conn) (d : D) : Prop :=
  match a with
  | ASql c m args => m = "DropSchema" ->
      exists k k' schema, kube_Get KSchema req k = (inl schema, k') /\
        is_Some (DeletionTimestamp (o_meta schema)) /\ Finalizer ∈ Finalizers (o_meta schema) /\
        schema_DeletionPolicy (o_spec schema) = Some DeletionPolicyDelete /\
        args = [schema_DatabaseName (o_spec schema); schema_SchemaName (o_spec schema)] /\
        exists d0 has err, SchemaHasObjects (schema_DatabaseName (o_spec schema))
            (schema_SchemaName (o_spec schema)) c d0 = ((has, err), d) /\ (err = None -> has = false)
  | _ => True
  end.

Ltac permit ::= done.
Lemma runs_schema_connected req schema c :
  runs (drop_justified req) (fun _ => False) (reconcile_connected schema c).
Proof. unfold reconcile_connected, ensure_schema, reconcile_owner, setConditionAndReturn. runs_auto. Qed.

(** A reconcile of a Schema issues DROP SCHEMA only for the object it
    fetched, under deletion, still holding the finalizer and with deletion
    policy Delete, right after the server was asked whether the schema has
    objects and did not answer that it has. *)
Theorem Reconcile_schema_drop_justified req w :
  performs (drop_justified req) (Reconcile req) w.
Proof.
  apply performs_intro.
  unfold Reconcile, handleDeletion, delete_connected, not_empty, release, drop_schema, reconcile_live,
    setConditionAndReturn.
  does_all; try done;
    try (eapply runs_does; [apply runs_schema_connected|done|intros; by does_all]);
    intros _; rewrite ContainsFinalizer_spec in *;
    do 3 eexists; (split_and!; [eassumption|by eauto| |by eapply policy_delete|done|]);
    first [by eapply bool_decide_eq_true, negb_false_iff | do 3 eexists; split; [eassumption|done]].
Qed.

(** The finalizer goes unless the schema has objects, which is asked again later. *)
Lemma schema_deletion_ends schema w :
  Finalizer ∈ Finalizers (o_meta schema) ->
  ends (handleDeletion schema) (fun r w' =>
    (exists d, (AUpdate KSchema (with_meta (RemoveFinalizer (o_meta schema) Finalizer) schema), d) ∈ w_log w') \/
    (r.2 = None /\ 0 < RequeueAfter r.1 /\ exists c d0 d1,
       SchemaHasObjects (schema_DatabaseName (o_spec schema)) (schema_SchemaName (o_spec schema)) c d0
         = ((true, None), d1))) w.
Proof.
  intros Hf. apply (ends_intro (fun _ _ => True)).
  unfold handleDeletion, delete_connected, not_empty, release, drop_schema.
  rewrite ContainsFinalizer_spec, bool_decide_true by done. cbn [negb].
  does_all; try done;
    try (left; eexists; cbn; rewrite !elem_of_app, !list_elem_of_singleton; eauto 10; done).
  right. pose proof requeueInterval_pos. split_and!; [done|cbn; lia|by do 3 eexists].
Qed.
End Controller.
End SchemaCtl.
