(* ===== verification/PermissionController.v ===== *)
(** * The Permission controller (internal/controller/permission_controller.go)

    The GRANT and DENY entries of a database user: what the spec lists is
    granted or denied, what the server has besides is revoked. The comparison is
    against the permissions observed at the start of the reconcile. *)
From S2P Require Import Prelude Types SqlClient Kube Helpers.

Module PermCtl.
Section Controller.
Context `{GoEnv} {K D Conn : Type} `{KubeClient K} `{SQLClient Conn D} `{KubeUtil}.
(** [r.SQLClientFactory]. *)
Variable factory : ClientFactory Conn D.
Abbreviation M A := (Go (World K D Conn) ReconcileResult A).

Definition setConditionAndReturn (perm : Permission) (status reason message : string) : M ReconcileResult :=
  set_condition_and_return (StatusPatch KPermission) perm status reason message.

Definition permissionKey (permission target : string) : string :=
  ToUpper permission +:+ "|" +:+ ToUpper target.

(** Step 6: [desiredGrants], [desiredDenies] and [currentSet]; a later entry
    with the same key replaces an earlier one. *)
Definition desired_map (entries : list PermissionEntry) : gmap string string :=
  foldl (fun m e => <[permissionKey (pe_Permission e) (pe_On e) := pe_On e]> m) ∅ entries.
Definition current_set (perms : list PermissionState) : gmap string PermissionState :=
  foldl (fun m p => <[permissionKey (ps_Permission p) (ps_Target p) := p]> m) ∅ perms.

Definition in_state (currentSet : gmap string PermissionState) (key state : string) : bool :=
  match currentSet !! key with Some cur => String.eqb (ps_State cur) state | None => false end.

(** Step 7. *)
Definition apply_grant (perm : Permission) (c : Conn) (currentSet : gmap string PermissionState)
    (g : PermissionEntry) : M unit :=
  let db := perm_DatabaseName (o_spec perm) in
  let user := perm_UserName (o_spec perm) in
  if in_state currentSet (permissionKey (pe_Permission g) (pe_On g)) "GRANT" then mret tt
  else
    try_op (sql c "GrantPermission" [db; pe_Permission g; pe_On g; user]
              (GrantPermission db (pe_Permission g) (pe_On g) user))
      (Sprintf "failed to grant %s on %s" [pe_Permission g; pe_On g]) ;;
    Event EventTypeNormal "PermissionGranted" (Sprintf "GRANT %s ON %s TO %s" [pe_Permission g; pe_On g; user]).

(** Step 8. *)
Definition apply_deny (perm : Permission) (c : Conn) (currentSet : gmap string PermissionState)
    (d : PermissionEntry) : M unit :=
  let db := perm_DatabaseName (o_spec perm) in
  let user := perm_UserName (o_spec perm) in
  if in_state currentSet (permissionKey (pe_Permission d) (pe_On d)) "DENY" then mret tt
  else
    try_op (sql c "DenyPermission" [db; pe_Permission d; pe_On d; user]
              (DenyPermission db (pe_Permission d) (pe_On d) user))
      (Sprintf "failed to deny %s on %s" [pe_Permission d; pe_On d]) ;;
    Event EventTypeNormal "PermissionDenied" (Sprintf "DENY %s ON %s TO %s" [pe_Permission d; pe_On d; user]).

(** Step 9, one entry: revoked when its state is [state] and its key is not desired. *)
Definition revoke_unless (perm : Permission) (c : Conn) (desired : gmap string string)
    (key : string) (cur : PermissionState) (state failed event : string) : M unit :=
  let db := perm_DatabaseName (o_spec perm) in
  let user := perm_UserName (o_spec perm) in
  when (String.eqb (ps_State cur) state) (
    when (negb (bool_decide (is_Some (desired !! key)))) (
      try_op (sql c "RevokePermission" [db; ps_Permission cur; ps_Target cur; user]
                (RevokePermission db (ps_Permission cur) (ps_Target cur) user))
        (Sprintf failed [ps_Permission cur; ps_Target cur]) ;;
      Event EventTypeNormal "PermissionRevoked"
        (Sprintf event [ps_Permission cur; ps_Target cur; user]))).

Definition revoke_entry (perm : Permission) (c : Conn) (desiredGrants desiredDenies : gmap string string)
    (currentSet : gmap string PermissionState) (key : string) : M unit :=
  match currentSet !! key with
  | None => mret tt
  | Some cur =>
      revoke_unless perm c desiredGrants key cur "GRANT"
        "failed to revoke %s on %s" "REVOKE %s ON %s FROM %s" ;;
      revoke_unless perm c desiredDenies key cur "DENY"
        "failed to revoke deny %s on %s" "REVOKE %s ON %s FROM %s (was DENY)"
  end.

(** Steps 5 to 10, once connected. *)
Definition reconcile_connected (perm : Permission) (c : Conn) : M ReconcileResult :=
  let db := perm_DatabaseName (o_spec perm) in
  let user := perm_UserName (o_spec perm) in
  currentPerms ← try_query (sql c "GetPermissions" [db; user] (GetPermissions db user))
                   "failed to get current permissions";
  let desiredGrants := desired_map (perm_Grants (o_spec perm)) in
  let desiredDenies := desired_map (perm_Denies (o_spec perm)) in
  let currentSet := current_set currentPerms in
  for_each (perm_Grants (o_spec perm)) (apply_grant perm c currentSet) ;;
  for_each (perm_Denies (o_spec perm)) (apply_deny perm c currentSet) ;;
  keys ← range_keys (map_to_list currentSet).*1;
  for_each keys (revoke_entry perm c desiredGrants desiredDenies currentSet) ;;
  Metric "ReconcileTotal" ["Permission"; "success"] Inc ;;
  setConditionAndReturn perm ConditionTrue ReasonReady
    (Sprintf "Permissions for user %s are reconciled" [user]).

(** Steps 2 to 4 for a live object. *)
Definition reconcile_live (perm : Permission) : M ReconcileResult :=
  perm ← (if ContainsFinalizer (o_meta perm) Finalizer then mret perm
          else try_write (Update KPermission (with_meta (AddFinalizer (o_meta perm) Finalizer) perm)));
  let secretName := sec_Name (CredentialsSecret (perm_Server (o_spec perm))) in
  r ← getCredentialsFromSecret (Namespace (o_meta perm)) secretName;
  match r with
  | inr err =>
      if IsNotFound err then
        setConditionAndReturn perm ConditionFalse ReasonSecretNotFound
          (Sprintf "Secret %q not found" [strconv_quote secretName])
      else setConditionAndReturn perm ConditionFalse ReasonInvalidCredentialsSecret (err_text err)
  | inl (username, password) =>
  r ← connectToSQL (perm_Server (o_spec perm)) username password factory;
  match r with
  | inr err =>
      Event EventTypeWarning ReasonConnectionFailed (err_text err) ;;
      fail "failed to connect to SQL Server" err
  | inl c => defer_ (sql c "Close" [] Close ;; mret tt) (reconcile_connected perm c)
  end end.

Definition release (perm : Permission) : M ReconcileResult :=
  let perm := with_meta (RemoveFinalizer (o_meta perm) Finalizer) perm in
  try_write (Update KPermission perm) ;;
  return_ (Result0, None).

(** An entry revoked on deletion; a failure is only logged. *)
Definition revoke_on_deletion (perm : Permission) (c : Conn) (e : PermissionEntry) : M unit :=
  let db := perm_DatabaseName (o_spec perm) in
  let user := perm_UserName (o_spec perm) in
  sql c "RevokePermission" [db; pe_Permission e; pe_On e; user]
    (RevokePermission db (pe_Permission e) (pe_On e) user) ;;
  mret tt.

Definition revoke_all (perm : Permission) (c : Conn) : M unit :=
  for_each (perm_Grants (o_spec perm)) (revoke_on_deletion perm c) ;;
  for_each (perm_Denies (o_spec perm)) (revoke_on_deletion perm c) ;;
  Event EventTypeNormal "PermissionsRevoked"
    (Sprintf "All permissions revoked for user %s" [perm_UserName (o_spec perm)]).

Definition handleDeletion (perm : Permission) : M ReconcileResult :=
  if negb (ContainsFinalizer (o_meta perm) Finalizer) then return_ (Result0, None)
  else
    r ← getCredentialsFromSecret (Namespace (o_meta perm))
          (sec_Name (CredentialsSecret (perm_Server (o_spec perm))));
    match r with
    | inr _ => release perm  (* removing finalizer anyway *)
    | inl (username, password) =>
        r ← connectToSQL (perm_Server (o_spec perm)) username password factory;
        match r with
        | inr _ => release perm  (* removing finalizer anyway *)
        | inl c => defer_ (sql c "Close" [] Close ;; mret tt) (revoke_all perm c ;; release perm)
        end
    end.

Definition Reconcile (req : NamespacedName) : M ReconcileResult :=
  _ ← Now;
  defer_ (_ ← Now; Metric "ReconcileDuration" ["Permission"] Observed) (
    r ← Get KPermission req;
    match r with
    | inr err => if IsNotFound err then return_ (Result0, None) else return_ (Result0, Some err)
    | inl perm =>
        match DeletionTimestamp (o_meta perm) with
        | Some _ => handleDeletion perm
        | None => reconcile_live perm
        end
    end).

(** ** Theorems *)
Context `{!GoEnvLaws} `{!SQLClientLaws Conn D} `{!KubeUtilLaws}.
Implicit Types (w : World K D Conn) (perm : Permission) (L : list PermissionState).

Definition ekey (e : PermissionEntry) : string := permissionKey (pe_Permission e) (pe_On e).
Definition pkey (p : PermissionState) : string := permissionKey (ps_Permission p) (ps_Target p).
(** The keys the spec grants and denies. *)
Definition granted (perm : Permission) (key : string) : Prop := key ∈ ekey <$> perm_Grants (o_spec perm).
Definition denied (perm : Permission) (key : string) : Prop := key ∈ ekey <$> perm_Denies (o_spec perm).

(** *** The maps *)
Lemma desired_map_spec entries key : is_Some (desired_map entries !! key) <-> key ∈ ekey <$> entries.
Proof.
  unfold desired_map. rewrite <- (left_id_L [] (++) (ekey <$> entries)).
  assert (Hinit : is_Some ((∅ : gmap string string) !! key) <-> key ∈ ([] : list string)).
  { rewrite lookup_empty, elem_of_nil. split; [by intros []|done]. }
  revert Hinit. generalize (∅ : gmap string string), ([] : list string).
  induction entries as [|e entries IH]; intros m l Hm; cbn; [by rewrite app_nil_r|].
  rewrite (IH _ (l ++ [ekey e])); [by rewrite <- (assoc_L (++))|].
  rewrite elem_of_app, list_elem_of_singleton, lookup_insert_is_Some', Hm.
  unfold ekey. naive_solver.
Qed.

Lemma current_set_in L key p : current_set L !! key = Some p -> p ∈ L /\ pkey p = key.
Proof.
  unfold current_set. rewrite <- (left_id_L [] (++) L) at 2.
  assert (Hinit : forall key p, (∅ : gmap string PermissionState) !! key = Some p ->
    p ∈ ([] : list PermissionState) /\ pkey p = key) by (intros ??; by rewrite lookup_empty).
  revert key p Hinit. generalize (∅ : gmap string PermissionState), ([] : list PermissionState).
  induction L as [|x L IH]; intros m l key p Hm; cbn; [rewrite app_nil_r; apply Hm|].
  intros Hp. apply (IH _ (l ++ [x])) in Hp; [by rewrite <- (assoc_L (++)) in Hp|].
  clear -Hm. intros key p. rewrite lookup_insert_Some, elem_of_app, list_elem_of_singleton.
  intros [[<- <-]|[_ Hp]]; [by auto|]. apply Hm in Hp. naive_solver.
Qed.

(** With one entry per key, [currentSet] holds every entry. *)
Lemma current_set_all L p : NoDup (pkey <$> L) -> p ∈ L -> current_set L !! pkey p = Some p.
Proof.
  unfold current_set. generalize (∅ : gmap string PermissionState).
  induction L as [|x L IH]; intros m; cbn; [by rewrite elem_of_nil|].
  rewrite NoDup_cons, elem_of_cons. intros [Hx Hnd] [->|Hp]; [|by apply IH].
  assert (Hsome : <[pkey x := x]> m !! pkey x = Some x) by apply lookup_insert_eq.
  revert Hsome. fold (pkey x). generalize (<[pkey x := x]> m). clear -Hx.
  induction L as [|y L IH]; intros m Hm; cbn; [done|].
  cbn in Hx. apply not_elem_of_cons in Hx as [Hne Hx]. apply IH; [done|].
  fold (pkey y). by rewrite lookup_insert_ne.
Qed.

(** *** The entries of the server *)
(** [cur], with key [key], is revoked by step 9: its state is not the one the
    spec asks for this key. *)
Definition undesired (perm : Permission) (key : string) (cur : PermissionState) : Prop :=
  (ps_State cur = "GRANT" /\ ~ granted perm key) \/ (ps_State cur = "DENY" /\ ~ denied perm key).
Definition wanted (perm : Permission) (st key : string) : Prop :=
  (st = "GRANT" /\ granted perm key) \/ (st = "DENY" /\ denied perm key).
(** No entry for this permission and target, whatever its state. *)
Definition absent (p t : string) L : Prop := forall e, e ∈ L -> ~ (ps_Permission e = p /\ ps_Target e = t).
Definition holds L (st key : string) : Prop := exists e, e ∈ L /\ ps_State e = st /\ pkey e = key.

Lemma without_perm_in p t L e :
  e ∈ without_perm p t L <-> e ∈ L /\ ~ (ps_Permission e = p /\ ps_Target e = t).
Proof. unfold without_perm. rewrite list_elem_of_filter. tauto. Qed.
Lemma without_perm_absent p t L : absent p t (without_perm p t L).
Proof. intros e [_ He]%without_perm_in. done. Qed.
Lemma absent_without p t p' t' L : absent p t L -> absent p t (without_perm p' t' L).
Proof. intros Ha e [He _]%without_perm_in. auto. Qed.
Lemma without_perm_other p t L e : e ∈ L -> pkey e <> permissionKey p t -> e ∈ without_perm p t L.
Proof. intros He Hk. apply without_perm_in. split; [done|]. intros [<- <-]. by apply Hk. Qed.
Lemma holds_without p t st key L : holds L st key -> key <> permissionKey p t -> holds (without_perm p t L) st key.
Proof. intros (e & He & <- & <-) Hk. exists e. split; [by apply without_perm_other|done]. Qed.

(** The entries after granting (or denying) [e], and after a list of them. *)
Definition apply_step (cs : gmap string PermissionState) (st : string) L (e : PermissionEntry)
    : list PermissionState :=
  if in_state cs (ekey e) st then L
  else without_perm (pe_Permission e) (pe_On e) L ++ [mkPermissionState (pe_Permission e) (pe_On e) st].

(** *** What each step does to them *)
Section Steps.
Context (perm : Permission) (c : Conn) (P : Action Conn -> D -> Prop).
Let db := perm_DatabaseName (o_spec perm).
Let user := perm_UserName (o_spec perm).
Context (HP : forall a d, ~ ready_patch a -> P a d).
Ltac permit ::= solve [ apply HP; intros [] | auto ].
Context (cs : gmap string PermissionState).
Definition perms w : list PermissionState := v_perms c (w_sql w) db user.

Lemma apply_grant_spec g w :
  does P (apply_grant perm c cs g) (fun _ w' => perms w' = apply_step cs "GRANT" (perms w) g)
    (fun _ _ => True) w.
Proof.
  unfold apply_grant, apply_step. fold (ekey g). destruct (in_state cs (ekey g) "GRANT"); [by does_step|].
  does_step. eapply does_try_op; [apply GrantPermission_spec|permit|done|].
  intros w1 Hw1. by does_step.
Qed.

Lemma apply_deny_spec e w :
  does P (apply_deny perm c cs e) (fun _ w' => perms w' = apply_step cs "DENY" (perms w) e)
    (fun _ _ => True) w.
Proof.
  unfold apply_deny, apply_step. fold (ekey e). destruct (in_state cs (ekey e) "DENY"); [by does_step|].
  does_step. eapply does_try_op; [apply DenyPermission_spec|permit|done|].
  intros w1 Hw1. by does_step.
Qed.

Lemma apply_loop_spec (body : PermissionEntry -> M unit) st es w :
  (forall e w, does P (body e) (fun _ w' => perms w' = apply_step cs st (perms w) e) (fun _ _ => True) w) ->
  does P (for_each es body) (fun _ w' => perms w' = foldl (apply_step cs st) (perms w) es) (fun _ _ => True) w.
Proof.
  intros Hbody.
  apply (does_for_each (fun rest w' =>
    foldl (apply_step cs st) (perms w') rest = foldl (apply_step cs st) (perms w) es)); [done| |done].
  intros e rest w' Hw'. eapply does_post; [apply Hbody| |done]. intros [] w1 Hw1. by rewrite Hw1.
Qed.

Lemma revoke_unless_spec entries key cur st failed event w :
  does P (revoke_unless perm c (desired_map entries) key cur st failed event)
    (fun _ w' => perms w' =
       if bool_decide (ps_State cur = st /\ key ∉ ekey <$> entries)
       then without_perm (ps_Permission cur) (ps_Target cur) (perms w) else perms w) (fun _ _ => True) w.
Proof.
  unfold revoke_unless. destruct (String.eqb_spec (ps_State cur) st) as [Hst|Hst]; cbn [when].
  2: { does_step. rewrite bool_decide_false; [done|by intros []]. }
  case_bool_decide as Hd; cbn [negb when].
  - does_step. rewrite bool_decide_false; [done|]. intros [_ Hn]. by apply Hn, desired_map_spec.
  - rewrite desired_map_spec in Hd. does_step.
    eapply does_try_op; [apply RevokePermission_spec|permit|done|].
    intros w1 Hw1. does_step. rewrite bool_decide_true by done. done.
Qed.

Let G := desired_map (perm_Grants (o_spec perm)).
Let Dn := desired_map (perm_Denies (o_spec perm)).

Lemma revoke_entry_spec key cur w :
  cs !! key = Some cur ->
  does P (revoke_entry perm c G Dn cs key)
    (fun _ w' => (undesired perm key cur ->
                    perms w' = without_perm (ps_Permission cur) (ps_Target cur) (perms w)) /\
                 (~ undesired perm key cur -> perms w' = perms w)) (fun _ _ => True) w.
Proof.
  intros Hcur. unfold revoke_entry. rewrite Hcur. does_step.
  eapply does_post; [apply revoke_unless_spec| |done]. intros [] w1 Hw1. cbn in Hw1.
  eapply does_post; [apply revoke_unless_spec| |done]. intros [] w2 Hw2. cbn in Hw2.
  unfold undesired, granted, denied. rewrite Hw2, Hw1. do 2 case_bool_decide;
    [exfalso; destruct_and?; congruence|..]; split; intros ?; first [done|exfalso; tauto].
Qed.

(** Step 9 as a whole: what [J] says of the entries is kept if each revocation
    of an undesired entry keeps it, and no undesired entry is left. *)
Lemma revoke_loop_spec (J : list PermissionState -> Prop) keys w :
  (forall key cur L, cs !! key = Some cur -> undesired perm key cur -> J L ->
     J (without_perm (ps_Permission cur) (ps_Target cur) L)) ->
  J (perms w) ->
  does P (for_each keys (revoke_entry perm c G Dn cs))
    (fun _ w' => J (perms w') /\ forall key cur, key ∈ keys -> cs !! key = Some cur ->
       undesired perm key cur -> absent (ps_Permission cur) (ps_Target cur) (perms w')) (fun _ _ => True) w.
Proof.
  intros HJ Hw.
  apply (does_for_each (fun rest w' => J (perms w') /\ forall key cur, key ∈ keys -> key ∉ rest ->
    cs !! key = Some cur -> undesired perm key cur ->
    absent (ps_Permission cur) (ps_Target cur) (perms w'))).
  - done.
  - intros key rest w' [HJ' Hgone]. destruct (cs !! key) as [cur|] eqn:Hcur.
    + eapply does_post; [by apply revoke_entry_spec| |done]. cbn. intros _ w1 [Hu Hn].
      assert (Hdec : undesired perm key cur \/ ~ undesired perm key cur).
      { unfold undesired, granted, denied. destruct (decide (ps_State cur = "GRANT")),
          (decide (ps_State cur = "DENY")), (decide (key ∈ ekey <$> perm_Grants (o_spec perm))),
          (decide (key ∈ ekey <$> perm_Denies (o_spec perm))); tauto. }
      destruct Hdec as [Hud|Hnud].
      * rewrite (Hu Hud). split; [by eapply HJ|]. intros k x Hk Hrest Hx Hux.
        destruct (decide (k = key)) as [->|Hne].
        -- rewrite Hcur in Hx. injection Hx as <-. apply without_perm_absent.
        -- apply absent_without. eapply Hgone; [done| |done|done]. by apply not_elem_of_cons.
      * rewrite (Hn Hnud). split; [done|]. intros k x Hk Hrest Hx Hux.
        destruct (decide (k = key)) as [->|Hne]; [congruence|].
        eapply Hgone; [done| |done|done]. by apply not_elem_of_cons.
    + unfold revoke_entry. rewrite Hcur. does_step. split; [done|]. intros k x Hk Hrest Hx Hux.
      destruct (decide (k = key)) as [->|Hne]; [congruence|].
      eapply Hgone; [done| |done|done]. by apply not_elem_of_cons.
  - intros w' [HJ' Hgone]. split; [done|]. intros. eapply Hgone; [done|apply not_elem_of_nil|done|done].
Qed.
End Steps.

(** *** The whole reconcile *)
(** The entries once the grants and the denies are applied. *)
Definition applied (perm : Permission) L : list PermissionState :=
  foldl (apply_step (current_set L) "DENY")
    (foldl (apply_step (current_set L) "GRANT") L (perm_Grants (o_spec perm)))
    (perm_Denies (o_spec perm)).

Definition gone (perm : Permission) L0 L : Prop := forall key cur,
  current_set L0 !! key = Some cur -> undesired perm key cur ->
  absent (ps_Permission cur) (ps_Target cur) L.

Definition perms_of (perm : Permission) (c : Conn) (d : D) : list PermissionState :=
  v_perms c d (perm_DatabaseName (o_spec perm)) (perm_UserName (o_spec perm)).

Lemma perm_connected_claims perm c (J : list PermissionState -> Prop) w :
  let L0 := perms_of perm c (w_sql w) in
  J (applied perm L0) ->
  (forall key cur L, current_set L0 !! key = Some cur -> undesired perm key cur -> J L ->
     J (without_perm (ps_Permission cur) (ps_Target cur) L)) ->
  does (ready_claim KPermission (fun base _ d => base = perm /\
          J (perms_of perm c d) /\ gone perm L0 (perms_of perm c d)))
    (reconcile_connected perm c) (fun _ _ => False) (fun _ _ => True) w.
Proof.
  intros L0 HJ0 HJ.
  pose proof (ready_claim_not_ready (Conn := Conn) KPermission (fun base _ d => base = perm /\
          J (perms_of perm c d) /\ gone perm L0 (perms_of perm c d))) as HP.
  unfold reconcile_connected. does_step.
  eapply does_try_query; [apply GetPermissions_spec|by apply HP; intros []|done|].
  intros cur w1 -> Hs1. cbv zeta. fold (perms_of perm c (w_sql w)). fold L0.
  assert (Hw1 : perms perm c w1 = L0) by (unfold perms; by rewrite Hs1).
  does_step. eapply does_post; [apply (apply_loop_spec perm c _ (current_set L0) _ "GRANT"),
    (apply_grant_spec perm c _ HP)| |done].
  intros [] w2 Hw2. does_step.
  eapply does_post; [apply (apply_loop_spec perm c _ (current_set L0) _ "DENY"),
    (apply_deny_spec perm c _ HP)| |done].
  intros [] w3 Hw3. do 3 does_step.
  eapply does_post; [apply (revoke_loop_spec perm c _ HP (current_set L0) J); [done|]| |done].
  { change (J (perms perm c w3)). by rewrite Hw3, Hw2, Hw1. }
  intros [] w4 [HJ4 Hgone]. unfold setConditionAndReturn. does_all; try done; try (by apply HP; intros []).
  apply ready_claim_patch. intros _. split_and!; [done|done|].
  intros key x Hx Hu. apply (Hgone key x); [|done|done].
  rewrite range_order_perm. apply list_elem_of_fmap. exists (key, x).
  split; [done|]. by apply elem_of_map_to_list.
Qed.

(** **** When Ready=True means the permissions of the spec *)
(** The entries of [L] are those of the spec: what it grants is granted, what it
    denies is denied, and nothing else is granted or denied. *)
Record reconciled (perm : Permission) L : Prop := {
  rec_granted g : g ∈ perm_Grants (o_spec perm) -> holds L "GRANT" (ekey g);
  rec_denied e : e ∈ perm_Denies (o_spec perm) -> holds L "DENY" (ekey e);
  rec_only_grants p : p ∈ L -> ps_State p = "GRANT" -> granted perm (pkey p);
  rec_only_denies p : p ∈ L -> ps_State p = "DENY" -> denied perm (pkey p)
}.

(** What it takes: the server reports one entry per key, the spec does not grant
    and deny the same key, and no key changes sides. *)
Record no_switch (perm : Permission) L0 : Prop := {
  ns_unique : NoDup (pkey <$> L0);
  ns_disjoint key : granted perm key -> ~ denied perm key;
  ns_granted p : p ∈ L0 -> ps_State p = "GRANT" -> ~ denied perm (pkey p);
  ns_denied p : p ∈ L0 -> ps_State p = "DENY" -> ~ granted perm (pkey p)
}.

Section Reconciled.
Context (perm : Permission) (L0 : list PermissionState) (Hns : no_switch perm L0).
Let cs := current_set L0.

(** [dn] lists what was granted and denied so far. *)
Record inv (dn : list (string * string)) L : Prop := {
  inv_known p : p ∈ L -> ps_State p = "GRANT" \/ ps_State p = "DENY" ->
    wanted perm (ps_State p) (pkey p) \/ cs !! pkey p = Some p;
  inv_kept p : cs !! pkey p = Some p -> wanted perm (ps_State p) (pkey p) -> p ∈ L;
  inv_done st key : (st, key) ∈ dn -> wanted perm st key /\ holds L st key
}.

(** The spec wants a key in one state only. *)
Lemma wanted_unique st st' key : wanted perm st key -> wanted perm st' key -> st = st'.
Proof.
  destruct Hns as [_ Hdis _ _]. specialize (Hdis key). unfold wanted.
  intros [[-> ?]|[-> ?]] [[-> ?]|[-> ?]]; tauto.
Qed.

Lemma undesired_not_wanted key p :
  cs !! key = Some p -> undesired perm key p -> forall st, ~ wanted perm st key.
Proof.
  intros Hp Hu st Hw. apply current_set_in in Hp as [Hin <-]. destruct Hns as [_ _ Hg Hd].
  specialize (Hg p Hin). specialize (Hd p Hin).
  destruct Hu as [[Hst ?]|[Hst ?]], Hw as [[-> ?]|[-> ?]]; tauto.
Qed.

Lemma inv_init : inv [] L0.
Proof.
  split.
  - intros p Hp _. right. apply current_set_all; [apply Hns|done].
  - by intros p [Hp _]%current_set_in _.
  - intros st key []%elem_of_nil.
Qed.

Lemma inv_step dn L st e :
  wanted perm st (ekey e) -> inv dn L -> inv ((st, ekey e) :: dn) (apply_step cs st L e).
Proof.
  intros Hw [Hknown Hkept Hdone]. unfold apply_step.
  destruct (in_state cs (ekey e) st) eqn:Hin.
  - split; [done..|]. intros st' key [[= -> ->]|Hdn]%elem_of_cons; [|by apply Hdone].
    split; [done|]. unfold in_state in Hin. destruct (cs !! ekey e) as [p|] eqn:Hp; [|done].
    apply String.eqb_eq in Hin as <-. pose proof Hp as [_ Hk]%current_set_in.
    exists p. split_and!; [|done|done]. apply Hkept; by rewrite Hk.
  - split.
    + intros p [[Hp _]%without_perm_in | ->%list_elem_of_singleton]%elem_of_app Hst; [by apply Hknown|by left].
    + intros p Hp Hwp. rewrite elem_of_app. left. apply without_perm_other; [by apply Hkept|].
      intros Hk. fold (ekey e) in Hk. rewrite Hk in Hp, Hwp. unfold in_state in Hin. rewrite Hp in Hin.
      rewrite (wanted_unique _ _ _ Hwp Hw), String.eqb_refl in Hin. done.
    + assert (Hnew : holds (without_perm (pe_Permission e) (pe_On e) L ++
                [mkPermissionState (pe_Permission e) (pe_On e) st]) st (ekey e)).
      { eexists. split; [apply elem_of_app; right; by left|done]. }
      intros st' key [[= -> ->]|Hdn]%elem_of_cons; [done|].
      destruct (Hdone _ _ Hdn) as [Hw' Hh]. split; [done|].
      destruct (decide (key = ekey e)) as [->|Hne]; [by rewrite <- (wanted_unique _ _ _ Hw Hw')|].
      destruct (holds_without (pe_Permission e) (pe_On e) _ _ _ Hh Hne) as (p & Hp & Hpe).
      exists p. split; [|done]. apply elem_of_app. by left.
Qed.

Lemma inv_steps st es dn L :
  (forall e, e ∈ es -> wanted perm st (ekey e)) -> inv dn L ->
  inv (reverse ((fun e => (st, ekey e)) <$> es) ++ dn) (foldl (apply_step cs st) L es).
Proof.
  revert dn L. induction es as [|e es IH]; intros dn L Hw Hinv; [done|].
  rewrite fmap_cons, reverse_cons, <- (assoc_L (++)). apply IH; [by intros; apply Hw; right|].
  apply inv_step; [apply Hw; by left|done].
Qed.

Lemma inv_revoke dn L key cur :
  cs !! key = Some cur -> undesired perm key cur -> inv dn L ->
  inv dn (without_perm (ps_Permission cur) (ps_Target cur) L).
Proof.
  intros Hcur Hu [Hknown Hkept Hdone]. pose proof (undesired_not_wanted _ _ Hcur Hu) as Hnw.
  apply current_set_in in Hcur as [_ <-]. split.
  - intros p [Hp _]%without_perm_in. by apply Hknown.
  - intros p Hp Hwp. apply without_perm_other; [by apply Hkept|]. intros Hk.
    fold (pkey cur) in Hk. rewrite Hk in Hwp. by apply Hnw in Hwp.
  - intros st key Hdn. destruct (Hdone _ _ Hdn) as [Hw Hh]. split; [done|].
    apply holds_without; [done|]. intros ->. by apply Hnw in Hw.
Qed.
End Reconciled.

(** The two loops and the revocations leave exactly the permissions of the spec. *)
Lemma reconciled_intro perm L0 L :
  no_switch perm L0 ->
  inv perm L0 (reverse ((fun e => ("DENY", ekey e)) <$> perm_Denies (o_spec perm)) ++
               reverse ((fun e => ("GRANT", ekey e)) <$> perm_Grants (o_spec perm)) ++ []) L ->
  gone perm L0 L -> reconciled perm L.
Proof.
  intros Hns [Hknown _ Hdone] Hgone. rewrite app_nil_r in Hdone.
  split.
  - intros g Hg. apply Hdone. rewrite elem_of_app, !elem_of_reverse, !list_elem_of_fmap. right. by exists g.
  - intros e He. apply Hdone. rewrite elem_of_app, !elem_of_reverse, !list_elem_of_fmap. left. by exists e.
  - intros p Hp Hst. destruct (Hknown p Hp (or_introl Hst)) as [[[_ ?]|[Hst' ?]]|Hcs]; [done|congruence|].
    destruct (decide (pkey p ∈ ekey <$> perm_Grants (o_spec perm))) as [|Hn]; [done|].
    exfalso. by apply (Hgone _ _ Hcs (or_introl (conj Hst Hn)) p Hp).
  - intros p Hp Hst. destruct (Hknown p Hp (or_intror Hst)) as [[[Hst' ?]|[_ ?]]|Hcs]; [congruence|done|].
    destruct (decide (pkey p ∈ ekey <$> perm_Denies (o_spec perm))) as [|Hn]; [done|].
    exfalso. by apply (Hgone _ _ Hcs (or_intror (conj Hst Hn)) p Hp).
Qed.

(** C27: when the server reports one entry per permission and target (up to
    case), the spec does not both grant and deny one, and none changes from
    granted to denied or back, Ready=True is written only when everything
    the spec grants is granted, everything it denies is denied, and no other
    permission is granted or denied to the user. *)
Theorem permissions_reconciled perm c w :
  no_switch perm (perms_of perm c (w_sql w)) ->
  performs (ready_claim KPermission (fun _ _ d => reconciled perm (perms_of perm c d)))
    (reconcile_connected perm c) w.
Proof.
  intros Hns. apply performs_intro.
  eapply does_mono; [apply (perm_connected_claims perm c (inv perm (perms_of perm c (w_sql w))
    (reverse ((fun e => ("DENY", ekey e)) <$> perm_Denies (o_spec perm)) ++
     reverse ((fun e => ("GRANT", ekey e)) <$> perm_Grants (o_spec perm)) ++ [])))| |done|done].
  - unfold applied. apply inv_steps; [done|intros e He; right; by split; [|apply list_elem_of_fmap_2]|].
    apply inv_steps; [done|intros e He; left; by split; [|apply list_elem_of_fmap_2]|].
    by apply inv_init.
  - intros key cur L. by apply inv_revoke.
  - intros a d. apply ready_claim_mono. intros ?? (_ & Hinv & Hgone). by eapply reconciled_intro.
Qed.

(** **** A key that changes sides *)
(** C28: an entry the server has in a state that the spec no longer asks for its
    key is absent whenever Ready=True is written, even when the spec asks
    for the other state: a permission that changes from denied to granted
    (or back) with the same text is applied and then revoked by the same
    reconcile, which reports Ready. *)
Theorem permission_switch_lost perm c w key cur :
  current_set (perms_of perm c (w_sql w)) !! key = Some cur ->
  undesired perm key cur ->
  performs (ready_claim KPermission (fun _ _ d =>
      absent (ps_Permission cur) (ps_Target cur) (perms_of perm c d)))
    (reconcile_connected perm c) w.
Proof.
  intros Hcur Hu. apply performs_intro.
  eapply does_mono; [by apply (perm_connected_claims perm c (fun _ => True))| |done|done].
  intros a d. apply ready_claim_mono. intros ?? (_ & _ & Hgone). by eapply Hgone.
Qed.

(** *** Deletion *)
Ltac permit ::= done.
Definition revoke_logged (perm : Permission) (c : Conn) (e : PermissionEntry) w : Prop := exists d,
  (ASql c "RevokePermission" [perm_DatabaseName (o_spec perm); pe_Permission e; pe_On e;
                              perm_UserName (o_spec perm)], d) ∈ w_log w.
Definition extends w w' : Prop := exists l, w_log w' = w_log w ++ l.
Lemma revoke_logged_extends perm c e w w' : extends w w' -> revoke_logged perm c e w -> revoke_logged perm c e w'.
Proof. intros [l Hl] [d Hd]. exists d. rewrite Hl, elem_of_app. by left. Qed.

Lemma revoke_on_deletion_loop perm c es w :
  does (fun _ _ => True) (for_each es (revoke_on_deletion perm c))
    (fun _ w' => extends w w' /\ forall e, e ∈ es -> revoke_logged perm c e w') (fun _ _ => False) w.
Proof.
  apply (does_for_each (fun rest w' => extends w w' /\ exists pre, es = pre ++ rest /\
    forall e, e ∈ pre -> revoke_logged perm c e w')).
  - split; [exists []; by rewrite app_nil_r|]. exists []. split; [done|]. by intros ? ?%elem_of_nil.
  - intros e rest w' [[l Hl] (pre & -> & Hpre)]. unfold revoke_on_deletion. do 5 does_step.
    split; [eexists; cbn; by rewrite Hl, <- (assoc_L (++))|].
    exists (pre ++ [e]). rewrite <- (assoc_L (++)). split; [done|].
    intros e' [He' | ->%list_elem_of_singleton]%elem_of_app.
    + eapply revoke_logged_extends; [|by apply Hpre]. by eexists.
    + eexists. cbn. rewrite elem_of_app, list_elem_of_singleton. by right.
  - intros w' [Hext (pre & -> & Hpre)]. rewrite app_nil_r. done.
Qed.

Definition released (perm : Permission) w : Prop := exists d,
  (AUpdate KPermission (with_meta (RemoveFinalizer (o_meta perm) Finalizer) perm), d) ∈ w_log w.
Definition all_revoked (perm : Permission) (c : Conn) w : Prop :=
  forall e, e ∈ perm_Grants (o_spec perm) ++ perm_Denies (o_spec perm) -> revoke_logged perm c e w.

Lemma release_logs perm w :
  does (fun _ _ => True) (release perm) (fun _ _ => False) (fun _ w' => extends w w' /\ released perm w') w.
Proof.
  unfold release. does_all; try done;
    (split; [by eexists|eexists; cbn; by rewrite elem_of_app, list_elem_of_singleton; right]).
Qed.
Lemma revoke_all_logs perm c w :
  does (fun _ _ => True) (revoke_all perm c) (fun _ w' => extends w w' /\ all_revoked perm c w') (fun _ _ => False) w.
Proof.
  unfold revoke_all. does_step.
  eapply does_post; [apply revoke_on_deletion_loop| |done]. intros _ w1 [[l1 Hl1] Hg]. does_step.
  eapply does_post; [apply revoke_on_deletion_loop| |done]. intros _ w2 [[l2 Hl2] Hd]. does_step.
  assert (Hext : extends w1 (log_world (AEvent EventTypeNormal "PermissionsRevoked"
    (Sprintf "All permissions revoked for user %s" [perm_UserName (o_spec perm)])) w2)).
  { eexists. cbn. by rewrite Hl2, <- (assoc_L (++)). }
  split; [destruct Hext as [l Hl]; eexists; by rewrite Hl, Hl1, <- (assoc_L (++))|].
  intros e [He|He]%elem_of_app; [by eapply revoke_logged_extends; [|apply Hg]|].
  eapply revoke_logged_extends; [|by apply Hd]. by eexists.
Qed.

(** Either no server was connected to, or everything was revoked on one. *)
Definition revoked_once_connected (perm : Permission) w w' : Prop :=
  (exists run, w_log w' = w_log w ++ run /\
     Forall (fun x => match x.1 with AConnect _ _ _ _ _ _ => False | _ => True end) run) \/
  exists c, connected factory (perm_Server (o_spec perm)) c /\ all_revoked perm c w'.

(** C40: deleting a Permission that holds the finalizer always ends with an
    update that removes it, whatever the credentials, the connection and the
    revocations do; and if a server was connected to, it is the one the spec
    names, and a REVOKE was issued there for every grant and every deny of
    the spec, whether or not the earlier ones fail. *)
Theorem deletion_revokes_all perm w :
  Finalizer ∈ Finalizers (o_meta perm) ->
  ends (handleDeletion perm) (fun _ w' => released perm w' /\ revoked_once_connected perm w w') w.
Proof.
  intros Hf. apply (ends_intro (fun _ _ => True)). unfold handleDeletion.
  rewrite ContainsFinalizer_spec, bool_decide_true by done. cbn [negb].
  assert (Hfails : forall w1, w_log w1 = w_log w ->
    does (fun _ _ => True) (release perm) (fun _ _ => False)
      (fun _ w' => released perm w' /\ revoked_once_connected perm w w') w1).
  { intros w1 Hw1. unfold release. does_all; try done;
      (split; [eexists; cbn; by rewrite elem_of_app, list_elem_of_singleton; right|
       left; eexists; cbn; rewrite Hw1; split; [done|by repeat constructor]]). }
  does_step. does_helper. destruct r as [[user pass]|err]; cbn beta iota; [|by apply Hfails].
  does_step. does_helper; [by apply Hfails|]. does_step.
  does_step. eapply does_post; [apply revoke_all_logs| |done]. intros _ w1 [_ Hrev].
  eapply does_post; [apply release_logs|done|]. intros r w2 [[l Hl] [d1 Hrel]]. do 5 does_step.
  split; [by exists d1; cbn; rewrite elem_of_app; left|]. right. exists c. split; [done|].
  intros e He. apply (revoke_logged_extends _ _ _ w1); [|by apply Hrev].
  eexists. cbn. by rewrite Hl, <- (assoc_L (++)).
Qed.
End Controller.
End PermCtl.
