(* ===== verification/History.v ===== *)
(** * Justifying an action by what happened before it

    [does] allows an action by the state of the SQL servers it is done in.
    Fencing must be justified by earlier observations of the same run: here an
    action is judged with the log up to it, and with the number of readings of the
    clock when the run ends. *)
From S2P Require Import Prelude Types SqlClient Kube.

Section History.
Context `{GoEnv} {K D Conn : Type} `{KubeClient K}.
Abbreviation W := (World K D Conn).
Abbreviation Log := (list (Action Conn * D)).

(** Every action of [l], which follows the log [l0], satisfies [Q] of the log
    before it. *)
Definition each_after (Q : Log -> Action Conn -> D -> Prop) (l0 l : Log) : Prop :=
  forall h a d h', l = h ++ (a, d) :: h' -> Q (l0 ++ h) a d.

Lemma each_after_nil Q l0 : each_after Q l0 [].
Proof. by intros [] ????. Qed.
Lemma each_after_one Q l0 a d : Q l0 a d -> each_after Q l0 [(a, d)].
Proof.
  intros HQ [|x h] a' d' h' Heq; [|by destruct h].
  injection Heq as <- <- _. by rewrite app_nil_r.
Qed.
Lemma each_after_app Q l0 l1 l2 :
  each_after Q l0 l1 -> each_after Q (l0 ++ l1) l2 -> each_after Q l0 (l1 ++ l2).
Proof.
  intros H1 H2 h a d h' Heq. apply app_eq_inv in Heq as [(k & -> & Hk)|(k & -> & ->)].
  - destruct k as [|x k].
    + rewrite app_nil_l in Hk. rewrite app_nil_r in H2.
      rewrite <- (app_nil_r (l0 ++ h)). by eapply (H2 []).
    + simplify_eq/=. by eapply H1.
  - rewrite (assoc_L (++)). by eapply H2.
Qed.

(** ** The judgement *)
(** [Q n] judges an action of a run that ends after the reading [n]. *)
Definition does_h {R A} (Q : nat -> Log -> Action Conn -> D -> Prop) (m : Go W R A)
    (F : A -> W -> Prop) (E : R -> W -> Prop) (w : W) : Prop :=
  wp m (fun o w' =>
    (exists l, w_log w' = w_log w ++ l /\ forall n, (w_tick w' <= n)%nat -> each_after (Q n) (w_log w) l) /\
    (w_tick w <= w_tick w')%nat /\
    match o with Next a => F a w' | Return r => E r w' | Panic _ => False end) w.

Section Rules.
Context {R : Type} (Q : nat -> Log -> Action Conn -> D -> Prop).
Implicit Types (w : W) (E : R -> W -> Prop).

Lemma does_h_run {A} (m : Go W R A) F E w o w' :
  does_h Q m F E w -> m w = (o, w') ->
  (exists l, w_log w' = w_log w ++ l /\ forall n, (w_tick w' <= n)%nat -> each_after (Q n) (w_log w) l) /\
  (w_tick w <= w_tick w')%nat /\
  match o with Next a => F a w' | Return r => E r w' | Panic _ => False end.
Proof. intros Hd Hrun. by apply (wp_run m _ w o w' Hrun) in Hd. Qed.
Lemma does_h_intro {A} (m : Go W R A) F E w :
  (forall o w', m w = (o, w') ->
    (exists l, w_log w' = w_log w ++ l /\ forall n, (w_tick w' <= n)%nat -> each_after (Q n) (w_log w) l) /\
    (w_tick w <= w_tick w')%nat /\
    match o with Next a => F a w' | Return r => E r w' | Panic _ => False end) ->
  does_h Q m F E w.
Proof. intros Hr. unfold does_h. by apply run_wp. Qed.

(** Actions that need no history. *)
Lemma does_h_of {A} P (m : Go W R A) (F : A -> W -> Prop) E w :
  does P m F E w -> (forall n h a d, P a d -> Q n (w_log w ++ h) a d) ->
  does_h Q m (fun a w' => F a w' /\ later w w') (fun r w' => E r w' /\ later w w') w.
Proof.
  intros Hd HP. apply does_h_intro. intros o w' Hrun.
  destruct (does_run _ _ _ _ _ _ _ Hd Hrun) as ((l & Hl & HlP) & Ht & Ho).
  assert (later w w') by (split; [by exists l|done]).
  split_and!; [exists l; split; [done|]|done|by destruct o].
  intros n Hn h a d h' ->. apply HP. apply Forall_app in HlP as [_ [Ha _]%Forall_cons]. exact Ha.
Qed.
Lemma does_h_post {A} (m : Go W R A) (F F' : A -> W -> Prop) E E' w :
  does_h Q m F E w ->
  (forall a w', F a w' -> F' a w') -> (forall r w', E r w' -> E' r w') ->
  does_h Q m F' E' w.
Proof.
  intros Hd HF HE. apply does_h_intro. intros o w' Hrun.
  destruct (does_h_run _ _ _ _ _ _ Hd Hrun) as (Hl & Ht & Ho). split_and!; [done|done|].
  destruct o; auto.
Qed.
Lemma does_h_ret {A} (a : A) (F : A -> W -> Prop) E w : F a w -> does_h Q (mret a) F E w.
Proof.
  intros HF. apply does_h_intro. intros ?? [= <- <-].
  split_and!; [exists []; rewrite app_nil_r; split; [done|intros; apply each_after_nil]|done|done].
Qed.
Lemma does_h_return {A} (r : R) (F : A -> W -> Prop) E w : E r w -> does_h Q (return_ r) F E w.
Proof.
  intros HE. apply does_h_intro. intros ?? [= <- <-].
  split_and!; [exists []; rewrite app_nil_r; split; [done|intros; apply each_after_nil]|done|done].
Qed.
Lemma does_h_bind {A B} (m : Go W R A) (k : A -> Go W R B) F E w :
  does_h Q m (fun a => does_h Q (k a) F E) E w -> does_h Q (m ≫= k) F E w.
Proof.
  intros Hm. apply does_h_intro. intros o w' Hrun. unfold mbind, go_bind in Hrun.
  destruct (m w) as [om w1] eqn:Em.
  destruct (does_h_run _ _ _ _ _ _ Hm Em) as ((l1 & Hl1 & HQ1) & Ht1 & Ho).
  destruct om as [a|r|s]; [|by simplify_eq; eauto|done].
  destruct (does_h_run _ _ _ _ _ _ Ho Hrun) as ((l2 & Hl2 & HQ2) & Ht2 & Ho2).
  split_and!; [|lia|done]. exists (l1 ++ l2). rewrite Hl2, Hl1, (assoc_L (++)).
  split; [done|].
  intros n Hn. apply each_after_app; [apply HQ1; lia|]. rewrite <- Hl1. by apply HQ2.
Qed.
Lemma does_h_logged a (F : unit -> W -> Prop) E w :
  (forall n, (w_tick w <= n)%nat -> Q n (w_log w) a (w_sql w)) -> F tt (log_world a w) -> does_h Q (logged a) F E w.
Proof.
  intros HQ HF. apply does_h_intro. intros ?? [= <- <-].
  split_and!; [exists [(a, w_sql w)]; split; [done|intros; by apply each_after_one, HQ]|done|done].
Qed.
Lemma does_h_on_sql {A} (f : D -> A * D) (F : A -> W -> Prop) E w :
  (forall x d', f (w_sql w) = (x, d') -> F x (mkWorld (w_kube w) d' (w_log w) (w_tick w))) ->
  does_h Q (on_sql f) F E w.
Proof.
  intros HF. apply does_h_intro. unfold on_sql. intros o w'.
  destruct (f (w_sql w)) as [x d'] eqn:Ef. intros [= <- <-].
  split_and!; [exists []; rewrite app_nil_r; split; [done|intros; apply each_after_nil]|done|by apply HF].
Qed.
Lemma does_h_sql {A} c method args (f : Conn -> D -> A * D) (F : A -> W -> Prop) E w :
  (forall n, (w_tick w <= n)%nat -> Q n (w_log w) (ASql c method args) (w_sql w)) ->
  (forall x w', later w w' -> F x w') ->
  does_h Q (sql c method args f) F E w.
Proof.
  intros HQ HF. apply does_h_bind, does_h_logged; [done|]. apply does_h_on_sql. intros x d' _.
  apply HF. split; [by eexists|done].
Qed.
Lemma does_h_for_each {A} (I : list A -> W -> Prop) (body : A -> Go W R unit) xs
    (F : unit -> W -> Prop) E w :
  I xs w ->
  (forall x xs' w', I (x :: xs') w' -> does_h Q (body x) (fun _ => I xs') E w') ->
  (forall w', I [] w' -> F tt w') ->
  does_h Q (for_each xs body) F E w.
Proof.
  intros HI Hstep Hend. revert w HI. induction xs as [|x xs IH]; intros w HI; cbn.
  - by apply does_h_ret, Hend.
  - apply does_h_bind. eapply does_h_post; [by apply Hstep| |done]. intros [] w'. apply IH.
Qed.
End Rules.

Lemma does_h_fn {R R'} Q (m : Go W R' R') (F : R' -> W -> Prop) (E : R -> W -> Prop) (w : W) :
  does_h Q m F F w -> does_h Q (fn m) F E w.
Proof.
  intros Hm. apply does_h_intro. intros o w'. unfold fn.
  destruct (m w) as [om w1] eqn:Em.
  pose proof (does_h_run _ _ _ _ _ _ _ Hm Em) as (Hl & Ht & Ho).
  destruct om; intros [= <- <-]; by split_and!.
Qed.

(** The cleanup needs no history. *)
Lemma does_h_defer {R A} P Q (cleanup : Go W R unit) (m : Go W R A) F (E : R -> W -> Prop) w :
  runs P (fun _ => True) cleanup -> (forall n h a d, P a d -> Q n (w_log w ++ h) a d) ->
  does_h Q m (fun a w1 => forall w2, later w1 w2 -> F a w2) (fun r w1 => forall w2, later w1 w2 -> E r w2) w ->
  does_h Q (defer_ cleanup m) F E w.
Proof.
  intros Hc HP Hm. apply does_h_intro. intros o w'. unfold defer_.
  destruct (m w) as [om w1] eqn:Em. destruct (cleanup w1) as [oc w2] eqn:Ec. intros Hrun.
  destruct (does_h_run _ _ _ _ _ _ _ Hm Em) as ((l1 & Hl1 & HQ1) & Ht1 & Ho).
  destruct (does_run _ _ _ _ _ _ _ (does_later _ _ _ _ _ (Hc w1)) Ec) as ((l2 & Hl2 & HP2) & Ht2 & Hoc).
  assert (Hlate : later w1 w2) by (split; [by exists l2|done]).
  assert (Hall : exists l, w_log w2 = w_log w ++ l /\
    forall n, (w_tick w2 <= n)%nat -> each_after (Q n) (w_log w) l).
  { exists (l1 ++ l2). rewrite Hl2, Hl1, (assoc_L (++)). split; [done|]. intros n Hn. apply each_after_app; [apply HQ1; lia|].
    intros h a d h' ->. rewrite <- (assoc_L (++)). apply HP.
    apply Forall_app in HP2 as [_ [Ha _]%Forall_cons]. exact Ha. }
  destruct oc, om; try done; injection Hrun as <- <-; split_and!; try done; try lia; by apply Ho.
Qed.

(** ** What a run did *)
(** The log since [w0]. *)
Definition since (w0 : W) (L : Log) : Log := drop (length (w_log w0)) L.
Lemma since_later (w0 w : W) : later w0 w -> w_log w = w_log w0 ++ since w0 (w_log w).
Proof. intros [[l Hl] _]. unfold since. rewrite Hl at 2. by rewrite drop_app_length. Qed.
Lemma since_app (w0 w : W) h : later w0 w -> since w0 (w_log w ++ h) = since w0 (w_log w) ++ h.
Proof.
  intros Hw. rewrite (since_later w0 w Hw) at 1. unfold since at 1.
  by rewrite <- (assoc_L (++)), drop_app_length.
Qed.
Lemma later_refl (w : W) : later w w.
Proof. split; [exists []; by rewrite app_nil_r|done]. Qed.
Lemma later_trans (w1 w2 w3 : W) : later w1 w2 -> later w2 w3 -> later w1 w3.
Proof.
  intros [[l1 H1] Ht1] [[l2 H2] Ht2]. split; [exists (l1 ++ l2); by rewrite H2, H1, (assoc_L (++))|lia].
Qed.
Lemma since_mono (w0 w w' : W) x : later w0 w -> later w w' -> x ∈ since w0 (w_log w) -> x ∈ since w0 (w_log w').
Proof.
  intros Hw [[l Hl] _] Hx. rewrite Hl, since_app by done. apply elem_of_app. by left.
Qed.

(** [m], run from [w], returns, and each of its actions is allowed by [J] of
    the number of readings of the clock by then, and of what the run did before. *)
Definition performs_after {R} (J : nat -> Log -> Action Conn -> D -> Prop) (m : Go W R R) (w : W) : Prop :=
  exists r w' l, m w = (Return r, w') /\ w_log w' = w_log w ++ l /\
    forall h a d h', l = h ++ (a, d) :: h' -> J (w_tick w') h a d.
Lemma performs_after_intro {R} J (m : Go W R R) (w : W) :
  does_h (fun n L => J n (since w L)) m (fun _ _ => False) (fun _ _ => True) w -> performs_after J m w.
Proof.
  intros Hd. destruct (m w) as [o w'] eqn:Hrun.
  destruct (does_h_run _ _ _ _ _ _ _ Hd Hrun) as ((l & Hl & HQ) & _ & Ho).
  destruct o as [|r|]; [done| |done]. exists r, w', l. split_and!; [done|done|].
  intros h a d h' ->. specialize (HQ (w_tick w') ltac:(done) h a d h' eq_refl). cbn in HQ. unfold since in HQ.
  by rewrite drop_app_length in HQ.
Qed.
(** Forgetting the history. *)
Lemma does_forget {R A} J (m : Go W R A) F (E : R -> W -> Prop) w :
  does_h J m F E w -> does (fun a d => exists n h, J n h a d) m F E w.
Proof.
  intros Hd. apply does_intro. intros o w' Hrun.
  destruct (does_h_run _ _ _ _ _ _ _ Hd Hrun) as ((l & Hl & HQ) & Ht & Ho).
  split_and!; [exists l; split; [done|]|done|done].
  apply Forall_forall. intros [a d] Hx. apply list_elem_of_split in Hx as (h & h' & ->).
  do 2 eexists. by eapply (HQ (w_tick w')).
Qed.
End History.

#[global] Opaque does_h.
