(* ===== verification/AgFencing.v ===== *)
(** * Split-brain fencing (internal/controller/ag_fencing.go)

    With CLUSTER_TYPE=NONE nothing but the operator keeps two replicas of an
    availability group from both being primary. [detectAndResolveSplitBrain] asks
    every replica for its role; when two or more answer PRIMARY, the one with the
    highest hardened log position (on a tie, the recorded primary) is legitimate
    and the others are fenced: their pod loses the primary label, then the
    replica is demoted, or its group dropped when it was fenced shortly before. *)
From S2P Require Import Prelude Types SqlClient Kube Helpers History.

(** sqlserver_instance.go *)
Definition LabelRole := "mssql.popul.io/role".
Definition RolePrimary := "primary".
Definition RoleSecondary := "secondary".

Definition maxFencingAttempts : Z := 5.

(** [cooldown := 60 * time.Second; if p != nil { if d, err :=
    time.ParseDuration(p); err == nil { cooldown = d } }] *)
Definition duration_or `{GoEnv} (p : option string) (d : Z) : Z :=
  match p with Some s => default d (ParseDuration s) | None => d end.

(** availabilitygroup_controller.go *)
Definition mapClusterType (ct : string) : string :=
  if String.eqb ct "WSFC" then "WSFC" else if String.eqb ct "None" then "NONE" else "EXTERNAL".

(** The legitimate primary among [p0 :: rest]. *)
Definition choose_step (statusPrimary : string) (lsns : gmap string Z)
    (best : AGReplicaSpec * Z) (p : AGReplicaSpec) : AGReplicaSpec * Z :=
  let pLSN := default 0 (lsns !! rep_ServerName p) in
  if best.2 <? pLSN then (p, pLSN)
  else if (pLSN =? best.2) && String.eqb (rep_ServerName p) statusPrimary then (p, best.2)
  else best.
Definition choose_legitimate (statusPrimary : string) (lsns : gmap string Z)
    (p0 : AGReplicaSpec) (rest : list AGReplicaSpec) : AGReplicaSpec :=
  (foldl (choose_step statusPrimary lsns) (p0, default 0 (lsns !! rep_ServerName p0)) rest).1.

Definition with_ag_status (f : AvailabilityGroupStatus -> AvailabilityGroupStatus)
    (ag : AvailabilityGroup) : AvailabilityGroup := with_extra (f (extra (o_status ag))) ag.
Definition ag_status (ag : AvailabilityGroup) : AvailabilityGroupStatus := extra (o_status ag).

Definition set_primary (name : string) (s : AvailabilityGroupStatus) : AvailabilityGroupStatus :=
  mkAvailabilityGroupStatus name (ag_ReplicaStates s) (ag_DatabaseStates s) (ag_LastAutoFailoverTime s)
    (ag_AutoFailoverCount s) (ag_LastFencingTime s) (ag_FencingCount s) (ag_ConsecutiveFencingCount s)
    (ag_LastFencedReplica s).

(** Step 11: the counters after fencing, the last rogue being [rogue], at time [now]. *)
Definition record_fencing (legitimate rogue : string) (now : Z) (s : AvailabilityGroupStatus)
    : AvailabilityGroupStatus :=
  mkAvailabilityGroupStatus legitimate (ag_ReplicaStates s) (ag_DatabaseStates s) (ag_LastAutoFailoverTime s)
    (ag_AutoFailoverCount s) (Some now) (int32 (ag_FencingCount s + 1))
    (if String.eqb (ag_LastFencedReplica s) rogue then int32 (ag_ConsecutiveFencingCount s + 1) else 1)
    rogue.

Module Fencing.
Section Fencing.
Context `{GoEnv} {K D Conn : Type} `{KubeClient K} `{SQLClient Conn D} `{KubeUtil}.
(** [r.SQLClientFactory]. *)
Variable factory : ClientFactory Conn D.

Section Calls.
Context {R : Type}.
Abbreviation M A := (Go (World K D Conn) R A).

Definition replica_credentials (ag : AvailabilityGroup) (replica : AGReplicaSpec)
    : M (string * string + error) :=
  getCredentialsFromSecret (Namespace (o_meta ag)) (sec_Name (CredentialsSecret (rep_Server replica))).

(** One round of [collectReplicaRoles]: the role, or "" when unreachable. *)
Definition replica_role (ag : AvailabilityGroup) (replica : AGReplicaSpec) : M string :=
  let agName := ag_AGName (o_spec ag) in
  r ← replica_credentials ag replica;
  match r with
  | inr _ => mret ""
  | inl (username, password) =>
  r ← connectToSQL (rep_Server replica) username password factory;
  match r with
  | inr _ => mret ""
  | inl conn =>
      ' (role, err) ← sql conn "GetAGReplicaRole" [agName; rep_ServerName replica]
                        (GetAGReplicaRole agName (rep_ServerName replica));
      sql conn "Close" [] Close ;;
      mret (match err with Some _ => "" | None => role end)
  end end.

Definition collectReplicaRoles (ag : AvailabilityGroup) : M (gmap string string) :=
  fold_each (ag_Replicas (o_spec ag)) ∅ (fun roles replica =>
    role ← replica_role ag replica;
    mret (<[rep_ServerName replica := role]> roles)).

(** One round of [collectReplicaLSNs]: 0 on error. *)
Definition replica_lsn (ag : AvailabilityGroup) (replica : AGReplicaSpec) : M Z :=
  let agName := ag_AGName (o_spec ag) in
  r ← replica_credentials ag replica;
  match r with
  | inr _ => mret 0
  | inl (username, password) =>
  r ← connectToSQL (rep_Server replica) username password factory;
  match r with
  | inr _ => mret 0
  | inl conn =>
      ' (lsn, err) ← sql conn "GetLastHardenedLSN" [agName] (GetLastHardenedLSN agName);
      sql conn "Close" [] Close ;;
      mret (match err with Some _ => 0 | None => lsn end)
  end end.

Definition collectReplicaLSNs (ag : AvailabilityGroup) (candidates : list AGReplicaSpec)
    : M (gmap string Z) :=
  fold_each candidates ∅ (fun lsns replica =>
    lsn ← replica_lsn ag replica;
    mret (<[rep_ServerName replica := lsn]> lsns)).

(** Guard 3; a failed List is ignored. *)
Definition failover_running (ag : AvailabilityGroup) : M bool :=
  r ← List_ KAGFailover (Some (Namespace (o_meta ag))) ∅;
  match r with
  | inr _ => mret false
  | inl items =>
      mret (existsb (fun f : AGFailover =>
        String.eqb (fo_AGName (o_spec f)) (ag_AGName (o_spec ag)) &&
        String.eqb (fo_Phase (extra (o_status f))) PhaseRunning) items)
  end.

Definition setPodRoleLabel (namespace podName role : string) : M unit :=
  r ← Get KPod (mkKey namespace podName);
  match r with
  | inr _ => mret tt
  | inl pod =>
      if String.eqb (default "" (Labels (o_meta pod) !! LabelRole)) role then mret tt
      else Patch KPod pod (with_meta (with_labels (<[LabelRole := role]> (Labels (o_meta pod))) (o_meta pod)) pod) ;;
           mret tt
  end.

(** availabilitygroup_controller.go *)
Definition updateReplicaRoleLabelsFromAG (ag : AvailabilityGroup) (primaryServerName : string) : M unit :=
  for_each (ag_Replicas (o_spec ag)) (fun replica =>
    let podName := rep_ServerName replica in
    setPodRoleLabel (Namespace (o_meta ag)) podName
      (if String.eqb podName primaryServerName then RolePrimary else RoleSecondary)).

(** The rogue was fenced within the cooldown. *)
Definition fenced_recently (ag : AvailabilityGroup) (cooldown : Z) : M bool :=
  match ag_LastFencingTime (ag_status ag) with
  | None => mret false
  | Some t => since_less t cooldown
  end.

(** The circuit breaker. *)
Definition is_exhausted (ag : AvailabilityGroup) (cooldown : Z) (p : AGReplicaSpec) : M bool :=
  if String.eqb (ag_LastFencedReplica (ag_status ag)) (rep_ServerName p) &&
     (maxFencingAttempts <=? ag_ConsecutiveFencingCount (ag_status ag))
  then fenced_recently ag cooldown
  else mret false.

(** The rogues to fence, and [allExhausted]. *)
Definition build_rogues (ag : AvailabilityGroup) (cooldown : Z) (legitimate : AGReplicaSpec)
    (primaries : list AGReplicaSpec) : M (list AGReplicaSpec * bool) :=
  fold_each primaries ([], true) (fun acc p =>
    if String.eqb (rep_ServerName p) (rep_ServerName legitimate) then mret acc
    else
      isExhausted ← is_exhausted ag cooldown p;
      mret (if isExhausted : bool then acc else (acc.1 ++ [p], false))).
End Calls.

(** The deferred [Close] runs on both ways out. *)
Definition fenceReplica (ag : AvailabilityGroup) (replica : AGReplicaSpec) (hard : bool)
    : Go (World K D Conn) (option error) (option error) :=
  let agName := ag_AGName (o_spec ag) in
  let name := rep_ServerName replica in
  r ← replica_credentials ag replica;
  match r with
  | inr err => return_ (Some (ErrWrap (Sprintf "failed to get credentials for %s" [name]) err))
  | inl (username, password) =>
  r ← connectToSQL (rep_Server replica) username password factory;
  match r with
  | inr err => return_ (Some (ErrWrap (Sprintf "failed to connect to %s" [name]) err))
  | inl conn =>
      defer_ (sql conn "Close" [] Close ;; mret tt) (
        err ← (if hard then
                 err ← sql conn "DropAG" [agName] (DropAG agName);
                 when (bool_decide (err = None)) (
                   Event EventTypeWarning ReasonHardFencingExecuted
                     (Sprintf "Hard fencing: dropped AG on %s" [name])) ;;
                 mret err
               else
                 err ← sql conn "SetAGRoleSecondary" [agName] (SetAGRoleSecondary agName);
                 when (bool_decide (err = None)) (
                   Event EventTypeNormal ReasonFencingExecuted
                     (Sprintf "Soft fencing: set %s to SECONDARY" [name])) ;;
                 mret err);
        Metric "FencingTotal" [agName; Namespace (o_meta ag); name; if hard then "hard" else "soft"] Inc ;;
        return_ err)
  end end.

Section Detect.
Abbreviation M A := (Go (World K D Conn) (bool * AvailabilityGroup) A).

(** Step 10, one rogue: cut its traffic first, then fence it. *)
Definition fence_rogue (ag : AvailabilityGroup) (cooldown : Z) (rogue : AGReplicaSpec) : M unit :=
  let name := rep_ServerName rogue in
  setPodRoleLabel (Namespace (o_meta ag)) name RoleSecondary ;;
  hard ← (if String.eqb (ag_LastFencedReplica (ag_status ag)) name then fenced_recently ag cooldown
          else mret false);
  fenceErr ← fn (fenceReplica ag rogue hard);
  on_err fenceErr (fun err =>
    Event EventTypeWarning ReasonFencingFailed
      (Sprintf "Fencing %s failed: %v (label removed, traffic cut)" [name; err_text err])).

(** [_ = r.Status().Patch(ctx, ag, patch)]: on success the answer is decoded into [ag]. *)
Definition patch_status_ignored (base updated : AvailabilityGroup) : M AvailabilityGroup :=
  r ← StatusPatch KAvailabilityGroup base updated;
  mret (match r with inl ag' => ag' | inr _ => updated end).

(** Every rogue is exhausted: alert. *)
Definition alert_exhausted (ag : AvailabilityGroup) : M AvailabilityGroup :=
  patch_status_ignored ag (with_ready_condition ConditionFalse ReasonFencingExhausted
    "Fencing exhausted: split-brain persists, manual intervention required" ag).

(** Step 11. *)
Definition patch_fenced (ag : AvailabilityGroup) (legitimate lastRogue : AGReplicaSpec)
    : M AvailabilityGroup :=
  now ← Now;
  let ag' := with_ag_status (record_fencing (rep_ServerName legitimate) (rep_ServerName lastRogue) now) ag in
  let reason := if 1 <? ag_ConsecutiveFencingCount (ag_status ag') then ReasonHardFencingExecuted
                else ReasonFencingExecuted in
  patch_status_ignored ag (with_ready_condition ConditionFalse reason
    (Sprintf "Fenced rogue primary, legitimate primary is %s" [rep_ServerName legitimate]) ag').

(** Steps 9 to 11: two or more primaries. *)
Definition resolve (ag : AvailabilityGroup) (p0 : AGReplicaSpec) (rest : list AGReplicaSpec)
    : M (bool * AvailabilityGroup) :=
  let primaries := p0 :: rest in
  let cooldown := duration_or (ag_FailoverCooldown (o_spec ag)) (60 * Second) in
  lsns ← collectReplicaLSNs ag primaries;
  let legitimate := choose_legitimate (ag_PrimaryReplica (ag_status ag)) lsns p0 rest in
  ' (rogues, allExhausted) ← build_rogues ag cooldown legitimate primaries;
  match rogues with
  | [] =>
      if allExhausted : bool then ag' ← alert_exhausted ag; return_ (false, ag')
      else return_ (false, ag)
  | r0 :: _ =>
      Event EventTypeWarning ReasonSplitBrainDetected
        (Sprintf "Split-brain detected: %d primaries, legitimate=%s"
           [fmt_d (Z.of_nat (length primaries)); rep_ServerName legitimate]) ;;
      for_each rogues (fence_rogue ag cooldown) ;;
      ag' ← patch_fenced ag legitimate (List.last rogues r0);
      return_ (true, ag')
  end.

(** Step 8: one primary; the recorded one, or the status is corrected in memory. *)
Definition single_primary (ag : AvailabilityGroup) (p : AGReplicaSpec) : M (bool * AvailabilityGroup) :=
  let name := rep_ServerName p in
  if String.eqb name (ag_PrimaryReplica (ag_status ag)) then return_ (false, ag)
  else
    let ag' := with_ag_status (set_primary name) ag in
    updateReplicaRoleLabelsFromAG ag' name ;;
    Event EventTypeNormal ReasonPrimaryChangedExternally (Sprintf "Primary changed externally to %s" [name]) ;;
    return_ (false, ag').

(** The result is [fenced] and the object as modified in memory. *)
Definition detectAndResolveSplitBrain (ag : AvailabilityGroup) : M (bool * AvailabilityGroup) :=
  if String.eqb (ag_PrimaryReplica (ag_status ag)) "" then return_ (false, ag)
  else if match ag_ClusterType (o_spec ag) with Some ct => negb (String.eqb ct "None") | None => false end
  then return_ (false, ag)
  else
    running ← failover_running ag;
    if running : bool then return_ (false, ag)
    else
      roles ← collectReplicaRoles ag;
      let primaries := filter (fun p => roles !! rep_ServerName p = Some "PRIMARY") (ag_Replicas (o_spec ag)) in
      match primaries with
      | [] => return_ (false, ag)
      | [p] => single_primary ag p
      | p0 :: rest => resolve ag p0 rest
      end.
End Detect.

(** [tryRejoinReplica]: a failure is only logged. *)
Definition tryRejoinReplica {R} (ag : AvailabilityGroup) (replica : AGReplicaSpec)
    : Go (World K D Conn) R unit :=
  let agName := ag_AGName (o_spec ag) in
  let clusterType := match ag_ClusterType (o_spec ag) with
                     | Some ct => mapClusterType ct | None => "EXTERNAL" end in
  r ← replica_credentials ag replica;
  match r with
  | inr _ => mret tt
  | inl (username, password) =>
  r ← connectToSQL (rep_Server replica) username password factory;
  match r with
  | inr _ => mret tt
  | inl conn =>
      defer_ (sql conn "Close" [] Close ;; mret tt) (
        err ← sql conn "JoinAG" [agName; clusterType] (JoinAG agName clusterType);
        match err with
        | Some _ => mret tt
        | None => Event EventTypeNormal "ReplicaRejoined"
                    (Sprintf "Replica %s rejoined AG %s" [rep_ServerName replica; agName])
        end)
  end end.

(** ** Theorems *)
(** *** The choice *)
Definition lsn_of (lsns : gmap string Z) (p : AGReplicaSpec) : Z := default 0 (lsns !! rep_ServerName p).

(** No primary has a higher log position than the legitimate one, and on a tie
    with the recorded primary it is the recorded primary. *)
Lemma choose_legitimate_spec sp lsns p0 rest :
  let best := choose_legitimate sp lsns p0 rest in
  best ∈ p0 :: rest /\
  forall p, p ∈ p0 :: rest -> lsn_of lsns p <= lsn_of lsns best /\
    (lsn_of lsns p = lsn_of lsns best -> rep_ServerName p = sp -> rep_ServerName best = sp).
Proof.
  cbv zeta. unfold choose_legitimate.
  set (good := fun (seen : list AGReplicaSpec) (b : AGReplicaSpec * Z) => b.1 ∈ seen /\ b.2 = lsn_of lsns b.1 /\
    forall p, p ∈ seen -> lsn_of lsns p <= b.2 /\
      (lsn_of lsns p = b.2 -> rep_ServerName p = sp -> rep_ServerName b.1 = sp)).
  assert (Hstep : forall seen b p, good seen b -> good (seen ++ [p]) (choose_step sp lsns b p)).
  { intros seen [b h] p (Hb & Hh & Hall). cbn in Hb, Hh, Hall. unfold good, choose_step. fold (lsn_of lsns p). cbn.
    destruct (Z.ltb_spec h (lsn_of lsns p)) as [Hlt|Hge]; [|destruct (Z.eqb_spec (lsn_of lsns p) h) as [Heq|Hne];
      [destruct (String.eqb_spec (rep_ServerName p) sp) as [Hsp|Hsp]|]]; cbn.
    all: split_and!; [set_solver|lia|].
    all: intros q [Hq | ->%list_elem_of_singleton]%elem_of_app; [destruct (Hall q Hq)|];
      (split; [lia|]); intros; first [done|lia|auto]. }
  assert (Hfold : forall rest seen b, good seen b -> good (seen ++ rest) (foldl (choose_step sp lsns) b rest)).
  { clear -Hstep. intros rest. induction rest as [|p rest IH]; intros seen b Hb; cbn; [by rewrite app_nil_r|].
    replace (seen ++ p :: rest) with ((seen ++ [p]) ++ rest) by by rewrite <- (assoc_L (++)).
    apply IH, Hstep, Hb. }
  destruct (Hfold rest [p0] (p0, lsn_of lsns p0)) as (Hin & Hval & Hall).
  { split_and!; [by left|done|]. intros p ->%list_elem_of_singleton. cbn. split; [lia|done]. }
  split; [done|]. intros p Hp. destruct (Hall p Hp) as [Hle Htie]. fold (lsn_of lsns p0). rewrite <- Hval. auto.
Qed.

(** *** What the queries observed *)
Abbreviation Log := (list (Action Conn * D)).
(** In the run [L], a replica with this name was asked for its role, on a
    connection to its server, and answered [role]. *)
Definition observed_role (ag : AvailabilityGroup) (L : Log) (name role : string) : Prop :=
  exists r c d d', r ∈ ag_Replicas (o_spec ag) /\ rep_ServerName r = name /\
    connected factory (rep_Server r) c /\
    (ASql c "GetAGReplicaRole" [ag_AGName (o_spec ag); name], d) ∈ L /\
    GetAGReplicaRole (ag_AGName (o_spec ag)) name c d = ((role, None), d').
(** The same for its log position. *)
Definition answered_lsn (ag : AvailabilityGroup) (L : Log) (r : AGReplicaSpec) (n : Z) (err : option error) : Prop :=
  exists c d d', connected factory (rep_Server r) c /\
    (ASql c "GetLastHardenedLSN" [ag_AGName (o_spec ag)], d) ∈ L /\
    GetLastHardenedLSN (ag_AGName (o_spec ag)) c d = ((n, err), d').
(** The states a run that has only read so far can have reached: its calls are
    reads of the API server, connections, and questions to the servers. *)
Inductive asks : K * D -> K * D -> Prop :=
| ask_get k key s r s' d : kube_Get k key s = (r, s') -> asks (s, d) (s', d)
| ask_list k ns labels s r s' d : kube_List k ns labels s = (r, s') -> asks (s, d) (s', d)
| ask_connect host port user pass tls s d r d' :
    factory host port user pass tls d = (r, d') -> asks (s, d) (s, d')
| ask_role ag name c s d r d' : GetAGReplicaRole ag name c d = (r, d') -> asks (s, d) (s, d')
| ask_lsn ag c s d r d' : GetLastHardenedLSN ag c d = (r, d') -> asks (s, d) (s, d')
| ask_close c s d r d' : Close c d = (r, d') -> asks (s, d) (s, d').
Definition state (w : World K D Conn) : K * D := (w_kube w, w_sql w).
(** The position is not known to the run that starts in [w]: in a state it can have
    reached, the Secret of the replica could not be read or lacks a key, or the
    connection with these credentials failed; or the query did. *)
Definition unknown_lsn (ag : AvailabilityGroup) (w : World K D Conn) (L : Log) (r : AGReplicaSpec) : Prop :=
  let ref := rep_Server r in
  exists s d answer s', rtc asks (state w) (s, d) /\
    kube_Get KSecret (mkKey (Namespace (o_meta ag)) (sec_Name (CredentialsSecret ref))) s = (answer, s') /\
    match answer with
    | inr _ => True
    | inl secret =>
        match o_spec secret !! "username", o_spec secret !! "password" with
        | Some user, Some pass =>
            (exists err d', factory (Host ref) (server_port ref) user pass (server_tls ref) d = (inr err, d')) \/
            exists n err, answered_lsn ag L r n (Some err)
        | _, _ => True
        end
    end.
(** A primary counts with the position it answered, or 0 when it is not known. *)
Definition observed_lsn (ag : AvailabilityGroup) (w : World K D Conn) (L : Log) (name : string) (n : Z) : Prop :=
  exists r, r ∈ ag_Replicas (o_spec ag) /\ rep_ServerName r = name /\
    (answered_lsn ag L r n None \/ (n = 0 /\ unknown_lsn ag w L r)).

(** Connections and queries. *)
Definition quiet (a : Action Conn) : Prop :=
  match a with ASql _ m _ => m ∈ read_only_methods | AConnect _ _ _ _ _ _ => True | _ => False end.
Lemma quiet_sql (c : Conn) m args : bool_decide (m ∈ read_only_methods) = true -> quiet (ASql c m args).
Proof. apply bool_decide_eq_true_1. Qed.

Lemma since_tail (w0 w : World K D Conn) h L x :
  later w0 w -> L = w_log w ++ h -> x ∈ h -> x ∈ since w0 L.
Proof. intros Hw -> Hx. rewrite since_app by done. apply elem_of_app. by right. Qed.
(** An entry at the end of an explicit log. *)
Ltac in_log := eapply since_tail; [eassumption|cbn; by rewrite <- ?(assoc_L (++))|set_solver].

(** Parts of the run that only ask. *)
Definition asking {R A} (m : Go (World K D Conn) R A) : Prop := forall w, rtc asks (state w) (state (m w).2).
Lemma asking_bind {R A B} (m : Go (World K D Conn) R A) (k : A -> Go (World K D Conn) R B) :
  asking m -> (forall a, asking (k a)) -> asking (m ≫= k).
Proof.
  intros Hm Hk w. unfold mbind, go_bind. specialize (Hm w).
  destruct (m w) as [[a|r|e] w1]; [|exact Hm..].
  etrans; [exact Hm|apply Hk].
Qed.
Lemma asking_on_kube {R A} (f : K -> A * K) :
  (forall s d r s', f s = (r, s') -> asks (s, d) (s', d)) -> asking (R := R) (on_kube f).
Proof. intros Hf w. unfold on_kube. destruct (f (w_kube w)) eqn:E; cbn. eapply rtc_once, Hf, E. Qed.
Lemma asking_on_sql {R A} (f : D -> A * D) :
  (forall s d r d', f d = (r, d') -> asks (s, d) (s, d')) -> asking (R := R) (on_sql f).
Proof. intros Hf w. unfold on_sql. destruct (f (w_sql w)) eqn:E; cbn. eapply rtc_once, Hf, E. Qed.
Lemma asking_fold_each {R S A} xs (s0 : S) (body : S -> A -> Go (World K D Conn) R S) :
  (forall s x, asking (body s x)) -> asking (fold_each xs s0 body).
Proof.
  intros Hb. revert s0. induction xs as [|x xs IH]; intros s0; [intros w; reflexivity|].
  cbn. by apply asking_bind.
Qed.
Lemma asking_Get {R} k key : asking (Get (R := R) k key).
Proof. apply asking_on_kube. intros s d r s'. apply ask_get. Qed.
Lemma asking_List {R} k ns labels : asking (List_ (R := R) k ns labels).
Proof. apply asking_on_kube. intros s d r s'. apply ask_list. Qed.
Ltac asking_auto := repeat
  lazymatch goal with
  | |- asking (_ ≫= _) => apply asking_bind; [|intros ?]
  | |- asking (fold_each _ _ _) => apply asking_fold_each; intros ? ?
  | |- asking (on_sql _) => apply asking_on_sql; intros; econstructor; eassumption
  | |- asking (sql _ _ _ _) => unfold sql
  | |- asking (Get ?k ?key) => exact (asking_Get k key)
  | |- asking (List_ ?k ?ns ?ls) => exact (asking_List k ns ls)
  | |- asking (connectToSQL _ _ _ _) => unfold connectToSQL; cbv zeta
  | |- asking (let '(_, _) := ?p in _) => destruct p
  | |- asking (match ?x with _ => _ end) => destruct x
  | |- asking _ => intros ?; reflexivity
  end.
Lemma asking_credentials {R} ag replica : asking (replica_credentials (R := R) ag replica).
Proof. unfold replica_credentials, getCredentialsFromSecret. asking_auto. Qed.
Lemma asking_roles {R} ag : asking (collectReplicaRoles (R := R) ag).
Proof.
  unfold collectReplicaRoles, replica_role. apply asking_fold_each. intros roles x. apply asking_bind; [|intros role; asking_auto].
  apply asking_bind; [apply asking_credentials|]. intros r. asking_auto.
Qed.
Lemma asking_lsn {R} ag replica : asking (replica_lsn (R := R) ag replica).
Proof.
  unfold replica_lsn. cbv zeta. apply asking_bind; [apply asking_credentials|]. intros r. asking_auto.
Qed.
Lemma asking_running {R} ag : asking (failover_running (R := R) ag).
Proof. unfold failover_running. asking_auto. Qed.

(** A state of the run that started in [w0], as far as it has only asked. *)
Definition seen (w0 w : World K D Conn) : Prop := later w0 w /\ rtc asks (state w0) (state w).
Lemma seen_refl w : seen w w.
Proof. split; [apply later_refl|done]. Qed.
Lemma seen_trans w0 w1 w2 : seen w0 w1 -> seen w1 w2 -> seen w0 w2.
Proof. intros [? ?] [? ?]. split; [by eapply later_trans|by etrans]. Qed.
Lemma does_seen {R A} (P : Action Conn -> D -> Prop) (m : Go (World K D Conn) R A) F
    (E : R -> World K D Conn -> Prop) w :
  asking m -> does P m F E w ->
  does P m (fun a w' => F a w' /\ seen w w') (fun r w' => E r w' /\ seen w w') w.
Proof.
  intros Hm Hd. apply does_intro. intros o w' Hrun. specialize (Hm w). rewrite Hrun in Hm.
  destruct (does_run _ _ _ _ _ _ _ (does_later _ _ _ _ _ Hd) Hrun) as (Hl & Ht & Ho).
  split; [done|]. split; [done|]. unfold seen. by destruct o; cbn in *; destruct Ho.
Qed.

Section Observe.
Context {R : Type} (ag : AvailabilityGroup) (P : Action Conn -> D -> Prop).
Context (HP : forall a d, quiet a -> P a d) (w0 : World K D Conn).
Implicit Types (w : World K D Conn) (E : R -> World K D Conn -> Prop).
Abbreviation log w := (since w0 (w_log w)).
Ltac permit ::= solve [ done | apply HP; solve [done | by apply quiet_sql] ].

Lemma observed_role_mono w w' name role :
  later w0 w -> later w w' -> observed_role ag (log w) name role -> observed_role ag (log w') name role.
Proof.
  intros Hw Hl (r & c & d & d' & ? & ? & ? & Hin & ?). exists r, c, d, d'. split_and!; try done.
  by eapply since_mono.
Qed.
Lemma observed_lsn_mono w w' name n :
  later w0 w -> later w w' -> observed_lsn ag w0 (log w) name n -> observed_lsn ag w0 (log w') name n.
Proof.
  intros Hw Hl (r & Hr & Hn & Ha). exists r. split_and!; [done|done|].
  assert (Hm : forall n err, answered_lsn ag (log w) r n err -> answered_lsn ag (log w') r n err).
  { intros n' err (c & d & d' & ? & Hin & ?). exists c, d, d'. split_and!; try done. by eapply since_mono. }
  destruct Ha as [Ha|[-> (s & d & answer & s' & Hs & Hg & Hc)]]; [left; auto|right]. split; [done|].
  exists s, d, answer, s'. split_and!; [done|done|]. destruct answer as [secret|e]; [|done].
  destruct (_ !! "username"); [|done]. destruct (_ !! "password"); [|done].
  destruct Hc as [?|(n' & err & ?)]; eauto 10.
Qed.

Lemma replica_role_spec replica E w :
  replica ∈ ag_Replicas (o_spec ag) -> later w0 w ->
  does P (replica_role ag replica)
    (fun role w' => role <> "" -> observed_role ag (log w') (rep_ServerName replica) role) E w.
Proof.
  intros Hr Hw. unfold replica_role, replica_credentials. does_all; try done.
  match goal with |- match ?o with _ => _ end <> "" -> _ => destruct o; [done|] end.
  intros _. do 4 eexists. split_and!; try done. in_log.
Qed.

Lemma collectReplicaRoles_spec E w :
  later w0 w ->
  does P (collectReplicaRoles ag)
    (fun roles w' => forall name role, roles !! name = Some role -> role <> "" -> observed_role ag (log w') name role) E w.
Proof.
  intros Hw. unfold collectReplicaRoles.
  apply (does_fold_each (fun rest roles w' => rest ⊆ ag_Replicas (o_spec ag) /\ later w0 w' /\
    forall name role, roles !! name = Some role -> role <> "" -> observed_role ag (log w') name role)).
  - split_and!; [done|done|]. intros name role. by rewrite lookup_empty.
  - intros r rest roles w' (Hsub & Hw' & Hroles). does_step.
    eapply does_post; [apply does_later, replica_role_spec; [apply Hsub; by left|done]| |by intros ? ? [? _]].
    intros role w1 [Hrole Hl]. does_step. split_and!; [intros x Hx; apply Hsub; by right|by eapply later_trans|].
    intros name role' [[<- <-]|[_ Hlk]]%lookup_insert_Some; [done|]. intros Hne.
    by eapply observed_role_mono; [| |apply Hroles].
  - by intros roles w' (_ & _ & ?).
Qed.

Lemma replica_lsn_spec replica E w :
  replica ∈ ag_Replicas (o_spec ag) -> seen w0 w ->
  does P (replica_lsn ag replica)
    (fun n w' => observed_lsn ag w0 (log w') (rep_ServerName replica) n) E w.
Proof.
  intros Hr [Hw Hasks]. unfold replica_lsn, replica_credentials, getCredentialsFromSecret.
  assert (Hunknown : forall L answer s', kube_Get KSecret (mkKey (Namespace (o_meta ag))
      (sec_Name (CredentialsSecret (rep_Server replica)))) (w_kube w) = (answer, s') ->
    match answer with
    | inr _ => True
    | inl secret =>
        match o_spec secret !! "username", o_spec secret !! "password" with
        | Some user, Some pass =>
            (exists err d', factory (Host (rep_Server replica)) (server_port (rep_Server replica)) user pass
               (server_tls (rep_Server replica)) (w_sql w) = (inr err, d')) \/
            exists n err, answered_lsn ag L replica n (Some err)
        | _, _ => True
        end
    end -> observed_lsn ag w0 L (rep_ServerName replica) 0).
  { intros L answer s' Hg Hm. exists replica. split_and!; [done|done|right]. split; [done|]. by do 4 eexists. }
  do 3 does_step. destruct x as [secret|err]; cbn beta iota.
  2: { do 2 does_step. by eapply Hunknown. }
  destruct (o_spec secret !! "username") as [user|] eqn:Hu.
  2: { do 2 does_step. eapply Hunknown; [eassumption|]. cbn. by rewrite Hu. }
  destruct (o_spec secret !! "password") as [pass|] eqn:Hp.
  2: { do 2 does_step. eapply Hunknown; [eassumption|]. cbn. by rewrite Hu, Hp. }
  does_step. cbn beta iota. does_step. unfold connectToSQL. cbv zeta. do 2 does_step. destruct x as [c|err].
  2: { do 2 does_step. eapply Hunknown; [eassumption|]. cbn. rewrite Hu, Hp. left. by do 2 eexists. }
  assert (Hc : connected factory (rep_Server replica) c) by (by do 4 eexists).
  do 7 does_step. destruct x as [n err]. do 5 does_step. destruct err as [e|].
  - eapply Hunknown; [eassumption|]. cbn. rewrite Hu, Hp. right.
    exists n, e, c. do 2 eexists. split_and!; try done. in_log.
  - exists replica. split_and!; [done|done|]. left. exists c. do 2 eexists. split_and!; try done. in_log.
Qed.

Lemma collectReplicaLSNs_spec candidates E w :
  candidates ⊆ ag_Replicas (o_spec ag) -> seen w0 w ->
  does P (collectReplicaLSNs ag candidates)
    (fun lsns w' => (forall p, p ∈ candidates -> observed_lsn ag w0 (log w') (rep_ServerName p) (lsn_of lsns p))) E w.
Proof.
  intros Hc Hw. unfold collectReplicaLSNs.
  apply (does_fold_each (fun rest lsns w' => rest ⊆ ag_Replicas (o_spec ag) /\ seen w0 w' /\
    forall p, p ∈ candidates -> p ∈ rest \/ observed_lsn ag w0 (log w') (rep_ServerName p) (lsn_of lsns p))).
  - split_and!; [done|done|]. auto.
  - intros r rest lsns w' (Hsub & Hw' & Hlsns). does_step.
    eapply does_post; [apply does_seen; [apply asking_lsn|apply replica_lsn_spec; [apply Hsub; by left|done]]| |by intros ? ? [? _]].
    intros n w1 [Hn Hl]. does_step. split_and!; [intros x Hx; apply Hsub; by right|by eapply seen_trans|].
    intros p Hp. unfold lsn_of. destruct (decide (rep_ServerName p = rep_ServerName r)) as [He|Hne].
    + right. rewrite He, lookup_insert_eq. done.
    + rewrite lookup_insert_ne by done. destruct (Hlsns p Hp) as [[->|Hin]%elem_of_cons|Ho]; [done|by left|].
      right. destruct Hw', Hl. by eapply observed_lsn_mono.
  - intros lsns w' (_ & _ & Hall) p Hp. by destruct (Hall p Hp) as [?%elem_of_nil|?].
Qed.

(** The AGFailovers listed have one of this group in progress. *)
Definition failover_in_progress (listed : list AGFailover + error) : Prop :=
  match listed with
  | inl items => exists f, f ∈ items /\ fo_AGName (o_spec f) = ag_AGName (o_spec ag) /\
                   fo_Phase (extra (o_status f)) = PhaseRunning
  | inr _ => False
  end.
Lemma failover_running_spec E w :
  does P (failover_running ag) (fun b _ => b = false -> ~ failover_in_progress
    (kube_List KAGFailover (Some (Namespace (o_meta ag))) ∅ (w_kube w)).1) E w.
Proof.
  unfold failover_running. does_all; try done;
    match goal with Hl : kube_List _ _ _ _ = _ |- _ => rewrite Hl end; [|by intros _ []].
  intros Hno (f & Hin & Hname & Hrun). apply not_true_iff_false in Hno. apply Hno, existsb_exists.
  exists f. split; [by apply list_elem_of_In|]. by rewrite Hname, Hrun, !String.eqb_refl.
Qed.

(** [p] was fenced last, within the cooldown at a reading of the clock made from
    the [n]-th on and before the [e]-th. *)
Definition fenced_lately (cooldown : Z) (n e : nat) (p : AGReplicaSpec) : Prop :=
  exists t i, ag_LastFencedReplica (ag_status ag) = rep_ServerName p /\
    ag_LastFencingTime (ag_status ag) = Some t /\ (n <= i < e)%nat /\ time_sub (clock i) t < cooldown.
(** It was not, or the cooldown was over at such a reading. *)
Definition not_lately (cooldown : Z) (n e : nat) (p : AGReplicaSpec) : Prop :=
  forall t, ag_LastFencedReplica (ag_status ag) = rep_ServerName p ->
    ag_LastFencingTime (ag_status ag) = Some t ->
    exists i, (n <= i < e)%nat /\ cooldown <= time_sub (clock i) t.
(** The circuit breaker, five times or more in a row within the cooldown, is not open. *)
Definition not_exhausted (cooldown : Z) (n e : nat) (p : AGReplicaSpec) : Prop :=
  ag_ConsecutiveFencingCount (ag_status ag) < 5 \/ not_lately cooldown n e p.
Lemma fenced_lately_mono cooldown n e e' p :
  (e <= e')%nat -> fenced_lately cooldown n e p -> fenced_lately cooldown n e' p.
Proof. intros He (t & i & ? & ? & ? & ?). exists t, i. split_and!; [done..|lia|lia|done]. Qed.
Lemma not_lately_mono cooldown n e e' p :
  (e <= e')%nat -> not_lately cooldown n e p -> not_lately cooldown n e' p.
Proof. intros He Hp t Hl Ht. destruct (Hp t Hl Ht) as (i & ? & ?). exists i. split; [lia|done]. Qed.
Lemma not_exhausted_mono cooldown n e e' p :
  (e <= e')%nat -> not_exhausted cooldown n e p -> not_exhausted cooldown n e' p.
Proof. intros He [?|?]; [by left|right; by eapply not_lately_mono]. Qed.

(** Both are decided by a reading of the clock in this run. *)
Lemma fenced_recently_spec cooldown p E w :
  later w0 w -> ag_LastFencedReplica (ag_status ag) = rep_ServerName p ->
  does P (fenced_recently ag cooldown)
    (fun (b : bool) w' => if b then fenced_lately cooldown (w_tick w0) (w_tick w') p
                          else not_lately cooldown (w_tick w0) (w_tick w') p) E w.
Proof.
  intros [_ Hw] Hp. unfold fenced_recently.
  destruct (ag_LastFencingTime (ag_status ag)) as [t|] eqn:Ht; [|does_all; intros t _; by rewrite Ht].
  unfold since_less. do 2 does_step. destruct (Z.ltb_spec (time_sub (clock (w_tick w)) t) cooldown); does_all.
  - exists t, (w_tick w). by split_and!; cbn; try lia.
  - intros t' _. rewrite Ht. intros [= <-]. exists (w_tick w). cbn. split; [lia|done].
Qed.
Lemma fenced_lately_spec cooldown p E w :
  later w0 w ->
  does P (if String.eqb (ag_LastFencedReplica (ag_status ag)) (rep_ServerName p)
          then fenced_recently ag cooldown else mret false)
    (fun (b : bool) w' => if b then fenced_lately cooldown (w_tick w0) (w_tick w') p
                          else not_lately cooldown (w_tick w0) (w_tick w') p) E w.
Proof.
  intros Hw. destruct (String.eqb_spec (ag_LastFencedReplica (ag_status ag)) (rep_ServerName p)) as [Hl|Hl].
  - by apply fenced_recently_spec.
  - does_step. by intros t.
Qed.
Lemma is_exhausted_spec cooldown p E w :
  later w0 w ->
  does P (is_exhausted ag cooldown p)
    (fun b w' => b = false -> not_exhausted cooldown (w_tick w0) (w_tick w') p) E w.
Proof.
  intros Hw. unfold is_exhausted, not_exhausted.
  destruct (String.eqb_spec (ag_LastFencedReplica (ag_status ag)) (rep_ServerName p)) as [Hl|Hl]; cbn.
  2: { does_step. right. by intros t. }
  destruct (Z.leb_spec maxFencingAttempts (ag_ConsecutiveFencingCount (ag_status ag))) as [Hc|Hc];
    unfold maxFencingAttempts in Hc.
  - eapply does_post; [by apply fenced_recently_spec| |done]. intros [] w1 Hb; [done|by right].
  - does_step. by left.
Qed.

Lemma build_rogues_spec cooldown legit primaries E w :
  later w0 w ->
  does P (build_rogues ag cooldown legit primaries)
    (fun res w' => forall p, p ∈ res.1 -> p ∈ primaries /\ rep_ServerName p <> rep_ServerName legit /\
       not_exhausted cooldown (w_tick w0) (w_tick w') p) E w.
Proof.
  intros Hw. unfold build_rogues.
  apply (does_fold_each (fun rest res w' => rest ⊆ primaries /\ later w0 w' /\
    forall p, p ∈ res.1 -> p ∈ primaries /\ rep_ServerName p <> rep_ServerName legit /\
      not_exhausted cooldown (w_tick w0) (w_tick w') p)).
  - split_and!; [done|done|]. by intros p ?%elem_of_nil.
  - intros p rest [rogues allEx] w' (Hsub & Hw' & Hr).
    assert (Hrest : rest ⊆ primaries) by (intros x Hx; apply Hsub; by right).
    destruct (String.eqb_spec (rep_ServerName p) (rep_ServerName legit)) as [Heq|Hne]; [by does_step|].
    does_step. eapply does_post; [by apply does_later, is_exhausted_spec| |by intros ? ? [? _]].
    intros b w1 [Hb Hl]. does_step.
    assert (Hr' : forall q, q ∈ rogues -> q ∈ primaries /\ rep_ServerName q <> rep_ServerName legit /\
      not_exhausted cooldown (w_tick w0) (w_tick w1) q).
    { intros q Hq. destruct (Hr q Hq) as (? & ? & ?). split_and!; [done..|].
      eapply not_exhausted_mono; [apply Hl|done]. }
    split_and!; [done|by eapply later_trans|]. destruct b; cbn; [done|].
    intros q [Hq | ->%list_elem_of_singleton]%elem_of_app; [by apply Hr'|].
    split_and!; [apply Hsub; by left|done|by apply Hb].
  - by intros res w' (_ & _ & ?).
Qed.
End Observe.

(** *** Who is fenced *)
(** The cooldown: 60 s unless the spec has one that parses. *)
Definition cooldown_of (ag : AvailabilityGroup) : Z :=
  match ag_FailoverCooldown (o_spec ag) with
  | None => 60 * Second
  | Some s => match ParseDuration s with Some d => d | None => 60 * Second end
  end.

(** In the run [L], which started in [w] and ends before the reading [e] of the
    clock, [rogue] may be fenced in favour of [legit]: both answered PRIMARY, the log position of
    [rogue] is not ahead, and on a tie [rogue] is not the recorded primary; the
    circuit breaker was not open for it. *)
Definition fenceable (ag : AvailabilityGroup) (w : World K D Conn) (e : nat) (L : Log)
    (rogue legit : AGReplicaSpec) : Prop :=
  rogue ∈ ag_Replicas (o_spec ag) /\ legit ∈ ag_Replicas (o_spec ag) /\
  rep_ServerName rogue <> rep_ServerName legit /\
  observed_role ag L (rep_ServerName rogue) "PRIMARY" /\ observed_role ag L (rep_ServerName legit) "PRIMARY" /\
  (exists n m, observed_lsn ag w L (rep_ServerName rogue) n /\ observed_lsn ag w L (rep_ServerName legit) m /\
     n <= m /\ (n = m -> rep_ServerName rogue <> ag_PrimaryReplica (ag_status ag))) /\
  not_exhausted ag (cooldown_of ag) (w_tick w) e rogue.

(** Fencing applies at the start [w] of a run: a primary is recorded, the cluster
    type is None or absent, and no AGFailover of the group is in progress. *)
Definition fencing_applies (ag : AvailabilityGroup) (w : World K D Conn) : Prop :=
  ag_PrimaryReplica (ag_status ag) <> "" /\
  (ag_ClusterType (o_spec ag) = None \/ ag_ClusterType (o_spec ag) = Some "None") /\
  ~ failover_in_progress ag (kube_List KAGFailover (Some (Namespace (o_meta ag))) ∅ (w_kube w)).1.

(** A demotion or a drop is of a fenceable replica, on a connection to its server;
    it is a drop exactly when that replica was also fenced last, within the
    cooldown. *)
Definition fence_justified (ag : AvailabilityGroup) (w : World K D Conn) (e : nat) (L : Log) (a : Action Conn) : Prop :=
  match a with
  | ASql c m args => m ∈ ["SetAGRoleSecondary"; "DropAG"] ->
      fencing_applies ag w /\ args = [ag_AGName (o_spec ag)] /\
      exists rogue legit, fenceable ag w e L rogue legit /\ connected factory (rep_Server rogue) c /\
        (m = "DropAG" -> fenced_lately ag (cooldown_of ag) (w_tick w) e rogue) /\
        (m = "SetAGRoleSecondary" -> not_lately ag (cooldown_of ag) (w_tick w) e rogue)
  | _ => True
  end.

(** The status written after fencing: the legitimate primary and the last replica
    fenced are recorded, the fencing counted, Ready is not True. *)
Definition fencing_status (rogue legit : string) (now : Z) (s s' : AvailabilityGroupStatus) : Prop :=
  ag_PrimaryReplica s' = legit /\ ag_LastFencedReplica s' = rogue /\ ag_LastFencingTime s' = Some now /\
  ag_FencingCount s' = int32 (ag_FencingCount s + 1) /\
  (ag_LastFencedReplica s = rogue -> ag_ConsecutiveFencingCount s' = int32 (ag_ConsecutiveFencingCount s + 1)) /\
  (ag_LastFencedReplica s <> rogue -> ag_ConsecutiveFencingCount s' = 1).
Definition fencing_recorded (ag : AvailabilityGroup) (w w' : World K D Conn) : Prop :=
  exists d updated rogue legit i, (AStatusPatch KAvailabilityGroup ag updated, d) ∈ since w (w_log w') /\
    fenceable ag w (w_tick w') (since w (w_log w')) rogue legit /\ (w_tick w <= i < w_tick w')%nat /\
    fencing_status (rep_ServerName rogue) (rep_ServerName legit) (clock i) (ag_status ag) (ag_status updated) /\
    ~ is_ready (Conditions (o_status updated)).

(** [later] composes. *)
Ltac late := solve [cbn beta in *; eauto 6 using later_trans].

Section Fence.
Context (ag : AvailabilityGroup) (w0 : World K D Conn).
Implicit Types (w : World K D Conn).
Abbreviation cooldown := (cooldown_of ag).
Abbreviation log w := (since w0 (w_log w)).
Abbreviation fenceable_in w := (fenceable ag w0 (w_tick w) (since w0 (w_log w))).
Abbreviation J := (fun e L => (fun a (_ : D) => fence_justified ag w0 e (since w0 L) a)).
Abbreviation E := (fun (_ : bool * AvailabilityGroup) (_ : World K D Conn) => False).

(** Everything but a demotion and a drop. *)
Definition no_fence (a : Action Conn) (_ : D) : Prop :=
  match a with ASql _ m _ => m ∉ ["SetAGRoleSecondary"; "DropAG"] | _ => True end.
Lemma no_fence_justified e L a d : no_fence a d -> fence_justified ag w0 e L a.
Proof. by destruct a. Qed.
Lemma quiet_no_fence a d : quiet a -> no_fence a d.
Proof.
  destruct a as [| | | | | |c m args| |]; try done. cbn. unfold no_fence.
  intros Hq [->|[->|[]%elem_of_nil]%elem_of_cons]%elem_of_cons;
    pose proof (bool_decide_eq_true_2 _ Hq) as Hb; by vm_compute in Hb.
Qed.
Ltac permit ::= solve [ done | by apply quiet_no_fence, quiet_sql ].

Lemma fenceable_mono w w' rogue legit :
  later w0 w -> later w w' -> fenceable_in w rogue legit -> fenceable_in w' rogue legit.
Proof.
  intros Hw Hl (? & ? & ? & Hr & Hr' & (n & m & Hn & Hm & Hle) & He). split_and!; try done.
  - by apply (observed_role_mono _ _ w).
  - by apply (observed_role_mono _ _ w).
  - exists n, m. split_and!; [by apply (observed_lsn_mono _ _ w)..|apply Hle|apply Hle].
  - eapply not_exhausted_mono; [apply Hl|done].
Qed.

Lemma fenceable_until e e' L rogue legit :
  (e <= e')%nat -> fenceable ag w0 e L rogue legit -> fenceable ag w0 e' L rogue legit.
Proof. intros He (? & ? & ? & ? & ? & ? & ?). split_and!; try done. by eapply not_exhausted_mono. Qed.

(** A part of the run that fences nothing, and where it leaves [w0]. *)
Lemma does_nothing {R A} (m : Go (World K D Conn) R A) F (E' : R -> World K D Conn -> Prop) w :
  later w0 w -> does no_fence m F E' w ->
  does_h J m (fun a w' => F a w' /\ later w w' /\ later w0 w') (fun r w' => E' r w') w.
Proof.
  intros Hw Hd. eapply does_h_post; [apply (does_h_of J no_fence); [exact Hd|]| |by intros ? ? [? _]].
  - intros. by eapply no_fence_justified.
  - intros a w' [Ha Hl]. split_and!; [done|done|late].
Qed.

Lemma setPodRoleLabel_spec {R} ns pod role (E' : R -> World K D Conn -> Prop) w :
  does no_fence (setPodRoleLabel ns pod role) (fun _ _ => True) E' w.
Proof. unfold setPodRoleLabel. by does_all. Qed.

(** What decided between a drop and a demotion. *)
Definition decided (hard : bool) w rogue : Prop :=
  if hard then fenced_lately ag cooldown (w_tick w0) (w_tick w) rogue
  else not_lately ag cooldown (w_tick w0) (w_tick w) rogue.
Lemma decided_mono hard w w' rogue : later w w' -> decided hard w rogue -> decided hard w' rogue.
Proof. intros [_ Ht]. destruct hard; [by apply fenced_lately_mono|by apply not_lately_mono]. Qed.
Lemma fence_allowed rogue legit c (hard : bool) w e d :
  fencing_applies ag w0 -> fenceable_in w rogue legit -> connected factory (rep_Server rogue) c ->
  decided hard w rogue -> (w_tick w <= e)%nat ->
  J e (w_log w) (ASql c (if hard then "DropAG" else "SetAGRoleSecondary") [ag_AGName (o_spec ag)]) d.
Proof.
  intros Happ Hf Hc Hh He _. split_and!; [done|done|]. exists rogue, legit.
  split_and!; [by eapply fenceable_until|done|..]; destruct hard; try done; intros _.
  - by eapply fenced_lately_mono.
  - by eapply not_lately_mono.
Qed.

Lemma fenceReplica_justified rogue legit hard w :
  later w0 w -> fencing_applies ag w0 -> fenceable_in w rogue legit ->
  decided hard w rogue ->
  does_h J (fenceReplica ag rogue hard) (fun _ _ => False) (fun _ w' => later w w') w.
Proof.
  intros Hw Happ Hf Hh. unfold fenceReplica. cbv zeta. apply does_h_bind.
  eapply does_h_post; [eapply (does_nothing _ (fun _ _ => True) (fun _ _ => False)); [done|]| |done].
  { unfold replica_credentials. by does_all. }
  intros [[u p]|err] w1 (_ & Hl1 & Hw1); [|by apply does_h_return].
  apply does_h_bind.
  eapply does_h_post; [eapply (does_nothing _ (fun r _ => forall c, r = inl c -> connected factory (rep_Server rogue) c)
    (fun _ _ => False)); [done|]| |done].
  { apply does_connectToSQL; [done|]. intros c d' Hc. split; [done|]. by intros ? [= <-]. }
  intros [c|err] w2 (Hc & Hl2 & Hw2); [|apply does_h_return; late].
  specialize (Hc c eq_refl). assert (Hl : later w w2) by late.
  apply (does_h_defer no_fence).
  { runs_auto. }
  { intros. by eapply no_fence_justified. }
  assert (Hf2 : fenceable_in w2 rogue legit) by (eauto using fenceable_mono).
  apply does_h_bind.
  eapply (does_h_post _ _ (fun _ w3 => later w w3 /\ later w0 w3) _ (fun _ _ => False)); [| |done].
  - assert (Hthen : forall (evt reason msg : string) (err : option error) w3, later w2 w3 ->
      does_h J (when (bool_decide (err = None)) (Event evt reason msg) ;; mret err)
        (fun _ w4 => later w w4 /\ later w0 w4) (fun (_ : option error) _ => False) w3).
    { intros evt reason msg err w3 Hl3. assert (later w0 w3) by late.
      eapply does_h_post; [eapply (does_nothing _ (fun _ _ => True) (fun _ _ => False)); [done|by does_all]| |done].
      intros err' w4 (_ & Hl4 & Hw4). split; [|done]. late. }
    assert (Hok : forall n, (w_tick w2 <= n)%nat -> J n (w_log w2)
      (ASql c (if hard then "DropAG" else "SetAGRoleSecondary") [ag_AGName (o_spec ag)]) (w_sql w2))
      by (intros n Hn; exact (fence_allowed rogue legit c hard w2 n (w_sql w2) Happ Hf2 Hc (decided_mono _ _ _ _ Hl Hh) Hn)).
    destruct hard; apply does_h_bind; (apply does_h_sql; [exact Hok|]); intros err w3 Hl3; by apply Hthen.
  - intros err w3 [Hl3 Hw3].
    eapply does_h_post; [eapply (does_nothing _ (fun _ _ => False) (fun _ w4 => later w3 w4)); [done|]|by intros ? ? [[] _]|].
    + do 2 does_step. apply does_return. split; [by eexists|done].
    + intros r w4 Hl4 w5 Hl5. late.
Qed.

Lemma fence_rogue_justified rogue legit w :
  later w0 w -> fencing_applies ag w0 -> fenceable_in w rogue legit ->
  does_h J (fence_rogue ag cooldown rogue) (fun _ w' => later w w') E w.
Proof.
  intros Hw Happ Hf. unfold fence_rogue. cbv zeta. apply does_h_bind.
  eapply does_h_post; [eapply (does_nothing _ (fun _ _ => True) (fun _ _ => False)); [done|apply setPodRoleLabel_spec]| |done].
  intros [] w1 (_ & Hl1 & Hw1). apply does_h_bind.
  eapply does_h_post; [eapply (does_nothing _ _ _ _ Hw1 (fenced_lately_spec ag no_fence w0 cooldown rogue (fun _ _ => False) w1 Hw1))| |done].
  intros hard w2 (Hh & Hl2 & Hw2). apply does_h_bind, does_h_fn.
  assert (Hl : later w w2) by late.
  eapply does_h_post; [eapply (fenceReplica_justified rogue legit hard w2); try done; eauto using fenceable_mono|done|].
  intros err w3 Hl3. assert (Hw3 : later w0 w3) by late.
  eapply does_h_post; [eapply (does_nothing _ (fun _ _ => True) (fun _ _ => False)); [done|by does_all]| |done].
  intros [] w4 (_ & Hl4 & _). late.
Qed.

Lemma fence_all_justified legit rogues w :
  later w0 w -> fencing_applies ag w0 -> (forall p, p ∈ rogues -> fenceable_in w p legit) ->
  does_h J (for_each rogues (fence_rogue ag cooldown)) (fun _ w' => later w w') E w.
Proof.
  intros Hw Happ Hr. apply (does_h_for_each _ (fun rest w' => later w w' /\ rest ⊆ rogues));
    [by split; [apply later_refl|]| |by intros w' []].
  intros p rest w' [Hl Hsub]. assert (Hw' : later w0 w') by late.
  eapply does_h_post; [apply (fence_rogue_justified p legit); [done|done|]| |done].
  - apply (fenceable_mono w); [done..|]. apply Hr, Hsub. by left.
  - intros [] w1 Hl1. split; [late|]. intros x Hx. apply Hsub. by right.
Qed.

Context `{!KubeUtilLaws}.
Lemma patch_fenced_spec rogue legit w :
  later w0 w -> fenceable_in w rogue legit ->
  does no_fence (patch_fenced ag legit rogue) (fun _ w' => fencing_recorded ag w0 w') E w.
Proof.
  intros Hw Hf. unfold patch_fenced, patch_status_ignored, fencing_recorded.
  assert (Hlog : forall L e, L = w_log w ++ drop (length (w_log w)) L -> (w_tick w <= e)%nat ->
    fenceable ag w0 e (since w0 L) rogue legit).
  { intros L e HL He. apply (fenceable_mono w (mkWorld (w_kube w) (w_sql w) L e) rogue legit Hw); [|done].
    split; [by eexists|done]. }
  does_all.
  all: exists (w_sql w); eexists _, rogue, legit, (w_tick w); cbn [w_log w_tick log_world];
    split_and!; [eapply since_tail; [exact Hw|done|by left]| |by destruct Hw|..].
  all: try (apply Hlog; [by rewrite drop_app_length|lia]).
  all: try lia.
  all: try by intros Hr%is_ready_with_condition.
  all: unfold fencing_status; cbn; split_and!; try done.
  all: unfold ag_status; by destruct (String.eqb_spec (ag_LastFencedReplica (extra (o_status ag))) (rep_ServerName rogue)).
Qed.

Lemma resolve_spec p0 rest w :
  seen w0 w -> fencing_applies ag w0 ->
  (forall p, p ∈ p0 :: rest -> p ∈ ag_Replicas (o_spec ag) /\ observed_role ag (log w) (rep_ServerName p) "PRIMARY") ->
  does_h J (resolve ag p0 rest) (fun _ _ => False) (fun r w' => r.1 = true -> fencing_recorded ag w0 w') w.
Proof.
  intros Hseen Happ Hprim. pose proof (proj1 Hseen) as Hw. unfold resolve. cbv zeta.
  change (duration_or (ag_FailoverCooldown (o_spec ag)) (60 * Second)) with (cooldown_of ag). apply does_h_bind.
  eapply does_h_post; [eapply (does_nothing _ _ (fun _ _ => False) _ Hw);
    apply (collectReplicaLSNs_spec ag no_fence quiet_no_fence w0); [intros p Hp; by apply Hprim|done]| |done].
  intros lsns w1 (Hlsns & Hl1 & Hw1). set (legit := choose_legitimate _ _ _ _).
  destruct (choose_legitimate_spec (ag_PrimaryReplica (ag_status ag)) lsns p0 rest) as [Hlin Hmax].
  fold legit in Hlin, Hmax. apply does_h_bind.
  eapply does_h_post; [eapply (does_nothing _ _ (fun _ _ => False) _ Hw1);
    apply (build_rogues_spec ag no_fence w0 cooldown legit (p0 :: rest)); done| |done].
  intros [rogues allEx] w2 (Hr & Hl2 & Hw2). cbn in Hr.
  assert (Hl : later w w2) by late.
  assert (Hf : forall p, p ∈ rogues -> fenceable_in w2 p legit).
  { intros p Hp. destruct (Hr p Hp) as (Hin & Hne & Hex). destruct (Hmax p Hin) as [Hle Htie].
    split_and!; [by apply Hprim..|done| | | |exact Hex].
    1,2: apply (observed_role_mono _ _ w); [done..|]; by apply Hprim.
    exists (lsn_of lsns p), (lsn_of lsns legit).
    split_and!; [apply (observed_lsn_mono _ _ w1); [done..|]; by apply Hlsns | apply (observed_lsn_mono _ _ w1); [done..|]; by apply Hlsns|done|].
    intros Heq Hsp. apply Hne. rewrite Hsp. symmetry. by apply Htie. }
  destruct rogues as [|r0 rogues'].
  - eapply does_h_post; [eapply (does_nothing _ (fun _ _ => False) (fun r _ => r.1 = true -> False) _ Hw2)|by intros ? ? [[] _]|by intros ? ? Hx ?%Hx].
    unfold alert_exhausted, patch_status_ignored. by does_all.
  - apply does_h_bind.
    eapply does_h_post; [eapply (does_nothing _ (fun _ _ => True) (fun _ _ => False) _ Hw2); by does_all| |done].
    intros [] w3 (_ & Hl3 & Hw3). apply does_h_bind.
    eapply does_h_post; [apply (fence_all_justified legit); [done|done|]| |done].
    { intros p Hp. apply (fenceable_mono w2); [done..|]. by apply Hf. }
    intros [] w4 Hl4. assert (Hw4 : later w0 w4) by late. apply does_h_bind.
    assert (Hlast : List.last (r0 :: rogues') r0 ∈ r0 :: rogues').
    { apply list_elem_of_In. destruct (exists_last (l := r0 :: rogues') ltac:(done)) as (l & x & Hlx).
      rewrite Hlx, List.last_last. apply in_or_app. right. by left. }
    eapply does_h_post; [eapply (does_nothing _ _ (fun _ _ => False) _ Hw4),
      (patch_fenced_spec (List.last (r0 :: rogues') r0) legit w4 Hw4)| |done].
    { apply (fenceable_mono w2); [done|late|]. by apply Hf. }
    intros ag' w5 (Hrec & _). by apply does_h_return.
Qed.
End Fence.

Lemma detect_justified `{!KubeUtilLaws} ag w :
  does_h (fun e L a _ => fence_justified ag w e (since w L) a) (detectAndResolveSplitBrain ag)
    (fun _ _ => False) (fun r w' => r.1 = true -> fencing_recorded ag w w') w.
Proof.
  pose proof (later_refl w) as Hw.
  assert (Hnot : forall w1 (ag' : AvailabilityGroup), later w w1 ->
    does_h (fun e L a _ => fence_justified ag w e (since w L) a)
    (return_ (false, ag')) (fun (_ : bool * AvailabilityGroup) _ => False)
    (fun (r : bool * AvailabilityGroup) w' => r.1 = true -> fencing_recorded ag w w') w1) by (intros; by apply does_h_return).
  unfold detectAndResolveSplitBrain.
  destruct (String.eqb_spec (ag_PrimaryReplica (ag_status ag)) "") as [|Hp]; [by apply Hnot|].
  destruct (match ag_ClusterType (o_spec ag) with Some ct => negb (String.eqb ct "None") | None => false end)
    eqn:Hct; [by apply Hnot|].
  assert (Hctype : ag_ClusterType (o_spec ag) = None \/ ag_ClusterType (o_spec ag) = Some "None").
  { destruct (ag_ClusterType (o_spec ag)) as [ct|]; [right|by left].
    by apply negb_false_iff, String.eqb_eq in Hct as ->. }
  apply does_h_bind.
  eapply does_h_post; [eapply (does_nothing ag w _ _ _ _ Hw), (does_seen _ _ _ (fun _ _ => False)),
    (failover_running_spec ag); apply asking_running| |by intros ? ? []].
  intros [] w1 ((Hrun & Hs1) & Hl1 & _); [by apply Hnot|].
  assert (Happ : fencing_applies ag w) by (split_and!; [done|done|by apply Hrun]).
  apply does_h_bind.
  eapply does_h_post; [eapply (does_nothing ag w _ _ _ _ Hl1), (does_seen _ _ _ (fun _ _ => False));
    [apply asking_roles|by apply (collectReplicaRoles_spec ag no_fence quiet_no_fence w)]| |by intros ? ? []].
  intros roles w2 ((Hroles & Hs2) & Hl2 & Hw2). pose proof (seen_trans _ _ _ Hs1 Hs2) as Hseen. cbv zeta. set (primaries := filter _ _).
  assert (Hprim : forall p, p ∈ primaries ->
    p ∈ ag_Replicas (o_spec ag) /\ observed_role ag (since w (w_log w2)) (rep_ServerName p) "PRIMARY").
  { intros p [Hl Hin]%list_elem_of_filter. split; [done|]. by apply Hroles. }
  destruct primaries as [|p [|p' rest]]; [by apply Hnot| |by apply resolve_spec].
  unfold single_primary. destruct (String.eqb _ _); [by apply Hnot|]. cbv zeta.
  eapply does_h_post; [eapply (does_nothing ag w _ (fun _ _ => False) (fun r _ => r.1 = true -> False) _ Hw2)|by intros ? ? [[] _]|by intros ? ? Hx ?%Hx].
  does_step. unfold updateReplicaRoleLabelsFromAG. apply (does_for_each (fun _ _ => True)); [done| |].
  - intros x xs w3 _. apply setPodRoleLabel_spec.
  - intros w3 _. by does_all.
Qed.

(** C1: the split-brain step always returns. It demotes or drops a replica only
    when a primary is recorded, the cluster type is None or absent and the
    AGFailovers listed at the start have none of the group in progress; on a
    connection to a replica of the spec that answered PRIMARY in this run,
    as did the other one it is fenced for, whose log position is not ahead
    of that of the other and, on a tie, is not the recorded primary
    (replicas are told apart by server name; a position is what the replica
    answered in this run, or 0 when the query failed or when, in a state the
    run can have reached by reads, connections and questions only, its
    Secret could not be read or lacks a key or the server refused the
    connection); and when its circuit breaker was not open: it was fenced
    fewer than five times in a row, or was not the last one fenced, or the
    cooldown since was over at a reading of the clock the run made. It drops
    only when the replica was the last one fenced, within the cooldown at a
    reading of the clock the run made, and demotes only when it was not or
    the cooldown was over at such a reading. And when the step reports
    having fenced, it has written in this run a status with the legitimate
    primary, the fenced replica, a time read in this run, the updated
    counters and Ready not True. *)
Theorem fencing_justified `{!KubeUtilLaws} ag w :
  performs_after (fun e L a _ => fence_justified ag w e L a) (detectAndResolveSplitBrain ag) w /\
  ends (detectAndResolveSplitBrain ag) (fun r w' => r.1 = true -> fencing_recorded ag w w') w.
Proof.
  pose proof (detect_justified ag w) as Hd. split.
  - apply performs_after_intro. by eapply does_h_post; [exact Hd| |].
  - eapply ends_intro. by apply does_forget.
Qed.

(** *** The circuit breaker *)
(** The status after fencing [rogue] at each of [times]. *)
Definition fenced_at (legit rogue : string) (times : list Z) (s : AvailabilityGroupStatus)
    : AvailabilityGroupStatus := foldl (fun s now => record_fencing legit rogue now s) s times.

Lemma fenced_at_count legit rogue times s :
  0 <= ag_ConsecutiveFencingCount s -> ag_ConsecutiveFencingCount s + Z.of_nat (length times) < 2 ^ 31 ->
  ag_LastFencedReplica s = rogue ->
  ag_ConsecutiveFencingCount (fenced_at legit rogue times s) =
    ag_ConsecutiveFencingCount s + Z.of_nat (length times) /\
  ag_LastFencedReplica (fenced_at legit rogue times s) = rogue.
Proof.
  revert s. induction times as [|t times IH]; intros s Hc0 Hc Hl; cbn [length] in *; [cbn; split; [lia|done]|].
  change (fenced_at legit rogue (t :: times) s) with (fenced_at legit rogue times (record_fencing legit rogue t s)).
  assert (Hstep : ag_ConsecutiveFencingCount (record_fencing legit rogue t s) = ag_ConsecutiveFencingCount s + 1).
  { unfold record_fencing. cbn. rewrite Hl, String.eqb_refl. apply int32_id. lia. }
  destruct (IH (record_fencing legit rogue t s)) as [Hn Hr]; [rewrite Hstep; lia..|done|]. split; [|done].
  rewrite Hn, Hstep. lia.
Qed.

(** The circuit breaker is open for [p] at the time [now]. *)
Definition exhausted_at (ag : AvailabilityGroup) (cooldown now : Z) (p : AGReplicaSpec) : Prop :=
  ag_LastFencedReplica (ag_status ag) = rep_ServerName p /\
  (exists t, ag_LastFencingTime (ag_status ag) = Some t /\ time_sub now t < cooldown) /\
  5 <= ag_ConsecutiveFencingCount (ag_status ag).

(** After the same replica has been fenced five times in a row, whatever the
    count before, the circuit breaker is open for it as long as the last
    fencing is within the cooldown. *)
Theorem circuit_breaker_opens ag legit p t1 t2 t3 t4 t5 cooldown now :
  0 <= ag_ConsecutiveFencingCount (ag_status ag) < 2 ^ 31 - 5 ->
  time_sub now t5 < cooldown ->
  exhausted_at (with_ag_status (fenced_at legit (rep_ServerName p) [t1; t2; t3; t4; t5]) ag) cooldown now p.
Proof.
  intros Hc Hnow. set (rogue := rep_ServerName p). set (s := ag_status ag) in Hc.
  set (s1 := record_fencing legit rogue t1 s).
  assert (Hs1 : 1 <= ag_ConsecutiveFencingCount s1 < 2 ^ 31 - 4).
  { unfold s1, record_fencing. cbn. destruct (String.eqb _ _); [|lia]. rewrite int32_id; lia. }
  destruct (fenced_at_count legit rogue [t2; t3; t4; t5] s1) as [Hn Hr]; [lia|cbn [length]; lia|done|].
  unfold exhausted_at. fold rogue.
  change (ag_status (with_ag_status (fenced_at legit rogue [t1; t2; t3; t4; t5]) ag))
    with (fenced_at legit rogue [t2; t3; t4; t5] s1).
  split_and!; [done|by exists t5|rewrite Hn; cbn [length]; lia].
Qed.
End Fencing.
End Fencing.
