(* ===== verification/AvailabilityGroup.v ===== *)
(** * The AvailabilityGroup controller (internal/controller/availabilitygroup_controller.go)

    Connects to the known primary (failing over to a reachable secondary when it
    is down and auto-failover is on), resolves split brains (AgFencing.v),
    creates the group and joins the secondaries, reconciles its databases and
    listener, and reports what the primary says of the replicas. Failovers of one
    group are serialised between operator instances by a Lease. *)
From S2P Require Import Prelude Types SqlClient Kube Helpers SetReconcile History AgFencing.

(** ** The mappings from the spec to SQL keywords *)
Definition mapAvailabilityMode (mode : string) : string :=
  if String.eqb mode AvailabilityModeAsynchronous then "ASYNCHRONOUS_COMMIT" else "SYNCHRONOUS_COMMIT".
Definition mapFailoverMode (mode : string) : string :=
  if String.eqb mode FailoverModeManual then "MANUAL" else "AUTOMATIC".
Definition mapSeedingMode (mode : string) : string :=
  if String.eqb mode SeedingModeManual then "MANUAL" else "AUTOMATIC".
Definition mapSecondaryRole (role : string) : string :=
  if String.eqb role SecondaryRoleAllowAll then "ALL"
  else if String.eqb role SecondaryRoleReadIntentOnly then "READ_ONLY" else "NO".
Definition mapBackupPreference (pref : string) : string :=
  if String.eqb pref "Primary" then "PRIMARY"
  else if String.eqb pref "SecondaryOnly" then "SECONDARY_ONLY"
  else if String.eqb pref "None" then "NONE" else "SECONDARY".

Definition replica_config (r : AGReplicaSpec) : AGReplicaConfig :=
  mkAGReplicaConfig (rep_ServerName r) (rep_EndpointURL r) (mapAvailabilityMode (rep_AvailabilityMode r))
    (mapFailoverMode (rep_FailoverMode r)) (mapSeedingMode (rep_SeedingMode r))
    (mapSecondaryRole (rep_SecondaryRole r)).
(** The zero value of [config.ClusterType] is the empty string. *)
Definition ag_config (sp : AvailabilityGroupSpec) : AGConfig :=
  mkAGConfig (ag_AGName sp) (replica_config <$> ag_Replicas sp) (agdb_Name <$> ag_Databases sp)
    (match ag_AutomatedBackupPreference sp with Some p => mapBackupPreference p | None => "SECONDARY" end)
    (default true (ag_DBFailover sp))
    (match ag_ClusterType sp with Some ct => mapClusterType ct | None => "" end).
Definition listener_config (l : AGListenerSpec) : AGListenerConfig :=
  mkAGListenerConfig (lis_Name l) (default 1433 (lis_Port l))
    ((fun ip => mkAGListenerIPConfig (lip_IP ip) (lip_SubnetMask ip)) <$> lis_IPAddresses l).

(** The replica of the recorded primary, else the first. *)
Definition known_primary (ag : AvailabilityGroup) (r0 : AGReplicaSpec) : AGReplicaSpec :=
  let primary := ag_PrimaryReplica (ag_status ag) in
  if String.eqb primary "" then r0
  else default r0 (List.find (fun r => String.eqb (rep_ServerName r) primary) (ag_Replicas (o_spec ag))).

Definition synchronized (state : string) : bool :=
  String.eqb state "SYNCHRONIZED" || String.eqb state "SYNCHRONIZING".
Definition replica_healthy (rs : AGReplicaState) : bool :=
  ars_Connected rs && synchronized (ars_SynchronizationState rs).

(** The status [updateAGStatus] records. *)
Definition observe_status (st : AGStatus) (s : AvailabilityGroupStatus) : AvailabilityGroupStatus :=
  mkAvailabilityGroupStatus (ags_PrimaryReplica st)
    ((fun rs => mkAGReplicaStatus (ars_ServerName rs) (ars_Role rs) (ars_SynchronizationState rs)
                  (ars_Connected rs)) <$> ags_Replicas st)
    ((fun ds => mkAGDatabaseStatus (ads_Name ds) (ads_SynchronizationState ds) (ads_Joined ds))
       <$> ags_Databases st)
    (ag_LastAutoFailoverTime s) (ag_AutoFailoverCount s) (ag_LastFencingTime s) (ag_FencingCount s)
    (ag_ConsecutiveFencingCount s) (ag_LastFencedReplica s).
(** The status after an automatic failover to [target] at [now]. *)
Definition record_failover (target : string) (now : Z) (s : AvailabilityGroupStatus)
    : AvailabilityGroupStatus :=
  mkAvailabilityGroupStatus target (ag_ReplicaStates s) (ag_DatabaseStates s) (Some now)
    (int32 (ag_AutoFailoverCount s + 1)) (ag_LastFencingTime s) (ag_FencingCount s)
    (ag_ConsecutiveFencingCount s) (ag_LastFencedReplica s).

Definition auto_failover_enabled (ag : AvailabilityGroup) : bool := default false (ag_AutoFailover (o_spec ag)).
Definition requeue_interval `{GoEnv} (ag : AvailabilityGroup) : Z :=
  if auto_failover_enabled ag then duration_or (ag_HealthCheckInterval (o_spec ag)) (10 * Second)
  else requeueInterval.

Module AG.
Section Controller.
Context `{GoEnv} {K D Conn : Type} `{KubeClient K} `{SQLClient Conn D} `{KubeUtil}.
(** [r.SQLClientFactory], and the identity of this process for the Lease. *)
Variable factory : ClientFactory Conn D.
Variable holder : string.
Abbreviation M A := (Go (World K D Conn) ReconcileResult A).

Definition setConditionAndReturn (ag : AvailabilityGroup) (status reason message : string) : M ReconcileResult :=
  try_write (StatusPatch KAvailabilityGroup ag (with_ready status reason message ag)) ;;
  return_ (Result0, None).

(** [updateAGStatus]: the object as modified in memory, and the error. *)
Definition updateAGStatus (ag : AvailabilityGroup) (st : AGStatus) : M (AvailabilityGroup * option error) :=
  for_each (ags_Replicas st) (fun rs =>
    Metric "AGReplicaLag" [ag_AGName (o_spec ag); Namespace (o_meta ag); ars_ServerName rs; ars_Role rs]
      (SetTo (if synchronized (ars_SynchronizationState rs) then 1 else 0))) ;;
  let ag' := with_observed_generation (with_ag_status (observe_status st) ag) in
  let updated :=
    if forallb replica_healthy (ags_Replicas st) then
      with_ready_condition ConditionTrue ReasonReady
        (Sprintf "AG %s is healthy with primary %s" [ag_AGName (o_spec ag); ags_PrimaryReplica st]) ag'
    else
      with_ready_condition ConditionFalse "ReplicaNotHealthy"
        (Sprintf "AG %s has unhealthy replicas" [ag_AGName (o_spec ag)]) ag' in
  r ← StatusPatch KAvailabilityGroup ag updated;
  mret (match r with inl ag'' => (ag'', None) | inr err => (updated, Some err) end).

Definition createAG (ag : AvailabilityGroup) (c : Conn) : M (option error) :=
  sql c "CreateAG" [ag_AGName (o_spec ag)] (CreateAG (ag_config (o_spec ag))).

(** One round of [joinSecondaries]; the connection is closed on every way out. *)
Definition join_secondary (ag : AvailabilityGroup) (replica : AGReplicaSpec)
    : Go (World K D Conn) (option error) unit :=
  let agName := ag_AGName (o_spec ag) in
  let name := rep_ServerName replica in
  let close_and_fail c (msg : string) e :=
    sql c "Close" [] Close ;; return_ (Some (ErrWrap (Sprintf msg [name]) e)) in
  r ← Fencing.replica_credentials ag replica;
  match r with
  | inr err => return_ (Some (ErrWrap (Sprintf "failed to get credentials for replica %s" [name]) err))
  | inl (username, password) =>
  r ← connectToSQL (rep_Server replica) username password factory;
  match r with
  | inr err => return_ (Some (ErrWrap (Sprintf "failed to connect to replica %s" [name]) err))
  | inl c =>
      ' (endpointExists, err) ← sql c "HADREndpointExists" [] HADREndpointExists;
      on_err err (close_and_fail c "failed to check HADR endpoint on %s") ;;
      when (negb endpointExists) (
        err ← sql c "CreateHADREndpoint" [fmt_d 5022] (CreateHADREndpoint 5022);
        on_err err (close_and_fail c "failed to create HADR endpoint on %s")) ;;
      let clusterType := match ag_ClusterType (o_spec ag) with
                         | Some ct => mapClusterType ct | None => "EXTERNAL" end in
      err ← sql c "JoinAG" [agName; clusterType] (JoinAG agName clusterType);
      on_err err (close_and_fail c "failed to join AG on replica %s") ;;
      when (String.eqb (rep_SeedingMode replica) SeedingModeAutomatic) (
        err ← sql c "GrantAGCreateDatabase" [agName] (GrantAGCreateDatabase agName);
        on_err err (close_and_fail c "failed to grant create database on replica %s")) ;;
      sql c "Close" [] Close ;;
      Event EventTypeNormal "ReplicaJoined" (Sprintf "Replica %s joined AG %s" [name; agName])
  end end.

(** All replicas but the first. *)
Definition joinSecondaries (ag : AvailabilityGroup) : Go (World K D Conn) (option error) (option error) :=
  for_each (tail (ag_Replicas (o_spec ag))) (join_secondary ag) ;;
  return_ None.

Definition database_calls (agName : string) (c : Conn) : SetCalls (K := K) (D := D) (Conn := Conn) := {|
  get_items := ' (st, err) ← sql c "GetAGStatus" [agName] (GetAGStatus agName);
               mret (ads_Name <$> ags_Databases st, err);
  add_item db := sql c "AddDatabaseToAG" [agName; db] (AddDatabaseToAG agName db);
  remove_item db := sql c "RemoveDatabaseFromAG" [agName; db] (RemoveDatabaseFromAG agName db);
  get_failed e := e;
  add_failed db := ErrWrap (Sprintf "failed to add database %s to AG" [db]);
  remove_failed db := ErrWrap (Sprintf "failed to remove database %s from AG" [db]);
  added db := Event EventTypeNormal "DatabaseAddedToAG" (Sprintf "Database %s added to AG %s" [db; agName]);
  removed db := Event EventTypeNormal "DatabaseRemovedFromAG"
                  (Sprintf "Database %s removed from AG %s" [db; agName])
|}.

Definition reconcileDatabases (ag : AvailabilityGroup) (c : Conn)
    : Go (World K D Conn) (option error) (option error) :=
  reconcile_set (database_calls (ag_AGName (o_spec ag)) c) (agdb_Name <$> ag_Databases (o_spec ag)).

(** A failed add is taken for a listener that is already there. *)
Definition reconcileListener (ag : AvailabilityGroup) (c : Conn) : M unit :=
  let agName := ag_AGName (o_spec ag) in
  if_some (ag_Listener (o_spec ag)) (fun l =>
    err ← sql c "AddListenerToAG" [agName; lis_Name l] (AddListenerToAG agName (listener_config l));
    match err with
    | Some _ => mret tt
    | None => Event EventTypeNormal "ListenerCreated"
                (Sprintf "Listener %s created for AG %s" [lis_Name l; agName])
    end).

(** ** The Lease *)
Definition leaseDuration : Z := 30.

Definition tryAcquireLease (namespace leaseName : string) : M bool :=
  now ← Now;
  r ← Get KLease (mkKey namespace leaseName);
  match r with
  | inr err =>
      if IsNotFound err then
        r ← Create KLease (mkObject (new_meta leaseName namespace ∅)
               (mkLeaseSpec (Some holder) (Some leaseDuration) (Some now) (Some now)) tt);
        mret (match r with inl _ => true | inr _ => false end)
      else mret false
  | inl lease =>
      let spec := o_spec lease in
      if bool_decide (HolderIdentity spec = Some holder) then
        r ← Patch KLease lease (mkObject (o_meta lease)
               (mkLeaseSpec (HolderIdentity spec) (LeaseDurationSeconds spec) (AcquireTime spec) (Some now)) tt);
        mret (match r with inl _ => true | inr _ => false end)
      else
        match RenewTime spec, LeaseDurationSeconds spec with
        | Some renew, Some seconds =>
            now' ← Now;
            if renew + seconds * Second <? now' then
              r ← Patch KLease lease (mkObject (o_meta lease)
                     (mkLeaseSpec (Some holder) (LeaseDurationSeconds spec) (Some now) (Some now)) tt);
              mret (match r with inl _ => true | inr _ => false end)
            else mret false
        | _, _ => mret false
        end
  end.

(** ** Automatic failover *)
(** The body of the loop over the candidates, once connected to [replica]. *)
Definition try_candidate (ag : AvailabilityGroup) (requeue : Z) (replica : AGReplicaSpec) (c : Conn) : M unit :=
  let agName := ag_AGName (o_spec ag) in
  let name := rep_ServerName replica in
  ' (role, err) ← sql c "GetAGReplicaRole" [agName; name] (GetAGReplicaRole agName name);
  match err with
  | Some _ => sql c "Close" [] Close ;; mret tt
  | None =>
      if String.eqb role "PRIMARY" then
        ' (st, err) ← sql c "GetAGStatus" [agName] (GetAGStatus agName);
        sql c "Close" [] Close ;;
        when (bool_decide (err = None)) (updateAGStatus ag st ;; mret tt) ;;
        d ← requeueWithJitter requeue;
        return_ (RequeueIn d, None)
      else
        failoverErr ← sql c "ForceFailoverAG" [agName] (ForceFailoverAG agName);
        sql c "Close" [] Close ;;
        match failoverErr with
        | Some err =>
            Event EventTypeWarning "AutoFailoverFailed"
              (Sprintf "Auto-failover to %s failed: %v" [name; err_text err])
        | None =>
            now ← Now;
            let updated := with_ready_condition ConditionFalse "AutoFailoverExecuted"
              (Sprintf "Auto-failover: new primary is %s" [name])
              (with_ag_status (record_failover name now) ag) in
            r ← StatusPatch KAvailabilityGroup ag updated;
            let ag' := match r with inl ag' => ag' | inr _ => updated end in
            Event EventTypeNormal "AutoFailoverCompleted"
              (Sprintf "AG %s auto-failover to %s completed" [ag_AGName (o_spec ag'); name]) ;;
            Fencing.updateReplicaRoleLabelsFromAG ag' name ;;
            Metric "ReconcileTotal" ["AvailabilityGroup"; "auto_failover"] Inc ;;
            return_ (RequeueIn (5 * Second), None)
        end
  end.

(** One candidate; [continue] when it cannot be reached. *)
Definition candidate (ag : AvailabilityGroup) (requeue : Z) (knownPrimary : string) (replica : AGReplicaSpec)
    : M unit :=
  if String.eqb (rep_ServerName replica) knownPrimary then mret tt
  else
    r ← Fencing.replica_credentials ag replica;
    match r with
    | inr _ => mret tt
    | inl (u, p) =>
        r ← connectToSQL (rep_Server replica) u p factory;
        match r with
        | inr _ => mret tt
        | inl c => try_candidate ag requeue replica c
        end
    end.

(** Still within the cooldown of the previous automatic failover? *)
Definition check_cooldown (ag : AvailabilityGroup) : M unit :=
  let cooldown := duration_or (ag_FailoverCooldown (o_spec ag)) (60 * Second) in
  if_some (ag_LastAutoFailoverTime (ag_status ag)) (fun last =>
    now ← Now;
    let elapsed := time_sub now last in
    when (elapsed <? cooldown) (return_ (RequeueIn (int64 (cooldown - elapsed)), None))).

Definition handleAutoFailover (ag : AvailabilityGroup) (requeue : Z) : M ReconcileResult :=
  check_cooldown ag ;;
  acquired ← tryAcquireLease (Namespace (o_meta ag)) (Sprintf "ag-failover-%s" [ag_AGName (o_spec ag)]);
  if negb acquired then return_ (RequeueIn (5 * Second), None)
  else
    knownPrimary ← (if String.eqb (ag_PrimaryReplica (ag_status ag)) "" then
                      match ag_Replicas (o_spec ag) with
                      | [] => panic "index out of range [0] with length 0"
                      | r0 :: _ => mret (rep_ServerName r0)
                      end
                    else mret (ag_PrimaryReplica (ag_status ag)));
    for_each (ag_Replicas (o_spec ag)) (candidate ag requeue knownPrimary) ;;
    Event EventTypeWarning "AutoFailoverNoCandidate"
      "Primary unreachable and no secondary available for failover" ;;
    return_ (Result0, Some (ErrString "no failover candidates available")).

(** What the callers do with the result: an error becomes a requeue. *)
Definition auto_failover (ag : AvailabilityGroup) (requeue : Z) : M ReconcileResult :=
  ' (result, err) ← fn (handleAutoFailover ag requeue);
  match err with
  | Some _ => d ← requeueWithJitter requeue; return_ (RequeueIn d, None)
  | None => return_ (result, None)
  end.

(** ** Reconcile *)
Definition ping_primary (ag : AvailabilityGroup) (requeue : Z) (c : Conn) : M unit :=
  when (auto_failover_enabled ag) (
    err ← sql c "Ping" [] Ping;
    on_err err (fun _ =>
      sql c "Close" [] Close ;;
      res ← fn (auto_failover ag requeue);
      return_ res)).

(** Step 4b; the result is the object as modified in memory. *)
Definition check_split_brain (ag : AvailabilityGroup) : M AvailabilityGroup :=
  let previousPrimary := ag_PrimaryReplica (ag_status ag) in
  if String.eqb previousPrimary "" then mret ag
  else
    ' (fenced, ag) ← fn (Fencing.detectAndResolveSplitBrain factory ag);
    if fenced : bool then return_ (RequeueIn (5 * Second), None)
    else if negb (String.eqb (ag_PrimaryReplica (ag_status ag)) previousPrimary)
    then return_ (RequeueIn (5 * Second), None)
    else mret ag.

Definition ensure_endpoint (c : Conn) : M unit :=
  endpointExists ← try_query (sql c "HADREndpointExists" [] HADREndpointExists) "failed to check HADR endpoint";
  when (negb endpointExists) (
    try_op (sql c "CreateHADREndpoint" [fmt_d 5022] (CreateHADREndpoint 5022)) "failed to create HADR endpoint" ;;
    Event EventTypeNormal "HADREndpointCreated" "HADR endpoint created on primary").

Definition ensure_ag (ag : AvailabilityGroup) (c : Conn) : M unit :=
  let agName := ag_AGName (o_spec ag) in
  agExists ← try_query (sql c "AGExists" [agName] (AGExists agName)) "failed to check AG existence";
  when (negb agExists) (
    try_op (createAG ag c) "failed to create availability group" ;;
    Event EventTypeNormal "AvailabilityGroupCreated" (Sprintf "Availability Group %s created" [agName]) ;;
    err ← fn (joinSecondaries ag);
    on_err err (fun e => Event EventTypeWarning "SecondaryJoinFailed" (err_text e))).

(** Secondaries the primary does not report as connected are asked to join again. *)
Definition rejoin_secondaries (ag : AvailabilityGroup) (st : AGStatus) : M unit :=
  let agStatusMap : gmap string AGReplicaState :=
    foldl (fun m rs => <[ars_ServerName rs := rs]> m) ∅ (ags_Replicas st) in
  for_each (ag_Replicas (o_spec ag)) (fun replica =>
    if String.eqb (rep_ServerName replica) (ags_PrimaryReplica st) then mret tt
    else
      match agStatusMap !! rep_ServerName replica with
      | Some rs => when (negb (ars_Connected rs)) (Fencing.tryRejoinReplica factory ag replica)
      | None => Fencing.tryRejoinReplica factory ag replica
      end).

(** Steps 4b to 9, once connected to the primary. *)
Definition reconcile_connected (ag : AvailabilityGroup) (requeue : Z) (c : Conn) : M ReconcileResult :=
  ping_primary ag requeue c ;;
  ag ← check_split_brain ag;
  let agName := ag_AGName (o_spec ag) in
  ensure_endpoint c ;;
  ensure_ag ag c ;;
  fn (reconcileDatabases ag c) ;;
  reconcileListener ag c ;;
  st ← try_query (sql c "GetAGStatus" [agName] (GetAGStatus agName)) "failed to get AG status";
  ' (ag, err) ← updateAGStatus ag st;
  on_err err (fun e => return_ (Result0, Some e)) ;;
  rejoin_secondaries ag st ;;
  when (negb (String.eqb (ags_PrimaryReplica st) ""))
    (Fencing.updateReplicaRoleLabelsFromAG ag (ags_PrimaryReplica st)) ;;
  Metric "ReconcileTotal" ["AvailabilityGroup"; "success"] Inc ;;
  d ← requeueWithJitter requeue;
  return_ (RequeueIn d, None).

(** Steps 3 and 4. *)
Definition reconcile_live (ag : AvailabilityGroup) : M ReconcileResult :=
  let requeue := requeue_interval ag in
  match ag_Replicas (o_spec ag) with
  | [] => panic "index out of range [0] with length 0"
  | r0 :: _ =>
      let primaryReplica := known_primary ag r0 in
      let secretName := sec_Name (CredentialsSecret (rep_Server primaryReplica)) in
      r ← getCredentialsFromSecret (Namespace (o_meta ag)) secretName;
      match r with
      | inr err =>
          if IsNotFound err then
            setConditionAndReturn ag ConditionFalse ReasonSecretNotFound
              (Sprintf "Secret %q not found" [strconv_quote secretName])
          else setConditionAndReturn ag ConditionFalse ReasonInvalidCredentialsSecret (err_text err)
      | inl (username, password) =>
      r ← connectToSQL (rep_Server primaryReplica) username password factory;
      match r with
      | inr err =>
          Event EventTypeWarning ReasonConnectionFailed (err_text err) ;;
          if auto_failover_enabled ag then
            res ← fn (auto_failover ag requeue);
            return_ res
          else fail "failed to connect to primary replica" err
      | inl c => defer_ (sql c "Close" [] Close ;; mret tt) (reconcile_connected ag requeue c)
      end end
  end.

Definition ensure_finalizer (ag : AvailabilityGroup) : M AvailabilityGroup :=
  if ContainsFinalizer (o_meta ag) Finalizer then mret ag
  else try_write (Update KAvailabilityGroup (with_meta (AddFinalizer (o_meta ag) Finalizer) ag)).

Definition release (ag : AvailabilityGroup) : M ReconcileResult :=
  let ag := with_meta (RemoveFinalizer (o_meta ag) Finalizer) ag in
  try_write (Update KAvailabilityGroup ag) ;;
  return_ (Result0, None).

Definition drop_ag (ag : AvailabilityGroup) (c : Conn) : M unit :=
  let agName := ag_AGName (o_spec ag) in
  err ← sql c "DropAG" [agName] (DropAG agName);
  match err with
  | Some _ => mret tt  (* removing finalizer anyway *)
  | None => Event EventTypeNormal "AvailabilityGroupDropped" (Sprintf "Availability Group %s dropped" [agName])
  end.

Definition handleDeletion (ag : AvailabilityGroup) : M ReconcileResult :=
  if negb (ContainsFinalizer (o_meta ag) Finalizer) then return_ (Result0, None)
  else
    match ag_Replicas (o_spec ag) with
    | [] => panic "index out of range [0] with length 0"
    | r0 :: _ =>
        let primaryReplica := known_primary ag r0 in
        r ← Fencing.replica_credentials ag primaryReplica;
        match r with
        | inr _ => release ag  (* removing finalizer anyway *)
        | inl (username, password) =>
            r ← connectToSQL (rep_Server primaryReplica) username password factory;
            match r with
            | inr _ => release ag  (* removing finalizer anyway *)
            | inl c => defer_ (sql c "Close" [] Close ;; mret tt) (drop_ag ag c ;; release ag)
            end
        end
    end.

Definition Reconcile (req : NamespacedName) : M ReconcileResult :=
  _ ← Now;
  defer_ (_ ← Now; Metric "ReconcileDuration" ["AvailabilityGroup"] Observed) (
    r ← Get KAvailabilityGroup req;
    match r with
    | inr err => if IsNotFound err then return_ (Result0, None) else return_ (Result0, Some err)
    | inl ag =>
        match DeletionTimestamp (o_meta ag) with
        | Some _ => handleDeletion ag
        | None => ag ← ensure_finalizer ag; reconcile_live ag
        end
    end).

(** ** Theorems *)
Context `{!GoEnvLaws} `{!KubeUtilLaws}.
Implicit Types (w : World K D Conn) (ag : AvailabilityGroup).

(** [clock n] is the [n]-th reading of the clock; a run that starts in [w] takes
    the reading [w_tick w] first. *)
Definition expired (n : nat) (spec : LeaseSpec) : Prop :=
  exists renew seconds, RenewTime spec = Some renew /\ LeaseDurationSeconds spec = Some seconds /\
    renew + seconds * Second < clock n.
(** From the API state [s], the Lease was read and written with us as its holder,
    renewed at the reading [n]: created for 30 s when there was none, patched when
    what was read named us or had expired at the next reading. *)
Definition lease_taken (n : nat) (s : K) (key : NamespacedName) : Prop :=
  exists answer s1 (ours stored : Lease) s2,
    kube_Get KLease key s = (answer, s1) /\
    HolderIdentity (o_spec ours) = Some holder /\ RenewTime (o_spec ours) = Some (clock n) /\
    match answer with
    | inr err => IsNotFound err = true /\ mkKey (Namespace (o_meta ours)) (Name (o_meta ours)) = key /\
        LeaseDurationSeconds (o_spec ours) = Some 30 /\ kube_Create KLease ours s1 = (inl stored, s2)
    | inl lease => (HolderIdentity (o_spec lease) = Some holder \/ expired (S n) (o_spec lease)) /\
        kube_Patch KLease lease ours s1 = (inl stored, s2)
    end.
(** The cooldown since the last automatic failover, 60 s unless the spec has one
    that parses, has elapsed at the reading [n]. *)
Definition cooldown_elapsed (n : nat) ag : Prop :=
  forall last, ag_LastAutoFailoverTime (ag_status ag) = Some last ->
    match ag_FailoverCooldown (o_spec ag) with
    | None => 60 * Second
    | Some s => match ParseDuration s with Some d => d | None => 60 * Second end
    end <= time_sub (clock n) last.
(** The reading the Lease is renewed at: the first of the run, or the second when
    the first went to the cooldown. *)
Definition lease_reading (n : nat) ag : nat :=
  match ag_LastAutoFailoverTime (ag_status ag) with Some _ => S n | None => n end.

(** The replica taken for the failed primary. *)
Definition assumed_primary ag : string :=
  if String.eqb (ag_PrimaryReplica (ag_status ag)) "" then default "" (rep_ServerName <$> head (ag_Replicas (o_spec ag)))
  else ag_PrimaryReplica (ag_status ag).

(** In a run that starts in [w], a forced failover is issued on a replica of the
    spec that is not the known primary, right after it answered a role other than
    PRIMARY, with automatic failover enabled, the cooldown elapsed at the first
    reading of the clock, and the Lease taken from the state of the API server that
    the first request of the run, the read of a Secret, left. *)
Definition failover_justified w ag (a : Action Conn) (d : D) : Prop :=
  match a with
  | ASql c m args => m = "ForceFailoverAG" ->
      args = [ag_AGName (o_spec ag)] /\ ag_AutoFailover (o_spec ag) = Some true /\
      cooldown_elapsed (w_tick w) ag /\
      (exists name secret s, kube_Get KSecret (mkKey (Namespace (o_meta ag)) name) (w_kube w) = (inl secret, s) /\
        lease_taken (lease_reading (w_tick w) ag) s
          (mkKey (Namespace (o_meta ag)) (Sprintf "ag-failover-%s" [ag_AGName (o_spec ag)]))) /\
      exists replica role d0, replica ∈ ag_Replicas (o_spec ag) /\
        connected factory (rep_Server replica) c /\
        rep_ServerName replica <> assumed_primary ag /\
        GetAGReplicaRole (ag_AGName (o_spec ag)) (rep_ServerName replica) c d0 = ((role, None), d) /\
        role <> "PRIMARY"
  | _ => True
  end.

(** A replica that is connected and synchronized or about to be, and the status
    that repeats what was reported. *)
Definition in_sync (rs : AGReplicaState) : Prop :=
  ars_Connected rs = true /\
  (ars_SynchronizationState rs = "SYNCHRONIZED" \/ ars_SynchronizationState rs = "SYNCHRONIZING").
Definition same_replica (rs : AGReplicaState) (s : AGReplicaStatus) : Prop :=
  rst_ServerName s = ars_ServerName rs /\ rst_Role s = ars_Role rs /\
  rst_SynchronizationState s = ars_SynchronizationState rs /\ rst_Connected s = ars_Connected rs.
Definition same_database (ds : AGDatabaseState) (s : AGDatabaseStatus) : Prop :=
  dst_Name s = ads_Name ds /\ dst_SynchronizationState s = ads_SynchronizationState ds /\
  dst_Joined s = ads_Joined ds.
Definition repeats (st : AGStatus) (s : AvailabilityGroupStatus) : Prop :=
  ag_PrimaryReplica s = ags_PrimaryReplica st /\
  Forall2 same_replica (ags_Replicas st) (ag_ReplicaStates s) /\
  Forall2 same_database (ags_Databases st) (ag_DatabaseStates s).
(** What a replica of the spec reported for the group of [base], the connection
    being used for nothing else since but to close it. *)
Definition reported ag (base : AvailabilityGroup) (st : AGStatus) (d : D) : Prop :=
  exists replica c d0 d1, replica ∈ ag_Replicas (o_spec ag) /\ connected factory (rep_Server replica) c /\
    GetAGStatus (ag_AGName (o_spec base)) c d0 = ((st, None), d1) /\
    (d = d1 \/ exists err, Close c d1 = (err, d)).
(** Ready=True is written with what a replica of the spec just reported, when all
    of it is in sync. *)
Definition healthy_claim ag (base written : AvailabilityGroup) (d : D) : Prop :=
  exists st, reported ag base st d /\ Forall in_sync (ags_Replicas st) /\ repeats st (ag_status written).

(** Everything the operator must justify when it reconciles a live group. *)
Definition ag_safe w ag (a : Action Conn) (d : D) : Prop :=
  failover_justified w ag a d /\ (exists w' e L, Fencing.fence_justified factory ag w' e L a) /\
  ready_claim KAvailabilityGroup (healthy_claim ag) a d.

(** Actions that need no justification. *)
Definition harmless (a : Action Conn) : Prop :=
  match a with
  | ASql _ m _ => m <> "ForceFailoverAG" /\ m ∉ ["SetAGRoleSecondary"; "DropAG"]
  | _ => ~ ready_patch a
  end.
Lemma harmless_safe w ag a d : harmless a -> ag_safe w ag a d.
Proof.
  intros Ha. split_and!.
  - destruct a; try done. cbn. intros ->. by destruct Ha.
  - exists w, 0%nat, []. destruct a; try done. cbn. intros Hm. by destruct Ha.
  - apply ready_claim_not_ready. intros Hr. destruct a; try done.
Qed.
Lemma ready_safe w ag (base o : AvailabilityGroup) d :
  healthy_claim ag base o d -> ag_safe w ag (AStatusPatch KAvailabilityGroup base o) d.
Proof. intros Hh. split_and!; [done|by exists w, 0%nat, []|]. by apply ready_claim_patch. Qed.
Lemma observe_repeats st s : repeats st (observe_status st s).
Proof. split_and!; [done|..]; apply Forall2_fmap_r, Forall_Forall2_diag, Forall_forall; by intros. Qed.
Lemma replica_healthy_sync rs : replica_healthy rs = true -> in_sync rs.
Proof.
  unfold replica_healthy, synchronized. intros [Hc Hs%orb_prop]%andb_prop.
  split; [done|]. by destruct Hs as [?%String.eqb_eq|?%String.eqb_eq]; auto.
Qed.
Lemma harmless_sql (c : Conn) m args :
  bool_decide (m ∉ ["ForceFailoverAG"; "SetAGRoleSecondary"; "DropAG"]) = true -> harmless (ASql c m args).
Proof. intros Hm%bool_decide_eq_true_1. cbn. rewrite elem_of_cons in Hm. split; intros ?; apply Hm; auto. Qed.

(** *** The harmless parts *)
Section Harmless.
Context (P : Action Conn -> D -> Prop) (HP : forall a d, harmless a -> P a d).
Ltac permit ::= solve
  [ apply HP; solve [ by apply harmless_sql | intros [] | intros Hr; by apply is_ready_with in Hr
                    | intros Hr; by apply is_ready_with_condition in Hr ] ].

Lemma runs_jitter {R} base :
  3 <= base <= 2 ^ 61 -> runs P (fun _ => True) (requeueWithJitter base : Go (World K D Conn) R Z).
Proof. intros Hb w. by apply does_requeueWithJitter. Qed.

Lemma runs_setPodRoleLabel {R} ns pod role :
  runs P (fun _ => True) (Fencing.setPodRoleLabel ns pod role : Go (World K D Conn) R unit).
Proof. unfold Fencing.setPodRoleLabel. runs_auto. Qed.

Lemma runs_labels {R} ag name :
  runs P (fun _ => True) (Fencing.updateReplicaRoleLabelsFromAG ag name : Go (World K D Conn) R unit).
Proof. unfold Fencing.updateReplicaRoleLabelsFromAG. runs_auto. apply runs_setPodRoleLabel. Qed.

Lemma runs_ensure_endpoint c : runs P (fun _ => True) (ensure_endpoint c).
Proof. unfold ensure_endpoint. runs_auto. Qed.

Lemma runs_ensure_ag ag c : runs P (fun _ => True) (ensure_ag ag c).
Proof.
  unfold ensure_ag, createAG, joinSecondaries, join_secondary, Fencing.replica_credentials. runs_auto.
Qed.

Lemma runs_databases ag c : runs P (fun _ => False) (reconcileDatabases ag c).
Proof. apply runs_reconcile_set; cbn; intros; runs_auto. Qed.

Lemma runs_listener ag c : runs P (fun _ => True) (reconcileListener ag c).
Proof. unfold reconcileListener. runs_auto. Qed.

Lemma runs_rejoin ag st : runs P (fun _ => True) (rejoin_secondaries ag st).
Proof. unfold rejoin_secondaries, Fencing.tryRejoinReplica, Fencing.replica_credentials. runs_auto. Qed.

Lemma runs_set_condition ag reason msg :
  runs P (fun _ => False) (setConditionAndReturn ag ConditionFalse reason msg).
Proof. unfold setConditionAndReturn. runs_auto. Qed.
End Harmless.

(** *** The parts that must be justified *)
Section Safe.
Context (w0 : World K D Conn) (ag0 : AvailabilityGroup).
Let P : Action Conn -> D -> Prop := ag_safe w0 ag0.
Let HP : forall a d, harmless a -> P a d := harmless_safe w0 ag0.
Ltac permit ::= solve
  [ apply HP; solve [ by apply harmless_sql | intros [] | intros Hr; by apply is_ready_with in Hr
                    | intros Hr; by apply is_ready_with_condition in Hr ] ].
Abbreviation T := (fun (_ : ReconcileResult) (_ : World K D Conn) => True).

(** So far the run has read a Secret and not the clock. *)
Definition started w : Prop :=
  w_tick w = w_tick w0 /\
  exists name secret, kube_Get KSecret (mkKey (Namespace (o_meta ag0)) name) (w_kube w0) = (inl secret, w_kube w).
Abbreviation lease_key :=
  (mkKey (Namespace (o_meta ag0)) (Sprintf "ag-failover-%s" [ag_AGName (o_spec ag0)])).

Lemma tryAcquireLease_spec ns name w :
  does P (tryAcquireLease ns name) (fun b _ => b = true -> lease_taken (w_tick w) (w_kube w) (mkKey ns name)) T w.
Proof.
  unfold tryAcquireLease. does_all; try done;
    match goal with |- match ?x with _ => _ end = true -> _ => destruct x; [intros _|done] end;
    unfold lease_taken; do 5 eexists; (split; [eassumption|cbn [o_spec o_meta HolderIdentity RenewTime]]).
  - split_and!; [| | |eassumption]; [by eapply bool_decide_eq_true|done|left; by eapply bool_decide_eq_true].
  - split_and!; [| | |eassumption]; [done..|right]. do 2 eexists. split_and!; [eassumption..|by apply Z.ltb_lt].
  - split_and!; [| | | | |eassumption]; done.
Qed.

Lemma check_cooldown_spec ag w :
  does P (check_cooldown ag) (fun _ w' => cooldown_elapsed (w_tick w) ag /\
    w_kube w' = w_kube w /\ w_tick w' = lease_reading (w_tick w) ag) T w.
Proof.
  unfold check_cooldown, cooldown_elapsed, lease_reading, duration_or.
  destruct (ag_LastAutoFailoverTime (ag_status ag)) as [t|]; cbn [if_some]; [|by does_all].
  do 2 does_step. destruct (Z.ltb_spec (time_sub (clock (w_tick w)) t)
    (match ag_FailoverCooldown (o_spec ag) with Some s => default (60 * Second) (ParseDuration s)
     | None => 60 * Second end)) as [Hlt|Hge]; cbn [when]; does_step; [done|].
  split_and!; [|done..]. intros ? [= <-]. destruct (ag_FailoverCooldown (o_spec ag)) as [d|]; [|done].
  by destruct (ParseDuration d).
Qed.

Lemma updateAGStatus_safe ag st w :
  reported ag0 ag st (w_sql w) -> does P (updateAGStatus ag st) (fun _ _ => True) T w.
Proof.
  intros Hst. unfold updateAGStatus. does_step.
  apply (does_for_each (fun _ w' => w_sql w' = w_sql w)); [done| |].
  - intros rs rest w' Hs. by does_all.
  - intros w' Hs. destruct (forallb replica_healthy (ags_Replicas st)) eqn:Hh; does_all; try done.
    apply ready_safe. exists st. split_and!; [by rewrite Hs| |apply observe_repeats].
    apply Forall_forall. intros rs Hrs. apply replica_healthy_sync.
    rewrite forallb_forall in Hh. by apply Hh, list_elem_of_In.
Qed.

Section Failover.
Context (requeue : Z) (Hrequeue : 3 <= requeue <= 2 ^ 61).
Hypothesis Henabled : auto_failover_enabled ag0 = true.
Hypothesis Hcooldown : cooldown_elapsed (w_tick w0) ag0.
Hypothesis Hlease : exists name secret s,
  kube_Get KSecret (mkKey (Namespace (o_meta ag0)) name) (w_kube w0) = (inl secret, s) /\
  lease_taken (lease_reading (w_tick w0) ag0) s lease_key.

Lemma does_jitter {R} F (E : R -> World K D Conn -> Prop) w :
  (forall d w', F d w') -> does P (requeueWithJitter requeue) F E w.
Proof. intros HF. by apply does_requeueWithJitter. Qed.

Lemma force_safe replica role c d0 d :
  replica ∈ ag_Replicas (o_spec ag0) -> connected factory (rep_Server replica) c ->
  rep_ServerName replica <> assumed_primary ag0 -> role <> "PRIMARY" ->
  GetAGReplicaRole (ag_AGName (o_spec ag0)) (rep_ServerName replica) c d0 = ((role, None), d) ->
  P (ASql c "ForceFailoverAG" [ag_AGName (o_spec ag0)]) d.
Proof.
  intros Hin Hc Hne Hrole Hget.
  split_and!; [|exists w0, 0%nat, []; intros Hm; pose proof (bool_decide_eq_true_2 _ Hm) as Hb; by vm_compute in Hb|done].
  intros _. split_and!; try done.
  - unfold auto_failover_enabled in Henabled. by destruct (ag_AutoFailover (o_spec ag0)) as [[]|].
  - exists replica, role, d0. by split_and!.
Qed.

Lemma try_candidate_safe replica c w :
  replica ∈ ag_Replicas (o_spec ag0) -> connected factory (rep_Server replica) c ->
  rep_ServerName replica <> assumed_primary ag0 ->
  does P (try_candidate ag0 requeue replica c) (fun _ _ => True) T w.
Proof.
  intros Hin Hc Hne. unfold try_candidate. repeat does_step. destruct x as [role [e|]]; [by does_all|].
  destruct (String.eqb_spec role "PRIMARY") as [->|Hrole].
  - repeat does_step. destruct x as [st err]. repeat does_step.
    eapply (does_post _ _ (fun _ _ => True) _ T); [|intros [] ? _; does_step; by apply does_jitter; intros; does_step|done].
    destruct err; cbn; [by does_step|]. does_step.
    eapply does_post; [apply updateAGStatus_safe|by intros; does_step|done].
    do 4 eexists. split_and!; try done. by right; eexists.
  - repeat does_step; [by eapply force_safe|]. destruct x as [e|]; [by does_all|].
    repeat does_step. eapply does_post; [apply (runs_labels P HP)|by intros; does_all|done].
Qed.

Lemma candidates_safe w :
  does P (for_each (ag_Replicas (o_spec ag0)) (candidate ag0 requeue (assumed_primary ag0))) (fun _ _ => True) T w.
Proof.
  apply (does_for_each (fun rest _ => rest ⊆ ag_Replicas (o_spec ag0))); [done| |done].
  intros r rest w' Hsub. eapply (does_post _ _ (fun _ _ => True) _ T);
    [|intros [] ? _ x Hx; apply Hsub; by right|done].
  unfold candidate. destruct (String.eqb_spec (rep_ServerName r) (assumed_primary ag0)) as [|Hne]; [by does_step|].
  unfold Fencing.replica_credentials. does_all; try done.
  by apply try_candidate_safe; [apply Hsub; left| |].
Qed.
End Failover.

Section Live.
Context (requeue : Z) (Hrequeue : 3 <= requeue <= 2 ^ 61) (Hreplicas : ag_Replicas (o_spec ag0) <> []).

Lemma auto_failover_safe w :
  started w -> auto_failover_enabled ag0 = true -> does P (auto_failover ag0 requeue) (fun _ _ => False) T w.
Proof.
  intros (Hw & name & secret & Hget) Hen. unfold auto_failover. do 2 does_step.
  eapply (does_post _ _ (fun _ _ => False) _ T).
  - unfold handleAutoFailover. does_step. eapply does_post; [apply check_cooldown_spec| |done].
    intros [] w1 (Hcool & Hk1 & Hw1). does_step. eapply does_post; [apply tryAcquireLease_spec| |done].
    intros [] w2 Hlease; cbn [negb]; [specialize (Hlease eq_refl)|by does_step]. does_step.
    rewrite Hk1, Hw1 in Hlease. rewrite Hw in Hlease, Hcool.
    eapply (does_post _ _ (fun k _ => k = assumed_primary ag0) _ T).
    + unfold assumed_primary. destruct (String.eqb _ ""); [|by does_step].
      destruct (ag_Replicas (o_spec ag0)); [done|by does_step].
    + intros k w3 ->. does_step. eapply does_post; [apply candidates_safe; eauto 6| |done].
      intros [] w4 _. by does_all.
    + done.
  - done.
  - intros [result [e|]] w1 _; [|by does_step]. does_step. apply does_requeueWithJitter; [done|]. intros. by does_step.
Qed.

Definition no_failover (a : Action Conn) (d : D) : Prop :=
  failover_justified w0 ag0 a d /\ ready_claim KAvailabilityGroup (healthy_claim ag0) a d.
Ltac permit ::= solve
  [ split; [ solve [done | intros [=]] | apply ready_claim_not_ready; solve
      [ done | intros [] | intros Hr; by apply is_ready_with_condition in Hr ] ] ].
Lemma runs_detect : runs no_failover (fun _ => False) (Fencing.detectAndResolveSplitBrain factory ag0).
Proof.
  unfold Fencing.detectAndResolveSplitBrain, Fencing.failover_running, Fencing.collectReplicaRoles,
    Fencing.replica_role, Fencing.single_primary, Fencing.resolve, Fencing.collectReplicaLSNs,
    Fencing.replica_lsn, Fencing.build_rogues, Fencing.is_exhausted,
    Fencing.fence_rogue, Fencing.fenceReplica, Fencing.alert_exhausted, Fencing.patch_fenced,
    Fencing.patch_status_ignored, Fencing.updateReplicaRoleLabelsFromAG, Fencing.setPodRoleLabel,
    Fencing.fenced_recently, Fencing.replica_credentials.
  runs_auto.
Qed.
Ltac permit ::= solve
  [ apply HP; solve [ by apply harmless_sql | intros [] | intros Hr; by apply is_ready_with in Hr
                    | intros Hr; by apply is_ready_with_condition in Hr ] ].

Lemma check_split_brain_safe w : does P (check_split_brain ag0) (fun _ _ => True) T w.
Proof.
  unfold check_split_brain. destruct (String.eqb _ ""); [by does_step|]. do 2 does_step.
  eapply does_mono; [apply (does_and _ _ _ _ _ _ _ _
    (does_forget _ _ _ _ _ (Fencing.detect_justified factory ag0 w)) (runs_detect w))| | |].
  - intros a d [(e & L & Hf) [Ho Hr]]. split_and!; [done|by do 3 eexists|done].
  - by intros [] ? [].
  - intros [fenced ag1] w1 _. destruct fenced; [by does_step|]. destruct (String.eqb _ _); cbn [negb]; by does_step.
Qed.

Lemma reconcile_connected_safe replica c w :
  started w -> replica ∈ ag_Replicas (o_spec ag0) -> connected factory (rep_Server replica) c ->
  does P (reconcile_connected ag0 requeue c) (fun _ _ => False) T w.
Proof.
  intros Hw Hin Hc. unfold reconcile_connected. does_step.
  eapply (does_post _ _ (fun _ _ => True) _ T); [|intros [] w1 _|done].
  { unfold ping_primary. destruct (auto_failover_enabled ag0) eqn:Hen; cbn [when]; [|by does_step].
    does_all; try done. eapply does_post; [by apply auto_failover_safe|done|]. intros. by does_step. }
  does_step. eapply does_post; [apply check_split_brain_safe| |done]. intros ag1 w2 _.
  does_step. eapply does_post; [apply (runs_ensure_endpoint P HP)|intros [] w3 _|done].
  does_step. eapply does_post; [apply (runs_ensure_ag P HP)|intros [] w4 _|done].
  do 2 does_step. eapply does_post; [apply (runs_databases P HP)|done|intros err w5 _].
  does_step. eapply does_post; [apply (runs_listener P HP)|intros [] w6 _|done].
  does_step. unfold try_query. repeat does_step. destruct x as [st [e|]]; [by does_all|]. do 2 does_step.
  eapply does_post; [apply updateAGStatus_safe; do 4 eexists; split_and!; by try left| |done]. intros [ag2 [e|]] w7 _; cbn; [by does_all|].
  does_step. does_step. does_step. eapply does_post; [apply (runs_rejoin P HP)|intros [] w8 _|done]. does_step.
  eapply (does_post _ _ (fun _ _ => True) _ T); [|intros [] w9 _|done].
  { destruct (negb _); cbn [when]; [apply (runs_labels P HP)|by does_step]. }
  do 3 does_step. apply does_requeueWithJitter; [done|]. intros. by does_step.
Qed.

Lemma known_primary_in r0 rest :
  ag_Replicas (o_spec ag0) = r0 :: rest -> known_primary ag0 r0 ∈ ag_Replicas (o_spec ag0).
Proof.
  intros Hr. unfold known_primary. destruct (String.eqb _ ""); [rewrite Hr; by left|].
  destruct (List.find _ _) as [r|] eqn:Hf; cbn; [|rewrite Hr; by left].
  apply find_some in Hf as [Hin _]. by apply list_elem_of_In.
Qed.
End Live.

Lemma reconcile_live_safe :
  ag_Replicas (o_spec ag0) <> [] -> 3 <= requeue_interval ag0 <= 2 ^ 61 ->
  does P (reconcile_live ag0) (fun _ _ => False) T w0.
Proof.
  intros Hne Hrq. unfold reconcile_live. destruct (ag_Replicas (o_spec ag0)) as [|r0 rest] eqn:Hr; [done|].
  pose proof (known_primary_in r0 rest Hr) as Hkp.
  does_step.
  apply (does_post _ _ (fun r w => forall up, r = inl up -> started w) _ (fun _ _ => False)); [| |done].
  { unfold getCredentialsFromSecret, started. does_all; try done. cbn. eauto. }
  intros [[u p]|err] w Hw; [specialize (Hw _ eq_refl)|].
  2: { destruct (IsNotFound err);
         (eapply does_post; [apply (runs_set_condition P HP)|done|done]). }
  does_step. apply does_connectToSQL.
  - intros err d'. does_step. does_step. destruct (auto_failover_enabled ag0) eqn:Hen; [|by does_all].
    do 2 does_step. eapply does_post; [apply (auto_failover_safe _ Hrq ltac:(by rewrite Hr)); [exact Hw|exact Hen]|done|intros; by does_step].
  - intros c d' Hc. split; [by apply HP; intros []|]. does_step.
    eapply does_post; [eapply (reconcile_connected_safe _ Hrq ltac:(by rewrite Hr)); [exact Hw|exact Hkp|exact Hc]|done|].
    intros. by does_all.
Qed.
End Safe.

(** C2: reconciling a live availability group with at least one replica and a
    requeue interval between 3 ns and 2^61 ns returns, and forces a failover
    only when the spec enables automatic failover, the cooldown since the
    last one (60 s unless the spec has one that parses) has elapsed at the
    first reading of the clock in the run, and the failover Lease of the
    group, read and then written from the state of the API server that the
    first request of the run (the read of a Secret) left, was created for 30
    s because the server had none, or patched because what was read named
    this process or had expired (renew time plus duration before the next
    reading of the clock), in each case with this process as holder and the
    reading before as renew time; on a connection to a replica of the spec
    that is not the assumed primary, right after that replica answered a
    role other than PRIMARY. It holds for every clock. *)
Theorem reconcile_live_failover_justified ag w :
  ag_Replicas (o_spec ag) <> [] -> 3 <= requeue_interval ag <= 2 ^ 61 ->
  performs (failover_justified w ag) (reconcile_live ag) w.
Proof.
  intros Hne Hrq. eapply performs_mono; [by apply performs_intro, reconcile_live_safe|].
  by intros a d [? _].
Qed.

(** C3: reconciling a live availability group with at least one replica and a
    requeue interval between 3 ns and 2^61 ns returns, and writes Ready=True
    only in a status that repeats, replica by replica (name, role,
    synchronization state, connected) and database by database, what a
    replica of the spec reported for the group over the connection used
    last, and only when every replica in that report is connected and
    SYNCHRONIZED or SYNCHRONIZING. *)
Theorem reconcile_live_ready_sound ag w :
  ag_Replicas (o_spec ag) <> [] -> 3 <= requeue_interval ag <= 2 ^ 61 ->
  performs (ready_claim KAvailabilityGroup (healthy_claim ag)) (reconcile_live ag) w.
Proof.
  intros Hne Hrq. eapply performs_mono; [by apply performs_intro, reconcile_live_safe|].
  by intros a d (_ & _ & ?).
Qed.

(** A reconcile demotes and drops only by the split-brain step. *)
Theorem reconcile_live_fence_justified ag w :
  ag_Replicas (o_spec ag) <> [] -> 3 <= requeue_interval ag <= 2 ^ 61 ->
  performs (fun a _ => exists w' e L, Fencing.fence_justified factory ag w' e L a) (reconcile_live ag) w.
Proof.
  intros Hne Hrq. eapply performs_mono; [by apply performs_intro, reconcile_live_safe|].
  by intros a d (_ & ? & _).
Qed.

(** *** A primary that changed outside the operator *)
(** Neither the status nor the object is written, and the servers are only read. *)
Definition unrecorded (a : Action Conn) : Prop :=
  match a with AStatusPatch _ _ _ | AUpdate _ _ => False | _ => read_only a end.

Ltac permit ::= solve [ done | by apply read_only_sql ].
(** C6: for a group whose cluster type is None or absent, that has a recorded
    primary and no AGFailover in progress in the listing, when exactly one
    replica answers PRIMARY and it is not the recorded one, a reconcile
    without automatic failover, once connected, returns after 5 s without
    writing the status or the object and without any statement that changes
    a server, so the next one starts from the same stale status. *)
Theorem stale_primary_never_recorded ag requeue c w w1 w2 roles p :
  auto_failover_enabled ag = false ->
  ag_PrimaryReplica (ag_status ag) <> "" ->
  ag_ClusterType (o_spec ag) = None \/ ag_ClusterType (o_spec ag) = Some "None" ->
  Fencing.failover_running (R := bool * AvailabilityGroup) ag w = (Next false, w1) ->
  Fencing.collectReplicaRoles (R := bool * AvailabilityGroup) factory ag w1 = (Next roles, w2) ->
  filter (fun r => roles !! rep_ServerName r = Some "PRIMARY") (ag_Replicas (o_spec ag)) = [p] ->
  rep_ServerName p <> ag_PrimaryReplica (ag_status ag) ->
  performs (fun a _ => unrecorded a) (reconcile_connected ag requeue c) w /\
  ends (reconcile_connected ag requeue c) (fun r _ => r = (RequeueIn (5 * Second), None)) w.
Proof.
  intros Hen Hp Hct Hrun Hroles Hone Hne.
  enough (Hd : does (fun a _ => unrecorded a) (reconcile_connected ag requeue c)
    (fun _ _ => False) (fun r _ => r = (RequeueIn (5 * Second), None)) w).
  { split; [apply performs_intro; by eapply does_post; [exact Hd| |]|by eapply ends_intro]. }
  assert (HP : forall (a : Action Conn) (d : D), Fencing.quiet a -> unrecorded a) by by intros [].
  unfold reconcile_connected, ping_primary. rewrite Hen. cbn [when]. do 3 does_step.
  unfold check_split_brain, Fencing.detectAndResolveSplitBrain.
  replace (match ag_ClusterType (o_spec ag) with Some ct => negb (String.eqb ct "None") | None => false end)
    with false by by destruct Hct as [-> | ->].
  rewrite !(proj2 (String.eqb_neq _ _) Hp). do 2 does_step.
  cbv beta iota. does_step.
  eapply does_known; [eapply does_post; [apply (Fencing.failover_running_spec ag _ (fun _ _ => True))|done|done]|exact Hrun|]. cbv iota. does_step.
  eapply does_known; [|exact Hroles|].
  { eapply does_post; [apply (Fencing.collectReplicaRoles_spec factory ag _ HP w1 (fun _ _ => True)), later_refl|done|done]. }
  rewrite Hone. unfold Fencing.single_primary. rewrite (proj2 (String.eqb_neq _ _) Hne).
  does_step. unfold Fencing.updateReplicaRoleLabelsFromAG. apply (does_for_each (fun _ _ => True)); [done| |].
  - intros r rest w' _. unfold Fencing.setPodRoleLabel. by does_all.
  - intros w' _. do 3 does_step.
    change (ag_PrimaryReplica (ag_status (with_ag_status (set_primary (rep_ServerName p)) ag)))
      with (rep_ServerName p).
    rewrite (proj2 (String.eqb_neq _ _) Hne). cbn [negb]. by does_step.
Qed.

(** *** Deletion *)
Ltac permit ::= done.
(** The finalizer goes whatever the credentials, the connection and the drop do. *)
Lemma ag_deletion_releases ag w :
  Finalizer ∈ Finalizers (o_meta ag) -> ag_Replicas (o_spec ag) <> [] ->
  ends (handleDeletion ag) (fun _ w' => exists d,
    (AUpdate KAvailabilityGroup (with_meta (RemoveFinalizer (o_meta ag) Finalizer) ag), d) ∈ w_log w') w.
Proof.
  intros Hf Hne. apply (ends_intro (fun _ _ => True)).
  unfold handleDeletion, release, drop_ag, Fencing.replica_credentials.
  rewrite ContainsFinalizer_spec, bool_decide_true by done. cbn [negb].
  destruct (ag_Replicas (o_spec ag)) as [|r0 rest]; [done|].
  does_all; try done; (eexists; cbn; rewrite !elem_of_app, !list_elem_of_singleton; eauto 10).
Qed.
End Controller.
End AG.
