(* ===== verification/LeaseRace.v ===== *)
(** * The failover Lease between operator processes

    tryAcquireLease (internal/controller/availabilitygroup_controller.go) is
    what serialises the automatic failovers of a group between operator
    processes. AvailabilityGroup.v has it as a function of one process; here it
    is cut at its calls ([LeaseCall]), so that the calls of several processes
    interleave in any order ([step]) over one API server, each with its own
    clock and possibly stale reads. [lease_calls_are_tryAcquireLease] says that
    the cut is the function; [lease_exclusive] that within its duration a
    fresh or held Lease admits one holder only; [expired_lease_taken_twice]
    that an expired one does not: the take-over is a merge patch without a
    resource version, so two processes that read the same expired Lease both
    succeed. *)
From S2P Require Import Prelude Types SqlClient Kube Helpers SetReconcile AgFencing AvailabilityGroup.

Module Race.
(** ** A suspended tryAcquireLease *)
Inductive LeaseCall :=
| Done (acquired : bool)
| ReadClock (k : Z -> LeaseCall)
| GetLease (key : NamespacedName) (k : Lease + error -> LeaseCall)
| CreateLease (o : Lease) (k : Lease + error -> LeaseCall)
| PatchLease (base o : Lease) (k : Lease + error -> LeaseCall).

Section Call.
Variable holder : string.

(** [... == nil] of a write. *)
Definition written (r : Lease + error) : LeaseCall := Done (match r with inl _ => true | inr _ => false end).

Definition create_call (namespace leaseName : string) (now : Z) : LeaseCall :=
  CreateLease (mkObject (new_meta leaseName namespace ∅)
    (mkLeaseSpec (Some holder) (Some AG.leaseDuration) (Some now) (Some now)) tt) written.
(** We hold it: renew. *)
Definition renew_call (lease : Lease) (now : Z) : LeaseCall :=
  PatchLease lease (mkObject (o_meta lease)
    (mkLeaseSpec (HolderIdentity (o_spec lease)) (LeaseDurationSeconds (o_spec lease))
       (AcquireTime (o_spec lease)) (Some now)) tt) written.
(** Expired: take over. *)
Definition take_over_call (lease : Lease) (now : Z) : LeaseCall :=
  PatchLease lease (mkObject (o_meta lease)
    (mkLeaseSpec (Some holder) (LeaseDurationSeconds (o_spec lease)) (Some now) (Some now)) tt) written.
Definition expiry_call (lease : Lease) (now : Z) : LeaseCall :=
  match RenewTime (o_spec lease), LeaseDurationSeconds (o_spec lease) with
  | Some renew, Some seconds =>
      ReadClock (fun now' => if renew + seconds * Second <? now' then take_over_call lease now else Done false)
  | _, _ => Done false
  end.
Definition got_call (namespace leaseName : string) (now : Z) (r : Lease + error) : LeaseCall :=
  match r with
  | inr err => if IsNotFound err then create_call namespace leaseName now else Done false
  | inl lease =>
      if bool_decide (HolderIdentity (o_spec lease) = Some holder) then renew_call lease now
      else expiry_call lease now
  end.
Definition get_call (namespace leaseName : string) (now : Z) : LeaseCall :=
  GetLease (mkKey namespace leaseName) (got_call namespace leaseName now).
Definition lease_call (namespace leaseName : string) : LeaseCall :=
  ReadClock (get_call namespace leaseName).
End Call.

(** *** Running one to its end *)
Section Interp.
Context `{GoEnv} {K D Conn : Type} `{KubeClient K} `{SQLClient Conn D} `{KubeUtil}.

Fixpoint interp {R} (c : LeaseCall) : Go (World K D Conn) R bool :=
  match c with
  | Done b => mret b
  | ReadClock k => now ← Now; interp (k now)
  | GetLease key k => r ← Get KLease key; interp (k r)
  | CreateLease o k => r ← Create KLease o; interp (k r)
  | PatchLease base o k => r ← Patch KLease base o; interp (k r)
  end.

Lemma bind_ext {R A B} (m : Go (World K D Conn) R A) (f g : A -> Go (World K D Conn) R B) w :
  (forall a w', f a w' = g a w') -> (m ≫= f) w = (m ≫= g) w.
Proof. intros Hfg. unfold mbind, go_bind. destruct (m w) as [[] ?]; auto. Qed.

(** The calls of tryAcquireLease whose interleavings are studied, run one
    after the other without interference, are the function tryAcquireLease
    of the controller: same outcome, same API calls, same clock readings. *)
Theorem lease_calls_are_tryAcquireLease (holder namespace leaseName : string) (w : World K D Conn) :
  interp (lease_call holder namespace leaseName) w = AG.tryAcquireLease holder namespace leaseName w.
Proof.
  unfold AG.tryAcquireLease, lease_call. cbn. apply bind_ext. intros now w1. apply bind_ext.
  intros [lease|err] w2; cbn.
  - case_bool_decide; cbn; [apply bind_ext; by intros [] w3|]. unfold expiry_call.
    destruct (RenewTime (o_spec lease)), (LeaseDurationSeconds (o_spec lease)) eqn:Hs; cbn; try done.
    apply bind_ext. intros now' w3. unfold take_over_call. rewrite Hs. destruct (_ <? _); [apply bind_ext; by intros [] w4|done].
  - destruct (IsNotFound err); cbn; [apply bind_ext; by intros [] w3|done].
Qed.
End Interp.

(** ** The API server's side of a Lease

    The documented behaviour the Lease relies on. The server keeps the versions
    of an object in the order they were written; a read may be answered from
    the informer cache, so it returns one of them, not necessarily the last. A
    create succeeds only when there is none. A [client.MergeFrom] patch is a
    JSON merge patch without resourceVersion: the server applies the fields that
    differ between the base and the object to the last version, whatever its
    age. A write that returns an error may have been applied. Times are stored
    with microseconds (MicroTime). Nothing deletes the Lease. *)
Definition Microsecond : Z := 1000.
Definition micro (t : Z) : Z := t - t mod Microsecond.
Definition micro_spec (spec : LeaseSpec) : LeaseSpec :=
  mkLeaseSpec (HolderIdentity spec) (LeaseDurationSeconds spec) (micro <$> AcquireTime spec) (micro <$> RenewTime spec).
Definition merge_field {A} `{EqDecision A} (base o cur : option A) : option A :=
  if decide (base = o) then cur else o.
Definition merge_spec (base o cur : LeaseSpec) : LeaseSpec :=
  mkLeaseSpec (merge_field (HolderIdentity base) (HolderIdentity o) (HolderIdentity cur))
    (merge_field (LeaseDurationSeconds base) (LeaseDurationSeconds o) (LeaseDurationSeconds cur))
    (merge_field (AcquireTime base) (AcquireTime o) (AcquireTime cur))
    (merge_field (RenewTime base) (RenewTime o) (RenewTime cur)).
Definition lease_key (l : Lease) : NamespacedName := mkKey (Namespace (o_meta l)) (Name (o_meta l)).

Class LeaseServer (K : Type) `{KubeClient K} := {
  versions : NamespacedName -> K -> list LeaseSpec;
  (* a read *)
  Get_versions key s r s' : kube_Get KLease key s = (r, s') ->
    (forall key', versions key' s' = versions key' s) /\
    match r with inl l => o_spec l ∈ versions key s /\ lease_key l = key | inr _ => True end;
  (* writes: of the Lease they are for, and of no other *)
  Create_versions o s r s' key : kube_Create KLease o s = (r, s') ->
    if decide (key = lease_key o) then
      (versions key s = [] /\ versions key s' = [micro_spec (o_spec o)]) \/
      ((exists err, r = inr err) /\ versions key s' = versions key s)
    else versions key s' = versions key s;
  Patch_versions base o s r s' key : kube_Patch KLease base o s = (r, s') ->
    if decide (key = lease_key base) then
      (exists cur, last (versions key s) = Some cur /\
         versions key s' = versions key s ++ [merge_spec (micro_spec (o_spec base)) (micro_spec (o_spec o)) cur]) \/
      ((exists err, r = inr err) /\ versions key s' = versions key s)
    else versions key s' = versions key s
}.

(** A server that answers, from the last version. *)
Class LeaseServerUp (K : Type) `{LeaseServer K} := {
  Get_last key s v : last (versions key s) = Some v ->
    exists l s', kube_Get KLease key s = (inl l, s') /\ o_spec l = v;
  Patch_up base o s : versions (lease_key base) s <> [] ->
    exists l s', kube_Patch KLease base o s = (inl l, s')
}.

(** ** Several processes *)
Section System.
Context {K : Type} `{KubeClient K}.
(** The Lease they compete for, and the bound on the difference between their
    clocks and the time of the system. *)
Variables (namespace leaseName : string) (skew : Z).
Definition the_key : NamespacedName := mkKey namespace leaseName.

(** A process: its identity, its clock and where it is in the call. *)
Record Process := mkProcess { p_holder : string; p_offset : Z; p_call : LeaseCall }.
Record System := mkSystem {
  sys_kube : K;
  sys_time : Z;
  sys_processes : list Process;
  sys_acquired : list string    (* who acquired the Lease, oldest first *)
}.

(** One call of a process that reads [now] on its clock. *)
Definition call_step (now : Z) (s : K) (c : LeaseCall) : LeaseCall * K :=
  match c with
  | Done b => (Done b, s)
  | ReadClock k => (k now, s)
  | GetLease key k => let '(r, s') := kube_Get KLease key s in (k r, s')
  | CreateLease o k => let '(r, s') := kube_Create KLease o s in (k r, s')
  | PatchLease base o k => let '(r, s') := kube_Patch KLease base o s in (k r, s')
  end.
Definition running (c : LeaseCall) : bool := match c with Done _ => false | _ => true end.
Definition acquired (c : LeaseCall) : bool := match c with Done b => b | _ => false end.
Definition with_call (p : Process) (c : LeaseCall) : Process := mkProcess (p_holder p) (p_offset p) c.

(** Time passes; a process does its next call; a process whose call is over
    starts another (its next reconcile); others write other objects. *)
Context `{!LeaseServer K}.
Inductive step : System -> System -> Prop :=
| step_time s t t' ps acq : t <= t' -> step (mkSystem s t ps acq) (mkSystem s t' ps acq)
| step_call s t ps acq i p c s' :
    ps !! i = Some p -> running (p_call p) = true ->
    call_step (t + p_offset p) s (p_call p) = (c, s') ->
    step (mkSystem s t ps acq)
         (mkSystem s' t (<[i := with_call p c]> ps) (if acquired c then acq ++ [p_holder p] else acq))
| step_start s t ps acq i p :
    ps !! i = Some p -> running (p_call p) = false ->
    step (mkSystem s t ps acq)
         (mkSystem s t (<[i := with_call p (lease_call (p_holder p) namespace leaseName)]> ps) acq)
| step_other s s' t ps acq :
    versions the_key s' = versions the_key s -> step (mkSystem s t ps acq) (mkSystem s' t ps acq).

(** The run in which the processes call in the given order. *)
Definition turn (s : System) (i : nat) : System :=
  match sys_processes s !! i with
  | Some p =>
      if running (p_call p) then
        let '(c, k) := call_step (sys_time s + p_offset p) (sys_kube s) (p_call p) in
        mkSystem k (sys_time s) (<[i := with_call p c]> (sys_processes s))
          (if acquired c then sys_acquired s ++ [p_holder p] else sys_acquired s)
      else s
  | None => s
  end.
Definition turns (s : System) (order : list nat) : System := foldl turn s order.
Lemma turns_steps order s : rtc step s (turns s order).
Proof.
  revert s. induction order as [|i order IH]; intros s; [done|]. cbn. etrans; [|apply IH].
  destruct s as [k t ps acq]. unfold turn. cbn. destruct (ps !! i) as [p|] eqn:Hp; [|done].
  destruct (running (p_call p)) eqn:Hr; [|done]. destruct (call_step _ _ _) as [c k'] eqn:Hc.
  apply rtc_once. by apply (step_call k t ps acq i p c k').
Qed.

(** *** Exclusion
    A version that [h] holds and that nobody sees expired before
    [floor] + 30 s. *)
Definition fresh (floor : Z) (h : string) (spec : LeaseSpec) : Prop :=
  HolderIdentity spec = Some h /\
  exists renew seconds, RenewTime spec = Some renew /\ LeaseDurationSeconds spec = Some seconds /\
    floor <= renew /\ AG.leaseDuration <= seconds.
Definition idle (p : Process) : Prop :=
  (p_call p = lease_call (p_holder p) namespace leaseName \/ exists b, p_call p = Done b) /\
  - skew <= p_offset p <= skew.

Section Exclusion.
Variable floor : Z.
Abbreviation limit := (floor + AG.leaseDuration * Second).

Lemma fresh_unique vs h h' : vs <> [] -> Forall (fresh floor h) vs -> Forall (fresh floor h') vs -> h = h'.
Proof.
  destruct vs as [|v vs]; [done|]. intros _ [[Hh _] _]%Forall_cons [[Hh' _] _]%Forall_cons. congruence.
Qed.

(** Where a process can be before [limit]: never at the take-over. *)
Inductive at_call (vs : list LeaseSpec) (me : string) : LeaseCall -> Prop :=
| at_start : at_call vs me (lease_call me namespace leaseName)
| at_get now : floor + Microsecond <= now -> at_call vs me (get_call me namespace leaseName now)
| at_create now : floor + Microsecond <= now -> at_call vs me (create_call me namespace leaseName now)
| at_renew l now : floor + Microsecond <= now -> o_spec l ∈ vs -> lease_key l = the_key ->
    HolderIdentity (o_spec l) = Some me -> at_call vs me (renew_call l now)
| at_expiry l now : o_spec l ∈ vs -> at_call vs me (expiry_call me l now)
| at_done b : at_call vs me (Done b).
Hint Constructors at_call : core.

Record exclusive (s : System) : Prop := {
  ex_owner : exists h, Forall (fresh floor h) (versions the_key (sys_kube s));
  ex_time : floor + Microsecond + skew <= sys_time s;
  ex_calls : Forall (fun p => at_call (versions the_key (sys_kube s)) (p_holder p) (p_call p) /\
                              - skew <= p_offset p <= skew) (sys_processes s);
  ex_acquired : forall h, h ∈ sys_acquired s ->
    Forall (fresh floor h) (versions the_key (sys_kube s)) /\ versions the_key (sys_kube s) <> []
}.

Lemma at_call_mono vs vs' me c : vs ⊆ vs' -> at_call vs me c -> at_call vs' me c.
Proof. intros Hsub Hc. destruct Hc; eauto. Qed.

Lemma micro_bound t : t - Microsecond < micro t.
Proof. unfold micro, Microsecond. pose proof (Z.mod_pos_bound t 1000). lia. Qed.

Lemma fresh_created me now :
  floor + Microsecond <= now ->
  fresh floor me (micro_spec (mkLeaseSpec (Some me) (Some AG.leaseDuration) (Some now) (Some now))).
Proof.
  intros Hn. split; [done|]. do 2 eexists. split_and!; [reflexivity|reflexivity| |lia].
  pose proof (micro_bound now). lia.
Qed.
Lemma fresh_renewed h base cur acquire now :
  floor + Microsecond <= now -> fresh floor h cur ->
  fresh floor h (merge_spec (micro_spec base)
    (micro_spec (mkLeaseSpec (HolderIdentity base) (LeaseDurationSeconds base) acquire (Some now))) cur).
Proof.
  intros Hn (Hh & renew & seconds & Hr & Hd & Hle & Hs). pose proof (micro_bound now).
  unfold merge_spec, merge_field, micro_spec; cbn. rewrite !decide_True by done.
  split; [done|]. cbn. destruct (decide (_ = Some (micro now))); cbn; [by exists renew, seconds|].
  exists (micro now), seconds. split_and!; [done|done|lia|done].
Qed.
Lemma fresh_owner h me spec : fresh floor h spec -> HolderIdentity spec = Some me -> me = h.
Proof. intros [Hh _]. congruence. Qed.

(** What one call may do to the versions and to its process. *)
Record leads (h me : string) (s : K) (c' : LeaseCall) (s' : K) : Prop := {
  leads_grows : versions the_key s ⊆ versions the_key s';
  leads_call : at_call (versions the_key s') me c';
  leads_owner : exists h', Forall (fresh floor h') (versions the_key s') /\
    (versions the_key s <> [] -> h' = h /\ versions the_key s' <> []) /\
    (acquired c' = true -> h' = me /\ versions the_key s' <> [])
}.

Lemma leads_reads h me s c' s' :
  versions the_key s' = versions the_key s -> Forall (fresh floor h) (versions the_key s) ->
  at_call (versions the_key s) me c' -> acquired c' = false -> leads h me s c' s'.
Proof. intros Hs Hf Hc Ha. split; rewrite ?Hs, ?Ha; [done..|]. by exists h. Qed.

Lemma leads_create h me now s r s' :
  Forall (fresh floor h) (versions the_key s) -> floor + Microsecond <= now ->
  kube_Create KLease (mkObject (new_meta leaseName namespace ∅)
    (mkLeaseSpec (Some me) (Some AG.leaseDuration) (Some now) (Some now)) tt) s = (r, s') ->
  leads h me s (written r) s'.
Proof.
  intros Hf Hnow Hr. apply (Create_versions _ _ _ _ the_key) in Hr.
  rewrite decide_True in Hr by done. destruct Hr as [[Hs Hs']|[[err ->] Hs]];
    [|by apply leads_reads; [done..|apply at_done|done]].
  pose proof (fresh_created me now Hnow). cbn in Hs'. split; rewrite ?Hs, ?Hs'; [set_solver|apply at_done|].
  exists me. split_and!; [by constructor|done|by intros _].
Qed.
Lemma leads_renew h me l now s r s' :
  Forall (fresh floor h) (versions the_key s) -> floor + Microsecond <= now ->
  o_spec l ∈ versions the_key s -> lease_key l = the_key -> HolderIdentity (o_spec l) = Some me ->
  kube_Patch KLease l (mkObject (o_meta l)
    (mkLeaseSpec (HolderIdentity (o_spec l)) (LeaseDurationSeconds (o_spec l)) (AcquireTime (o_spec l))
       (Some now)) tt) s = (r, s') ->
  leads h me s (written r) s'.
Proof.
  intros Hf Hnow Hin Hkey Hme Hr. apply (Patch_versions _ _ _ _ _ the_key) in Hr.
  rewrite decide_True in Hr by done. destruct Hr as [(cur & Hcur & Hs)|[[err ->] Hs]];
    [|by apply leads_reads; [done..|apply at_done|done]].
  rewrite Forall_forall in Hf. assert (me = h) as -> by (eapply fresh_owner; eauto).
  apply last_Some_elem_of in Hcur. split; rewrite ?Hs; [set_solver|apply at_done|].
  exists h. split_and!; [|split; [done|]|split; [done|]]; [|by destruct (versions the_key s)..].
  apply Forall_app. split; [by apply Forall_forall|]. apply Forall_singleton, fresh_renewed; auto.
Qed.

Lemma call_exclusive h me now s c c' s' :
  at_call (versions the_key s) me c -> Forall (fresh floor h) (versions the_key s) ->
  floor + Microsecond <= now <= limit -> running c = true ->
  call_step now s c = (c', s') -> leads h me s c' s'.
Proof.
  intros Hc Hf [Hlo Hhi] Hrun Hstep. destruct Hc as [|now0 Hn|now0 Hn|l now0 Hn Hin Hkey Hme|l now0 Hin|b];
    cbn in Hstep; [| | | | |done].
  - injection Hstep as <- <-. by apply leads_reads; [..|apply at_get|].
  - destruct (kube_Get _ _ _) as [r s1] eqn:Hg. injection Hstep as <- <-.
    apply Get_versions in Hg as [Hs Hr].
    destruct r as [l|err]; cbn.
    2: { destruct (IsNotFound err); (apply leads_reads; [done..| |done]); [by apply at_create|apply at_done]. }
    destruct Hr as [Hin Hkey]. case_bool_decide; [by apply leads_reads; [..|apply at_renew|]|].
    apply leads_reads; [done..|by apply at_expiry|]. rewrite Forall_forall in Hf. destruct (Hf _ Hin) as (_ & r & d & Hr & Hd & _).
    unfold expiry_call. by rewrite Hr, Hd.
  - destruct (kube_Create _ _ _) as [r s1] eqn:Hg. injection Hstep as <- <-. eapply (leads_create h me now0); [done|done|exact Hg].
  - destruct (kube_Patch _ _ _) as [r s1] eqn:Hg. injection Hstep as <- <-. by eapply (leads_renew h me l now0); [..|exact Hg].
  - pose proof Hf as Hl. rewrite Forall_forall in Hl. destruct (Hl _ Hin) as (_ & r & d & Hr & Hd & Hle & Hs).
    unfold expiry_call in Hstep. rewrite Hr, Hd in Hstep. injection Hstep as <- <-.
    destruct (Z.ltb_spec (r + d * Second) now); [unfold Second, Millisecond in *; nia|]. by apply leads_reads.
Qed.

Lemma step_exclusive s s' :
  step s s' -> sys_time s' + skew <= limit -> exclusive s -> exclusive s'.
Proof.
  intros Hstep Hlim [[h Hown] Htime Hcalls Hacq].
  destruct Hstep as [s t t' ps acq Ht|s t ps acq i p c s' Hp Hrun Hcall|s t ps acq i p Hp Hrun|s s' t ps acq Hs];
    cbn [sys_time sys_kube sys_processes sys_acquired] in *.
  - split; cbn; [by exists h|lia|done..].
  - assert (Hpi := proj1 (Forall_forall _ _) Hcalls p ltac:(by eapply list_elem_of_lookup_2)). cbn in Hpi.
    destruct Hpi as [Hc Hoff].
    assert (Hnow : floor + Microsecond <= t + p_offset p <= limit) by lia.
    destruct (call_exclusive _ _ _ _ _ _ _ Hc Hown Hnow Hrun Hcall) as [Hgrows Hc' (h' & Hown' & Hkeep & Hnew)].
    split; cbn; [by exists h'|lia| |].
    + apply Forall_insert; [|done]. eapply Forall_impl; [exact Hcalls|]. cbn.
      intros q [Hq ?]. split; [by eapply at_call_mono|done].
    + assert (Hold : forall x, x ∈ acq -> Forall (fresh floor x) (versions the_key s') /\ versions the_key s' <> []).
      { intros x Hx. destruct (Hacq x Hx) as [Hfx Hne]. destruct (Hkeep Hne) as [-> Hne'].
        by rewrite (fresh_unique _ _ _ Hne Hfx Hown). }
      destruct (acquired c) eqn:Ha; [|done]. intros x [Hx|Hx]%elem_of_app; [by apply Hold|].
      apply list_elem_of_singleton in Hx as ->. by destruct (Hnew eq_refl) as [-> Hne].
  - split; cbn; [by exists h|done| |done]. apply Forall_insert; [done|]. split; [apply at_start|].
    apply (proj1 (Forall_forall _ _) Hcalls p). by eapply list_elem_of_lookup_2.
  - split; cbn; rewrite ?Hs; [by exists h|done..].
Qed.
End Exclusion.

Lemma steps_time s s' : rtc step s s' -> sys_time s <= sys_time s'.
Proof. induction 1 as [|s1 s2 s3 Hstep _ IH]; [lia|]. destruct Hstep; cbn in *; lia. Qed.

(** C4: starting from no failover Lease, or from one of which every stored
    version (a stale read may return any of them) names the same holder, has
    a duration of at least 30 s and was renewed no earlier than floor, and
    from a time at least skew plus 1 us after floor, in every interleaving
    of the calls of any number of operator processes that try to acquire it,
    with clocks off by at most skew, reads from a stale cache and writes
    that may take effect and still report an error, one process at most has
    acquired it up to the time floor plus 30 s minus skew: every version of
    the Lease the server stored names the same holder, and so does every
    acquisition. *)
Theorem lease_exclusive floor h s s' :
  Forall (fresh floor h) (versions the_key (sys_kube s)) -> floor + Microsecond + skew <= sys_time s ->
  Forall idle (sys_processes s) -> sys_acquired s = [] ->
  rtc step s s' -> sys_time s' + skew <= floor + AG.leaseDuration * Second ->
  exists h', Forall (fresh floor h') (versions the_key (sys_kube s')) /\
             forall x, x ∈ sys_acquired s' -> x = h'.
Proof.
  intros Hf Ht Hidle Hacq Hsteps Hlim.
  assert (Hex : exclusive floor s).
  { split; [by exists h|done| |by rewrite Hacq; intros ? ?%elem_of_nil].
    eapply Forall_impl; [exact Hidle|]. intros p [[->|[b ->]] Hoff]; (split; [|done]); [apply at_start|apply at_done]. }
  assert (Hex' : exclusive floor s').
  { clear Hf Ht Hidle Hacq. induction Hsteps as [|s1 s2 s3 Hstep Hsteps IH]; [done|].
    apply IH; [done|]. eapply step_exclusive; [done| |done].
    pose proof (steps_time _ _ Hsteps). lia. }
  destruct Hex' as [[h' Hown] _ _ Hacq']. exists h'. split; [done|]. intros x Hx.
  destruct (Hacq' x Hx) as [Hfx Hne]. eapply fresh_unique; [exact Hne|exact Hfx|exact Hown].
Qed.

(** *** The race
    What one process does on its own, the others standing still. *)
Definition solo (now : Z) (x y : LeaseCall * K) : Prop := running x.1 = true /\ call_step now x.2 x.1 = y.

Lemma solo_steps t i p c s c' s' ps acq :
  rtc (solo (t + p_offset p)) (c, s) (c', s') -> running c = true -> ps !! i = Some (with_call p c) ->
  rtc step (mkSystem s t ps acq)
    (mkSystem s' t (<[i := with_call p c']> ps) (if acquired c' then acq ++ [p_holder p] else acq)).
Proof.
  intros Hrtc. remember (c, s) as x eqn:Hx. remember (c', s') as y eqn:Hy. revert c s ps Hx.
  induction Hrtc as [x|x [c1 s1] z [Hrun Hc] Hrtc IH]; intros c s ps -> Hrunc Hp.
  - injection Hy as -> ->. rewrite list_insert_id by done. by destruct c'.
  - eapply rtc_l; [by apply (step_call s t ps acq i (with_call p c) c1 s1)|]. cbn [p_holder with_call].
    destruct (running c1) eqn:Hr1.
    + specialize (IH Hy c1 s1 (<[i := with_call p c1]> ps) eq_refl Hr1).
      rewrite list_insert_insert_eq in IH. replace (acquired c1) with false by by destruct c1.
      apply IH, list_lookup_insert_eq. by eapply lookup_lt_Some.
    + subst z. inversion Hrtc as [|? ? ? [Hr _]]; subst; [|cbn in Hr; congruence]. by destruct (acquired c').
Qed.

Context `{!LeaseServerUp K}.

(** Reading the last version. *)
Lemma solo_reads me now s v :
  last (versions the_key s) = Some v ->
  exists l s', o_spec l = v /\ lease_key l = the_key /\ versions the_key s' = versions the_key s /\
    rtc (solo now) (lease_call me namespace leaseName, s) (got_call me namespace leaseName now (inl l), s').
Proof.
  intros Hv. destruct (Get_last _ _ _ Hv) as (l & s' & Hg & Hl).
  destruct (Get_versions _ _ _ _ Hg) as [Hs [_ Hkey]]. exists l, s'. split_and!; [done..|].
  eapply rtc_l; [by split|]. eapply rtc_l; [split; [done|reflexivity]|]. cbn. unfold the_key in Hg. rewrite Hg. done.
Qed.
(** Then patching it, whatever happened in between. *)
Lemma solo_patches me now l s renew seconds :
  versions the_key s <> [] -> lease_key l = the_key ->
  RenewTime (o_spec l) = Some renew -> LeaseDurationSeconds (o_spec l) = Some seconds ->
  renew + seconds * Second < now ->
  exists s', versions the_key s' <> [] /\
    rtc (solo now) (got_call me namespace leaseName now (inl l), s) (Done true, s').
Proof.
  intros Hs Hkey Hr Hd Hexp.
  assert (Hpatch : forall o, exists s', versions the_key s' <> [] /\
    rtc (solo now) (PatchLease l o written, s) (Done true, s')).
  { intros o. destruct (Patch_up l o s) as (l' & s' & Hp); [by rewrite Hkey|]. exists s'. split.
    - apply (Patch_versions _ _ _ _ _ the_key) in Hp. rewrite decide_True in Hp by done.
      destruct Hp as [(cur & _ & ->)|[[? [=]] _]]. by destruct (versions the_key s).
    - apply rtc_once. split; [done|]. cbn. by rewrite Hp. }
  cbn. case_bool_decide; [apply Hpatch|]. unfold expiry_call. rewrite Hr, Hd.
  destruct (Hpatch (mkObject (o_meta l) (mkLeaseSpec (Some me) (Some seconds) (Some now) (Some now)) tt))
    as (s' & Hs' & Hrtc).
  exists s'. split; [done|]. eapply rtc_l; [split; [done|reflexivity]|]. cbn.
  destruct (Z.ltb_spec (renew + seconds * Second) now); [|lia]. unfold take_over_call. by rewrite Hd.
Qed.

Lemma got_running me now l renew seconds :
  RenewTime (o_spec l) = Some renew -> LeaseDurationSeconds (o_spec l) = Some seconds ->
  running (got_call me namespace leaseName now (inl l)) = true.
Proof. intros Hr Hd. cbn. case_bool_decide; [done|]. unfold expiry_call. by rewrite Hr, Hd. Qed.
Lemma running_not_acquired c : running c = true -> acquired c = false.
Proof. by destruct c. Qed.

(** C5: once the Lease has expired, two processes can both acquire it at the
    same instant: the take-over is a merge patch without a resource version,
    so when both read the expired Lease before either has patched it, both
    patches succeed, whoever held it. *)
Theorem expired_lease_taken_twice s t ps acq i j p q v renew seconds :
  i <> j -> ps !! i = Some p -> ps !! j = Some q ->
  p_call p = lease_call (p_holder p) namespace leaseName ->
  p_call q = lease_call (p_holder q) namespace leaseName ->
  last (versions the_key s) = Some v -> RenewTime v = Some renew -> LeaseDurationSeconds v = Some seconds ->
  renew + seconds * Second < t + p_offset p -> renew + seconds * Second < t + p_offset q ->
  exists s' ps', rtc step (mkSystem s t ps acq) (mkSystem s' t ps' (acq ++ [p_holder p; p_holder q])).
Proof.
  intros Hij Hp Hq Hcp Hcq Hv Hr Hd Hep Heq.
  destruct (solo_reads (p_holder p) (t + p_offset p) s v Hv) as (lp & s1 & <- & Hkp & Hs1 & Hrp).
  rewrite <- Hs1 in Hv.
  destruct (solo_reads (p_holder q) (t + p_offset q) s1 _ Hv) as (lq & s2 & Hlq & Hkq & Hs2 & Hrq).
  rewrite <- Hs2 in Hv. assert (Hne : versions the_key s2 <> []) by (intros Hn; by rewrite Hn in Hv).
  destruct (solo_patches (p_holder p) (t + p_offset p) lp s2 renew seconds) as (s3 & Hne3 & Hpp); [done..|].
  destruct (solo_patches (p_holder q) (t + p_offset q) lq s3 renew seconds) as (s4 & _ & Hpq); [by rewrite ?Hlq..|].
  assert (Hgp : running (got_call (p_holder p) namespace leaseName (t + p_offset p) (inl lp)) = true)
    by by eapply got_running.
  assert (Hgq : running (got_call (p_holder q) namespace leaseName (t + p_offset q) (inl lq)) = true)
    by (eapply got_running; by rewrite ?Hlq).
  assert (Hpp0 : p = with_call p (p_call p)) by by destruct p. rewrite Hpp0, Hcp in Hp.
  assert (Hqq0 : q = with_call q (p_call q)) by by destruct q. rewrite Hqq0, Hcq in Hq.
  pose proof (lookup_lt_Some _ _ _ Hp) as Hi. pose proof (lookup_lt_Some _ _ _ Hq) as Hj.
  exists s4. eexists. etrans; [|etrans; [|etrans]].
  - by apply (solo_steps t i p _ _ _ _ ps acq Hrp).
  - rewrite (running_not_acquired _ Hgp). apply (solo_steps t j q _ _ _ _ _ acq Hrq); [done|].
    by rewrite list_lookup_insert_ne.
  - rewrite (running_not_acquired _ Hgq). apply (solo_steps t i p _ _ _ _ _ acq Hpp); [done|].
    rewrite list_lookup_insert_ne by done. by apply list_lookup_insert_eq.
  - replace (acq ++ [p_holder p; p_holder q]) with ((acq ++ [p_holder p]) ++ [p_holder q]) by by rewrite <- app_assoc.
    apply (solo_steps t j q _ _ _ _ _ (acq ++ [p_holder p]) Hpq); [done|].
    rewrite list_lookup_insert_ne by done. apply list_lookup_insert_eq. by rewrite length_insert.
Qed.
End System.
End Race.
