(* ===== verification/OneShot.v ===== *)
(** * One-shot operations

    Backup, Restore and AGFailover share a phase machine: an object runs once,
    from no phase (or Pending) through Running to Completed or Failed, and is
    left alone from then on. Each Go file has its own copy of the code; what the
    copies share is written here once over the class [OneShot], and each
    controller gives its instance. *)
From S2P Require Import Prelude Types SqlClient Kube Helpers.

(** The phases in which a reconcile returns at once. *)
Definition terminal (phase : string) : bool :=
  String.eqb phase PhaseCompleted || String.eqb phase PhaseFailed.

(** ** The interface of a one-shot kind *)
Class OneShot (k : Kind) `{KubeUtil} := {
  kind_name : string;                     (* the label of the metrics *)
  connect_failed : string;                (* the error of a failed connection *)
  server_of : obj k -> ServerReference;   (* Spec.Server *)
  phase : obj k -> string;
  StartTime : obj k -> option Z;
  (* Status.Phase = p, Status.StartTime = &t *)
  set_phase : string -> obj k -> obj k;
  set_start : Z -> obj k -> obj k;
  (* the condition Ready and the observed generation *)
  set_ready : string -> string -> string -> obj k -> obj k
}.

(** Same specification and same status: what two versions of an object that
    differ in metadata alone share. *)
Definition same_content (k : Kind) : obj k -> obj k -> Prop :=
  match k return obj k -> obj k -> Prop with
  | KDatabase | KLogin | KDatabaseUser | KSchema | KPermission
  | KBackup | KRestore | KScheduledBackup | KAGFailover | KAvailabilityGroup | KSQLServer
  | KSecret | KPod | KLease | KConfigMap | KService | KStatefulSet =>
      fun a b => o_spec a = o_spec b /\ o_status a = o_status b
  end.

Class OneShotLaws (k : Kind) `{OneShot k} := {
  phase_set_phase p o : phase (set_phase p o) = p;
  phase_set_start t o : phase (set_start t o) = phase o;
  phase_set_ready st r m o : phase (set_ready st r m o) = phase o;
  phase_content a b : same_content k a b -> phase a = phase b;
  meta_set_phase p o : obj_meta k (set_phase p o) = obj_meta k o;
  meta_set_start t o : obj_meta k (set_start t o) = obj_meta k o;
  meta_set_ready st r m o : obj_meta k (set_ready st r m o) = obj_meta k o;
  ready_set_ready `{!KubeUtilLaws} st r m o :
    is_ready (obj_conditions k (set_ready st r m o)) <-> st = ConditionTrue
}.

(** ** The operations the copies share *)
Section Ops.
Context `{GoEnv} {K D Conn : Type} `{KubeClient K} `{SQLClient Conn D} `{KubeUtil}.
Context (k : Kind) `{!OneShot k}.
Abbreviation M A := (Go (World K D Conn) ReconcileResult A).

(** [setBackupStatus], [setRestoreStatus], [setFailoverStatus]. *)
Definition set_status (o : obj k) (ph condStatus reason message : string) : M ReconcileResult :=
  try_write (StatusPatch k o (set_ready condStatus reason message (set_phase ph o))) ;;
  return_ (Result0, None).

(** The transition to Running, when the object is not there yet: write the
    phase, fetch the object again, record when it started. *)
Definition begin_run (req : NamespacedName) (now : Z) (o : obj k) (reason message : string)
    : M (obj k) :=
  if String.eqb (phase o) PhaseRunning then mret o
  else
    r ← fn (set_status o PhaseRunning ConditionFalse reason message);
    on_err r.2 (fun e => return_ (Result0, Some e)) ;;
    o ← try_write (Get k req);
    match StartTime o with
    | None => try_write (StatusPatch k o (set_start now o))
    | Some _ => mret o
    end.

(** The reconcile of a one-shot kind: [body] is what runs once connected. *)
Variable factory : ClientFactory Conn D.
Variable body : NamespacedName -> obj k -> Conn -> M ReconcileResult.

(** From the credentials on. *)
Definition reconcile_active (req : NamespacedName) (o : obj k) : M ReconcileResult :=
  let secretName := sec_Name (CredentialsSecret (server_of o)) in
  r ← getCredentialsFromSecret (Namespace (obj_meta k o)) secretName;
  match r with
  | inr err =>
      if IsNotFound err then
        set_status o PhaseFailed ConditionFalse ReasonSecretNotFound
          (Sprintf "Secret %q not found" [strconv_quote secretName])
      else set_status o PhaseFailed ConditionFalse ReasonInvalidCredentialsSecret (err_text err)
  | inl (username, password) =>
      r ← connectToSQL (server_of o) username password factory;
      match r with
      | inr err =>
          Event EventTypeWarning ReasonConnectionFailed (err_text err) ;;
          fail (connect_failed (k := k)) err
      | inl c => defer_ (sql c "Close" [] Close ;; mret tt) (body req o c)
      end
  end.

Definition reconcile_one_shot (req : NamespacedName) : M ReconcileResult :=
  _ ← Now;
  defer_ (_ ← Now; Metric "ReconcileDuration" [kind_name (k := k)] Observed) (
    r ← Get k req;
    match r with
    | inr err => if IsNotFound err then return_ (Result0, None) else return_ (Result0, Some err)
    | inl o => if terminal (phase o) then return_ (Result0, None) else reconcile_active req o
    end).
End Ops.

(** ** What a reconcile may do *)
Section Allowed.
Context `{GoEnv} {K D Conn : Type} `{KubeClient K} `{SQLClient Conn D} `{KubeUtil}.
Context (k : Kind) `{!OneShot k}.
Implicit Types (o : obj k).

(** [b] is the object of a run of [o0] that is Running: [o0] itself, if it was
    found so; otherwise a patch of its status to Running was accepted, [b] was
    fetched after it, and has a start time, written by a second patch if it had
    none. *)
Definition running (req : NamespacedName) o0 (b : obj k) : Prop :=
  (phase o0 = "Running" /\ b = o0) \/
  exists r s1 o1 s2 b0 s3, phase r = "Running" /\ kube_StatusPatch k o0 r s1 = (inl o1, s2) /\
    kube_Get k req s2 = (inl b0, s3) /\
    ((StartTime b0 <> None /\ b = b0) \/
     (StartTime b0 = None /\ exists t s4, kube_StatusPatch k b0 (set_start t b0) s3 = (inl b, s4))).

(** The edges of the phase machine; Completed needs the [evidence] that the
    operation succeeded, and only Completed comes with Ready=True. *)
Inductive one_shot_write (evidence : D -> Prop) o0 (base o : obj k) (d : D) : Prop :=
| write_running : base = o0 -> phase o0 <> "Running" ->
    phase o = "Running" -> ~ is_ready (obj_conditions k o) -> one_shot_write evidence o0 base o d
| write_start t : phase o0 <> "Running" -> StartTime base = None -> o = set_start t base ->
    one_shot_write evidence o0 base o d
| write_failed : phase o = "Failed" -> ~ is_ready (obj_conditions k o) ->
    one_shot_write evidence o0 base o d
| write_completed : phase o = "Completed" -> evidence d -> one_shot_write evidence o0 base o d.

(** The actions of a one-shot reconcile. Metrics are always reported; anything
    else takes an [active] object [o0]: status writes along these edges, SQL
    calls on a connection to the server of [o0], and what is not a write. *)
Definition one_shot_action (factory : ClientFactory Conn D) (active : obj k -> Prop)
    (evidence : obj k -> D -> Prop) (call : obj k -> Conn -> D -> string -> list string -> Prop)
    (a : Action Conn) (d : D) : Prop :=
  match a with
  | AMetric _ _ _ => True
  | AStatusPatch k' base o => exists o0, active o0 /\ exists e : k' = k,
      one_shot_write (evidence o0) o0 (eq_rect k' obj base k e) (eq_rect k' obj o k e) d
  | ASql c m args => exists o0, active o0 /\ connected factory (server_of o0) c /\
      (m = "Close" \/ call o0 c d m args)
  | AConnect host _ _ _ _ _ => exists o0, active o0 /\ host = Host (server_of o0)
  | AEvent _ _ _ => exists o0, active o0
  | AUpdate _ _ | ACreate _ _ | ADelete _ _ | APatch _ _ _ => False
  end.
End Allowed.

(** ** An API server without concurrent writers

    What the one-shot guarantee needs of the store: reads see the last write,
    and an accepted status patch of the stored object stores the object as
    patched, with new metadata but the same name. A patch that returns an error
    may or may not have been applied. *)
Class KubeStore (K : Type) `{KubeClient K} := {
  stored : forall k, NamespacedName -> K -> option (obj k);
  stored_key k key s o : stored k key s = Some o ->
    mkKey (Namespace (obj_meta k o)) (Name (obj_meta k o)) = key;
  Get_stored k key s r s' : kube_Get k key s = (r, s') ->
    (forall k' key', stored k' key' s' = stored k' key' s) /\
    match r with
    | inl o => stored k key s = Some o
    | inr err => IsNotFound err = true -> stored k key s = None
    end;
  StatusPatch_stored k key base o s o' s' : kube_StatusPatch k base o s = (inl o', s') ->
    stored k key s = Some base -> obj_meta k o = obj_meta k base ->
    stored k key s' = Some o' /\ same_content k o o'
}.

(** ** Rules *)
Section Rules.
Context `{GoEnv} {K D Conn : Type} `{KubeClient K} `{SQLClient Conn D} `{KubeUtil}.
Context (k : Kind) `{!OneShot k}.
Abbreviation W := (World K D Conn).
Implicit Types (w : W) (o : obj k) (P : Action Conn -> D -> Prop).

(** The write [set_status] asks for. *)
Definition status_write (ph st reason message : string) (o : obj k) : Action Conn :=
  AStatusPatch k o (set_ready st reason message (set_phase ph o)).

Section Writes.
Context `{!OneShotLaws k} `{!KubeUtilLaws} (factory : ClientFactory Conn D) (active : obj k -> Prop)
  (evidence : obj k -> D -> Prop) (call : obj k -> Conn -> D -> string -> list string -> Prop).
Context (o0 : obj k) (Hactive : active o0).
Abbreviation P1 := (one_shot_action k factory active evidence call).

Lemma may_run r m d : phase o0 <> "Running" -> P1 (status_write PhaseRunning ConditionFalse r m o0) d.
Proof.
  intros Hr. exists o0. split; [done|]. exists eq_refl.
  apply write_running; cbn; rewrite ?phase_set_ready, ?phase_set_phase; [done..|].
  by rewrite ready_set_ready.
Qed.
Lemma may_fail r m o d : P1 (status_write PhaseFailed ConditionFalse r m o) d.
Proof.
  exists o0. split; [done|]. exists eq_refl.
  apply write_failed; cbn; rewrite ?phase_set_ready, ?phase_set_phase; [done|].
  by rewrite ready_set_ready.
Qed.
Lemma may_start t o d : phase o0 <> "Running" -> StartTime o = None -> P1 (AStatusPatch k o (set_start t o)) d.
Proof. intros Hr Hs. exists o0. split; [done|]. exists eq_refl. by eapply write_start. Qed.
Lemma may_complete base o d : phase o = "Completed" -> evidence o0 d -> P1 (AStatusPatch k base o) d.
Proof. intros Hp He. exists o0. split; [done|]. exists eq_refl. by apply write_completed. Qed.
Lemma may_event ty r m d : P1 (AEvent ty r m) d.
Proof. by exists o0. Qed.
Lemma may_call c m args d : connected factory (server_of o0) c -> m = "Close" \/ call o0 c d m args ->
  P1 (ASql c m args) d.
Proof. intros Hc Hm. by exists o0. Qed.

(** Failing is always allowed, and ends the reconcile. *)
Lemma does_fail_status o r m w :
  does P1 (set_status k o PhaseFailed ConditionFalse r m) (fun _ _ => False) (fun _ _ => True) w.
Proof.
  unfold set_status, try_write. do 4 does_step; [apply may_fail|]. does_step.
  destruct x; by repeat does_step.
Qed.

(** The transition to Running does not touch the SQL servers, and goes on with
    an object that is running. *)
Lemma does_begin_run req now reason msg F (E : ReconcileResult -> W -> Prop) w :
  (forall b w', w_sql w' = w_sql w -> running k req o0 b -> F b w') ->
  (forall r w', E r w') ->
  does P1 (begin_run k req now o0 reason msg) F E w.
Proof.
  intros HF HE. unfold begin_run, set_status.
  destruct (String.eqb_spec (phase o0) PhaseRunning) as [Hr|Hr]; [does_step; apply HF; [done|by left]|].
  unfold try_write, on_err. do 6 does_step; [by apply may_run|]. does_step.
  destruct x as [o1|e]; [|does_step; cbn; by repeat does_step].
  do 2 does_step. cbn. do 5 does_step.
  destruct x as [o2|e]; [|by does_step]. does_step.
  assert (Hph : phase (set_ready ConditionFalse reason msg (set_phase PhaseRunning o0)) = "Running")
    by by rewrite phase_set_ready, phase_set_phase.
  destruct (StartTime o2) eqn:Hst.
  { does_step. apply HF; [done|]. right. do 6 eexists. split_and!; [exact Hph|done|done|]. left. by rewrite Hst. }
  do 3 does_step; [by apply may_start|]. does_step.
  destruct x as [o3|e]; does_step; [|done]. apply HF; [done|].
  right. do 6 eexists. split_and!; [exact Hph|done|done|]. right. split; [done|]. by do 2 eexists.
Qed.
End Writes.

Ltac permit ::=
  lazymatch goal with
  | |- _ (AEvent _ _ _) _ => by eexists
  | |- _ (AConnect _ _ _ _ _ _) _ => by eexists
  | |- _ (ASql _ "Close" _) _ => eexists; split; [eassumption|split; [eassumption|by left]]
  | |- _ => done
  end.
(** A reconcile is as well behaved as its body, which is reached only with the
    object fetched, when it is not in a final phase. *)
Definition active (req : NamespacedName) w o : Prop :=
  (exists s', kube_Get k req (w_kube w) = (inl o, s')) /\ phase o <> "Completed" /\ phase o <> "Failed".
Lemma one_shot_actions `{!OneShotLaws k} `{!KubeUtilLaws} factory body req w evidence call :
  let P1 := one_shot_action k factory (active req w) evidence call in
  (forall o c w', active req w o -> connected factory (server_of o) c ->
     does P1 (body req o c) (fun _ _ => False) (fun _ _ => True) w') ->
  performs P1 (reconcile_one_shot k factory body req) w.
Proof.
  intros P1 Hbody. apply performs_intro. unfold reconcile_one_shot. do 5 does_step.
  destruct x as [o|e]; [|by does_all].
  destruct (terminal (phase o)) eqn:Ht; [by does_all|].
  assert (Ho : active req w o).
  { apply orb_false_iff in Ht as [Hc Hf]. apply String.eqb_neq in Hc, Hf. split_and!; [by eexists|done|done]. }
  unfold reconcile_active. does_step. does_helper. destruct r as [[user pass]|err].
  - cbn beta iota. does_step. does_helper.
    + by does_all.
    + does_step. eapply does_post; [by apply Hbody|done|intros].
      by does_all.
  - destruct (IsNotFound err); (eapply does_post; [by eapply does_fail_status|done|intros; by does_all]).
Qed.
End Rules.

(** The same, in a store without concurrent writers: the stored object is known
    all along. *)
Section StoreRules.
Context `{GoEnv} {K D Conn : Type} `{KubeClient K} `{SQLClient Conn D} `{KubeUtil}.
Context (k : Kind) `{!OneShot k} `{!OneShotLaws k} `{!KubeStore K}.
Abbreviation W := (World K D Conn).
Implicit Types (w : W) (o : obj k) (E : ReconcileResult -> W -> Prop).
Abbreviation all := (fun (_ : Action Conn) (_ : D) => True).

Definition at_store (req : NamespacedName) (o : obj k) w : Prop := stored k req (w_kube w) = Some o.

Lemma does_patch_stored req base o (F : obj k -> W -> Prop) E w :
  at_store req base w -> obj_meta k o = obj_meta k base ->
  (forall o' w', at_store req o' w' -> phase o' = phase o -> F o' w') ->
  (forall e w', E (Result0, Some e) w') ->
  does all (try_write (StatusPatch k base o)) F E w.
Proof.
  intros Hs Hm HF HE. unfold try_write, at_store in *. do 4 does_step.
  destruct x as [o'|e]; does_step; [|done].
  edestruct StatusPatch_stored as [Hs' Hc]; [eassumption..|].
  apply HF; [done|]. symmetry. by apply phase_content.
Qed.

Lemma does_refetch req o (F : obj k -> W -> Prop) E w :
  at_store req o w ->
  (forall w', at_store req o w' -> w_sql w' = w_sql w -> F o w') ->
  (forall e w', E (Result0, Some e) w') ->
  does all (try_write (Get k req)) F E w.
Proof.
  intros Hs HF HE. unfold try_write, at_store in *. do 2 does_step.
  edestruct Get_stored as [Hsame Hget]; [eassumption|].
  destruct x as [o'|e]; does_step; [|done]. rewrite Hs in Hget. injection Hget as <-.
  apply HF; [|done]. cbn. by rewrite Hsame.
Qed.

(** Reading a Secret changes nothing in the store. *)
Lemma does_credentials_stored {R} req o ns name F (E : R -> W -> Prop) w :
  at_store req o w ->
  (forall r w', at_store req o w' -> F r w') ->
  does all (getCredentialsFromSecret ns name) F E w.
Proof.
  intros Hs HF. unfold getCredentialsFromSecret, at_store in *. do 2 does_step.
  edestruct (Get_stored KSecret) as [Hsame _]; [eassumption|].
  does_all; apply HF; cbn; by rewrite Hsame, Hs.
Qed.

Lemma does_set_status_stored req o ph st r m E w :
  at_store req o w ->
  (forall o' w', at_store req o' w' -> phase o' = ph -> E (Result0, None) w') ->
  (forall e w', E (Result0, Some e) w') ->
  does all (set_status k o ph st r m) (fun _ _ => False) E w.
Proof.
  intros Hs HN HE. unfold set_status. does_step.
  eapply does_patch_stored; [done|by rewrite meta_set_ready, meta_set_phase| |done].
  intros o' w' Hs' Hp. does_step. eapply HN; [done|]. by rewrite Hp, phase_set_ready, phase_set_phase.
Qed.

Lemma does_begin_run_stored req now o r m (F : obj k -> W -> Prop) E w :
  at_store req o w ->
  (forall o' w', at_store req o' w' -> phase o' = PhaseRunning -> F o' w') ->
  (forall e w', E (Result0, Some e) w') ->
  does all (begin_run k req now o r m) F E w.
Proof.
  intros Hs HF HE. unfold begin_run.
  destruct (String.eqb_spec (phase o) PhaseRunning) as [Hr|Hr]; [does_step; by apply HF|].
  do 2 does_step. eapply does_post; [apply (does_set_status_stored req o PhaseRunning _ _ _ (fun res w' =>
    res.2 = None -> exists o', at_store req o' w' /\ phase o' = PhaseRunning)); by eauto|done|].
  intros res w1 Hres. cbn. does_step. destruct (res.2) as [e|] eqn:He; cbn; [by does_step|].
  destruct (Hres He) as (o1 & Hs1 & Hp1). do 2 does_step.
  eapply does_refetch; [exact Hs1| |done]. intros w2 Hs2 _.
  destruct (StartTime o1); [does_step; by apply HF|].
  eapply does_patch_stored; [done|apply meta_set_start| |done].
  intros o3 w3 Hs3 Hp3. apply HF; [done|]. by rewrite Hp3, phase_set_start.
Qed.

(** *** One shot
    A reconcile that reports no error leaves the object in a final phase; an
    object in a final phase is left alone. *)
Definition settled (req : NamespacedName) (r : ReconcileResult) w : Prop :=
  r.2 = None -> exists o, at_store req o w /\ terminal (phase o) = true.

Lemma fail_settles req o r m w :
  at_store req o w ->
  does all (set_status k o PhaseFailed ConditionFalse r m) (fun _ _ => False) (settled req) w.
Proof.
  intros Hs. eapply does_set_status_stored; [exact Hs| |done].
  intros o' w' Hs' Hp _. exists o'. by rewrite Hp.
Qed.

(** Writing [complete] of the object as it is now stored settles it. *)
Lemma complete_settles req o (complete : obj k -> obj k) (rest : Go W ReconcileResult ReconcileResult) w :
  at_store req o w ->
  (forall o, phase (complete o) = PhaseCompleted /\ obj_meta k (complete o) = obj_meta k o) ->
  (forall o w, at_store req o w -> does all rest (fun _ _ => False) (fun _ => at_store req o) w) ->
  does all (o ← try_write (Get k req); try_write (StatusPatch k o (complete o)) ;; rest)
    (fun _ _ => False) (settled req) w.
Proof.
  intros Hs Hc Hrest. does_step. eapply does_refetch; [exact Hs| |done]. intros w1 Hs1 _. does_step.
  eapply does_patch_stored; [exact Hs1|apply Hc| |done]. intros o' w2 Hs2 Hp.
  eapply does_post; [by apply Hrest|done|]. intros r w3 Hs3 _.
  exists o'. by rewrite Hp, (proj1 (Hc o)).
Qed.

Section Frame.
Context (factory : ClientFactory Conn D)
  (body : NamespacedName -> obj k -> Conn -> Go W ReconcileResult ReconcileResult).
Context (Hbody : forall req o c w, at_store req o w ->
  does all (body req o c) (fun _ _ => False) (settled req) w).
Abbreviation Reconcile := (reconcile_one_shot k factory body).

Lemma finished_untouched req o w :
  at_store req o w -> terminal (phase o) = true ->
  performs (fun a _ => match a with AMetric _ _ _ => True | _ => False end) (Reconcile req) w.
Proof.
  intros Hs Ht. apply performs_intro. unfold reconcile_one_shot. do 5 does_step.
  edestruct Get_stored as [_ Hget]; [eassumption|]. destruct x as [o'|e]; [|by does_all].
  unfold at_store in Hs. cbn in Hget. rewrite Hs in Hget. injection Hget as <-. rewrite Ht. by does_all.
Qed.

Lemma reconcile_settles req o w :
  at_store req o w -> does all (Reconcile req) (fun _ _ => False) (settled req) w.
Proof.
  intros Hs. unfold reconcile_one_shot. do 5 does_step.
  edestruct Get_stored as [Hsame Hget]; [eassumption|].
  assert (Hs' : stored k req k' = Some o) by by rewrite Hsame.
  unfold at_store in Hs. cbn in Hget. destruct x as [o'|e].
  - rewrite Hs in Hget. injection Hget as <-.
    destruct (terminal (phase o)) eqn:Ht; [does_all; intros _; by exists o|].
    unfold reconcile_active. does_step. eapply does_credentials_stored; [exact Hs'|].
    intros [[user pass]|err] w1 Hs1.
    + cbn beta iota. does_step. does_helper; [by does_all|]. does_step.
      eapply does_post; [by apply Hbody|done|intros; by does_all].
    + destruct (IsNotFound err); (eapply does_post; [by apply fail_settles|done|intros; by does_all]).
  - unfold settled. destruct (IsNotFound e) eqn:He; does_all; [|done]. rewrite Hget in Hs; done.
Qed.

(** The one-shot guarantee. *)
Lemma one_shot_settles req o res w w' :
  at_store req o w -> Reconcile req w = (Return (res, None), w') ->
  exists o', at_store req o' w' /\ terminal (phase o') = true /\
    forall w2, w_kube w2 = w_kube w' ->
      performs (fun a _ => match a with AMetric _ _ _ => True | _ => False end) (Reconcile req) w2.
Proof.
  intros Hs Hrun. destruct (does_run _ _ _ _ _ _ _ (reconcile_settles req o w Hs) Hrun) as (_ & _ & Hset).
  destruct (Hset eq_refl) as (o' & Hs' & Ht). exists o'. split_and!; [done|done|].
  intros w2 Hk. apply (finished_untouched req o'); [|done]. unfold at_store. by rewrite Hk.
Qed.
End Frame.
End StoreRules.

(** Applies a lemma whose class instances are found last. *)
Tactic Notation "by_law" uconstr(l) := unshelve eapply l; try exact _.

