(* ===== verification/BackupController.v ===== *)
(** * The Backup controller (internal/controller/backup_controller.go)

    One BACKUP DATABASE per Backup object, recorded in the phase of its status. *)
From S2P Require Import Prelude Types SqlClient Kube Helpers OneShot.

Section Instances.
Context `{KubeUtil}.

(** Backup and Restore have the same status fields. *)
Definition with_backup_status {Sp} (p : string) (start completion : option Z)
    (o : Object Sp (CRStatus BackupStatus)) : Object Sp (CRStatus BackupStatus) :=
  with_extra (mkBackupStatus p start completion) o.

#[export] Instance backup_one_shot : OneShot KBackup := {
  kind_name := "Backup";
  connect_failed := "failed to connect to SQL Server";
  server_of := fun b : Backup => bak_Server (o_spec b);
  phase := fun b : Backup => bak_Phase (extra (o_status b));
  StartTime := fun b : Backup => bak_StartTime (extra (o_status b));
  set_phase p := fun b : Backup => with_backup_status p (bak_StartTime (extra (o_status b)))
    (bak_CompletionTime (extra (o_status b))) b;
  set_start t := fun b : Backup => with_backup_status (bak_Phase (extra (o_status b))) (Some t)
    (bak_CompletionTime (extra (o_status b))) b;
  set_ready st r m := fun b : Backup => with_ready st r m b
}.
#[export] Instance backup_one_shot_laws : OneShotLaws KBackup.
Proof.
  split; try done; [by intros a b [_ Hst]; cbn; rewrite Hst|].
  intros ? st r m o. apply is_ready_with.
Qed.
End Instances.

Module BackupCtl.
Section Controller.
Context `{GoEnv} {K D Conn : Type} `{KubeClient K} `{SQLClient Conn D} `{KubeUtil}.
Variable factory : ClientFactory Conn D.
Abbreviation M A := (Go (World K D Conn) ReconcileResult A).

Definition setBackupStatus (backup : Backup) (phase condStatus reason message : string)
    : M ReconcileResult :=
  set_status KBackup backup phase condStatus reason message.

(** The status of step 7. *)
Definition completed (t : Z) (backup : Backup) : Backup :=
  with_ready ConditionTrue "BackupCompleted"
    (Sprintf "Backup of %s completed" [bak_DatabaseName (o_spec backup)])
    (with_backup_status PhaseCompleted (bak_StartTime (extra (o_status backup))) (Some t) backup).

(** Step 7: the backup succeeded. *)
Definition complete (req : NamespacedName) (backup : Backup) : M ReconcileResult :=
  Event EventTypeNormal "BackupCompleted"
    (Sprintf "Backup of %s completed to %s"
       [bak_DatabaseName (o_spec backup); bak_Destination (o_spec backup)]) ;;
  completionTime ← Now;
  backup ← try_write (Get KBackup req);
  try_write (StatusPatch KBackup backup (completed completionTime backup)) ;;
  Metric "ReconcileTotal" ["Backup"; "success"] Inc ;;
  return_ (Result0, None).

(** Step 6: the BACKUP DATABASE statement of a spec, and its arguments. *)
Definition compression (spec : BackupSpec) : bool := default false (bak_Compression spec).
Definition backup_args (spec : BackupSpec) : list string :=
  [bak_DatabaseName spec; bak_Destination spec; bak_Type spec;
   if compression spec then "true" else "false"].
Definition run_backup (spec : BackupSpec) : Op Conn D :=
  BackupDatabase (bak_DatabaseName spec) (bak_Destination spec) (bak_Type spec) (compression spec).

(** Steps 5 to 7, once connected. *)
Definition reconcile_connected (req : NamespacedName) (backup : Backup) (c : Conn) : M ReconcileResult :=
  now ← Now;
  backup ← begin_run KBackup req now backup "BackupRunning"
             (Sprintf "Backup of %s started" [bak_DatabaseName (o_spec backup)]);
  err ← sql c "BackupDatabase" (backup_args (o_spec backup)) (run_backup (o_spec backup));
  match err with
  | Some e =>
      Event EventTypeWarning "BackupFailed" (err_text e) ;;
      Metric "ReconcileErrors" ["Backup"; "BackupFailed"] Inc ;;
      setBackupStatus backup PhaseFailed ConditionFalse "BackupFailed"
        (Sprintf "Backup failed: %v" [err_text e])
  | None => complete req backup
  end.

Definition Reconcile : NamespacedName -> M ReconcileResult :=
  reconcile_one_shot KBackup factory reconcile_connected.

(** ** Theorems *)
Context `{!KubeUtilLaws}.
Implicit Types (w : World K D Conn) (backup : Backup).

(** The object fetched when a reconcile starts in [w], not in a final phase. *)
Definition pending (req : NamespacedName) w (b0 : Backup) : Prop :=
  (exists s', kube_Get KBackup req (w_kube w) = (inl b0, s')) /\
  bak_Phase (extra (o_status b0)) <> "Completed" /\ bak_Phase (extra (o_status b0)) <> "Failed".
Definition running (req : NamespacedName) (b0 b : Backup) : Prop := OneShot.running KBackup req b0 b.
(** The backup its spec describes succeeded on its server and left the servers in [d]. *)
Definition backed_up (req : NamespacedName) (b0 : Backup) (d : D) : Prop :=
  exists b c d0, running req b0 b /\ connected factory (bak_Server (o_spec b0)) c /\
    BackupDatabase (bak_DatabaseName (o_spec b)) (bak_Destination (o_spec b)) (bak_Type (o_spec b))
      (bool_decide (bak_Compression (o_spec b) = Some true)) c d0 = (None, d).
(** The only statement that runs, once the object is Running. *)
Definition backup_call (req : NamespacedName) (b0 : Backup) (c : Conn) (d : D) (m : string)
    (args : list string) : Prop :=
  exists b, running req b0 b /\ connected factory (bak_Server (o_spec b0)) c /\ m = "BackupDatabase" /\
    args = [bak_DatabaseName (o_spec b); bak_Destination (o_spec b); bak_Type (o_spec b);
            if bool_decide (bak_Compression (o_spec b) = Some true) then "true" else "false"].
Definition backup_action (req : NamespacedName) w : Action Conn -> D -> Prop :=
  one_shot_action KBackup factory (pending req w) (backed_up req) (backup_call req).

Lemma compression_spec spec : compression spec = bool_decide (bak_Compression spec = Some true).
Proof. unfold compression. by destruct (bak_Compression spec) as [[]|]. Qed.

Ltac permit ::= solve [ done | by eapply (may_event KBackup) ].

Lemma backup_connected_actions req w0 b0 c w :
  pending req w0 b0 -> connected factory (bak_Server (o_spec b0)) c ->
  does (backup_action req w0) (reconcile_connected req b0 c) (fun _ _ => False) (fun _ _ => True) w.
Proof.
  intros Hb Hc. unfold reconcile_connected, backup_args, run_backup. do 3 does_step.
  eapply (does_begin_run KBackup); [done| |done]. intros b w' _ Hrun. rewrite compression_spec.
  do 3 does_step. { apply (may_call KBackup _ _ _ _ b0); [done|done|]. right. by exists b. } does_step.
  destruct x as [e|]; unfold setBackupStatus; [do 4 does_step; by eapply (does_fail_status KBackup)|].
  unfold complete. does_all; try done. apply (may_complete KBackup _ _ _ _ b0); [done|done|].
  by exists b, c, (w_sql w').
Qed.

(** C34: every reconcile of a Backup returns, and for an object not found, or
    found Completed or Failed, does nothing but report metrics. Otherwise it
    connects only to the server the object names, runs no statement but the
    backup of the database, to the destination, of the type and with
    compression exactly when the spec sets it to true, once the object is
    Running (found so, or fetched again after the API server accepted the
    patch to Running, with its start time recorded), and writes nothing but
    statuses along the phase machine: Running from another phase, the start
    time where there was none, Failed, and Completed (the only one written
    with Ready=True) right after that backup succeeded. *)
Theorem backup_reconcile_sound req w : performs (backup_action req w) (Reconcile req) w.
Proof.
  refine (one_shot_actions KBackup factory reconcile_connected req w (backed_up req) (backup_call req) _).
  intros. by apply backup_connected_actions.
Qed.

(** *** One shot *)
Section Settled.
Context `{!KubeStore K}.
Abbreviation all := (fun (_ : Action Conn) (_ : D) => True).

Lemma backup_connected_settles req (b : obj KBackup) c w :
  at_store KBackup req b w ->
  does all (reconcile_connected req b c) (fun _ _ => False) (settled KBackup req) w.
Proof.
  intros Hs. unfold reconcile_connected. do 3 does_step.
  eapply (does_begin_run_stored KBackup); [exact Hs| |done]. intros b' w1 Hs1 _.
  do 4 does_step. destruct x as [e|]; [do 4 does_step; by by_law (fail_settles KBackup)|].
  unfold complete. do 4 does_step.
  eapply (complete_settles KBackup _ b' (completed _) (Metric _ _ _ ;; return_ _)); [exact Hs1|done|].
  intros. by do 3 does_step.
Qed.

(** A backup runs once. *)
Theorem backup_settles req (b : obj KBackup) res w w' :
  at_store KBackup req b w -> Reconcile req w = (Return (res, None), w') ->
  exists b', at_store KBackup req b' w' /\ terminal (phase b') = true /\
    forall w2, w_kube w2 = w_kube w' ->
      performs (fun a _ => match a with AMetric _ _ _ => True | _ => False end) (Reconcile req) w2.
Proof. by_law (one_shot_settles KBackup). apply backup_connected_settles. Qed.
End Settled.
End Controller.
End BackupCtl.
