(* ===== verification/RestoreController.v ===== *)
(** * The Restore controller (internal/controller/restore_controller.go)

    One restore per Restore object: to a point in time, with moved files, or
    plain, by the fields of the specification. *)
From S2P Require Import Prelude Types SqlClient Kube Helpers OneShot BackupController.

Section Instances.
Context `{KubeUtil}.
#[export] Instance restore_one_shot : OneShot KRestore := {
  kind_name := "Restore";
  connect_failed := "failed to connect to SQL Server";
  server_of := fun r : Restore => rst_Server (o_spec r);
  phase := fun r : Restore => bak_Phase (extra (o_status r));
  StartTime := fun r : Restore => bak_StartTime (extra (o_status r));
  set_phase p := fun r : Restore => with_backup_status p (bak_StartTime (extra (o_status r)))
    (bak_CompletionTime (extra (o_status r))) r;
  set_start t := fun r : Restore => with_backup_status (bak_Phase (extra (o_status r))) (Some t)
    (bak_CompletionTime (extra (o_status r))) r;
  set_ready st r m := fun o : Restore => with_ready st r m o
}.
#[export] Instance restore_one_shot_laws : OneShotLaws KRestore.
Proof.
  split; try done; [by intros a b [_ Hst]; cbn; rewrite Hst|].
  intros ? st r m o. apply is_ready_with.
Qed.
End Instances.

Module RestoreCtl.
(** The file moves as a Go map: a later entry for the same logical name wins. *)
Definition moves (ms : list FileMapping) : gmap string string :=
  fold_left (fun acc m => <[fm_LogicalName m := fm_PhysicalPath m]> acc) ms ∅.

(** What the map of file moves must be: each logical name goes to the path of its
    last entry. *)
Definition last_move (ms : list FileMapping) (l p : string) : Prop :=
  exists before m after, ms = before ++ m :: after /\ fm_LogicalName m = l /\ fm_PhysicalPath m = p /\
    Forall (fun m' => fm_LogicalName m' <> l) after.
Lemma moves_spec ms l p : moves ms !! l = Some p <-> last_move ms l p.
Proof.
  unfold moves, last_move. induction ms as [|m ms IH] using rev_ind; cbn.
  { rewrite lookup_empty. split; [done|]. by intros ([] & ? & ? & ? & _). }
  rewrite fold_left_app. cbn. rewrite lookup_insert_Some, IH. split.
  - intros [[Hl Hp]|[Hne (b & m' & a & -> & Hl & Hp & Ha)]].
    + by exists ms, m, [].
    + exists b, m', (a ++ [m]). split_and!; [by rewrite <- (assoc_L (++))|done|done|].
      apply Forall_app. split; [done|by constructor].
  - intros (b & m' & a & Heq & Hl & Hp & Ha). destruct a as [|x a _] using rev_ind.
    + apply app_inj_tail in Heq as [-> ->]. by left.
    + rewrite app_comm_cons, (assoc_L (++)) in Heq. apply app_inj_tail in Heq as [-> ->].
      apply Forall_app in Ha as [Ha Hx]. inversion Hx; subst. right. split; [done|]. by exists b, m', a.
Qed.

Section Controller.
Context `{GoEnv} {K D Conn : Type} `{KubeClient K} `{SQLClient Conn D} `{KubeUtil}.
Variable factory : ClientFactory Conn D.
Abbreviation M A := (Go (World K D Conn) ReconcileResult A).

Definition setRestoreStatus (restore : Restore) (phase condStatus reason message : string)
    : M ReconcileResult :=
  set_status KRestore restore phase condStatus reason message.

Definition completed (t : Z) (restore : Restore) : Restore :=
  with_ready ConditionTrue "RestoreCompleted"
    (Sprintf "Restore of %s completed" [rst_DatabaseName (o_spec restore)])
    (with_backup_status PhaseCompleted (bak_StartTime (extra (o_status restore))) (Some t) restore).

(** Step 7: the restore succeeded. *)
Definition complete (req : NamespacedName) (restore : Restore) : M ReconcileResult :=
  Event EventTypeNormal "RestoreCompleted"
    (Sprintf "Restore of %s completed from %s"
       [rst_DatabaseName (o_spec restore); rst_Source (o_spec restore)]) ;;
  completionTime ← Now;
  restore ← try_write (Get KRestore req);
  try_write (StatusPatch KRestore restore (completed completionTime restore)) ;;
  Metric "ReconcileTotal" ["Restore"; "success"] Inc ;;
  return_ (Result0, None).

(** Step 6: the call a specification asks for, with its name and arguments. *)
Definition restore_call (spec : RestoreSpec) : string * list string * Op Conn D :=
  let db := rst_DatabaseName spec in
  match rst_StopAt spec, rst_LogSource spec, rst_WithMove spec with
  | Some stopAt, Some logSource, _ =>
      ("RestoreDatabasePIT", [db; rst_Source spec; logSource; stopAt],
       RestoreDatabasePIT db (rst_Source spec) logSource stopAt)
  | _, _, [] => ("RestoreDatabase", [db; rst_Source spec], RestoreDatabase db (rst_Source spec))
  | _, _, ms =>
      ("RestoreDatabaseWithMove", [db; rst_Source spec],
       RestoreDatabaseWithMove db (rst_Source spec) (moves ms))
  end.

(** Steps 5 to 7, once connected. *)
Definition reconcile_connected (req : NamespacedName) (restore : Restore) (c : Conn)
    : M ReconcileResult :=
  now ← Now;
  restore ← begin_run KRestore req now restore "RestoreRunning"
              (Sprintf "Restore of %s started" [rst_DatabaseName (o_spec restore)]);
  let '(method, args, op) := restore_call (o_spec restore) in
  err ← sql c method args op;
  match err with
  | Some e =>
      Event EventTypeWarning "RestoreFailed" (err_text e) ;;
      Metric "ReconcileErrors" ["Restore"; "RestoreFailed"] Inc ;;
      setRestoreStatus restore PhaseFailed ConditionFalse "RestoreFailed"
        (Sprintf "Restore failed: %v" [err_text e])
  | None => complete req restore
  end.

Definition Reconcile : NamespacedName -> M ReconcileResult :=
  reconcile_one_shot KRestore factory reconcile_connected.

(** ** Theorems *)
Context `{!KubeUtilLaws}.
Implicit Types (w : World K D Conn) (restore : Restore).

(** The object fetched when a reconcile starts in [w], not in a final phase. *)
Definition pending (req : NamespacedName) w (r0 : Restore) : Prop :=
  (exists s', kube_Get KRestore req (w_kube w) = (inl r0, s')) /\
  bak_Phase (extra (o_status r0)) <> "Completed" /\ bak_Phase (extra (o_status r0)) <> "Failed".
Definition running (req : NamespacedName) (r0 r : Restore) : Prop := OneShot.running KRestore req r0 r.

(** The call a spec selects: to a point in time when stopAt and logSource are both
    set; otherwise with moved files when there are some; otherwise plain. *)
Inductive selects (spec : RestoreSpec) : string -> list string -> Op Conn D -> Prop :=
| select_point stopAt logSource :
    rst_StopAt spec = Some stopAt -> rst_LogSource spec = Some logSource ->
    selects spec "RestoreDatabasePIT" [rst_DatabaseName spec; rst_Source spec; logSource; stopAt]
      (RestoreDatabasePIT (rst_DatabaseName spec) (rst_Source spec) logSource stopAt)
| select_move files :
    rst_StopAt spec = None \/ rst_LogSource spec = None -> rst_WithMove spec <> [] ->
    (forall l p, files !! l = Some p <-> last_move (rst_WithMove spec) l p) ->
    selects spec "RestoreDatabaseWithMove" [rst_DatabaseName spec; rst_Source spec]
      (RestoreDatabaseWithMove (rst_DatabaseName spec) (rst_Source spec) files)
| select_plain :
    rst_StopAt spec = None \/ rst_LogSource spec = None -> rst_WithMove spec = [] ->
    selects spec "RestoreDatabase" [rst_DatabaseName spec; rst_Source spec]
      (RestoreDatabase (rst_DatabaseName spec) (rst_Source spec)).

(** The restore its spec selects succeeded on its server and left the servers in [d]. *)
Definition restored (req : NamespacedName) (r0 : Restore) (d : D) : Prop :=
  exists r c d0 m args op, running req r0 r /\ connected factory (rst_Server (o_spec r0)) c /\
    selects (o_spec r) m args op /\ op c d0 = (None, d).
(** The only statement that runs, once the object is Running. *)
Definition restore_call_of (req : NamespacedName) (r0 : Restore) (c : Conn) (d : D) (m : string)
    (args : list string) : Prop :=
  exists r op, running req r0 r /\ connected factory (rst_Server (o_spec r0)) c /\ selects (o_spec r) m args op.
Definition restore_action (req : NamespacedName) w : Action Conn -> D -> Prop :=
  one_shot_action KRestore factory (pending req w) (restored req) (restore_call_of req).

Lemma restore_call_selects spec :
  selects spec (restore_call spec).1.1 (restore_call spec).1.2 (restore_call spec).2.
Proof.
  unfold restore_call. destruct (rst_StopAt spec) eqn:Hs, (rst_LogSource spec) eqn:Hl, (rst_WithMove spec) eqn:Hm;
    cbn [fst snd];
    first [by apply select_point
          |apply select_plain; solve [auto]
          |apply select_move; [auto|by rewrite Hm|intros; rewrite Hm; apply moves_spec]].
Qed.

Ltac permit ::= solve [ done | by eapply (may_event KRestore) ].

Lemma restore_connected_actions req w0 r0 c w :
  pending req w0 r0 -> connected factory (rst_Server (o_spec r0)) c ->
  does (restore_action req w0) (reconcile_connected req r0 c) (fun _ _ => False) (fun _ _ => True) w.
Proof.
  intros Hr Hc. unfold reconcile_connected. do 3 does_step.
  eapply (does_begin_run KRestore); [done| |done]. intros r w' _ Hrun.
  pose proof (restore_call_selects (o_spec r)) as Hsel.
  destruct (restore_call (o_spec r)) as [[m args] op]. cbn in Hsel.
  do 3 does_step. { apply (may_call KRestore _ _ _ _ r0); [done|done|]. right. by exists r, op. } does_step.
  destruct x as [e|]; unfold setRestoreStatus; [do 4 does_step; by eapply (does_fail_status KRestore)|].
  unfold complete. does_all; try done. apply (may_complete KRestore _ _ _ _ r0); [done|done|].
  by exists r, c, (w_sql w'), m, args, op.
Qed.

(** C35: every reconcile of a Restore returns, and for an object not found, or
    found Completed or Failed, does nothing but report metrics. Otherwise it
    connects only to the server the object names, runs no statement but the
    restore its spec selects (to the point in time when stopAt and logSource
    are both set; otherwise with each logical file moved to the last path
    given for it when withMove is not empty; otherwise plain), once the
    object is Running (found so, or fetched again after the API server
    accepted the patch to Running, with its start time recorded), and writes
    nothing but statuses along the phase machine: Running from another
    phase, the start time where there was none, Failed, and Completed (the
    only one written with Ready=True) right after that restore succeeded. *)
Theorem restore_reconcile_sound req w : performs (restore_action req w) (Reconcile req) w.
Proof.
  refine (one_shot_actions KRestore factory reconcile_connected req w (restored req) (restore_call_of req) _).
  intros. by apply restore_connected_actions.
Qed.

(** *** One shot *)
Section Settled.
Context `{!KubeStore K}.
Abbreviation all := (fun (_ : Action Conn) (_ : D) => True).

Lemma restore_connected_settles req (r : obj KRestore) c w :
  at_store KRestore req r w ->
  does all (reconcile_connected req r c) (fun _ _ => False) (settled KRestore req) w.
Proof.
  intros Hs. unfold reconcile_connected. do 3 does_step.
  eapply (does_begin_run_stored KRestore); [exact Hs| |done]. intros r' w1 Hs1 _.
  destruct (restore_call (o_spec r')) as [[m args] op].
  do 4 does_step. destruct x as [e|]; [do 4 does_step; by by_law (fail_settles KRestore)|].
  unfold complete. do 4 does_step.
  eapply (complete_settles KRestore _ r' (completed _) (Metric _ _ _ ;; return_ _)); [exact Hs1|done|].
  intros. by do 3 does_step.
Qed.

(** A restore runs once. *)
Theorem restore_settles req (r : obj KRestore) res w w' :
  at_store KRestore req r w -> Reconcile req w = (Return (res, None), w') ->
  exists r', at_store KRestore req r' w' /\ terminal (phase r') = true /\
    forall w2, w_kube w2 = w_kube w' ->
      performs (fun a _ => match a with AMetric _ _ _ => True | _ => False end) (Reconcile req) w2.
Proof. by_law (one_shot_settles KRestore). apply restore_connected_settles. Qed.
End Settled.
End Controller.
End RestoreCtl.
