(* ===== verification/AgFailoverController.v ===== *)
(** * The AGFailover controller (internal/controller/agfailover_controller.go)

    One manual failover per AGFailover object: it connects to the target
    replica, checks its role, and promotes it. *)
From S2P Require Import Prelude Types SqlClient Kube Helpers OneShot.

Section Instances.
Context `{KubeUtil}.
(** The status with this phase, start and completion. *)
Definition with_failover_status (p : string) (start completion : option Z) (fo : AGFailover)
    : AGFailover :=
  let st := extra (o_status fo) in
  with_extra (mkAGFailoverStatus p start completion (fo_PreviousPrimary st) (fo_NewPrimary st)) fo.

#[export] Instance failover_one_shot : OneShot KAGFailover := {
  kind_name := "AGFailover";
  connect_failed := "failed to connect to target replica";
  server_of := fun fo : AGFailover => fo_Server (o_spec fo);
  phase := fun fo : AGFailover => fo_Phase (extra (o_status fo));
  StartTime := fun fo : AGFailover => fo_StartTime (extra (o_status fo));
  set_phase p := fun fo : AGFailover => with_failover_status p (fo_StartTime (extra (o_status fo)))
    (fo_CompletionTime (extra (o_status fo))) fo;
  set_start t := fun fo : AGFailover => with_failover_status (fo_Phase (extra (o_status fo))) (Some t)
    (fo_CompletionTime (extra (o_status fo))) fo;
  set_ready st r m := fun fo : AGFailover => with_ready st r m fo
}.
#[export] Instance failover_one_shot_laws : OneShotLaws KAGFailover.
Proof.
  split; try done; [by intros a b [_ Hst]; cbn; rewrite Hst|].
  intros ? st r m o. apply is_ready_with.
Qed.
End Instances.

Module FailoverCtl.
(** By elimination: the first other replica that is now a secondary. *)
Definition previous_primary (target : string) (replicas : list AGReplicaState) : string :=
  match List.find (fun rs => negb (String.eqb (ars_ServerName rs) target) &&
                             String.eqb (ars_Role rs) "SECONDARY") replicas with
  | Some rs => ars_ServerName rs
  | None => "unknown"
  end.

Section Controller.
Context `{GoEnv} {K D Conn : Type} `{KubeClient K} `{SQLClient Conn D} `{KubeUtil}.
Variable factory : ClientFactory Conn D.
Abbreviation M A := (Go (World K D Conn) ReconcileResult A).

Definition setFailoverStatus (fo : AGFailover) (phase condStatus reason message : string)
    : M ReconcileResult :=
  set_status KAGFailover fo phase condStatus reason message.

(** The status [setFailoverCompleted] writes. *)
Definition completed (t : Z) (previousPrimary newPrimary message : string) (fo : AGFailover)
    : AGFailover :=
  with_ready ConditionTrue "FailoverCompleted" message
    (with_extra (mkAGFailoverStatus PhaseCompleted (fo_StartTime (extra (o_status fo))) (Some t)
                   previousPrimary newPrimary) fo).

Definition setFailoverCompleted (fo : AGFailover) (previousPrimary newPrimary message : string)
    : M ReconcileResult :=
  completionTime ← Now;
  fo ← try_write (Get KAGFailover (key_of fo));
  try_write (StatusPatch KAGFailover fo
    (completed completionTime previousPrimary newPrimary message fo)) ;;
  return_ (Result0, None).

(** Step 7: the statement, by [spec.force]. *)
Definition force (spec : AGFailoverSpec) : bool := default false (fo_Force spec).
Definition failover_method (spec : AGFailoverSpec) : string :=
  if force spec then "ForceFailoverAG" else "FailoverAG".
Definition failover_op (spec : AGFailoverSpec) : Op Conn D :=
  if force spec then ForceFailoverAG (fo_AGName spec) else FailoverAG (fo_AGName spec).

(** Step 8. *)
Definition report_success (fo : AGFailover) (c : Conn) : M ReconcileResult :=
  let spec := o_spec fo in
  let eventMsg := Sprintf "AG %s failed over to %s" [fo_AGName spec; fo_TargetReplica spec] +:+
                  (if force spec then " (forced, potential data loss)" else "") in
  Event EventTypeNormal "FailoverCompleted" eventMsg ;;
  ' (agStatus, err) ← sql c "GetAGStatus" [fo_AGName spec] (GetAGStatus (fo_AGName spec));
  let previousPrimary := match err with
                         | None => previous_primary (fo_TargetReplica spec) (ags_Replicas agStatus)
                         | Some _ => "unknown"
                         end in
  Metric "ReconcileTotal" ["AGFailover"; "success"] Inc ;;
  setFailoverCompleted fo previousPrimary (fo_TargetReplica spec) eventMsg.

(** Steps 6 to 8: the target is a secondary. *)
Definition promote (req : NamespacedName) (fo : AGFailover) (c : Conn) : M ReconcileResult :=
  now ← Now;
  fo ← begin_run KAGFailover req now fo "FailoverRunning"
         (Sprintf "Failover of AG %s to %s started" [fo_AGName (o_spec fo); fo_TargetReplica (o_spec fo)]);
  err ← sql c (failover_method (o_spec fo)) [fo_AGName (o_spec fo)] (failover_op (o_spec fo));
  match err with
  | Some e =>
      Event EventTypeWarning "FailoverFailed" (err_text e) ;;
      Metric "ReconcileErrors" ["AGFailover"; "FailoverFailed"] Inc ;;
      setFailoverStatus fo PhaseFailed ConditionFalse "FailoverFailed"
        (Sprintf "Failover failed: %v" [err_text e])
  | None => report_success fo c
  end.

(** Steps 5 to 8, once connected to the target. *)
Definition reconcile_connected (req : NamespacedName) (fo : AGFailover) (c : Conn) : M ReconcileResult :=
  let target := fo_TargetReplica (o_spec fo) in
  role ← try_query (sql c "GetAGReplicaRole" [fo_AGName (o_spec fo); target]
                      (GetAGReplicaRole (fo_AGName (o_spec fo)) target))
           "failed to get replica role";
  if String.eqb role "PRIMARY" then
    setFailoverCompleted fo target target "Target is already PRIMARY, no failover needed"
  else if negb (String.eqb role "SECONDARY") then
    setFailoverStatus fo PhaseFailed ConditionFalse "TargetNotSecondary"
      (Sprintf "Target %s has role %s, expected SECONDARY" [target; role])
  else promote req fo c.

Definition Reconcile : NamespacedName -> M ReconcileResult :=
  reconcile_one_shot KAGFailover factory reconcile_connected.

(** ** Theorems *)
Context `{!KubeUtilLaws}.
Implicit Types (w : World K D Conn) (fo : AGFailover).

(** The object fetched when a reconcile starts in [w], not in a final phase. *)
Definition pending (req : NamespacedName) w (fo : AGFailover) : Prop :=
  (exists s', kube_Get KAGFailover req (w_kube w) = (inl fo, s')) /\
  fo_Phase (extra (o_status fo)) <> "Completed" /\ fo_Phase (extra (o_status fo)) <> "Failed".
Definition running (req : NamespacedName) (fo fo' : AGFailover) : Prop :=
  OneShot.running KAGFailover req fo fo'.
(** The target of [fo], asked on the server it names, answered that its role is
    [role], leaving the servers in [d]. *)
Definition target_role (fo : AGFailover) (role : string) (c : Conn) (d : D) : Prop :=
  exists d0, connected factory (fo_Server (o_spec fo)) c /\
    GetAGReplicaRole (fo_AGName (o_spec fo)) (fo_TargetReplica (o_spec fo)) c d0 = ((role, None), d).
(** The failover a spec asks for: forced exactly when [force] is set to true. *)
Inductive asks_for (spec : AGFailoverSpec) : string -> Op Conn D -> Prop :=
| ask_forced : fo_Force spec = Some true ->
    asks_for spec "ForceFailoverAG" (ForceFailoverAG (fo_AGName spec))
| ask_planned : fo_Force spec <> Some true ->
    asks_for spec "FailoverAG" (FailoverAG (fo_AGName spec)).

(** The failover succeeded, and the group was asked for its status since. *)
Definition failed_over (req : NamespacedName) (fo : AGFailover) (c : Conn) (d : D) : Prop :=
  exists fo' m op d0 d1 st, running req fo fo' /\ target_role fo "SECONDARY" c d0 /\
    asks_for (o_spec fo') m op /\ op c d0 = (None, d1) /\ GetAGStatus (fo_AGName (o_spec fo')) c d1 = (st, d).
Definition now_primary (req : NamespacedName) (fo : AGFailover) (d : D) : Prop :=
  exists c, target_role fo "PRIMARY" c d \/ failed_over req fo c d.
(** The target is asked for its role; the failover statement runs when it has just
    been found secondary, once the object is Running; the status of the group
    is asked for. *)
Definition failover_call (req : NamespacedName) (fo : AGFailover) (c : Conn) (d : D) (m : string)
    (args : list string) : Prop :=
  (m = "GetAGReplicaRole" /\ args = [fo_AGName (o_spec fo); fo_TargetReplica (o_spec fo)]) \/
  exists fo', running req fo fo' /\ args = [fo_AGName (o_spec fo')] /\
    (m = "GetAGStatus" \/ target_role fo "SECONDARY" c d /\ exists op, asks_for (o_spec fo') m op).
Definition failover_action (req : NamespacedName) w : Action Conn -> D -> Prop :=
  one_shot_action KAGFailover factory (pending req w) (now_primary req) (failover_call req).

Lemma failover_asked spec : asks_for spec (failover_method spec) (failover_op spec).
Proof. unfold failover_method, failover_op, force. by destruct (fo_Force spec) as [[]|] eqn:?; cbn; constructor; rewrite ?Heqo. Qed.

Section Actions.
Context (req : NamespacedName) (w0 : World K D Conn) (fo : AGFailover) (c : Conn).
Context (Hfo : pending req w0 fo) (Hc : connected factory (fo_Server (o_spec fo)) c).
Ltac permit ::= solve [ done | by eapply (may_event KAGFailover) ].

Lemma may_failover_call m args d : failover_call req fo c d m args -> failover_action req w0 (ASql c m args) d.
Proof. intros Hm. apply (may_call KAGFailover _ _ _ _ fo); auto. Qed.

Lemma set_completed_actions fo' prev new msg w :
  now_primary req fo (w_sql w) ->
  does (failover_action req w0) (setFailoverCompleted fo' prev new msg) (fun _ _ => False) (fun _ _ => True) w.
Proof.
  intros Hp. unfold setFailoverCompleted. does_all; try done.
  by apply (may_complete KAGFailover _ _ _ _ fo).
Qed.

Lemma promote_actions w :
  target_role fo "SECONDARY" c (w_sql w) ->
  does (failover_action req w0) (promote req fo c) (fun _ _ => False) (fun _ _ => True) w.
Proof.
  intros Hrole. unfold promote. do 3 does_step.
  eapply (does_begin_run KAGFailover); [done| |done]. intros fo' w' Hsql Hrun. cbn in Hsql.
  pose proof (failover_asked (o_spec fo')) as Hask. rewrite <- Hsql in Hrole.
  do 3 does_step. { apply may_failover_call. right. exists fo'. split_and!; [done|done|]. right. by eauto. } does_step.
  destruct x as [e|]; unfold setFailoverStatus; [do 4 does_step; by eapply (does_fail_status KAGFailover)|].
  unfold report_success. do 5 does_step. { apply may_failover_call. right. exists fo'. auto. }
  does_step. destruct x as [st err]. do 2 does_step.
  apply set_completed_actions. exists c. right. do 6 eexists. by split_and!.
Qed.

Lemma failover_connected_actions w :
  does (failover_action req w0) (reconcile_connected req fo c) (fun _ _ => False) (fun _ _ => True) w.
Proof.
  unfold reconcile_connected, try_query, setFailoverStatus. do 4 does_step.
  { apply may_failover_call. by left. } does_step.
  destruct x as [role [e|]]; [by does_all|]. does_step.
  assert (Hrole : target_role fo role c d') by (eexists; eauto).
  destruct (String.eqb_spec role "PRIMARY") as [->|_]; [apply set_completed_actions; by exists c; left|].
  destruct (String.eqb_spec role "SECONDARY") as [->|_]; [by apply promote_actions|].
  by eapply (does_fail_status KAGFailover).
Qed.
End Actions.

(** C32: every reconcile of an AGFailover returns, and for an object not found,
    or found Completed or Failed, does nothing but report metrics. Otherwise
    it connects only to the server the object names, asks the target for its
    role there, runs one of two statements, ForceFailoverAG when force is
    set to true and FailoverAG when it is not, on the group of the spec, on
    the connection on which the target has just been reported SECONDARY and
    once the object is Running (found so, or fetched again after the API
    server accepted the patch to Running, with its start time recorded),
    asks for the status of the group, and writes statuses along the phase
    machine: Running from another phase, the start time where there was
    none, Failed, and Completed (the only one written with Ready=True) right
    after a report that the target is PRIMARY or after that statement
    succeeded. *)
Theorem failover_reconcile_sound req w : performs (failover_action req w) (Reconcile req) w.
Proof.
  refine (one_shot_actions KAGFailover factory reconcile_connected req w (now_primary req) (failover_call req) _).
  intros. by apply failover_connected_actions.
Qed.

(** *** One shot *)
Section Settled.
Context `{!KubeStore K}.
Abbreviation all := (fun (_ : Action Conn) (_ : D) => True).

Lemma set_completed_settles req (fo : obj KAGFailover) prev new msg w :
  at_store KAGFailover req fo w ->
  does all (setFailoverCompleted fo prev new msg) (fun _ _ => False) (settled KAGFailover req) w.
Proof.
  intros Hs. unfold setFailoverCompleted. do 2 does_step.
  replace (key_of fo) with req by (symmetry; by apply (stored_key KAGFailover _ (w_kube w))).
  eapply (complete_settles KAGFailover _ fo (completed _ _ _ _) (return_ _)); [exact Hs|done|].
  intros. by does_step.
Qed.

Lemma promote_settles req (fo : obj KAGFailover) c w :
  at_store KAGFailover req fo w ->
  does all (promote req fo c) (fun _ _ => False) (settled KAGFailover req) w.
Proof.
  intros Hs. unfold promote. do 3 does_step.
  eapply (does_begin_run_stored KAGFailover); [exact Hs| |done]. intros fo' w1 Hs1 _.
  do 4 does_step. destruct x as [e|]; [do 4 does_step; by by_law (fail_settles KAGFailover)|].
  unfold report_success. do 6 does_step. destruct x as [st err]. do 2 does_step.
  by apply set_completed_settles.
Qed.

Lemma failover_connected_settles req (fo : obj KAGFailover) c w :
  at_store KAGFailover req fo w ->
  does all (reconcile_connected req fo c) (fun _ _ => False) (settled KAGFailover req) w.
Proof.
  intros Hs. unfold reconcile_connected, try_query. do 5 does_step.
  destruct x as [role [e|]]; [by does_all|]. does_step.
  destruct (String.eqb role "PRIMARY"); [by apply set_completed_settles|].
  destruct (String.eqb role "SECONDARY"); [by apply promote_settles|].
  by by_law (fail_settles KAGFailover).
Qed.

(** C33: over an API server whose reads see the last write, a reconcile of a
    stored AGFailover that reports no error leaves it Completed or Failed,
    and from then on a reconcile makes no SQL call and no write: the
    failover is attempted once. *)
Theorem failover_settles req (fo : obj KAGFailover) res w w' :
  at_store KAGFailover req fo w -> Reconcile req w = (Return (res, None), w') ->
  exists fo', at_store KAGFailover req fo' w' /\ terminal (phase fo') = true /\
    forall w2, w_kube w2 = w_kube w' ->
      performs (fun a _ => match a with AMetric _ _ _ => True | _ => False end) (Reconcile req) w2.
Proof. by_law (one_shot_settles KAGFailover). apply failover_connected_settles. Qed.
End Settled.
End Controller.
End FailoverCtl.
