(* ===== verification/ScheduledBackupController.v ===== *)
(** * The ScheduledBackup controller (internal/controller/scheduledbackup_controller.go)

    Creates a Backup object whenever the cron schedule is due and none is
    active, follows it to its end, keeps a bounded history, and deletes old
    backups under the retention policy.

    Parameters: the cron library (robfig/cron) and text/template; the order
    [sort.Slice] gives to equal elements, which Go leaves open. *)
From stdpp Require Import sorting.
From S2P Require Import Prelude Types SqlClient Kube Helpers OneShot BackupController.

(** ** Time *)
(** The zero [time.Time], January 1 of year 1, in nanoseconds since the epoch. *)
Definition zero_time : Z := -62135596800 * Second.

(** The civil date (year, month, day) of a number of days since the epoch. *)
Definition civil_of_days (days : Z) : Z * Z * Z :=
  let z := days + 719468 in
  let era := z / 146097 in
  let doe := z mod 146097 in
  let yoe := (doe - doe / 1460 + doe / 36524 - doe / 146096) / 365 in
  let doy := doe - (365 * yoe + yoe / 4 - yoe / 100) in
  let mp := (5 * doy + 2) / 153 in
  let month := if mp <? 10 then mp + 3 else mp - 9 in
  (yoe + era * 400 + (if month <=? 2 then 1 else 0), month, doy - (153 * mp + 2) / 5 + 1).

(** [n] digits, with leading zeros. *)
Fixpoint digits (n : nat) (z : Z) : string :=
  match n with
  | O => ""
  | S n' => digits n' (z / 10) +:+ fmt_d (z mod 10)
  end.
(** [t.Format("20060102-150405")], in UTC. *)
Definition time_Format (t : Z) : string :=
  let s := t / Second in
  let '(y, m, d) := civil_of_days (s / 86400) in
  let r := s mod 86400 in
  digits 4 y +:+ digits 2 m +:+ digits 2 d +:+ "-" +:+
  digits 2 (r / 3600) +:+ digits 2 (r / 60 mod 60) +:+ digits 2 (r mod 60).

Example format_epoch : time_Format 0 = "19700101-000000".
Proof. reflexivity. Qed.
Example format_leap_day : time_Format (1709251199 * Second) = "20240229-235959".
Proof. reflexivity. Qed.

(** ** The parameters *)
(** [cron.NewParser(Minute|Hour|Dom|Month|Dow).Parse]: the schedule is its
    [Next], which returns the zero time when no time satisfies it. *)
Class Cron := { cron_Parse : string -> (Z -> Z) + error }.
(** [template.New("dest").Parse(tmpl)] and [Execute] with the fields
    DatabaseName, Timestamp and Type. *)
Class Template := { template_Execute : string -> string -> string -> string -> string + error }.
(** [sort.Slice] by creation time. *)
Class SortSlice := { sort_by_creation : list Backup -> list Backup }.
Definition older (a b : Backup) : Prop := CreationTimestamp (o_meta a) <= CreationTimestamp (o_meta b).
Class SortSliceLaws `{SortSlice} := {
  sort_by_creation_perm l : sort_by_creation l ≡ₚ l;
  sort_by_creation_sorted l : StronglySorted older (sort_by_creation l)
}.

Definition ScheduledBackupLabel := "mssql.popul.io/scheduled-backup".
Definition maxHistoryLen : nat := 10.

Module SchedCtl.
(** ** Pure parts *)
Abbreviation status := (fun sb : ScheduledBackup => extra (o_status sb)).

(** [append] and the cut to the last [maxHistoryLen] entries. *)
Definition push_history (h : list ScheduledBackupHistory) (e : ScheduledBackupHistory)
    : list ScheduledBackupHistory :=
  let h' := h ++ [e] in
  if (maxHistoryLen <? length h')%nat then drop (length h' - maxHistoryLen) h' else h'.

Definition history_entry (bak : Backup) : ScheduledBackupHistory :=
  let st := extra (o_status bak) in
  mkScheduledBackupHistory (Name (o_meta bak)) (bak_StartTime st) (bak_CompletionTime st)
    (bak_Phase st) (bak_Destination (o_spec bak)).

(** The status writes, each on the in-memory status. *)
Definition next_scheduled (t : Z) (s : ScheduledBackupStatus) : ScheduledBackupStatus :=
  mkScheduledBackupStatus (LastScheduleTime s) (Some t) (LastSuccessfulBackup s) (ActiveBackup s)
    (History s) (TotalBackups s) (SuccessfulBackups s) (FailedBackups s).
Definition started (name : string) (t : Z) (s : ScheduledBackupStatus) : ScheduledBackupStatus :=
  mkScheduledBackupStatus (Some t) (NextScheduleTime s) (LastSuccessfulBackup s) name
    (History s) (int32 (TotalBackups s + 1)) (SuccessfulBackups s) (FailedBackups s).
Definition succeeded (bak : Backup) (s : ScheduledBackupStatus) : ScheduledBackupStatus :=
  mkScheduledBackupStatus (LastScheduleTime s) (NextScheduleTime s) (Name (o_meta bak)) ""
    (push_history (History s) (history_entry bak)) (TotalBackups s)
    (int32 (SuccessfulBackups s + 1)) (FailedBackups s).
Definition failed (bak : Backup) (s : ScheduledBackupStatus) : ScheduledBackupStatus :=
  mkScheduledBackupStatus (LastScheduleTime s) (NextScheduleTime s) (LastSuccessfulBackup s) ""
    (push_history (History s) (history_entry bak)) (TotalBackups s)
    (SuccessfulBackups s) (int32 (FailedBackups s + 1)).
Definition cleared (s : ScheduledBackupStatus) : ScheduledBackupStatus :=
  mkScheduledBackupStatus (LastScheduleTime s) (NextScheduleTime s) (LastSuccessfulBackup s) ""
    (History s) (TotalBackups s) (SuccessfulBackups s) (FailedBackups s).

(** *** Retention *)
Definition is_completed (bak : Backup) : bool :=
  String.eqb (bak_Phase (extra (o_status bak))) PhaseCompleted.
Definition expired (now maxAge : Z) (bak : Backup) : bool :=
  maxAge <? time_sub now (CreationTimestamp (o_meta bak)).
(** The first loop. *)
Definition aged `{GoEnv} (now : Z) (ret : RetentionPolicy) (completed : list Backup) : list Backup :=
  match ret_MaxAge ret with
  | None => []
  | Some s => match ParseDuration s with
              | None => []
              | Some maxAge => filter (fun b => expired now maxAge b = true) completed
              end
  end.
(** The oldest ones in excess of the maximal count. *)
Definition excess (ret : RetentionPolicy) (completed : list Backup) : list Backup :=
  match ret_MaxCount ret with
  | Some c => if (0 <? c) && (c <? Z.of_nat (length completed))
              then take (length completed - Z.to_nat c) completed else []
  | None => []
  end.
(** One step of the second loop: skip a name that is already there. *)
Definition add_excess (toDelete : list Backup) (b : Backup) : list Backup :=
  if existsb (fun d => String.eqb (Name (o_meta d)) (Name (o_meta b))) toDelete then toDelete
  else toDelete ++ [b].
Definition to_delete `{GoEnv} (now : Z) (ret : RetentionPolicy) (completed : list Backup) : list Backup :=
  fold_left add_excess (excess ret completed) (aged now ret completed).

(** ** The reconciler *)
Section Controller.
Context `{GoEnv} {K D Conn : Type} `{KubeClient K} `{SQLClient Conn D} `{KubeUtil}.
Context `{Cron} `{Template} `{SortSlice}.
Abbreviation W := (World K D Conn).
Abbreviation M A := (Go W ReconcileResult A).

(** [renderDestination]. *)
Definition renderDestination (tmpl dbName : string) (t : Z) (backupType : string) : string + error :=
  template_Execute tmpl dbName (time_Format t) backupType.

Definition setCondition (sb : ScheduledBackup) (status reason message : string) : M ReconcileResult :=
  try_write (StatusPatch KScheduledBackup sb (with_ready status reason message sb)) ;;
  return_ (Result0, None).

Definition clearActiveBackup (sb : ScheduledBackup) : M ReconcileResult :=
  try_write (StatusPatch KScheduledBackup sb (with_extra (cleared (status sb)) sb)) ;;
  return_ (RequeueIn (5 * Second), None).

(** The deletion loop; a backup that is already gone is not an error. *)
Definition delete_backup (bak : Backup) : Go W (option error) unit :=
  err ← Delete_ KBackup bak;
  match err with
  | Some e =>
      if IsNotFound e then mret tt
      else return_ (Some (ErrWrap (Sprintf "failed to delete old backup %s" [Name (o_meta bak)]) e))
  | None => mret tt
  end.

Definition cleanupRetention (sb : ScheduledBackup) : Go W (option error) (option error) :=
  match sb_Retention (o_spec sb) with
  | None => return_ None
  | Some ret =>
      r ← List_ KBackup (Some (Namespace (o_meta sb))) {[ScheduledBackupLabel := Name (o_meta sb)]};
      match r with
      | inr err => return_ (Some (ErrWrap "failed to list backups" err))
      | inl items =>
          let completed := sort_by_creation (filter (fun b => is_completed b = true) items) in
          now ← Now;
          for_each (to_delete now ret completed) delete_backup ;;
          return_ None
      end
  end.

Definition onBackupCompleted (sb : ScheduledBackup) (bak : Backup) : M ReconcileResult :=
  sb ← try_write (StatusPatch KScheduledBackup sb
    (with_ready_condition ConditionTrue "BackupCompleted"
       (Sprintf "Last backup %s completed successfully" [Name (o_meta bak)])
       (with_extra (succeeded bak (status sb)) sb)));
  _ ← fn (cleanupRetention sb);   (* an error is only logged *)
  Metric "ReconcileTotal" ["ScheduledBackup"; "success"] Inc ;;
  Metric "BackupLastSuccess" [Name (o_meta sb); Namespace (o_meta sb); sb_DatabaseName (o_spec sb)] SetToCurrentTime ;;
  Metric "BackupTotal" [Name (o_meta sb); Namespace (o_meta sb); "success"] (SetTo (SuccessfulBackups (status sb))) ;;
  return_ (RequeueIn (30 * Second), None).

Definition onBackupFailed (sb : ScheduledBackup) (bak : Backup) : M ReconcileResult :=
  sb ← try_write (StatusPatch KScheduledBackup sb
    (with_ready_condition ConditionFalse "BackupFailed"
       (Sprintf "Last backup %s failed" [Name (o_meta bak)])
       (with_extra (failed bak (status sb)) sb)));
  Event EventTypeWarning "BackupFailed" (Sprintf "Scheduled backup %s failed" [Name (o_meta bak)]) ;;
  Metric "ReconcileErrors" ["ScheduledBackup"; "BackupFailed"] Inc ;;
  Metric "BackupTotal" [Name (o_meta sb); Namespace (o_meta sb); "failure"] (SetTo (FailedBackups (status sb))) ;;
  return_ (RequeueIn (30 * Second), None).

(** Step 4: a backup is active. *)
Definition follow_active (sb : ScheduledBackup) : M ReconcileResult :=
  r ← Get KBackup (mkKey (Namespace (o_meta sb)) (ActiveBackup (status sb)));
  match r with
  | inr err => if IsNotFound err then clearActiveBackup sb else return_ (Result0, Some err)
  | inl activeBak =>
      if String.eqb (bak_Phase (extra (o_status activeBak))) PhaseCompleted
      then onBackupCompleted sb activeBak
      else if String.eqb (bak_Phase (extra (o_status activeBak))) PhaseFailed
      then onBackupFailed sb activeBak
      else return_ (RequeueIn (10 * Second), None)
  end.

(** The Backup object of step 6. *)
Definition backup_name (sb : ScheduledBackup) (now : Z) : string :=
  Sprintf "%s-%s" [Name (o_meta sb); time_Format now].
Definition new_backup (sb : ScheduledBackup) (now : Z) (destination : string) : Backup :=
  mkObject (new_meta (backup_name sb now) (Namespace (o_meta sb))
              {[ScheduledBackupLabel := Name (o_meta sb)]})
    (mkBackupSpec (sb_Server (o_spec sb)) (sb_DatabaseName (o_spec sb)) (sb_Type (o_spec sb))
       destination (sb_Compression (o_spec sb)))
    (mkStatus [] 0 (mkBackupStatus "" None None)).

(** Step 6, when the time has come. *)
Definition create_backup (sb : ScheduledBackup) (now : Z) : M ReconcileResult :=
  let spec := o_spec sb in
  match renderDestination (sb_DestinationTemplate spec) (sb_DatabaseName spec) now (sb_Type spec) with
  | inr err =>
      setCondition sb ConditionFalse "TemplateError"
        (Sprintf "failed to render destination template: %v" [err_text err])
  | inl destination =>
      let backup := new_backup sb now destination in
      match SetControllerReference (o_meta sb) (o_meta backup) with
      | inr err => fail "failed to set owner reference" err
      | inl m =>
          r ← Create KBackup (with_meta m backup);
          match r with
          | inr err => fail "failed to create Backup CR" err
          | inl _ =>
              Event EventTypeNormal "BackupCreated" (Sprintf "Created Backup %s for database %s"
                [backup_name sb now; sb_DatabaseName spec]) ;;
              try_write (StatusPatch KScheduledBackup sb
                (with_observed_generation
                   (with_extra (started (backup_name sb now) now (status sb)) sb))) ;;
              return_ (RequeueIn (10 * Second), None)
          end
      end
  end.

(** [sb.Status.LastScheduleTime], or the creation of the object. *)
Definition last_schedule (sb : ScheduledBackup) : Z :=
  default (CreationTimestamp (o_meta sb)) (LastScheduleTime (status sb)).

(** Records the next time; a failed write is ignored, and leaves the status
    changed in memory. *)
Definition record_next (sb : ScheduledBackup) (nextTime : Z) : M ScheduledBackup :=
  if bool_decide (NextScheduleTime (status sb) = Some nextTime) then mret sb
  else
    let sb' := with_extra (next_scheduled nextTime (status sb)) sb in
    r ← StatusPatch KScheduledBackup sb sb';
    match r with inl o => mret o | inr _ => mret sb' end.

(** Steps 5 and 6: no backup is active. *)
Definition schedule_next (sb : ScheduledBackup) (sched : Z -> Z) : M ReconcileResult :=
  now ← Now;
  let nextTime := sched (last_schedule sb) in
  sb ← record_next sb nextTime;
  if now <? nextTime then return_ (RequeueIn (int64 (time_sub nextTime now + Second)), None)
  else create_backup sb now.

(** Steps 2 to 6. *)
Definition reconcile_scheduled (sb : ScheduledBackup) : M ReconcileResult :=
  match cron_Parse (sb_Schedule (o_spec sb)) with
  | inr err =>
      setCondition sb ConditionFalse "InvalidSchedule"
        (Sprintf "invalid cron expression: %v" [err_text err])
  | inl sched =>
      if default false (sb_Suspend (o_spec sb)) then
        setCondition sb ConditionTrue "Suspended" "Schedule is suspended"
      else if negb (String.eqb (ActiveBackup (status sb)) "") then follow_active sb
      else schedule_next sb sched
  end.

Definition Reconcile (req : NamespacedName) : M ReconcileResult :=
  _ ← Now;
  defer_ (_ ← Now; Metric "ReconcileDuration" ["ScheduledBackup"] Observed) (
    r ← Get KScheduledBackup req;
    match r with
    | inr err => if IsNotFound err then return_ (Result0, None) else return_ (Result0, Some err)
    | inl sb => reconcile_scheduled sb
    end).

(** The watch on Backup objects: the ScheduledBackup their label names. *)
Definition mapBackupToScheduledBackup (o : Backup) : list NamespacedName :=
  match Labels (o_meta o) !! ScheduledBackupLabel with
  | Some name => [mkKey (Namespace (o_meta o)) name]
  | None => []
  end.

(** ** Theorems *)
Context `{!KubeUtilLaws}.
Implicit Types (w : W) (sb : ScheduledBackup).

Section Allowed.
Context (req : NamespacedName) (w0 : W).

(** The object fetched when the run starts in [w0]: active when it follows a
    backup, and idle when it does not and waits for the next time of its
    schedule. The clock of the schedule is the second reading of the run. *)
Definition fetched sb : Prop := exists s', kube_Get KScheduledBackup req (w_kube w0) = (inl sb, s').
Definition enabled sb (next : Z -> Z) : Prop :=
  fetched sb /\ cron_Parse (sb_Schedule (o_spec sb)) = inl next /\ sb_Suspend (o_spec sb) <> Some true.
Definition next_time sb (next : Z -> Z) : Z :=
  match LastScheduleTime (status sb) with Some t => next t | None => next (CreationTimestamp (o_meta sb)) end.
Definition idle sb (t : Z) : Prop :=
  exists next, enabled sb next /\ ActiveBackup (status sb) = "" /\ t = next_time sb next.
Definition schedule_clock : Z := clock (S (w_tick w0)).

(** A write of nothing but the next time in the status. *)
Definition sets_next (t : Z) base o : Prop :=
  o_meta o = o_meta base /\ o_spec o = o_spec base /\
  status o = mkScheduledBackupStatus (LastScheduleTime (status base)) (Some t)
    (LastSuccessfulBackup (status base)) (ActiveBackup (status base)) (History (status base))
    (TotalBackups (status base)) (SuccessfulBackups (status base)) (FailedBackups (status base)).

(** The schedule of [sb0] is due; [sb] is [sb0] with the next time recorded: as it
    was, as the API server returned it, or in memory when it refused the patch. *)
Definition due sb0 sb : Prop :=
  exists t, idle sb0 t /\ t <= schedule_clock /\
    ((NextScheduleTime (status sb0) = Some t /\ sb = sb0) \/
     exists o r s s', sets_next t sb0 o /\ kube_StatusPatch KScheduledBackup sb0 o s = (r, s') /\
       sb = match r with inl o' => o' | inr _ => o end).

(** The Backup a schedule creates: named after it and the time, under its label
    and owned by it, with its server, database, type and compression, and the
    destination its template renders to. *)
Definition scheduled sb (b : Backup) : Prop :=
  Name (o_meta b) = Name (o_meta sb) +:+ "-" +:+ time_Format schedule_clock /\
  Namespace (o_meta b) = Namespace (o_meta sb) /\
  Labels (o_meta b) = {["mssql.popul.io/scheduled-backup" := Name (o_meta sb)]} /\
  mkOwner (Name (o_meta sb)) true ∈ OwnerReferences (o_meta b) /\
  bak_Server (o_spec b) = sb_Server (o_spec sb) /\
  bak_DatabaseName (o_spec b) = sb_DatabaseName (o_spec sb) /\
  bak_Type (o_spec b) = sb_Type (o_spec sb) /\
  bak_Compression (o_spec b) = sb_Compression (o_spec sb) /\
  template_Execute (sb_DestinationTemplate (o_spec sb)) (sb_DatabaseName (o_spec sb))
    (time_Format schedule_clock) (sb_Type (o_spec sb)) = inl (bak_Destination (o_spec b)) /\
  bak_Phase (extra (o_status b)) = "".

(** The answer to a request for the active backup. *)
Definition active_backup sb (answer : Backup + error) : Prop :=
  exists next, enabled sb next /\ ActiveBackup (status sb) <> "" /\
  exists s s', kube_Get KBackup (mkKey (Namespace (o_meta sb)) (ActiveBackup (status sb))) s = (answer, s').

(** [o] records the success of [bak]: its name, an entry of the history, and one
    more success; no backup is active any more. *)
Definition records_success (bak : Backup) base o : Prop :=
  status o = mkScheduledBackupStatus (LastScheduleTime (status base)) (NextScheduleTime (status base))
    (Name (o_meta bak)) "" (push_history (History (status base)) (history_entry bak))
    (TotalBackups (status base)) (int32 (SuccessfulBackups (status base) + 1)) (FailedBackups (status base)).

(** A backup is deleted once the active one has completed and been recorded, when
    it is completed, listed under the label of the schedule, and either older
    than the maximal age or not among the last maximal count, by age. *)
Definition disposable (b : Backup) : Prop :=
  exists sb0 bak o sb s1 s2 ret s3 s4 items,
    active_backup sb0 (inl bak) /\ bak_Phase (extra (o_status bak)) = "Completed" /\
    records_success bak sb0 o /\ kube_StatusPatch KScheduledBackup sb0 o s1 = (inl sb, s2) /\ sb_Retention (o_spec sb) = Some ret /\
    kube_List KBackup (Some (Namespace (o_meta sb)))
      {["mssql.popul.io/scheduled-backup" := Name (o_meta sb)]} s3 = (inl items, s4) /\
    let candidates := sort_by_creation
      (filter (fun b => String.eqb (bak_Phase (extra (o_status b))) "Completed" = true) items) in
    b ∈ candidates /\
    ((exists age d, ret_MaxAge ret = Some age /\ ParseDuration age = Some d /\
        d < time_sub schedule_clock (CreationTimestamp (o_meta b))) \/
     (exists c old last, ret_MaxCount ret = Some c /\ 0 < c /\ candidates = old ++ last /\
        Z.of_nat (length last) = c /\ b ∈ old)).

(** A status write: an unusable or suspended schedule, the next time, a backup
    just created, or the end of the active one. *)
Inductive sched_write (base o : ScheduledBackup) : Prop :=
| write_invalid err : fetched base -> cron_Parse (sb_Schedule (o_spec base)) = inr err ->
    status o = status base -> ~ is_ready (Conditions (o_status o)) -> sched_write base o
| write_suspended : fetched base -> sb_Suspend (o_spec base) = Some true ->
    status o = status base -> sched_write base o
| write_template sb0 err : due sb0 base ->
    template_Execute (sb_DestinationTemplate (o_spec base)) (sb_DatabaseName (o_spec base))
      (time_Format schedule_clock) (sb_Type (o_spec base)) = inr err ->
    status o = status base -> ~ is_ready (Conditions (o_status o)) -> sched_write base o
| write_next t : idle base t -> NextScheduleTime (status base) <> Some t ->
    sets_next t base o -> sched_write base o
| write_started sb0 b r s s' : due sb0 base -> scheduled base b -> kube_Create KBackup b s = (inl r, s') ->
    status o = mkScheduledBackupStatus (Some schedule_clock) (NextScheduleTime (status base))
      (LastSuccessfulBackup (status base)) (Name (o_meta b)) (History (status base))
      (int32 (TotalBackups (status base) + 1)) (SuccessfulBackups (status base)) (FailedBackups (status base)) ->
    sched_write base o
| write_succeeded bak : active_backup base (inl bak) -> bak_Phase (extra (o_status bak)) = "Completed" ->
    records_success bak base o -> is_ready (Conditions (o_status o)) -> sched_write base o
| write_failed bak : active_backup base (inl bak) -> bak_Phase (extra (o_status bak)) = "Failed" ->
    status o = mkScheduledBackupStatus (LastScheduleTime (status base)) (NextScheduleTime (status base))
      (LastSuccessfulBackup (status base)) "" (push_history (History (status base)) (history_entry bak))
      (TotalBackups (status base)) (SuccessfulBackups (status base)) (int32 (FailedBackups (status base) + 1)) ->
    ~ is_ready (Conditions (o_status o)) -> sched_write base o
| write_cleared err : active_backup base (inr err) -> IsNotFound err = true ->
    status o = mkScheduledBackupStatus (LastScheduleTime (status base)) (NextScheduleTime (status base))
      (LastSuccessfulBackup (status base)) "" (History (status base))
      (TotalBackups (status base)) (SuccessfulBackups (status base)) (FailedBackups (status base)) ->
    sched_write base o.

Definition sched_action (a : Action Conn) (d : D) : Prop :=
  match a with
  | ACreate k o => exists e : k = KBackup, exists sb0 sb, due sb0 sb /\ scheduled sb (eq_rect k obj o KBackup e)
  | ADelete k o => exists e : k = KBackup, disposable (eq_rect k obj o KBackup e)
  | AStatusPatch k base o => exists e : k = KScheduledBackup,
      sched_write (eq_rect k obj base _ e) (eq_rect k obj o _ e)
  | AEvent _ _ _ | AMetric _ _ _ => True
  | AUpdate _ _ | APatch _ _ _ | AConnect _ _ _ _ _ _ | ASql _ _ _ => False
  end.

(** What is picked for deletion is expired or in excess. *)
Lemma add_excess_in l b x : x ∈ add_excess l b -> x ∈ l \/ x = b.
Proof. unfold add_excess. case_match; [by left|]. rewrite elem_of_app, list_elem_of_singleton. tauto. Qed.
Lemma to_delete_in now ret l x : x ∈ to_delete now ret l -> x ∈ aged now ret l \/ x ∈ excess ret l.
Proof.
  unfold to_delete. generalize (aged now ret l) as acc. induction (excess ret l) as [|b bs IH]; intros acc; [by left|].
  cbn. intros [[Hx| ->]%add_excess_in|Hx]%IH; [by left|right; by left|right; by right].
Qed.
Lemma picked now ret l b : b ∈ to_delete now ret l -> b ∈ l /\
  ((exists age d, ret_MaxAge ret = Some age /\ ParseDuration age = Some d /\
      d < time_sub now (CreationTimestamp (o_meta b))) \/
   (exists c old last, ret_MaxCount ret = Some c /\ 0 < c /\ l = old ++ last /\
      Z.of_nat (length last) = c /\ b ∈ old)).
Proof.
  intros [Hb|Hb]%to_delete_in.
  - unfold aged in Hb. destruct (ret_MaxAge ret) as [s|]; [|by apply not_elem_of_nil in Hb].
    destruct (ParseDuration s) as [d|] eqn:Hd; [|by apply not_elem_of_nil in Hb].
    apply list_elem_of_filter in Hb as [He Hb]. split; [done|]. left. exists s, d.
    unfold expired in He. by rewrite Z.ltb_lt in He.
  - unfold excess in Hb. destruct (ret_MaxCount ret) as [c|]; [|by apply not_elem_of_nil in Hb].
    destruct (Z.ltb_spec 0 c), (Z.ltb_spec c (Z.of_nat (length l))); cbn [andb] in Hb;
      try by apply not_elem_of_nil in Hb.
    split; [apply elem_of_take in Hb as (i & Hi & _); by eapply list_elem_of_lookup_2|]. right. do 3 eexists.
    split_and!; [done|done|symmetry; apply take_drop| |exact Hb]. rewrite length_drop. lia.
Qed.

Ltac permit ::= done.
Lemma cleanup_actions sb0 bak o sb s1 s2 w :
  active_backup sb0 (inl bak) -> bak_Phase (extra (o_status bak)) = "Completed" ->
  records_success bak sb0 o -> kube_StatusPatch KScheduledBackup sb0 o s1 = (inl sb, s2) -> w_tick w = S (w_tick w0) ->
  does sched_action (cleanupRetention sb) (fun _ _ => True) (fun _ _ => True) w.
Proof.
  intros Hbak Hc Hrec Hp Hn. unfold cleanupRetention. destruct (sb_Retention (o_spec sb)) as [ret|] eqn:Hret; [|by does_step].
  do 2 does_step. destruct x as [items|e]; [|by does_step]. do 3 does_step.
  eapply (does_for_each (fun l _ => forall b, b ∈ l -> disposable b)).
  - intros b Hb. cbn in Hb. rewrite Hn in Hb. destruct (picked _ _ _ _ Hb) as [Hin Hold].
    unfold disposable. do 10 eexists. split_and!; [exact Hbak|exact Hc|exact Hrec|exact Hp|exact Hret|eassumption|exact Hin|exact Hold].
  - intros b bs w' Hbs. unfold delete_backup. do 3 does_step; [exists eq_refl; apply Hbs; by left|].
    does_step. destruct x as [e|]; [destruct (IsNotFound e)|]; does_step; try done;
      intros b' Hb'; apply Hbs; by right.
  - intros w' _. by does_step.
Qed.

Lemma follow_actions sb next w :
  enabled sb next -> ActiveBackup (status sb) <> "" -> w_tick w = S (w_tick w0) ->
  does sched_action (follow_active sb) (fun _ _ => False) (fun _ _ => True) w.
Proof.
  intros Hen Hact Hn. unfold follow_active. do 2 does_step.
  assert (Ha : active_backup sb x) by (exists next; split_and!; [done|done|by do 2 eexists]).
  destruct x as [bak|e].
  - destruct (String.eqb_spec (bak_Phase (extra (o_status bak))) PhaseCompleted) as [Hc|_];
      [|destruct (String.eqb_spec (bak_Phase (extra (o_status bak))) PhaseFailed) as [Hf|_]; [|by does_step]].
    + unfold onBackupCompleted, try_write. do 4 does_step.
      { exists eq_refl. apply (write_succeeded _ _ bak); [done..|]. by apply is_ready_with_condition. }
      does_step. destruct x as [sb1|e]; [|by does_step]. do 3 does_step.
      eapply does_post; [by eapply cleanup_actions; [| | |eassumption|]| |]; intros; by does_all.
    + unfold onBackupFailed, try_write. do 4 does_step.
      { exists eq_refl. apply (write_failed _ _ bak); [done..|]. by intros ?%is_ready_with_condition. }
      does_step. destruct x as [sb1|e]; [|by does_step]. by does_all.
  - destruct (IsNotFound e) eqn:He; [|by does_step]. unfold clearActiveBackup, try_write. does_all; try done.
    exists eq_refl. by eapply write_cleared.
Qed.

Lemma backup_name_eq sb t : backup_name sb t = Name (o_meta sb) +:+ "-" +:+ time_Format t.
Proof. unfold backup_name. generalize (time_Format t). intros ts. cbn. by rewrite string_app_nil_r. Qed.
Lemma create_actions sb0 sb w :
  due sb0 sb -> does sched_action (create_backup sb schedule_clock) (fun _ _ => False) (fun _ _ => True) w.
Proof.
  intros Hdue. unfold create_backup, setCondition, fail, try_write.
  destruct (renderDestination _ _ _ _) as [dest|e] eqn:Hr.
  2: { does_all; try done. exists eq_refl. eapply write_template; [done|exact Hr|done|]. by intros ?%is_ready_with. }
  destruct (SetControllerReference _ _) as [m|e] eqn:Hm; [|by does_all].
  apply SetControllerReference_spec in Hm as [Heq Hown].
  assert (Hb : scheduled sb (with_meta m (new_backup sb schedule_clock dest))).
  { rewrite Heq. split_and!; try done. apply backup_name_eq. }
  do 3 does_step; [exists eq_refl; by exists sb0, sb|]. does_step. destruct x as [b|e]; [|by does_all].
  assert (Hname : Name m = backup_name sb schedule_clock) by by rewrite Heq.
  do 6 does_step; [|by does_all]. exists eq_refl. eapply write_started; [done|done|eassumption|].
  cbn. by rewrite Hname.
Qed.

Lemma schedule_actions sb next w :
  enabled sb next -> ActiveBackup (status sb) = "" -> w_tick w = S (w_tick w0) ->
  does sched_action (schedule_next sb next) (fun _ _ => False) (fun _ _ => True) w.
Proof.
  intros Hen Hact Hn. unfold schedule_next. do 3 does_step. rewrite Hn. fold schedule_clock.
  replace (next (last_schedule sb)) with (next_time sb next)
    by by unfold next_time, last_schedule; destruct (LastScheduleTime (status sb)).
  set (t := next_time sb next).
  assert (Hid : idle sb t) by by exists next.
  eapply (does_post _ _ (fun sb1 _ => t <= schedule_clock -> due sb sb1) _ (fun _ _ => False)); [| |done].
  - unfold record_next. case_bool_decide as Ht; [does_step; exists t; eauto|].
    assert (Hs : sets_next t sb (with_extra (next_scheduled t (status sb)) sb)) by done.
    do 3 does_step; [exists eq_refl; by eapply write_next|]. does_step.
    destruct x as [sb1|e]; does_step; intros Hle; exists t; (split_and!; [done|done|right]); eauto 10.
  - intros sb1 w1 Hdue. destruct (Z.ltb_spec schedule_clock t); [by does_step|]. eapply create_actions; eauto.
Qed.
End Allowed.

(** C37: every reconcile of a ScheduledBackup returns and makes no SQL call. It
    creates a Backup only when the object found is not suspended, has no
    active backup and its schedule is due at the second reading of the
    clock, and that Backup is named after the object and that time, carries
    its label and owner, and has its server, database, type, compression and
    the destination its template renders to. It deletes only a completed
    backup listed under its label, once the active one is Completed and the
    API server accepted the status that records it, when it is older than
    maxAge or precedes the last maxCount in the sorted list (C36 says which
    end of the order that is). A status it writes only reports an unusable
    schedule, a suspension or a template that does not render, records the
    next time, records the Backup just created as active, or ends the active
    backup: recorded as succeeded when it was found Completed, as failed
    when Failed, and cleared only when it was not found. *)
Theorem schedule_reconcile_sound req w : performs (sched_action req w) (Reconcile req) w.
Proof.
  apply performs_intro. unfold Reconcile. do 5 does_step. destruct x as [sb|e]; [|by does_all].
  assert (Hf : fetched req w sb) by by eexists.
  unfold reconcile_scheduled, setCondition, try_write.
  destruct (cron_Parse _) as [sched|e] eqn:Hsched.
  2: { does_all; try done. exists eq_refl. eapply write_invalid; [done|done|done|]. by intros ?%is_ready_with. }
  destruct (sb_Suspend (o_spec sb)) as [[]|] eqn:Hsus; cbn [default].
  1: { does_all; try done. exists eq_refl. by apply write_suspended. }
  all: assert (Hen : enabled req w sb sched) by (split_and!; [done|done|by rewrite Hsus]).
  all: destruct (String.eqb_spec (ActiveBackup (status sb)) "") as [Ha|Ha]; cbn [negb];
     (eapply does_post; [first [by eapply schedule_actions|by eapply follow_actions]|done|intros; by does_all]).
Qed.

(** *** The history *)
Lemma push_history_eq h e : push_history h e = drop (length h + 1 - maxHistoryLen) h ++ [e].
Proof.
  unfold push_history. rewrite length_app. cbn [length].
  destruct (Nat.ltb_spec maxHistoryLen (length h + 1)); unfold maxHistoryLen in *.
  - rewrite drop_app_le by lia. done.
  - by replace (length h + 1 - 10)%nat with 0%nat by lia.
Qed.

(** What a write does to the history and the counters: nothing, or it records
    one finished backup, counts it once, and no backup is active any more. *)
Definition recorded (base o : ScheduledBackupStatus) : Prop :=
  exists bak, terminal (bak_Phase (extra (o_status bak))) = true /\
    History o = drop (length (History base) + 1 - maxHistoryLen) (History base) ++ [history_entry bak] /\
    ActiveBackup o = "" /\ TotalBackups o = TotalBackups base /\
    (SuccessfulBackups o, FailedBackups o) =
      (if is_completed bak then (int32 (SuccessfulBackups base + 1), FailedBackups base)
       else (SuccessfulBackups base, int32 (FailedBackups base + 1))).
Definition unrecorded (base o : ScheduledBackupStatus) : Prop :=
  History o = History base /\ SuccessfulBackups o = SuccessfulBackups base /\
  FailedBackups o = FailedBackups base /\
  (TotalBackups o = TotalBackups base \/
   TotalBackups o = int32 (TotalBackups base + 1) /\ exists t, LastScheduleTime o = Some t).

Lemma sched_write_effect req w base o :
  sched_write req w base o -> unrecorded (status base) (status o) \/ recorded (status base) (status o).
Proof.
  unfold unrecorded, recorded, terminal, is_completed.
  intros [err _ _ Hs _|_ _ Hs|sb0 err _ _ Hs _|t _ _ (_ & _ & Hs)|sb0 b r s s' _ _ _ Hs
         |bak _ Hph Hs _|bak _ Hph Hs _|err _ _ Hs]; rewrite Hs; cbn; try (left; by eauto 10);
    right; exists bak; rewrite push_history_eq; by rewrite Hph.
Qed.
Lemma recorded_length base o : recorded base o -> (length (History o) <= maxHistoryLen)%nat.
Proof. intros (bak & _ & -> & _). rewrite length_app, length_drop. cbn [length]. unfold maxHistoryLen. lia. Qed.

Definition keeps_history (a : Action Conn) : Prop :=
  match a with
  | AStatusPatch k base o => exists e : k = KScheduledBackup,
      let s := status (eq_rect k obj base _ e) in
      let s' := status (eq_rect k obj o _ e) in
      (unrecorded s s' \/ recorded s s') /\
      ((length (History s) <= maxHistoryLen)%nat -> (length (History s') <= maxHistoryLen)%nat)
  | _ => True
  end.

(** C38: every status write of a reconcile of a ScheduledBackup either leaves
    the history and the success and failure counts alone, or appends one
    entry for a finished backup, keeping the latest ten, counts it once as a
    success or a failure and clears the active backup; a history of at most
    ten entries stays so. *)
Theorem history_recorded_once req w : performs (fun a _ => keeps_history a) (Reconcile req) w.
Proof.
  eapply performs_mono; [apply schedule_reconcile_sound|].
  intros [| | | |k base o| | | |] d Ha; try done. destruct Ha as [-> Hw]. exists eq_refl. cbn in *.
  apply sched_write_effect in Hw. split; [done|]. intros Hlen.
  destruct Hw as [(Hh & _)|Hr]; [by rewrite Hh|by eapply recorded_length].
Qed.

(** *** A schedule that never comes *)
Section Impossible.
Context `{!KubeStore K}.
Abbreviation all := (fun (_ : Action Conn) (_ : D) => True).
Definition created w : Prop := exists b d, (ACreate KBackup b, d) ∈ w_log w.

Lemma created_mono w w' l : created w -> w_log w' = w_log w ++ l -> created w'.
Proof. intros (b & d & Hb) Hl. exists b, d. rewrite Hl. apply elem_of_app. by left. Qed.

(** Creation cannot be refused before the object is sent. *)
Lemma create_creates sb now w :
  (exists dest, renderDestination (sb_DestinationTemplate (o_spec sb)) (sb_DatabaseName (o_spec sb)) now
     (sb_Type (o_spec sb)) = inl dest) ->
  (forall m, exists m', SetControllerReference (o_meta sb) m = inl m') ->
  does all (create_backup sb now) (fun _ _ => False) (fun _ => created) w.
Proof.
  intros [dest Hr] Ho. unfold create_backup, fail, try_write. rewrite Hr.
  destruct (Ho (o_meta (new_backup sb now dest))) as [m Hm]. rewrite Hm.
  assert (Hin : forall w' l, w_log w' =
    (w_log w ++ [(ACreate KBackup (with_meta m (new_backup sb now dest)), w_sql w)]) ++ l -> created w').
  { intros w' l Hl. do 2 eexists. rewrite Hl, !elem_of_app, list_elem_of_singleton. by left; right. }
  do 4 does_step. destruct x as [b|e]; [|does_step; by apply (Hin _ []); rewrite app_nil_r].
  do 7 does_step. destruct x as [o|e]; repeat does_step; by eapply Hin; cbn; rewrite <- !app_assoc.
Qed.

(** The record of the next time does not change what is created. *)
Lemma record_next_content req sb t w :
  at_store KScheduledBackup req sb w ->
  does all (record_next sb t) (fun sb' _ => o_spec sb' = o_spec sb) (fun _ _ => False) w.
Proof.
  intros Hs. unfold record_next. case_bool_decide; [by does_step|]. do 4 does_step.
  destruct x as [o|e]; does_step; [|done].
  edestruct (StatusPatch_stored KScheduledBackup) as [_ [Hc _]]; [eassumption|exact Hs|done|]. by symmetry.
Qed.

(** For a schedule that no time satisfies, for which the cron library
    returns the zero time, a reconcile with no active backup does not wait
    but creates a Backup at once. *)
Theorem impossible_schedule_creates req sb sched w s' :
  at_store KScheduledBackup req sb w ->
  kube_Get KScheduledBackup req (w_kube w) = (inl sb, s') ->
  sb_Suspend (o_spec sb) <> Some true -> ActiveBackup (status sb) = "" ->
  cron_Parse (sb_Schedule (o_spec sb)) = inl sched -> sched (last_schedule sb) = zero_time ->
  (forall n, zero_time <= clock n) ->
  (forall t, exists dest, renderDestination (sb_DestinationTemplate (o_spec sb))
     (sb_DatabaseName (o_spec sb)) t (sb_Type (o_spec sb)) = inl dest) ->
  (forall owner m, exists m', SetControllerReference owner m = inl m') ->
  created (Reconcile req w).2.
Proof.
  intros Hs Hget Hsus Hact Hsched Hzero Hclock Hrender Howner.
  assert (Hd : does all (Reconcile req) (fun _ _ => False) (fun _ => created) w).
  2: { destruct (Reconcile req w) as [o w'] eqn:Hrun.
       pose proof (does_run _ _ _ _ _ _ _ Hd Hrun) as (_ & _ & Ho). by destruct o. }
  unfold Reconcile. do 4 does_step. unfold Get. apply does_on_kube. intros x k' Hx.
  cbn in Hx. destruct (Get_stored KScheduledBackup _ _ _ _ Hx) as [Hsame _].
  assert (Hs' : stored KScheduledBackup req k' = Some sb) by by rewrite Hsame.
  rewrite Hget in Hx. injection Hx as <- <-.
  unfold reconcile_scheduled. rewrite Hsched, Hact. cbn [negb String.eqb].
  destruct (sb_Suspend (o_spec sb)) as [[]|]; cbn [default id]; [done|..]; unfold schedule_next;
    do 3 does_step; rewrite Hzero;
    (eapply does_post; [by apply (record_next_content req)| |done]);
    intros sb1 w1 Hspec; cbn; rewrite (proj2 (Z.ltb_ge _ _)) by apply Hclock;
    (eapply does_post; [apply create_creates; rewrite ?Hspec; auto|done|]);
    intros r w2 Hc; do 2 does_step; (eapply does_logged; [done|]); by eapply created_mono.
Qed.
End Impossible.
End Controller.

(** ** The retention policy *)
Section Retention.
Context `{GoEnv}.
Implicit Types (l : list Backup).













End Retention.
End SchedCtl.
