(* ===== verification/Progress.v ===== *)
(** * Progress

    What makes a reconcile succeed: an API server that answers, and a SQL server
    that accepts the calls the spec leads to. The rules here follow a call that
    is answered; ObjectProgress.v uses them. *)
From S2P Require Import Prelude Types SqlClient Kube Helpers OneShot.

(** An API server that is up: it returns what is stored and takes the statuses. *)
Class KubeUp (K : Type) `{KubeStore K} := {
  Get_up k key s o : stored k key s = Some o -> exists s', kube_Get k key s = (inl o, s');
  Get_missing k key s : stored k key s = None ->
    exists err s', kube_Get k key s = (inr err, s') /\ IsNotFound err = true;
  StatusPatch_up k base o s : exists o' s', kube_StatusPatch k base o s = (inl o', s')
}.

(** The call returns no error in [d], and leads to a state in [up]. *)
Definition answers {Conn D A} (up : D -> Prop) (q : Query Conn D A) (c : Conn) (d : D) : Prop :=
  exists x d', q c d = ((x, None), d') /\ up d'.
Definition accepts {Conn D} (up : D -> Prop) (o : Op Conn D) (c : Conn) (d : D) : Prop :=
  exists d', o c d = (None, d') /\ up d'.

(** The result of the call just stepped over is the one [H] gives. *)
Ltac known H :=
  match type of H with
  | ?f = _ => match goal with E : _ = _ |- _ => cbn in E; rewrite H in E; simplify_eq end
  end.

Section Rules.
Context `{GoEnv} {K D Conn : Type} `{KubeClient K} `{SQLClient Conn D} `{KubeUtil}.
Abbreviation W := (World K D Conn).
Abbreviation any := (fun (_ : Action Conn) (_ : D) => True).
Abbreviation never := (fun (_ : ReconcileResult) (_ : W) => False).
Implicit Types (w : W) (up : D -> Prop).

Lemma does_answered {R A} up c m args (q : Query Conn D A) T same F (E : R -> W -> Prop) w :
  answers up q c (w_sql w) -> query_spec q T same ->
  (forall x w', T c (w_sql w) x -> same c (w_sql w) (w_sql w') -> up (w_sql w') -> F (x, None) w') ->
  does any (sql c m args q) F E w.
Proof.
  intros (x & d' & Hq & Hup) Hspec HF. unfold sql. do 3 does_step. known Hq.
  apply Hspec in Hq as [HT Hs]. by apply HF.
Qed.
Lemma does_accepted {R} up c m args (o : Op Conn D) T F (E : R -> W -> Prop) w :
  accepts up o c (w_sql w) -> op_spec o T ->
  (forall w', T c (w_sql w) (w_sql w') -> up (w_sql w') -> F None w') ->
  does any (sql c m args o) F E w.
Proof.
  intros (d' & Ho & Hup) Hspec HF. unfold sql. do 3 does_step. known Ho.
  apply Hspec in Ho. by apply HF.
Qed.
Lemma does_try_answered {A} up c m args (q : Query Conn D A) T same msg F w :
  answers up q c (w_sql w) -> query_spec q T same ->
  (forall x w', T c (w_sql w) x -> same c (w_sql w) (w_sql w') -> up (w_sql w') -> F x w') ->
  does any (try_query (sql c m args q) msg) F never w.
Proof.
  intros Hq Hs HF. unfold try_query. does_step. eapply does_answered; [done..|].
  intros. does_step. auto.
Qed.
Lemma does_try_accepted up c m args (o : Op Conn D) T msg (F : unit -> W -> Prop) w :
  accepts up o c (w_sql w) -> op_spec o T ->
  (forall w', T c (w_sql w) (w_sql w') -> up (w_sql w') -> F tt w') ->
  does any (try_op (sql c m args o) msg) F never w.
Proof.
  intros Ho Hs HF. unfold try_op. does_step. eapply does_accepted; [done..|].
  intros. unfold on_err. does_step. auto.
Qed.

(** What a step leaves when it succeeds, and that it does. *)
Lemma does_succeeds {A} P (m : Go W ReconcileResult A) F E G (F' : A -> W -> Prop) w :
  does P m F E w -> does any m G never w ->
  (forall a w', F a w' -> G a w' -> F' a w') -> does any m F' never w.
Proof.
  intros HF Hs Himp. eapply does_mono; [exact (does_and P any m _ _ _ _ w HF Hs)|done| |].
  - intros a w' [Ha Hup]. auto.
  - by intros r w' [].
Qed.

(** A live object that already has the finalizer. *)
Definition live (m : ObjectMeta) : Prop := DeletionTimestamp m = None /\ Finalizer ∈ Finalizers m.
(** A Secret with the credentials [u] and [p]. *)
Definition credentials_stored `{!KubeStore K} (ns name : string) (u p : string) (s : K) : Prop :=
  exists secret, stored KSecret (mkKey ns name) s = Some secret /\
    o_spec secret !! "username" = Some u /\ o_spec secret !! "password" = Some p.
Definition same_store `{!KubeStore K} (s s' : K) : Prop :=
  forall k key, stored k key s' = stored k key s.

Lemma does_Get_stored `{!KubeStore K} `{!KubeUp K} {R} P k key o F (E : R -> W -> Prop) w :
  stored k key (w_kube w) = Some o ->
  (forall w', same_store (w_kube w) (w_kube w') -> w_sql w' = w_sql w -> F (inl o) w') ->
  does P (Get k key) F E w.
Proof.
  intros Hs HF. apply Get_up in Hs as [s' Hs]. does_step. known Hs.
  apply HF; [|done]. by apply Get_stored in Hs as [? _].
Qed.
Lemma does_credentials `{!KubeStore K} `{!KubeUp K} {R} P ns name u p F (E : R -> W -> Prop) w :
  credentials_stored ns name u p (w_kube w) ->
  (forall w', same_store (w_kube w) (w_kube w') -> w_sql w' = w_sql w -> F (inl (u, p)) w') ->
  does P (getCredentialsFromSecret ns name) F E w.
Proof.
  intros (secret & Hs & Hu & Hp) HF. unfold getCredentialsFromSecret. does_step.
  eapply (does_Get_stored _ KSecret); [done|]. intros w' Hk Hd. cbn. rewrite Hu, Hp. does_step. auto.
Qed.
(** What [server_ref] of the object resolves to: itself with its Secret, or the
    SQLServer it names. *)
Definition server_of (srv : SQLServer) : ServerReference :=
  mkServerRef (if String.eqb (srv_Host (o_spec srv)) "" then srvst_Host (extra (o_status srv))
               else srv_Host (o_spec srv))
    (srv_Port (o_spec srv))
    (match srv_CredentialsSecret (o_spec srv) with Some s => mkSecretRef (xsec_Name s) | None => mkSecretRef "" end)
    (srv_TLS (o_spec srv)) None.
Definition server_credentials `{!KubeStore K} (ns : string) (srv : SQLServer) (u p : string) (s : K) : Prop :=
  match srv_CredentialsSecret (o_spec srv), srv_Instance (o_spec srv) with
  | Some sec, _ => credentials_stored (default ns (xsec_Namespace sec)) (xsec_Name sec) u p s
  | None, Some inst => u = "sa" /\ exists secret,
      stored KSecret (mkKey ns (sec_Name (inst_SAPasswordSecret inst))) s = Some secret /\
      o_spec secret !! "MSSQL_SA_PASSWORD" = Some p
  | None, None => False
  end.
Definition server_resolved `{!KubeStore K} (ns : string) (ref server : ServerReference) (u p : string) (s : K) : Prop :=
  match SQLServerRef ref with
  | None => server = ref /\ credentials_stored ns (sec_Name (CredentialsSecret ref)) u p s
  | Some name => exists srv, stored KSQLServer (mkKey ns name) s = Some srv /\
      server = server_of srv /\ server_credentials ns srv u p s
  end.
Lemma credentials_same `{!KubeStore K} ns name u p s s' :
  same_store s s' -> credentials_stored ns name u p s -> credentials_stored ns name u p s'.
Proof. intros Hs (secret & Hg & ?). exists secret. by rewrite Hs. Qed.
Lemma server_resolved_same `{!KubeStore K} ns ref server u p s s' :
  same_store s s' -> server_resolved ns ref server u p s -> server_resolved ns ref server u p s'.
Proof.
  intros Hs. unfold server_resolved. destruct (SQLServerRef ref) as [name|].
  - intros (srv & Hg & -> & Hc). exists srv. rewrite Hs. split_and!; [done..|].
    unfold server_credentials in *. destruct (srv_CredentialsSecret _); [by eapply credentials_same|].
    destruct (srv_Instance _); [|done]. by rewrite Hs.
  - intros [-> Hc]. split; [done|]. by eapply credentials_same.
Qed.

Lemma does_resolved_reference `{!KubeStore K} `{!KubeUp K} {R} P ns ref server u p F (E : R -> W -> Prop) w :
  server_resolved ns ref server u p (w_kube w) ->
  (forall w', same_store (w_kube w) (w_kube w') -> w_sql w' = w_sql w -> F (inl server) w') ->
  does P (resolveServerReference ns ref) F E w.
Proof.
  unfold server_resolved, resolveServerReference. destruct (SQLServerRef ref) as [name|].
  - intros (srv & Hs & -> & _) HF. does_step. eapply (does_Get_stored _ KSQLServer); [done|].
    intros w' Hk Hd. does_step. by apply HF.
  - intros [-> _] HF. does_step. by apply HF.
Qed.
Lemma does_resolved_credentials `{!KubeStore K} `{!KubeUp K} {R} P ns ref server u p F (E : R -> W -> Prop) w :
  server_resolved ns ref server u p (w_kube w) ->
  (forall w', same_store (w_kube w) (w_kube w') -> w_sql w' = w_sql w -> F (inl (u, p)) w') ->
  does P (resolveServerCredentials ns ref) F E w.
Proof.
  unfold server_resolved, resolveServerCredentials. destruct (SQLServerRef ref) as [name|].
  2: { intros [_ Hc] HF. by eapply does_credentials. }
  intros (srv & Hs & _ & Hc) HF. does_step. eapply (does_Get_stored _ KSQLServer); [done|].
  intros w' Hk Hd. unfold server_credentials in Hc. cbn.
  destruct (srv_CredentialsSecret (o_spec srv)) as [sec|]; [|destruct (srv_Instance (o_spec srv)) as [inst|]; [|done]].
  - eapply does_credentials; [by eapply credentials_same|]. intros w2 Hk2 Hd2.
    apply HF; [|congruence]. intros k key. by rewrite Hk2.
  - destruct Hc as [-> (secret & Hg & Hp)]. unfold getCredentialsFromSAPasswordSecret. does_step.
    eapply (does_Get_stored _ KSecret); [by rewrite Hk|]. intros w2 Hk2 Hd2. cbn. rewrite Hp. does_step.
    apply HF; [|congruence]. intros k key. by rewrite Hk2.
Qed.

Lemma does_connects {R} P server u p factory c d F (E : R -> W -> Prop) w :
  factory (Host server) (server_port server) u p (server_tls server) (w_sql w) = (inl c, d) ->
  (forall a d, read_only a -> P a d) ->
  (forall w', w_kube w' = w_kube w -> w_sql w' = d -> F (inl c) w') ->
  does P (connectToSQL server u p factory) F E w.
Proof.
  intros Hc HP HF. unfold connectToSQL. do 2 does_step. known Hc. does_step. does_step; [by apply HP|].
  does_step. by apply HF.
Qed.
(** What was logged stays logged: a cleanup does not undo it. *)
Definition logs_only (E : W -> Prop) : Prop :=
  forall w w', E w -> w_log w `prefix_of` w_log w' -> E w'.
Lemma does_defer_logs {R A} cleanup (m : Go W R A) F E w :
  runs any (fun _ => True) cleanup -> (forall a, logs_only (F a)) -> (forall r, logs_only (E r)) ->
  does any m F E w -> does any (defer_ cleanup m) F E w.
Proof.
  intros Hrun HF HE Hm. apply does_defer.
  assert (Hstep : forall Q : W -> Prop, logs_only Q -> forall w', Q w' ->
    does any cleanup (fun _ w' => Q w') (fun _ w' => Q w') w').
  { intros Q HQ w' Hw. apply does_intro. intros o w2 Ho.
    destruct (does_run _ _ _ _ _ _ _ (Hrun w') Ho) as ((l & Hl & Hall) & Ht & Hend). split; [by exists l|]. split; [done|].
    assert (Q w2) by (eapply HQ; [exact Hw|by exists l]). by destruct o. }
  eapply does_post; [exact Hm| |]; intros x w' Hx; apply Hstep; auto.
Qed.

(** A reconcile that reports no error and writes [o] Ready, in a state [Q] of
    the servers. *)
Definition made_ready (k : Kind) (o : obj k) (Q : D -> Prop) (r : ReconcileResult) (w : W) : Prop :=
  r.2 = None /\ exists written d,
    (AStatusPatch k o written, d) ∈ w_log w /\ is_ready (obj_conditions k written) /\ Q d.
Lemma does_report_ready `{!KubeStore K} `{!KubeUp K} {A} (k : Kind) (o written : obj k) Q
    (F : A -> W -> Prop) w :
  is_ready (obj_conditions k written) -> Q (w_sql w) ->
  does any (try_write (StatusPatch k o written) ;;
            d ← requeueWithJitter requeueInterval; return_ (RequeueIn d, None)) F (made_ready k o Q) w.
Proof.
  intros Hr HQ. destruct (StatusPatch_up k o written (w_kube w)) as (o' & s' & Hp).
  unfold try_write. do 5 does_step. known Hp. do 2 does_step.
  apply does_requeueWithJitter; [by vm_compute|]. intros d Hd. does_step.
  split; [done|]. exists written, (w_sql w). split; [|done]. cbn. set_solver.
Qed.
Lemma made_ready_logs k o Q r : logs_only (made_ready k o Q r).
Proof.
  intros w w' (He & written & d & Hin & HQ) [l Hl]. split; [done|]. exists written, d.
  split; [|done]. rewrite Hl, elem_of_app. by left.
Qed.
(** [defer sqlConn.Close()] and the deferred observation of the duration. *)
Lemma made_ready_close {A} k o Q c (m : Go W ReconcileResult A) w :
  does any m (fun _ _ => False) (made_ready k o Q) w ->
  does any (defer_ (sql c "Close" [] Close ;; mret tt) m) (fun _ _ => False) (made_ready k o Q) w.
Proof.
  apply does_defer_logs; [runs_auto|by intros a w1 w2|apply made_ready_logs].
Qed.
Lemma made_ready_observed {A} k o Q labels (m : Go W ReconcileResult A) w :
  does any m (fun _ _ => False) (made_ready k o Q) w ->
  does any (defer_ (_ ← Now; Metric "ReconcileDuration" labels Observed) m) (fun _ _ => False) (made_ready k o Q) w.
Proof.
  apply does_defer_logs; [runs_auto|by intros a w1 w2|apply made_ready_logs].
Qed.
End Rules.
