(* ===== verification/Settling.v ===== *)
(** * Reconciles that settle

    Over an API server that keeps what is written and nobody else writes to, and
    a SQL server that stays as it is left, the first reconcile of an object
    brings the server to what its spec asks and every later one only reads.
    Here is what the kinds share; ObjectSettling.v has the kinds. *)
From S2P Require Import Prelude Types SqlClient Kube Helpers SetReconcile OneShot Progress.

(** ** An API server that keeps what is written
    On top of KubeStore and KubeUp: an update of the stored object that changes
    its finalizers alone is taken, a status patch leaves the metadata the
    controllers read, and both leave the other objects alone. *)
Definition others_same {K} `{KubeStore K} (k : Kind) (key : NamespacedName) (s s' : K) : Prop :=
  forall k' key', k' <> k \/ key' <> key -> stored k' key' s' = stored k' key' s.
Class KubeKeeps (K : Type) `{KubeUp K} := {
  Update_keeps k key o o1 s : stored k key s = Some o ->
    (exists fs, obj_meta k o1 = with_finalizers fs (obj_meta k o)) -> same_content k o1 o ->
    exists o' s', kube_Update k o1 s = (inl o', s') /\ stored k key s' = Some o' /\ same_content k o' o1 /\
      Finalizers (obj_meta k o') = Finalizers (obj_meta k o1) /\
      DeletionTimestamp (obj_meta k o') = DeletionTimestamp (obj_meta k o) /\ others_same k key s s';
  StatusPatch_keeps k key o o1 s o' s' : kube_StatusPatch k o o1 s = (inl o', s') ->
    stored k key s = Some o -> obj_meta k o1 = obj_meta k o ->
    Finalizers (obj_meta k o') = Finalizers (obj_meta k o) /\
    DeletionTimestamp (obj_meta k o') = DeletionTimestamp (obj_meta k o) /\ others_same k key s s'
}.

(** ** Programs that make no API call *)
Section SqlOnly.
Context {K D Conn : Type}.
Abbreviation W := (World K D Conn).
Definition sql_only {R A} (m : Go W R A) : Prop := forall w, w_kube (m w).2 = w_kube w.

Lemma sql_only_bind {R A B} (m : Go W R A) (k : A -> Go W R B) :
  sql_only m -> (forall a, sql_only (k a)) -> sql_only (m ≫= k).
Proof.
  intros Hm Hk w. unfold mbind, go_bind. specialize (Hm w). destruct (m w) as [[a|r|s] w1]; cbn in *; [|done..].
  by rewrite Hk.
Qed.
Lemma sql_only_on_sql {R A} (f : D -> A * D) : sql_only (R := R) (on_sql f).
Proof. intros w. unfold on_sql. by destruct (f (w_sql w)). Qed.
Lemma sql_only_for_each {R A} xs (body : A -> Go W R unit) :
  (forall x, sql_only (body x)) -> sql_only (for_each xs body).
Proof. intros Hb. induction xs as [|x xs IH]; [done|]. cbn. apply sql_only_bind; [done|]. by intros []. Qed.
Lemma sql_only_fn {R R'} (m : Go W R' R') : sql_only m -> sql_only (R := R) (fn m).
Proof. intros Hm w. unfold fn. specialize (Hm w). by destruct (m w) as [[] ?]. Qed.
End SqlOnly.

Ltac sql_only_step :=
  lazymatch goal with
  | |- sql_only (_ ≫= _) => apply sql_only_bind; [|intros ?]
  | |- sql_only (on_sql _) => apply sql_only_on_sql
  | |- sql_only (for_each _ _) => apply sql_only_for_each; intros ?
  | |- sql_only (fn _) => apply sql_only_fn
  | |- sql_only (sql _ _ _ _) => unfold sql
  | |- sql_only (let '(_, _) := ?p in _) => destruct p
  | |- sql_only (when ?b _) => destruct b; unfold when
  | |- sql_only (on_err ?e _) => destruct e; unfold on_err
  | |- sql_only (if_some ?x _) => destruct x; unfold if_some
  | |- sql_only (match ?x with _ => _ end) => destruct x
  | |- sql_only _ => intros ?; reflexivity
  end; cbn beta iota zeta.
Ltac sql_only_auto := repeat sql_only_step.

Section Settling.
Context `{GoEnv} {K D Conn : Type} `{KubeClient K} `{SQLClient Conn D} `{KubeUtil}.
Abbreviation W := (World K D Conn).
Abbreviation never := (fun (_ : ReconcileResult) (_ : W) => False).
Implicit Types (w : W) (P : Action Conn -> D -> Prop).

Lemma sql_only_reconcile_set (rc : SetCalls (K := K) (D := D) (Conn := Conn)) desired :
  sql_only (get_items rc) ->
  (forall r, sql_only (add_item rc r)) -> (forall r, sql_only (remove_item rc r)) ->
  (forall r, sql_only (added rc r)) -> (forall r, sql_only (removed rc r)) ->
  sql_only (reconcile_set rc desired).
Proof.
  intros Hg Ha Hr Had Hrem. unfold reconcile_set, set_loop. apply sql_only_bind; [done|]. intros [items [e|]]; [done|].
  sql_only_auto; auto.
Qed.

Lemma does_sql_only {R A} P (m : Go W R A) F (E : R -> W -> Prop) w :
  sql_only m -> does P m F E w ->
  does P m (fun a w' => F a w' /\ w_kube w' = w_kube w) (fun r w' => E r w' /\ w_kube w' = w_kube w) w.
Proof.
  intros Hm Hd. apply does_intro. intros o w' Hrun. specialize (Hm w). rewrite Hrun in Hm. cbn in Hm.
  destruct (does_run _ _ _ _ _ _ _ Hd Hrun) as (Hl & Ht & Ho). split; [done|]. split; [done|]. by destruct o.
Qed.

(** ** The parts of a reconcile *)
(** What a deferred observation leaves true. *)
Definition log_stable (E : W -> Prop) : Prop :=
  forall w w', E w -> w_kube w' = w_kube w -> w_sql w' = w_sql w -> w_log w `prefix_of` w_log w' -> E w'.
(** [w'] is [w] with the connection closed. *)
Definition closed (c : Conn) (w w' : W) : Prop :=
  w_kube w' = w_kube w /\ w_sql w' = (Close c (w_sql w)).2 /\ w_log w `prefix_of` w_log w'.

Lemma does_closing {A} P c (m : Go W ReconcileResult A) (E : ReconcileResult -> W -> Prop) w :
  (forall a d, read_only a -> P a d) ->
  does P m (fun _ _ => False) (fun r w1 => forall w2, closed c w1 w2 -> E r w2) w ->
  does P (defer_ (sql c "Close" [] Close ;; mret tt) m) (fun _ _ => False) E w.
Proof.
  intros HP Hm. apply does_defer. eapply does_post; [exact Hm|done|]. intros r w1 HE.
  do 3 does_step; [by apply HP, read_only_sql|]. do 2 does_step. apply HE.
  match goal with Hc : Close _ _ = _ |- _ => cbn in Hc; split_and!; [done|by cbn; rewrite Hc|] end.
  cbn. by apply prefix_app_r.
Qed.

Context `{!KubeUtilLaws} `{!KubeStore K} `{!KubeUp K} `{!KubeKeeps K}.

(** The start of a reconcile of an object that is not being deleted. *)
Lemma does_reconcile_stored P k req labels (deleted live_ : obj k -> Go W ReconcileResult ReconcileResult)
    (E : ReconcileResult -> W -> Prop) w o :
  (forall a d, read_only a -> P a d) -> (forall r, log_stable (E r)) ->
  stored k req (w_kube w) = Some o -> DeletionTimestamp (obj_meta k o) = None ->
  (forall w1, same_store (w_kube w) (w_kube w1) -> w_sql w1 = w_sql w -> does P (live_ o) (fun _ _ => False) E w1) ->
  does P (_ ← Now;
          defer_ (_ ← Now; Metric "ReconcileDuration" labels Observed) (
            r ← Get k req;
            match r with
            | inr err => if IsNotFound err then return_ (Result0, None) else return_ (Result0, Some err)
            | inl o => match DeletionTimestamp (obj_meta k o) with Some _ => deleted o | None => live_ o end
            end)) (fun _ _ => False) E w.
Proof.
  intros HP HE Hs Hlive Hm. do 4 does_step. eapply (does_Get_stored _ k); [exact Hs|]. intros w1 Hk Hd.
  cbn. rewrite Hlive. eapply does_post; [by apply Hm|done|]. intros r w2 Hr.
  do 2 does_step. unfold Metric. does_step; [by apply HP|].
  eapply HE; [exact Hr|done|done|]. cbn. by apply prefix_app_r.
Qed.

(** The finalizer is there, or is added: the object stored is then the same
    with it. *)
Lemma does_finalizer {A} P k req o o1 (rest : obj k -> Go W ReconcileResult A) F E w :
  (forall a d, read_only a -> P a d) ->
  stored k req (w_kube w) = Some o -> DeletionTimestamp (obj_meta k o) = None ->
  obj_meta k o1 = AddFinalizer (obj_meta k o) Finalizer -> same_content k o1 o ->
  (forall o' w', stored k req (w_kube w') = Some o' -> same_content k o' o ->
     DeletionTimestamp (obj_meta k o') = None -> others_same k req (w_kube w) (w_kube w') ->
     w_sql w' = w_sql w -> does P (rest o') F E w') ->
  does P (o ← (if ContainsFinalizer (obj_meta k o) Finalizer then mret o else try_write (Update k o1)); rest o) F E w.
Proof.
  intros HP Hs Hlive Hm Hc Hrest. does_step. destruct (ContainsFinalizer _ _).
  - does_step. apply Hrest; [done|by destruct k|done|by intros ? ?|done].
  - destruct (Update_keeps k req o o1 (w_kube w)) as (o' & s' & Hu & Hs' & Hc' & Hf & Hd & Ho); [done| |done|].
    { rewrite Hm. destruct (AddFinalizer_spec (obj_meta k o) Finalizer) as [_ Ha].
      revert Ha. generalize (AddFinalizer (obj_meta k o) Finalizer). intros a Ha.
      exists (Finalizers a). rewrite <- Ha. by destruct a. }
    unfold try_write. do 3 does_step; [by apply HP|]. does_step. known Hu. does_step.
    apply Hrest; [done| |congruence|done|done]. destruct k; cbn in *; intuition congruence.
Qed.

(** The final report: the status written is stored. *)
Lemma does_report_kept {A} P k req o written (F : A -> W -> Prop) (E : ReconcileResult -> W -> Prop) w :
  P (AStatusPatch k o written) (w_sql w) ->
  stored k req (w_kube w) = Some o -> obj_meta k written = obj_meta k o ->
  (forall o' d w', stored k req (w_kube w') = Some o' -> same_content k o' written ->
     DeletionTimestamp (obj_meta k o') = DeletionTimestamp (obj_meta k o) ->
     others_same k req (w_kube w) (w_kube w') -> w_sql w' = w_sql w ->
     (AStatusPatch k o written, w_sql w) ∈ w_log w' -> E (RequeueIn d, None) w') ->
  does P (try_write (StatusPatch k o written) ;;
          d ← requeueWithJitter requeueInterval; return_ (RequeueIn d, None)) F E w.
Proof.
  intros HP Hs Hm HE. destruct (StatusPatch_up k o written (w_kube w)) as (o' & s' & Hp).
  destruct (StatusPatch_stored _ _ _ _ _ _ _ Hp Hs Hm) as [Hs' Hc].
  destruct (StatusPatch_keeps _ _ _ _ _ _ _ Hp Hs Hm) as (_ & Hd & Ho).
  unfold try_write. do 5 does_step. known Hp. do 2 does_step.
  apply does_requeueWithJitter; [by vm_compute|]. intros d Hd'. does_step.
  apply (HE o'); [done| |done..|cbn; set_solver]. destruct k; cbn in *; intuition congruence.
Qed.

(** ** Settling *)
(** The next [n] runs of [m] return no error and send no statement that changes
    a server. *)
Fixpoint stays (m : Go W ReconcileResult ReconcileResult) (n : nat) (w : W) : Prop :=
  match n with
  | O => True
  | S n => exists r w' l, m w = (Return r, w') /\ r.2 = None /\ w_log w' = w_log w ++ l /\
             Forall (fun x => read_only x.1) l /\ stays m n w'
  end.

(** [I] holds between the runs, [J] once the first one is over. *)
Lemma settles (m : Go W ReconcileResult ReconcileResult) (I J : W -> Prop) :
  (forall w, I w -> ends m (fun r w' => r.2 = None /\ I w' /\ J w') w) ->
  (forall w, I w -> J w -> performs (fun a _ => read_only a) m w) ->
  forall w n, I w -> J w -> stays m n w.
Proof.
  intros Hfirst Hagain w n. revert w. induction n as [|n IH]; intros w HI HJ; [done|].
  destruct (Hfirst w HI) as (r & w' & Hrun & Hr & HI' & HJ').
  destruct (Hagain w HI HJ) as (r' & w'' & l & Hrun' & Hl & Hro).
  rewrite Hrun in Hrun'. injection Hrun' as <- <-. exists r, w', l. split_and!; auto.
Qed.

(** A reconcile that ends without an error, with a Ready=True write of a [k] in
    the log and the API server and the servers in a state [S]. *)
Definition settled_in (k : Kind) (S : K -> D -> Prop) (r : ReconcileResult) (w : W) : Prop :=
  r.2 = None /\ S (w_kube w) (w_sql w) /\ exists base written d,
    (AStatusPatch k base written, d) ∈ w_log w /\ is_ready (obj_conditions k written).
Lemma settled_in_stable k S r : log_stable (settled_in k S r).
Proof.
  intros w w' (Hr & HS & b & o & d & Hin & Hrd) Hk Hd [l Hlog]. split; [done|]. rewrite Hk, Hd. split; [done|].
  exists b, o, d. rewrite Hlog, elem_of_app. auto.
Qed.

(** The report, and the connection closed after it. *)
Lemma does_report_settled {A} P k req o written c S (F : A -> W -> Prop) w :
  P (AStatusPatch k o written) (w_sql w) ->
  stored k req (w_kube w) = Some o -> obj_meta k written = obj_meta k o ->
  is_ready (obj_conditions k written) ->
  (forall o' s', stored k req s' = Some o' -> same_content k o' written ->
     DeletionTimestamp (obj_meta k o') = DeletionTimestamp (obj_meta k o) ->
     others_same k req (w_kube w) s' -> S s' (Close c (w_sql w)).2) ->
  does P (try_write (StatusPatch k o written) ;;
          d ← requeueWithJitter requeueInterval; return_ (RequeueIn d, None))
    F (fun r w1 => forall w2, closed c w1 w2 -> settled_in k S r w2) w.
Proof.
  intros HP Hs Hm Hr HS. eapply does_report_kept; [done..|].
  intros o' d w1 Hs1 Hc1 Hd1 Ho1 Hq1 Hlog w2 (Hk2 & Hq2 & [l Hl]). split; [done|]. rewrite Hk2, Hq2, Hq1.
  split; [by eapply HS|]. do 3 eexists. split; [|exact Hr]. rewrite Hl. apply elem_of_app. by left.
Qed.

(** [R]: a reconcile settles; [S]: it has. *)
Lemma settled_stays (m : Go W ReconcileResult ReconcileResult) k (R S : K -> D -> Prop) :
  (forall s d, S s d -> R s d) ->
  (forall w, R (w_kube w) (w_sql w) -> ends m (settled_in k S) w) ->
  (forall w, S (w_kube w) (w_sql w) -> performs (fun a _ => read_only a) m w) ->
  forall w, R (w_kube w) (w_sql w) -> ends m (fun r w1 => settled_in k S r w1 /\ forall n, stays m n w1) w.
Proof.
  intros HSR Hfirst Hagain w Hw. destruct (Hfirst w Hw) as (r & w1 & Hrun & Hdone). exists r, w1. split; [done|].
  split; [done|]. intros n.
  apply (settles m (fun w => R (w_kube w) (w_sql w)) (fun w => S (w_kube w) (w_sql w))); [|auto|apply HSR, Hdone|apply Hdone].
  intros w2 Hw2. destruct (Hfirst w2 Hw2) as (r3 & w3 & ? & Hr & HS & _). exists r3, w3. auto.
Qed.

(** Another object changed: the Secrets are still there. *)
Lemma others_stored (k k' : Kind) key key' s s' o :
  k' <> k -> others_same k key s s' -> stored k' key' s = Some o -> stored k' key' s' = Some o.
Proof. intros Hk Ho <-. apply Ho. by left. Qed.
Lemma others_credentials (k : Kind) key s s' ns name u p :
  k <> KSecret -> others_same k key s s' -> credentials_stored ns name u p s -> credentials_stored ns name u p s'.
Proof. intros Hk Ho (secret & Hs & ?). exists secret. rewrite Ho by (left; congruence). done. Qed.
End Settling.
