(* ===== verification/ObjectProgress.v ===== *)
(** * The SQL objects become ready

    A server that accepts the calls a spec leads to, and an API server that is
    up: one reconcile of a live object makes it Ready. *)
From S2P Require Import Prelude Types SqlClient Kube Helpers SetReconcile OneShot Progress Settling.
From S2P Require Import LoginController DatabaseUserController SchemaController.

Module LoginProgress.
Import LoginCtl.
Section Progress.
Context `{GoEnv} {K D Conn : Type} `{KubeClient K} `{SQLClient Conn D} `{KubeUtil}.
Context `{!GoEnvLaws} `{!SQLClientLaws Conn D} `{!KubeUtilLaws} `{!KubeStore K} `{!KubeUp K}.
Variable factory : ClientFactory Conn D.
Abbreviation W := (World K D Conn).
Abbreviation any := (fun (_ : Action Conn) (_ : D) => True).
Abbreviation never := (fun (_ : ReconcileResult) (_ : W) => False).
Variables (login : Login) (c : Conn) (up : D -> Prop).
Let name := login_LoginName (o_spec login).
Definition exists_in (d : D) : Prop := is_Some (v_login c d name).

(** The server answers about the login, creates it with the password [pw] when
    it is missing, and lets its password, default database and roles be set. *)
Record login_accepted (pw : string) : Prop := {
  exists_answered d : up d -> answers up (LoginExists name) c d;
  create_accepted d : up d -> ~ exists_in d -> accepts up (CreateLogin name pw) c d;
  password_accepted d : up d -> exists_in d -> accepts up (UpdateLoginPassword name pw) c d;
  default_db_answered d : up d -> exists_in d -> answers up (GetLoginDefaultDatabase name) c d;
  default_db_accepted db d : login_DefaultDatabase (o_spec login) = Some db ->
    up d -> exists_in d -> accepts up (SetLoginDefaultDatabase name db) c d;
  roles_answered d : up d -> exists_in d -> answers up (GetLoginServerRoles name) c d;
  role_added r d : r ∈ login_ServerRoles (o_spec login) ->
    up d -> exists_in d -> accepts up (AddLoginToServerRole name r) c d;
  role_removed r d : r ∉ login_ServerRoles (o_spec login) ->
    up d -> exists_in d -> accepts up (RemoveLoginFromServerRole name r) c d
}.

Section Steps.
Context (pw : string) (Ha : login_accepted pw).
Abbreviation at_view v := (fun w : W => v_login c (w_sql w) name = Some v /\ up (w_sql w)).

Lemma ensure_login_succeeds pwSecret w :
  up (w_sql w) ->
  does any (ensure_login login c pwSecret pw)
    (fun _ w' => exists v, at_view v w' /\ rotated login pwSecret pw v /\
       (v_login c (w_sql w) name = None -> lv_password v = pw)) never w.
Proof.
  intros Hup. eapply (does_succeeds _ _ _ _ (fun _ w' => up (w_sql w'))); [by apply (ensure_login_spec login c any (fun _ _ _ => I))| |].
  - unfold ensure_login. fold name. does_step.
    eapply does_try_answered; [by apply Ha|apply LoginExists_spec|].
    intros b w1 -> Hs Hup1. case_bool_decide as Hex; cbn [negb].
    + destruct (String.eqb _ _); cbn [negb]; [by does_step|]. does_step.
      eapply does_try_accepted; [apply Ha; [done|by unfold exists_in; rewrite Hs]|apply UpdateLoginPassword_spec|].
      intros w2 _ Hup2. by does_step.
    + does_step.
      eapply does_try_accepted; [apply Ha; [done|by unfold exists_in; rewrite Hs]|apply CreateLogin_spec|].
      intros w2 _ Hup2. by does_step.
  - intros [] w' (v & Hv & Hr & Hn) Hup'. by exists v.
Qed.

Lemma default_database_succeeds v w :
  at_view v w ->
  does any (reconcile_default_database login c)
    (fun _ => at_view (mkLoginView (lv_password v)
                (default (lv_default_db v) (login_DefaultDatabase (o_spec login))) (lv_roles v))) never w.
Proof.
  intros [Hv Hup]. eapply (does_succeeds _ _ _ _ (fun _ w' => up (w_sql w')));
    [by apply (reconcile_default_database_spec login c any (fun _ _ _ => I) v)| |].
  - unfold reconcile_default_database. fold name.
    destruct (login_DefaultDatabase (o_spec login)) as [db|] eqn:Hdb; cbn [if_some]; [|by does_step].
    does_step. eapply does_try_answered; [by apply Ha; [|exists v]|apply GetLoginDefaultDatabase_spec|].
    intros cur w1 _ Hs Hup1. destruct (negb _); cbn [when]; [|by does_step].
    eapply does_try_accepted; [apply Ha; [done..|by exists v; rewrite Hs]|apply SetLoginDefaultDatabase_spec|done].
  - by intros [] w' Hv' Hup'.
Qed.

Lemma server_roles_succeed v w :
  at_view v w ->
  does any (reconcileServerRoles c name (login_ServerRoles (o_spec login))) (fun _ _ => False)
    (fun e w' => e = None /\
       at_view (mkLoginView (lv_password v) (lv_default_db v) (toSet (login_ServerRoles (o_spec login)))) w') w.
Proof.
  intros [Hv Hup]. unfold reconcileServerRoles.
  eapply does_post; [apply (reconcile_set_reports _ _ (fun s d =>
    v_login c d name = Some (mkLoginView (lv_password v) (lv_default_db v) s) /\ up d))
      with (fails := False) (s := lv_roles v)|done|by intros [e|] w' Hw'].
  - intros r w'. cbn. by does_step.
  - intros r w'. cbn. by does_step.
  - intros s w' [Hs Hup']. cbn.
    eapply does_answered; [by apply Ha; [|eexists]|apply GetLoginServerRoles_spec|].
    intros x w'' (v1 & Hv1 & Hx) Hsame Hup''. rewrite Hs in Hv1. injection Hv1 as <-. cbn.
    by rewrite Hsame.
  - intros r s w' Hr [Hs Hup']. unfold call_reports. cbn.
    eapply does_accepted; [by apply Ha; [| |eexists]|apply AddLoginToServerRole_spec|].
    intros w'' (v1 & Hv1 & Hv1') Hup''. rewrite Hs in Hv1. by injection Hv1 as <-.
  - intros r s w' Hr [Hs Hup']. unfold call_reports. cbn.
    eapply does_accepted; [by apply Ha; [| |eexists]|apply RemoveLoginFromServerRole_spec|].
    intros w'' (v1 & Hv1 & Hv1') Hup''. rewrite Hs in Hv1. by injection Hv1 as <-.
  - by destruct v.
Qed.

(** The login is on the server as the spec asks. *)
Definition as_asked (d : D) : Prop :=
  exists v, v_login c d name = Some v /\ lv_roles v = toSet (login_ServerRoles (o_spec login)) /\
    (forall db, login_DefaultDatabase (o_spec login) = Some db -> lv_default_db v = db).

(** Up to the report of step 8. *)
Lemma login_connected_reports pwSecret E w :
  up (w_sql w) ->
  (forall w', as_asked (w_sql w') -> up (w_sql w') -> w_kube w' = w_kube w ->
     does any (report_ready login pwSecret) (fun _ _ => False) E w') ->
  does any (reconcile_connected login c pwSecret pw) (fun _ _ => False) E w.
Proof.
  intros Hup HE. unfold reconcile_connected. does_step.
  eapply does_post; [apply does_sql_only; [unfold ensure_login, try_query, try_op; sql_only_auto|by apply ensure_login_succeeds]| |by intros ? ? []].
  intros [] w1 [(v1 & Hv1 & _) Hk1]. does_step.
  eapply does_post; [apply does_sql_only; [unfold reconcile_default_database, try_query, try_op; sql_only_auto|by apply default_database_succeeds]| |by intros ? ? []].
  intros [] w2 [Hv2 Hk2]. do 2 does_step.
  eapply does_post; [apply does_sql_only; [apply sql_only_reconcile_set; intros; cbn; sql_only_auto|by apply server_roles_succeed]|by intros ? ? []|].
  intros e w3 [[-> [Hv3 Hup3]] Hk3]. cbn [on_err]. do 2 does_step. apply HE; [|done|congruence].
  eexists. split; [exact Hv3|]. cbn. split; [done|]. by intros db ->.
Qed.
Lemma login_connected_succeeds pwSecret w :
  up (w_sql w) ->
  does any (reconcile_connected login c pwSecret pw) (fun _ _ => False)
    (made_ready KLogin login as_asked) w.
Proof.
  intros Hup. apply login_connected_reports; [done|]. intros w' Has _ _. unfold report_ready.
  do 4 does_step. apply does_report_ready; [|done]. by apply (proj2 (is_ready_with _ _ _ _)).
Qed.
End Steps.

(** Over an API server that answers and a SQL server that accepts what the
    spec leads to, one reconcile of a live Login that has its finalizer and
    whose two Secrets are stored returns without an error after writing it
    Ready=True, in a state where the login is on the server with exactly the
    roles, and the default database, of the spec. *)
Theorem login_becomes_ready req u p pwSecret pw d w :
  stored KLogin req (w_kube w) = Some login -> live (o_meta login) ->
  credentials_stored (Namespace (o_meta login)) (sec_Name (CredentialsSecret (login_Server (o_spec login))))
    u p (w_kube w) ->
  stored KSecret (mkKey (Namespace (o_meta login)) (sec_Name (login_PasswordSecret (o_spec login))))
    (w_kube w) = Some pwSecret ->
  o_spec pwSecret !! "password" = Some pw ->
  factory (Host (login_Server (o_spec login))) (server_port (login_Server (o_spec login))) u p
    (server_tls (login_Server (o_spec login))) (w_sql w) = (inl c, d) -> up d ->
  login_accepted pw ->
  ends (Reconcile factory req) (made_ready KLogin login as_asked) w.
Proof.
  intros Hlogin [Hlive Hfin] Hcreds Hpws Hpw Hc Hup Ha. apply (ends_intro any).
  unfold Reconcile. do 2 does_step. apply made_ready_observed. does_step.
  eapply (does_Get_stored _ KLogin); [done|]. intros w1 Hk1 Hd1. rewrite Hlive. unfold reconcile_live.
  rewrite ContainsFinalizer_spec, bool_decide_true by done. do 3 does_step.
  eapply does_credentials; [by eapply credentials_same|].
  intros w2 Hk2 Hd2. does_step.
  eapply (does_Get_stored _ KSecret); [by rewrite Hk2, Hk1|]. intros w3 Hk3 Hd3. cbn. rewrite Hpw. does_step.
  eapply does_connects; [by rewrite Hd3, Hd2, Hd1|done|]. intros w4 _ Hd4.
  apply made_ready_close, login_connected_succeeds; [done|by rewrite Hd4].
Qed.
End Progress.
End LoginProgress.

(** ** Users *)
Module UserProgress.
Import UserCtl.
Section Progress.
Context `{GoEnv} {K D Conn : Type} `{KubeClient K} `{SQLClient Conn D} `{KubeUtil}.
Context `{!GoEnvLaws} `{!SQLClientLaws Conn D} `{!KubeUtilLaws} `{!KubeStore K} `{!KubeUp K}.
Variable factory : ClientFactory Conn D.
Abbreviation W := (World K D Conn).
Abbreviation any := (fun (_ : Action Conn) (_ : D) => True).
Abbreviation never := (fun (_ : ReconcileResult) (_ : W) => False).
Variables (user : DatabaseUser) (c : Conn) (up : D -> Prop).
Let db := user_DatabaseName (o_spec user).
Let name := user_UserName (o_spec user).
Definition exists_in (d : D) : Prop := is_Some (v_user c d db name).

(** The server answers about the user, creates it for the login when it is
    missing, and lets its roles be set. *)
Record user_accepted (loginName : string) : Prop := {
  exists_answered d : up d -> answers up (UserExists db name) c d;
  create_accepted d : up d -> ~ exists_in d -> accepts up (CreateUser db name loginName) c d;
  roles_answered d : up d -> exists_in d -> answers up (GetUserDatabaseRoles db name) c d;
  role_added r d : r ∈ user_DatabaseRoles (o_spec user) ->
    up d -> exists_in d -> accepts up (AddUserToDatabaseRole db name r) c d;
  role_removed r d : r ∉ user_DatabaseRoles (o_spec user) ->
    up d -> exists_in d -> accepts up (RemoveUserFromDatabaseRole db name r) c d
}.

Section Steps.
Context (loginName : string) (Ha : user_accepted loginName).
Abbreviation at_view v := (fun w : W => v_user c (w_sql w) db name = Some v /\ up (w_sql w)).

Lemma ensure_user_succeeds w :
  up (w_sql w) ->
  does any (ensure_user user c loginName) (fun _ w' => exists v, at_view v w') never w.
Proof.
  intros Hup. unfold ensure_user. fold db name. does_step.
  eapply does_try_answered; [by apply Ha|apply UserExists_spec|].
  intros b w1 -> Hs Hup1. case_bool_decide as Hex; cbn [negb when].
  - destruct Hex as [v Hv]. does_step. exists v. by rewrite Hs.
  - does_step.
    eapply does_try_accepted; [apply Ha; [done|by unfold exists_in; rewrite Hs]|apply CreateUser_spec|].
    intros w2 (v & Hv & _) Hup2. does_step. by exists v.
Qed.

Lemma database_roles_succeed v w :
  at_view v w ->
  does any (reconcileDatabaseRoles c db name (user_DatabaseRoles (o_spec user))) (fun _ _ => False)
    (fun e w' => e = None /\
       at_view (mkUserView (uv_login v) (toSet (user_DatabaseRoles (o_spec user))) (uv_owns v)) w') w.
Proof.
  intros [Hv Hup]. unfold reconcileDatabaseRoles.
  eapply does_post; [apply (reconcile_set_reports _ _ (fun s d =>
    v_user c d db name = Some (mkUserView (uv_login v) s (uv_owns v)) /\ up d))
      with (fails := False) (s := uv_roles v)|done|by intros [e|] w' Hw'].
  - intros r w'. cbn. by does_step.
  - intros r w'. cbn. by does_step.
  - intros s w' [Hs Hup']. cbn.
    eapply does_answered; [by apply Ha; [|eexists]|apply GetUserDatabaseRoles_spec|].
    intros x w'' (v1 & Hv1 & Hx) Hsame Hup''. rewrite Hs in Hv1. injection Hv1 as <-. cbn.
    by rewrite Hsame.
  - intros r s w' Hr [Hs Hup']. unfold call_reports. cbn.
    eapply does_accepted; [by apply Ha; [| |eexists]|apply AddUserToDatabaseRole_spec|].
    intros w'' (v1 & Hv1 & Hv1') Hup''. rewrite Hs in Hv1. by injection Hv1 as <-.
  - intros r s w' Hr [Hs Hup']. unfold call_reports. cbn.
    eapply does_accepted; [by apply Ha; [| |eexists]|apply RemoveUserFromDatabaseRole_spec|].
    intros w'' (v1 & Hv1 & Hv1') Hup''. rewrite Hs in Hv1. by injection Hv1 as <-.
  - by destruct v.
Qed.

(** The user is in its database with the roles of the spec. *)
Definition as_asked (d : D) : Prop :=
  exists v, v_user c d db name = Some v /\ uv_roles v = toSet (user_DatabaseRoles (o_spec user)).

Lemma user_connected_reports E w :
  up (w_sql w) ->
  (forall w' message, as_asked (w_sql w') -> up (w_sql w') -> w_kube w' = w_kube w ->
     does any (setConditionAndReturn user ConditionTrue ReasonReady message) (fun _ _ => False) E w') ->
  does any (reconcile_connected user c loginName) (fun _ _ => False) E w.
Proof.
  intros Hup HE. unfold reconcile_connected. does_step.
  eapply does_post; [apply does_sql_only; [unfold ensure_user, try_query, try_op; sql_only_auto|by apply ensure_user_succeeds]| |by intros ? ? []].
  intros [] w1 [(v1 & Hv1) Hk1]. do 2 does_step.
  eapply does_post; [apply does_sql_only; [apply sql_only_reconcile_set; intros; cbn; sql_only_auto|by apply database_roles_succeed]|by intros ? ? []|].
  intros e w3 [[-> [Hv3 Hup3]] Hk3]. cbn [on_err]. do 4 does_step.
  apply HE; [|done|cbn; congruence]. eexists. split; [exact Hv3|done].
Qed.
Lemma user_connected_succeeds w :
  up (w_sql w) ->
  does any (reconcile_connected user c loginName) (fun _ _ => False)
    (made_ready KDatabaseUser user as_asked) w.
Proof.
  intros Hup. apply user_connected_reports; [done|]. intros w' message Has _ _.
  unfold setConditionAndReturn, set_condition_and_return.
  apply (does_report_ready KDatabaseUser); [by apply (proj2 (is_ready_with _ _ _ _))|done].
Qed.
End Steps.

(** Over an API server that answers and a SQL server that accepts what the
    spec leads to, one reconcile of a live DatabaseUser that has its
    finalizer, whose Login and Secret are stored, returns without an error
    after writing it Ready=True, in a state where the user is in its
    database with exactly the roles of the spec. *)
Theorem user_becomes_ready req u p login d w :
  stored KDatabaseUser req (w_kube w) = Some user -> live (o_meta user) ->
  stored KLogin (mkKey (Namespace (o_meta user)) (loginref_Name (user_LoginRef (o_spec user))))
    (w_kube w) = Some login ->
  credentials_stored (Namespace (o_meta user)) (sec_Name (CredentialsSecret (user_Server (o_spec user))))
    u p (w_kube w) ->
  factory (Host (user_Server (o_spec user))) (server_port (user_Server (o_spec user))) u p
    (server_tls (user_Server (o_spec user))) (w_sql w) = (inl c, d) -> up d ->
  user_accepted (login_LoginName (o_spec login)) ->
  ends (Reconcile factory req) (made_ready KDatabaseUser user as_asked) w.
Proof.
  intros Huser [Hlive Hfin] Hlogin Hcreds Hc Hup Ha. apply (ends_intro any).
  unfold Reconcile. do 2 does_step. apply made_ready_observed. does_step.
  eapply (does_Get_stored _ KDatabaseUser); [done|]. intros w1 Hk1 Hd1. rewrite Hlive. unfold reconcile_live.
  rewrite ContainsFinalizer_spec, bool_decide_true by done. do 3 does_step.
  eapply (does_Get_stored _ KLogin); [by rewrite Hk1|]. intros w2 Hk2 Hd2. does_step.
  eapply does_credentials; [by eapply credentials_same; [done|]; eapply credentials_same|].
  intros w3 Hk3 Hd3. does_step.
  eapply does_connects; [by rewrite Hd3, Hd2, Hd1|done|]. intros w4 _ Hd4.
  apply made_ready_close, user_connected_succeeds; [done|by rewrite Hd4].
Qed.
End Progress.
End UserProgress.

(** ** Schemas *)
Module SchemaProgress.
Import SchemaCtl.
Section Progress.
Context `{GoEnv} {K D Conn : Type} `{KubeClient K} `{SQLClient Conn D} `{KubeUtil}.
Context `{!GoEnvLaws} `{!SQLClientLaws Conn D} `{!KubeUtilLaws} `{!KubeStore K} `{!KubeUp K}.
Variable factory : ClientFactory Conn D.
Abbreviation W := (World K D Conn).
Abbreviation any := (fun (_ : Action Conn) (_ : D) => True).
Abbreviation never := (fun (_ : ReconcileResult) (_ : W) => False).
Variables (schema : Schema) (c : Conn) (up : D -> Prop).
Let db := schema_DatabaseName (o_spec schema).
Let name := schema_SchemaName (o_spec schema).
Definition exists_in (d : D) : Prop := is_Some (v_schema c d db name).

(** The server answers about the schema, creates it when it is missing, and
    lets its owner be set. *)
Record schema_accepted : Prop := {
  exists_answered d : up d -> answers up (SchemaExists db name) c d;
  create_accepted d : up d -> ~ exists_in d ->
    accepts up (CreateSchema db name (schema_Owner (o_spec schema))) c d;
  owner_answered d : up d -> exists_in d -> answers up (GetSchemaOwner db name) c d;
  owner_accepted o d : schema_Owner (o_spec schema) = Some o ->
    up d -> exists_in d -> accepts up (SetSchemaOwner db name o) c d
}.

Lemma ensure_schema_succeeds w :
  schema_accepted -> up (w_sql w) ->
  does any (ensure_schema schema c) (fun _ w' => exists_in (w_sql w') /\ up (w_sql w')) never w.
Proof.
  intros Ha Hup. unfold ensure_schema, exists_in. fold db name. does_step.
  eapply does_try_answered; [by apply Ha|apply SchemaExists_spec|].
  intros b w1 -> Hs Hup1. case_bool_decide as Hex; cbn [negb when].
  - does_step. by rewrite Hs.
  - does_step.
    eapply does_try_accepted; [apply Ha; [done|by unfold exists_in; rewrite Hs]|apply CreateSchema_spec|].
    intros w2 Hv Hup2. by does_step.
Qed.

Lemma schema_owner_succeeds w :
  schema_accepted -> exists_in (w_sql w) -> up (w_sql w) ->
  does any (reconcile_owner schema c) (fun _ w' => synced schema c (w_sql w')) never w.
Proof.
  intros Ha [v Hv] Hup. unfold reconcile_owner, synced. fold db name.
  destruct (schema_Owner (o_spec schema)) as [o|] eqn:Ho; cbn [if_some]; [|does_step; by exists v].
  does_step. eapply does_try_answered; [by apply Ha; [|exists v]|apply GetSchemaOwner_spec|].
  intros cur w1 (v1 & Hv1 & <-) Hs Hup1.
  destruct (String.eqb_spec (sv_owner v1) o) as [<-|]; cbn [negb when].
  - does_step. rewrite Hs. exists v1. split; [done|]. by intros ? [= <-].
  - does_step.
    eapply does_try_accepted; [by apply Ha; [| |exists v; rewrite Hs]|apply SetSchemaOwner_spec|].
    intros w2 (v2 & _ & Hv2) _. does_step. eexists. split; [exact Hv2|]. by intros ? [= <-].
Qed.

(** The same for a Schema: one reconcile returns without an error after writing
    it Ready=True, in a state where it exists with the owner of the spec. *)
Theorem schema_becomes_ready req u p d w :
  stored KSchema req (w_kube w) = Some schema -> live (o_meta schema) ->
  credentials_stored (Namespace (o_meta schema)) (sec_Name (CredentialsSecret (schema_Server (o_spec schema))))
    u p (w_kube w) ->
  factory (Host (schema_Server (o_spec schema))) (server_port (schema_Server (o_spec schema))) u p
    (server_tls (schema_Server (o_spec schema))) (w_sql w) = (inl c, d) -> up d ->
  schema_accepted ->
  ends (Reconcile factory req) (made_ready KSchema schema (synced schema c)) w.
Proof.
  intros Hschema [Hlive Hfin] Hcreds Hc Hup Ha. apply (ends_intro any).
  unfold Reconcile. do 2 does_step. apply made_ready_observed. does_step.
  eapply (does_Get_stored _ KSchema); [done|]. intros w1 Hk1 Hd1. rewrite Hlive. unfold reconcile_live.
  rewrite ContainsFinalizer_spec, bool_decide_true by done. do 3 does_step.
  eapply does_credentials; [by eapply credentials_same|]. intros w2 Hk2 Hd2. does_step.
  eapply does_connects; [by rewrite Hd2, Hd1|done|]. intros w3 _ Hd3.
  apply made_ready_close. unfold reconcile_connected. does_step.
  eapply does_post; [apply ensure_schema_succeeds; [done|by rewrite Hd3]| |done].
  intros [] w4 [Hex Hup4]. does_step. eapply does_post; [by apply schema_owner_succeeds| |done].
  intros [] w5 Hw5. do 2 does_step. unfold setConditionAndReturn, set_condition_and_return.
  apply (does_report_ready KSchema); [by apply (proj2 (is_ready_with _ _ _ _))|done].
Qed.
End Progress.
End SchemaProgress.
