(* ===== verification/DatabaseProgress.v ===== *)
(** * A Database becomes ready

    The counterpart of ObjectProgress.v for databases, whose server may be named
    through an SQLServer object. *)
From S2P Require Import Prelude Types SqlClient Kube Helpers OneShot Progress Settling DatabaseController.

Module DatabaseProgress.
Import Database.
Section Progress.
Context `{GoEnv} {K D Conn : Type} `{KubeClient K} `{SQLClient Conn D} `{KubeUtil}.
Context `{!GoEnvLaws} `{!SQLClientLaws Conn D} `{!KubeUtilLaws} `{!KubeStore K} `{!KubeUp K}.
Variable factory : ClientFactory Conn D.
Abbreviation W := (World K D Conn).
Abbreviation any := (fun (_ : Action Conn) (_ : D) => True).
Abbreviation never := (fun (_ : ReconcileResult) (_ : W) => False).
Variables (db : Database) (c : Conn) (up : D -> Prop).
Let name := db_DatabaseName (o_spec db).
Definition exists_in (d : D) : Prop := is_Some (v_db c d name).

(** If the database is there and the spec names a collation, the database has it. *)
Definition collated (d : D) : Prop :=
  forall x v, db_Collation (o_spec db) = Some x -> v_db c d name = Some v -> dv_collation v = x.

(** The server answers about the database, creates it when it is missing, with
    the collation the spec names, and lets its owner, recovery model,
    compatibility level and options be set to those of the spec. *)
Record database_accepted : Prop := {
  exists_answered d : up d -> answers up (DatabaseExists name) c d;
  create_accepted d : up d -> ~ exists_in d ->
    accepts up (CreateDatabase name (db_Collation (o_spec db))) c d;
  owner_answered d : up d -> exists_in d -> answers up (GetDatabaseOwner name) c d;
  owner_accepted o d : db_Owner (o_spec db) = Some o ->
    up d -> exists_in d -> accepts up (SetDatabaseOwner name o) c d;
  recovery_answered d : up d -> exists_in d -> answers up (GetDatabaseRecoveryModel name) c d;
  recovery_accepted m d : db_RecoveryModel (o_spec db) = Some m ->
    up d -> exists_in d -> accepts up (SetDatabaseRecoveryModel name (desired_recovery m)) c d;
  compat_answered d : up d -> exists_in d -> answers up (GetDatabaseCompatibilityLevel name) c d;
  compat_accepted l d : db_CompatibilityLevel (o_spec db) = Some l ->
    up d -> exists_in d -> accepts up (SetDatabaseCompatibilityLevel name l) c d;
  option_answered opt d : opt ∈ db_Options (o_spec db) ->
    up d -> exists_in d -> answers up (GetDatabaseOption name (opt_Name opt)) c d;
  option_accepted opt d : opt ∈ db_Options (o_spec db) ->
    up d -> exists_in d -> accepts up (SetDatabaseOption name (opt_Name opt) (opt_Value opt)) c d;
  collation_answered d : up d -> exists_in d -> answers up (GetDatabaseCollation name) c d;
  collation_created d d' : up d -> ~ exists_in d ->
    CreateDatabase name (db_Collation (o_spec db)) c d = (None, d') -> collated d'
}.

Section Steps.
Context (Ha : database_accepted).
Abbreviation there := (fun w : W => exists_in (w_sql w) /\ collated (w_sql w) /\ up (w_sql w)).
Abbreviation goes_well m := (forall w : W, there w -> does any m (fun _ => there) never w).

(** A call about the database leaves it there. *)
Lemma query_there {A} m args (q : Query Conn D A) T msg w :
  query_spec q T (fun c d d' => v_db c d' = v_db c d) -> answers up q c (w_sql w) -> there w ->
  does any (try_query (sql c m args q) msg) (fun _ => there) never w.
Proof.
  intros Hq Hans (Hex & Hcol & Hup). eapply does_try_answered; [done..|]. intros x w' _ Hs Hup'.
  unfold exists_in, collated in *. by rewrite Hs.
Qed.
Lemma op_there m args (o : Op Conn D) T msg w :
  op_spec o T -> (forall d d', T c d d' -> exists_in d' /\ (collated d -> collated d')) ->
  accepts up o c (w_sql w) -> there w ->
  does any (try_op (sql c m args o) msg) (fun _ => there) never w.
Proof.
  intros Ho HT Hacc (_ & Hcol & _). eapply does_try_accepted; [done..|].
  intros w' Hw' Hup'. by destruct (HT _ _ Hw') as [? Hc]; auto.
Qed.

Lemma ensure_exists_succeeds w :
  collated (w_sql w) -> up (w_sql w) -> does any (ensure_exists db c) (fun _ => there) never w.
Proof.
  intros Hcol Hup. unfold ensure_exists. fold name. does_step.
  eapply does_try_answered; [by apply Ha|apply DatabaseExists_spec|].
  intros b w1 -> Hs Hup1. case_bool_decide as Hex; cbn [negb when]; does_step.
  - do 2 does_step. unfold exists_in, collated in *. by rewrite Hs.
  - assert (Hno : ~ exists_in (w_sql w1)) by (unfold exists_in; by rewrite Hs).
    does_step. eapply (does_try_accepted up _ _ _ _ (fun c' d d' => is_Some (v_db c' d' name) /\
        (c' = c -> up d -> ~ exists_in d -> collated d'))).
    + by apply Ha.
    + intros c1 d1 d2 Hcr. split; [by eapply CreateDatabase_spec|]. intros -> Hu Hn.
      by eapply (collation_created Ha).
    + intros w2 [Hex2 Hcol2] Hup2. do 2 does_step. by auto.
Qed.

(** [current ← get; when (differs current) (set ;; event)]. *)
Lemma compare_and_set {A} m args (q : Query Conn D A) T msg (test : A -> bool) body :
  query_spec q T (fun c d d' => v_db c d' = v_db c d) ->
  (forall w : W, there w -> answers up q c (w_sql w)) -> (forall a, goes_well (body a)) ->
  goes_well (x ← try_query (sql c m args q) msg; when (test x) (body x)).
Proof.
  intros Hq Hans Hbody w Hw. does_step. eapply does_post; [by eapply query_there; eauto| |done].
  intros x w1 Hw1. cbn. destruct (test x); cbn [when]; [by apply Hbody|by does_step].
Qed.
Lemma set_and_tell m args (o : Op Conn D) T msg t r text :
  op_spec o T -> (forall d d', T c d d' -> exists_in d' /\ (collated d -> collated d')) ->
  (forall w : W, there w -> accepts up o c (w_sql w)) ->
  goes_well (try_op (sql c m args o) msg ;; Event t r text).
Proof.
  intros Ho HT Hacc w Hw. does_step. eapply does_post; [by eapply op_there; eauto| |done].
  intros [] w1 Hw1. by does_step.
Qed.

Lemma collation_stays d d' v v' :
  v_db c d name = Some v -> v_db c d' name = Some v' -> dv_collation v' = dv_collation v ->
  exists_in d' /\ (collated d -> collated d').
Proof.
  intros Hv Hv' He. split; [by exists v'|]. intros Hcol x v2 Hx Hv2. rewrite Hv' in Hv2.
  injection Hv2 as <-. rewrite He. by eapply Hcol.
Qed.
Ltac found := intros ? ? Hd; cbn in Hd;
  repeat match goal with H : exists _, _ |- _ => destruct H | H : _ /\ _ |- _ => destruct H end;
  by eapply collation_stays.
Ltac compared q o :=
  eapply compare_and_set; [apply q|intros ? (? & _ & ?); by apply Ha|intros ?; eapply set_and_tell;
    [apply o|found|intros ? (? & _ & ?); by apply Ha]].
Lemma database_owner_succeeds : goes_well (reconcile_owner db c).
Proof.
  unfold reconcile_owner. destruct (db_Owner (o_spec db)) as [o|] eqn:Ho; cbn [if_some];
    [|intros w Hw; by does_step].
  compared GetDatabaseOwner_spec SetDatabaseOwner_spec.
Qed.
Lemma recovery_succeeds b : goes_well (reconcile_recovery_model db c b).
Proof.
  unfold reconcile_recovery_model. destruct (db_RecoveryModel (o_spec db)) as [m|] eqn:Hm;
    destruct b; cbn [if_some when]; try (intros w Hw; by does_step).
  compared GetDatabaseRecoveryModel_spec SetDatabaseRecoveryModel_spec.
Qed.
Lemma compat_succeeds b : goes_well (reconcile_compatibility_level db c b).
Proof.
  unfold reconcile_compatibility_level. destruct (db_CompatibilityLevel (o_spec db)) as [l|] eqn:Hl;
    destruct b; cbn [if_some when]; try (intros w Hw; by does_step).
  compared GetDatabaseCompatibilityLevel_spec SetDatabaseCompatibilityLevel_spec.
Qed.
Lemma options_succeed : goes_well (reconcile_options db c).
Proof.
  intros w Hw. unfold reconcile_options.
  apply (does_for_each (fun rest w' => rest ⊆ db_Options (o_spec db) /\ there w'));
    [done| |by intros w' [_ ?]].
  intros opt rest w' [Hsub Hw']. assert (opt ∈ db_Options (o_spec db)) by set_solver.
  eapply (does_post _ _ (fun _ => there) _ never); [| |done].
  - revert w' Hw'. unfold reconcile_option. compared GetDatabaseOption_spec SetDatabaseOption_spec.
  - intros [] w2 Hw2. split; [set_solver|done].
Qed.
(** The collation of the spec is the one reported, so no status is written. *)
Lemma collation_kept b w :
  there w -> does any (check_collation db c b) (fun _ w' => there w' /\ w_kube w' = w_kube w) never w.
Proof.
  unfold check_collation. fold name. destruct (db_Collation (o_spec db)) as [x|] eqn:Hx;
    destruct b; cbn [if_some when]; try (intros Hw; by does_step).
  intros (Hex & Hcol & Hup). destruct (collation_answered Ha _ Hup Hex) as (y & d' & Hget & Hup').
  unfold try_query. do 5 does_step. known Hget. does_step.
  apply GetDatabaseCollation_spec in Hget as [(v & Hv & <-) Hs].
  rewrite (Hcol x v Hx Hv), String.eqb_refl. cbn [negb when]. does_step.
  unfold exists_in, collated in *. cbn. by rewrite Hs.
Qed.
Lemma kept_step {A} (m : Go W ReconcileResult A) w :
  sql_only m -> goes_well m -> there w ->
  does any m (fun _ w' => there w' /\ w_kube w' = w_kube w) never w.
Proof. intros Hm Hg Hw. eapply does_post; [by apply does_sql_only, Hg|done|by intros ? ? []]. Qed.

Lemma settings_kept b w :
  there w -> does any (reconcile_settings db c b) (fun _ w' => there w' /\ w_kube w' = w_kube w) never w.
Proof.
  intros Hw. unfold reconcile_settings.
  does_step. eapply does_post; [apply kept_step; [|by apply database_owner_succeeds|done]| |done].
  { unfold reconcile_owner, try_query, try_op. sql_only_auto. }
  intros [] w1 [Hw1 <-].
  does_step. eapply does_post; [apply kept_step; [|by apply recovery_succeeds|done]| |done].
  { unfold reconcile_recovery_model, try_query, try_op. sql_only_auto. }
  intros [] w2 [Hw2 <-].
  does_step. eapply does_post; [apply kept_step; [|by apply compat_succeeds|done]| |done].
  { unfold reconcile_compatibility_level, try_query, try_op. sql_only_auto. }
  intros [] w3 [Hw3 <-].
  does_step. eapply does_post; [apply kept_step; [|by apply options_succeed|done]| |done].
  { unfold reconcile_options, reconcile_option, try_query, try_op. sql_only_auto. }
  intros [] w4 [Hw4 <-]. by apply collation_kept.
Qed.

(** The database is on the server as the spec asks; [existed] as in [synced]. *)
Definition as_asked (existed : bool) (d : D) : Prop :=
  exists v, v_db c d name = Some v /\ synced (o_spec db) existed v.
Lemma database_connected_reports E w :
  collated (w_sql w) -> up (w_sql w) ->
  (forall w' message, as_asked (bool_decide (exists_in (w_sql w))) (w_sql w') ->
     collated (w_sql w') -> up (w_sql w') -> w_kube w' = w_kube w ->
     does any (setConditionAndReturn db ConditionTrue ReasonReady message) (fun _ _ => False) E w') ->
  does any (reconcile_connected db c) (fun _ _ => False) E w.
Proof.
  intros Hcol Hup HE. unfold reconcile_connected. does_step.
  eapply does_post; [eapply (does_sql_only any _ _ never)|..|by intros ? ? []].
  { unfold ensure_exists, try_query, try_op. sql_only_auto. }
  { eapply (does_succeeds _ _ _ _ (fun _ => there)).
    - apply (ensure_exists_spec db c any (fun _ _ _ => I)).
    - by apply ensure_exists_succeeds.
    - intros b w1 Hb Hw1. exact (conj Hb Hw1). }
  intros b w1 [[(-> & v1 & Hv1 & _) Hw1] Hk1]. does_step.
  eapply does_post; [eapply (does_succeeds _ _ _ _ (fun _ w' => there w' /\ w_kube w' = w_kube w1))| |done].
  - apply (reconcile_settings_synced db c _ (fun _ _ _ => True) v1 w1 Hv1).
  - by apply settings_kept.
  - intros x w2 Hs Hw2. exact (conj Hs Hw2).
  - intros [] w2 (Hs & (_ & Hcol2 & Hup2) & Hk2). do 4 does_step. apply HE; [exact Hs|done|done|cbn; congruence].
Qed.
Lemma database_connected_succeeds w :
  collated (w_sql w) -> up (w_sql w) ->
  does any (reconcile_connected db c) (fun _ _ => False)
    (made_ready KDatabase db (as_asked (bool_decide (exists_in (w_sql w))))) w.
Proof.
  intros Hcol Hup. apply database_connected_reports; [done..|]. intros w' message Has _ _ _.
  unfold setConditionAndReturn, set_condition_and_return.
  apply (does_report_ready KDatabase); [by apply (proj2 (is_ready_with _ _ _ _))|exact Has].
Qed.
End Steps.

(** Over an API server that answers and a SQL server that accepts what the
    spec leads to, on which the database is missing or has the collation the
    spec names, one reconcile of a live
    Database that has its finalizer, whose server reference (or the
    SQLServer it names) resolves to stored credentials, returns without an
    error after writing it Ready=True, in a state where the database is on
    the server as the spec asks. *)
Theorem database_becomes_ready req server u p d w :
  stored KDatabase req (w_kube w) = Some db -> live (o_meta db) ->
  server_resolved (Namespace (o_meta db)) (db_Server (o_spec db)) server u p (w_kube w) ->
  factory (Host server) (server_port server) u p (server_tls server) (w_sql w) = (inl c, d) -> up d -> collated d ->
  database_accepted ->
  ends (Reconcile factory req)
    (made_ready KDatabase db (as_asked (bool_decide (exists_in d)))) w.
Proof.
  intros Hdb [Hlive Hfin] Hserver Hc Hup Hcol Ha. apply (ends_intro any).
  unfold Reconcile. do 2 does_step. apply made_ready_observed. does_step.
  eapply (does_Get_stored _ KDatabase); [done|]. intros w1 Hk1 Hd1. rewrite Hlive. unfold reconcile_live.
  rewrite ContainsFinalizer_spec, bool_decide_true by done. do 3 does_step.
  eapply server_resolved_same in Hserver; [|exact Hk1].
  eapply does_resolved_reference; [done|]. intros w2 Hk2 Hd2. does_step.
  eapply server_resolved_same in Hserver; [|exact Hk2].
  eapply does_resolved_credentials; [done|]. intros w3 Hk3 Hd3. does_step.
  eapply does_connects; [by rewrite Hd3, Hd2, Hd1|done|]. intros w4 _ Hd4. rewrite <- Hd4 in *.
  by apply made_ready_close, database_connected_succeeds.
Qed.
End Progress.
End DatabaseProgress.
