(* ===== verification/ObjectSettling.v ===== *)
(** * The SQL objects settle

    Settling.v applied to logins, database users and databases: a server that
    accepts what the spec leads to and stays as it is left between reconciles. *)
From S2P Require Import Prelude Types SqlClient Kube Helpers SetReconcile OneShot Progress Settling.
From S2P Require Import LoginController DatabaseUserController DatabaseController.
From S2P Require Import ObjectProgress DatabaseProgress.

(** A server that can be connected to whenever it is up, and that opening and
    closing a connection leave as it is, as far as [view] sees. *)
Record steady {Conn D V} (factory : ClientFactory Conn D) `{SQLClient Conn D} (server : ServerReference)
    (user password : string) (c : Conn) (up : D -> Prop) (view : D -> V) : Prop := {
  steady_connects d : up d -> exists d',
    factory (Host server) (server_port server) user password (server_tls server) d = (inl c, d') /\
    up d' /\ view d' = view d;
  steady_closes d : up d -> up (Close c d).2 /\ view (Close c d).2 = view d
}.

(** ** Logins *)
Module LoginSettling.
Import LoginCtl.
Section Settling.
Context `{GoEnv} {K D Conn : Type} `{KubeClient K} `{SQLClient Conn D} `{KubeUtil}.
Context `{!GoEnvLaws} `{!SQLClientLaws Conn D} `{!KubeUtilLaws} `{!KubeStore K} `{!KubeUp K} `{!KubeKeeps K}.
Variable factory : ClientFactory Conn D.
Abbreviation W := (World K D Conn).
Abbreviation any := (fun (_ : Action Conn) (_ : D) => True).
Abbreviation never := (fun (_ : ReconcileResult) (_ : W) => False).
Variables (req : NamespacedName) (sp : LoginSpec) (c : Conn) (up : D -> Prop) (u p : string)
  (pwSecret : Secret) (pw : string).
Abbreviation as_asked := (fun login => LoginProgress.as_asked login c).

Record login_servable : Prop := {
  login_steady : steady factory (login_Server sp) u p c up (fun d => v_login c d (login_LoginName sp));
  login_taken login : o_spec login = sp -> LoginProgress.login_accepted login c up pw;
  login_password : o_spec pwSecret !! "password" = Some pw
}.
(** The Login as the API server has it, with the spec [sp] and not being
    deleted, its two Secrets, and a server that is up. *)
Definition login_there (login : Login) (s : K) (d : D) : Prop :=
  stored KLogin req s = Some login /\ o_spec login = sp /\ DeletionTimestamp (o_meta login) = None /\
  credentials_stored (key_ns req) (sec_Name (CredentialsSecret (login_Server sp))) u p s /\
  stored KSecret (mkKey (key_ns req) (sec_Name (login_PasswordSecret sp))) s = Some pwSecret /\
  up d.
Definition login_ready (s : K) (d : D) : Prop := exists login, login_there login s d.
(** The server is as the spec asks, with the password recorded. *)
Definition login_settled (s : K) (d : D) : Prop := exists login,
  login_there login s d /\ as_asked login d /\
  PasswordSecretResourceVersion (extra (o_status login)) = ResourceVersion (o_meta pwSecret).

(** A reconcile of the Login gets to the server. *)
Lemma login_reaches P (E : ReconcileResult -> W -> Prop) login w :
  (forall a d, read_only a -> P a d) -> (forall r, log_stable (E r)) ->
  login_servable -> login_there login (w_kube w) (w_sql w) ->
  (forall login' w1, login_there login' (w_kube w1) (w_sql w1) -> o_status login' = o_status login ->
     v_login c (w_sql w1) (login_LoginName sp) = v_login c (w_sql w) (login_LoginName sp) ->
     does P (reconcile_connected login' c pwSecret pw) (fun _ _ => False)
       (fun r w2 => forall w3, closed c w2 w3 -> E r w3) w1) ->
  does P (Reconcile factory req) (fun _ _ => False) E w.
Proof.
  intros HP HE [[Hcon Hcl] Htaken Hpw] (Hs & Hsp & Hdel & Hcr & Hsec & Hup) Hbody.
  unfold Reconcile. apply (does_reconcile_stored P KLogin req _ _ _ _ _ login); [done..|].
  intros w1 Hk1 Hd1. unfold reconcile_live.
  eapply (does_finalizer P KLogin req); [done|by rewrite Hk1|done|done|done|].
  intros login' w2 Hs2 [Hsp2 Hst2] Hdel2 Ho2 Hd2.
  assert (Hns : Namespace (o_meta login') = key_ns req) by by apply stored_key in Hs2 as <-.
  rewrite Hns, Hsp2, Hsp. does_step.
  assert (Hcr2 : credentials_stored (key_ns req) (sec_Name (CredentialsSecret (login_Server sp))) u p (w_kube w2)).
  { eapply others_credentials; [|exact Ho2|by eapply credentials_same]. done. }
  eapply does_credentials; [exact Hcr2|]. intros w3 Hk3 Hd3. does_step.
  rewrite <- Hk1 in Hsec. eapply (others_stored KLogin) in Hsec; [|done|exact Ho2].
  eapply (does_Get_stored _ KSecret); [by rewrite Hk3|]. intros w4 Hk4 Hd4. cbn. rewrite Hpw. does_step.
  destruct (Hcon (w_sql w4)) as (d' & Hc & Hup' & Hv'); [by rewrite Hd4, Hd3, Hd2, Hd1|].
  eapply does_connects; [exact Hc|done|]. intros w5 Hk5 Hd5. apply does_closing; [done|].
  apply Hbody.
  - unfold login_there. rewrite Hk5. split_and!; [by rewrite Hk4, Hk3|congruence|done| | |by rewrite Hd5].
    + do 2 (eapply credentials_same; [done|]). done.
    + by rewrite Hk4, Hk3.
  - done.
  - rewrite Hd5, Hv'. congruence.
Qed.

(** The first reconcile settles it. *)
Lemma login_first w :
  login_servable -> login_ready (w_kube w) (w_sql w) -> ends (Reconcile factory req) (settled_in KLogin login_settled) w.
Proof.
  intros Hsv [login Hl]. apply (ends_intro any), (login_reaches _ _ login); [done|apply settled_in_stable|done..|].
  intros login' w1 (Hs1 & Hsp1 & Hdel1 & Hcr1 & Hsec1 & Hup1) _ _. pose proof Hsv as [[_ Hcl] Htaken _].
  apply (LoginProgress.login_connected_reports _ _ _ _ (Htaken _ Hsp1)); [done|].
  intros w2 Has2 Hup2 Hk2. unfold report_ready. do 4 does_step. rewrite <- Hk2 in *.
  apply (does_report_settled any KLogin req); [done..|by apply (proj2 (is_ready_with _ _ _ _))|].
  intros login3 s3 Hs3 [Hsp3 Hst3] Hdel3 Ho3. cbn in *. destruct (Hcl _ Hup2) as [Hupc Hvc].
  exists login3. split_and!.
  - split_and!; [done|congruence|congruence|by eapply (others_credentials KLogin)|by eapply (others_stored KLogin)|done].
  - unfold LoginProgress.as_asked in *. by rewrite Hsp3, Hsp1, Hvc, <- Hsp1.
  - by rewrite Hst3.
Qed.
(** From then on it is left alone. *)
Lemma login_again w :
  login_servable -> login_settled (w_kube w) (w_sql w) ->
  performs (fun a _ => read_only a) (Reconcile factory req) w.
Proof.
  intros Hsv (login & Hl & (v & Hv & Hroles & Hdb) & Hver). pose proof Hl as (_ & Hsp & _).
  apply performs_intro. apply (login_reaches _ _ login); [done|done|done|done|].
  intros login' w1 (_ & Hsp1 & _) Hst1 Hv1.
  eapply does_post; [apply (login_connected_stable _ _ _ _ v)|done|done].
  - rewrite Hsp1, Hv1, <- Hsp. exact Hv.
  - split; [by rewrite Hst1|intros db; rewrite Hsp1, <- Hsp; apply Hdb|by rewrite Hsp1, <- Hsp].
Qed.

(** C11: over an API server that keeps what is written and a SQL server that
    accepts what the spec leads to and stays as it is left, a reconcile of a
    stored Login that is not being deleted (with or without its finalizer),
    whose two Secrets are stored, returns without an error after a
    Ready=True write, with the login on the server with exactly the roles
    and the default database of the spec and the version of its password
    Secret recorded; from then on every reconcile returns without an error
    and only reads: the password is not set again. *)
Theorem login_settles w :
  login_servable -> login_ready (w_kube w) (w_sql w) ->
  ends (Reconcile factory req)
    (fun r w1 => settled_in KLogin login_settled r w1 /\ forall n, stays (Reconcile factory req) n w1) w.
Proof.
  intros Hsv. apply settled_stays.
  - intros s d (login & Hl & _). by exists login.
  - intros. by apply login_first.
  - intros. by apply login_again.
Qed.
End Settling.
End LoginSettling.

(** ** Users *)
Module UserSettling.
Import UserCtl.
Section Settling.
Context `{GoEnv} {K D Conn : Type} `{KubeClient K} `{SQLClient Conn D} `{KubeUtil}.
Context `{!GoEnvLaws} `{!SQLClientLaws Conn D} `{!KubeUtilLaws} `{!KubeStore K} `{!KubeUp K} `{!KubeKeeps K}.
Variable factory : ClientFactory Conn D.
Abbreviation W := (World K D Conn).
Abbreviation any := (fun (_ : Action Conn) (_ : D) => True).
Variables (req : NamespacedName) (sp : DatabaseUserSpec) (c : Conn) (up : D -> Prop) (u p : string)
  (login : Login).
Abbreviation view := (fun d => v_user c d (user_DatabaseName sp) (user_UserName sp)).

Record user_servable : Prop := {
  user_steady : steady factory (user_Server sp) u p c up view;
  user_taken user : o_spec user = sp ->
    UserProgress.user_accepted user c up (login_LoginName (o_spec login))
}.
(** The DatabaseUser, its Login and its Secret, and a server that is up. *)
Definition user_there (user : DatabaseUser) (s : K) (d : D) : Prop :=
  stored KDatabaseUser req s = Some user /\ o_spec user = sp /\ DeletionTimestamp (o_meta user) = None /\
  stored KLogin (mkKey (key_ns req) (loginref_Name (user_LoginRef sp))) s = Some login /\
  credentials_stored (key_ns req) (sec_Name (CredentialsSecret (user_Server sp))) u p s /\ up d.
Definition user_ready (s : K) (d : D) : Prop := exists user, user_there user s d.
(** The user is in its database with the roles of the spec. *)
Definition user_settled (s : K) (d : D) : Prop := user_ready s d /\
  exists v, view d = Some v /\ uv_roles v = toSet (user_DatabaseRoles sp).

(** A reconcile of the DatabaseUser gets to the server. *)
Lemma user_reaches P (E : ReconcileResult -> W -> Prop) user w :
  (forall a d, read_only a -> P a d) -> (forall r, log_stable (E r)) ->
  user_servable -> user_there user (w_kube w) (w_sql w) ->
  (forall user' w1, user_there user' (w_kube w1) (w_sql w1) -> view (w_sql w1) = view (w_sql w) ->
     does P (reconcile_connected user' c (login_LoginName (o_spec login))) (fun _ _ => False)
       (fun r w2 => forall w3, closed c w2 w3 -> E r w3) w1) ->
  does P (Reconcile factory req) (fun _ _ => False) E w.
Proof.
  intros HP HE [[Hcon Hcl] Htaken] (Hs & Hsp & Hdel & Hlogin & Hcr & Hup) Hbody.
  unfold Reconcile. apply (does_reconcile_stored P KDatabaseUser req _ _ _ _ _ user); [done..|].
  intros w1 Hk1 Hd1. unfold reconcile_live.
  eapply (does_finalizer P KDatabaseUser req); [done|by rewrite Hk1|done|done|done|].
  intros user' w2 Hs2 [Hsp2 _] Hdel2 Ho2 Hd2.
  assert (Hns : Namespace (o_meta user') = key_ns req) by by apply stored_key in Hs2 as <-.
  rewrite Hns, Hsp2, Hsp. does_step.
  rewrite <- Hk1 in Hlogin. eapply (others_stored KDatabaseUser) in Hlogin; [|done|exact Ho2].
  eapply (does_Get_stored _ KLogin); [exact Hlogin|]. intros w3 Hk3 Hd3. does_step.
  eapply credentials_same, (others_credentials KDatabaseUser), credentials_same in Hcr;
    [|exact Hk3|done|exact Ho2|exact Hk1].
  eapply does_credentials; [exact Hcr|]. intros w4 Hk4 Hd4. does_step.
  destruct (Hcon (w_sql w4)) as (d' & Hc & Hup' & Hv'); [by rewrite Hd4, Hd3, Hd2, Hd1|].
  eapply does_connects; [exact Hc|done|]. intros w5 Hk5 Hd5. apply does_closing; [done|].
  apply Hbody.
  - unfold user_there. rewrite Hk5.
    split_and!; [by rewrite Hk4, Hk3|congruence|done|by rewrite Hk4, Hk3|by eapply credentials_same|by rewrite Hd5].
  - rewrite Hd5, Hv'. congruence.
Qed.

Lemma user_first w :
  user_servable -> user_ready (w_kube w) (w_sql w) ->
  ends (Reconcile factory req) (settled_in KDatabaseUser user_settled) w.
Proof.
  intros Hsv [user Hu]. apply (ends_intro any), (user_reaches _ _ user); [done|apply settled_in_stable|done..|].
  intros user' w1 (Hs1 & Hsp1 & Hdel1 & Hl1 & Hcr1 & Hup1) _. pose proof Hsv as [[_ Hcl] Htaken].
  apply (UserProgress.user_connected_reports _ _ _ _ (Htaken _ Hsp1)); [done|].
  intros w2 message (v & Hv & Hroles) Hup2 Hk2. rewrite Hsp1 in Hv, Hroles. rewrite <- Hk2 in *.
  apply (does_report_settled any KDatabaseUser req); [done..|by apply (proj2 (is_ready_with _ _ _ _))|].
  intros user3 s3 Hs3 [Hsp3 _] Hdel3 Ho3. cbn in *. destruct (Hcl _ Hup2) as [Hupc Hvc]. split.
  - exists user3. split_and!;
      [done|congruence|congruence|by eapply (others_stored KDatabaseUser)|by eapply (others_credentials KDatabaseUser)|done].
  - exists v. by rewrite Hvc.
Qed.
Lemma user_again w :
  user_servable -> user_settled (w_kube w) (w_sql w) ->
  performs (fun a _ => read_only a) (Reconcile factory req) w.
Proof.
  intros Hsv ((user & Hu) & v & Hv & Hroles). apply performs_intro.
  apply (user_reaches _ _ user); [done|done|done|done|].
  intros user' w1 (_ & Hsp1 & _) Hv1.
  eapply does_post; [apply (user_connected_stable _ _ _ v)|done|done]; rewrite Hsp1; [by rewrite Hv1|done].
Qed.

(** C12: over an API server that keeps what is written and a SQL server that
    accepts what the spec leads to and stays as it is left, a reconcile of a
    stored DatabaseUser that is not being deleted, whose Login and Secret
    are stored, returns without an error after a Ready=True write, with the
    user in its database with exactly the roles of the spec; from then on
    every reconcile returns without an error and only reads. *)
Theorem user_settles w :
  user_servable -> user_ready (w_kube w) (w_sql w) ->
  ends (Reconcile factory req)
    (fun r w1 => settled_in KDatabaseUser user_settled r w1 /\ forall n, stays (Reconcile factory req) n w1) w.
Proof.
  intros Hsv. apply settled_stays.
  - by intros s d [? _].
  - intros. by apply user_first.
  - intros. by apply user_again.
Qed.
End Settling.
End UserSettling.
