(* ===== verification/DatabaseSettling.v ===== *)
(** * Databases settle

    As ObjectSettling.v, for databases. The recovery model, the compatibility
    level and the collation are looked at only when the database was there
    before the reconcile, so a new database takes two. *)
From S2P Require Import Prelude Types SqlClient Kube Helpers SetReconcile OneShot Progress Settling.
From S2P Require Import DatabaseController DatabaseProgress ObjectSettling.

Module DatabaseSettling.
Import Database.
Section Settling.
Context `{GoEnv} {K D Conn : Type} `{KubeClient K} `{SQLClient Conn D} `{KubeUtil}.
Context `{!GoEnvLaws} `{!SQLClientLaws Conn D} `{!KubeUtilLaws} `{!KubeStore K} `{!KubeUp K} `{!KubeKeeps K}.
Variable factory : ClientFactory Conn D.
Abbreviation W := (World K D Conn).
Abbreviation any := (fun (_ : Action Conn) (_ : D) => True).
Variables (req : NamespacedName) (sp : DatabaseSpec) (server : ServerReference) (c : Conn)
  (up : D -> Prop) (u p : string).
Abbreviation view := (fun d => v_db c d (db_DatabaseName sp)).

Record database_servable : Prop := {
  database_steady : steady factory server u p c up view;
  database_taken db : o_spec db = sp -> DatabaseProgress.database_accepted db c up
}.
(** What the comparisons of the controller can see satisfied: a recovery model
    that the server reports under the name the controller wants (BulkLogged
    alone), a compatibility level other than 0, and each option once. *)
Record comparable : Prop := {
  comparable_recovery m : db_RecoveryModel sp = Some m ->
    desired_recovery m <> "" /\ v_recovery_desc (desired_recovery m) = desired_recovery m;
  comparable_compat : db_CompatibilityLevel sp <> Some 0;
  comparable_options : NoDup (opt_Name <$> db_Options sp)
}.

(** If the database is on the server and the spec names a collation, the database has it. *)
Definition collation_fits (d : D) : Prop :=
  forall x v, db_Collation sp = Some x -> view d = Some v -> dv_collation v = x.
(** The Database, what its server reference resolves to, and a server that is up,
    on which the database is missing or has the collation of the spec. *)
Definition database_there (db : Database) (s : K) (d : D) : Prop :=
  stored KDatabase req s = Some db /\ o_spec db = sp /\ DeletionTimestamp (o_meta db) = None /\
  server_resolved (key_ns req) (db_Server sp) server u p s /\ up d /\ collation_fits d.
Definition database_ready (s : K) (d : D) : Prop := exists db, database_there db s d.
(** The database is as the spec asks, as far as a reconcile that found it
    ([existed]) or created it looks. *)
Definition database_settled (existed : bool) (s : K) (d : D) : Prop := database_ready s d /\
  exists v, view d = Some v /\ synced sp existed v.

Lemma server_resolved_others (k : Kind) key s s' ns ref server' u' p' :
  k <> KSecret -> k <> KSQLServer -> others_same k key s s' ->
  server_resolved ns ref server' u' p' s -> server_resolved ns ref server' u' p' s'.
Proof.
  intros Hk Hk' Ho. unfold server_resolved. destruct (SQLServerRef ref) as [name|].
  - intros (srv & Hs & -> & Hc). exists srv. rewrite Ho by (left; congruence). split_and!; [done..|].
    unfold server_credentials in *. destruct (srv_CredentialsSecret _); [by eapply others_credentials|].
    destruct (srv_Instance _); [|done]. destruct Hc as (-> & secret & Hc & Hp). split; [done|]. exists secret.
    by rewrite Ho by (left; congruence).
  - intros [-> Hc]. split; [done|]. by eapply others_credentials.
Qed.

(** A reconcile of the Database gets to the server. *)
Lemma database_reaches P (E : ReconcileResult -> W -> Prop) db w :
  (forall a d, read_only a -> P a d) -> (forall r, log_stable (E r)) ->
  database_servable -> database_there db (w_kube w) (w_sql w) ->
  (forall db' w1, database_there db' (w_kube w1) (w_sql w1) -> view (w_sql w1) = view (w_sql w) ->
     does P (reconcile_connected db' c) (fun _ _ => False)
       (fun r w2 => forall w3, closed c w2 w3 -> E r w3) w1) ->
  does P (Reconcile factory req) (fun _ _ => False) E w.
Proof.
  intros HP HE [[Hcon Hcl] Htaken] (Hs & Hsp & Hdel & Hsv & Hup & Hfit) Hbody.
  unfold Reconcile. apply (does_reconcile_stored P KDatabase req _ _ _ _ _ db); [done..|].
  intros w1 Hk1 Hd1. unfold reconcile_live.
  eapply (does_finalizer P KDatabase req); [done|by rewrite Hk1|done|done|done|].
  intros db' w2 Hs2 [Hsp2 _] Hdel2 Ho2 Hd2.
  assert (Hns : Namespace (o_meta db') = key_ns req) by by apply stored_key in Hs2 as <-.
  rewrite Hns, Hsp2, Hsp.
  eapply server_resolved_same in Hsv; [|exact Hk1].
  eapply (server_resolved_others KDatabase) in Hsv; [|done|done|exact Ho2].
  does_step. eapply does_resolved_reference; [exact Hsv|]. intros w3 Hk3 Hd3. does_step.
  eapply server_resolved_same in Hsv; [|exact Hk3].
  eapply does_resolved_credentials; [exact Hsv|]. intros w4 Hk4 Hd4. does_step.
  destruct (Hcon (w_sql w4)) as (d' & Hc & Hup' & Hv'); [by rewrite Hd4, Hd3, Hd2, Hd1|].
  eapply does_connects; [exact Hc|done|]. intros w5 Hk5 Hd5. apply does_closing; [done|].
  apply Hbody.
  - unfold database_there. rewrite Hk5.
    split_and!; [by rewrite Hk4, Hk3|congruence|done|by eapply server_resolved_same|by rewrite Hd5|].
    unfold collation_fits. rewrite Hd5, Hv', Hd4, Hd3, Hd2, Hd1. exact Hfit.
  - rewrite Hd5, Hv'. congruence.
Qed.

Lemma database_first w :
  database_servable -> database_ready (w_kube w) (w_sql w) ->
  ends (Reconcile factory req)
    (settled_in KDatabase (database_settled (bool_decide (is_Some (view (w_sql w)))))) w.
Proof.
  intros Hsv [db Hdb]. apply (ends_intro any), (database_reaches _ _ db); [done|apply settled_in_stable|done..|].
  intros db' w1 (Hs1 & Hsp1 & Hdel1 & Hr1 & Hup1 & Hfit1) <-. pose proof Hsv as [[_ Hcl] Htaken].
  apply (DatabaseProgress.database_connected_reports _ _ _ (Htaken _ Hsp1)); [by unfold DatabaseProgress.collated; rewrite Hsp1|done|].
  intros w2 message (v & Hv & Hsyn) Hcol2 Hup2 Hk2.
  unfold DatabaseProgress.exists_in, DatabaseProgress.collated in *.
  rewrite Hsp1 in Hv, Hsyn, Hcol2. rewrite <- Hk2 in *.
  apply (does_report_settled any KDatabase req); [done..|by apply (proj2 (is_ready_with _ _ _ _))|].
  intros db3 s3 Hs3 [Hsp3 _] Hdel3 Ho3. cbn in *. destruct (Hcl _ Hup2) as [Hupc Hvc]. split.
  - exists db3. split_and!; [done|congruence|congruence|by eapply (server_resolved_others KDatabase)|done|].
    unfold collation_fits. by rewrite Hvc.
  - exists v. by rewrite Hvc.
Qed.

(** Nothing is left to change once an existing database has been reconciled. *)
Lemma synced_settled v : comparable -> synced sp true v -> settled sp v.
Proof.
  intros [Hrec Hcomp Hopt] [Ho Hopts Hr Hc _]. split; [done| | |by auto].
  - intros m Hm. destruct (Hrec m Hm) as [Hne Hdesc]. destruct (Hr m Hm eq_refl Hne); congruence.
  - intros l Hl. apply Hc; [done..|]. intros ->. by apply Hcomp.
Qed.
Lemma database_again w :
  database_servable -> comparable -> database_settled true (w_kube w) (w_sql w) ->
  performs (fun a _ => read_only a) (Reconcile factory req) w.
Proof.
  intros Hsv Hcmp ((db & Hdb) & v & Hv & Hsyn). apply performs_intro.
  apply (database_reaches _ _ db); [done|done|done|done|].
  intros db' w1 (_ & Hsp1 & _) Hv1.
  eapply does_post; [apply (database_connected_stable _ _ v)|done|done]; rewrite Hsp1;
    [by rewrite Hv1|by apply synced_settled].
Qed.
Lemma database_stays w :
  database_servable -> comparable -> database_ready (w_kube w) (w_sql w) -> is_Some (view (w_sql w)) ->
  ends (Reconcile factory req)
    (fun r w1 => settled_in KDatabase (database_settled true) r w1 /\ forall n, stays (Reconcile factory req) n w1) w.
Proof.
  intros Hsv Hcmp Hready Hex.
  apply (settled_stays _ _ (fun s d => database_ready s d /\ is_Some (view d))); [| | |done].
  - intros s d [? (v & Hv & _)]. split; [done|]. by exists v.
  - intros w' [Hr He]. pose proof (database_first w' Hsv Hr) as Hf. by rewrite bool_decide_true in Hf.
  - intros. by apply database_again.
Qed.

(** C10: over an API server that keeps what is written and a SQL server that
    answers, accepts what the spec leads to, reports for a database it has
    just created the collation the spec names (if it names one) and stays as
    it is left, a reconcile of a stored Database that is not being deleted
    (with or without its finalizer), whose server reference (or the
    SQLServer it names) resolves to stored credentials, and whose database
    is either missing or already has the collation the spec names, returns
    without an error after a Ready=True write, with the database on the
    server with the owner and options of the spec; after the second one the
    recovery model, compatibility level and collation are those of the spec
    as well, and every later reconcile returns without an error and only
    reads, provided the spec asks for a recovery model the server reports
    under the name the controller compares with (BulkLogged), a
    compatibility level other than 0 and each option once. *)
Theorem database_settles w :
  database_servable -> comparable -> database_ready (w_kube w) (w_sql w) ->
  ends (Reconcile factory req) (fun r1 w1 =>
    settled_in KDatabase (database_settled (bool_decide (is_Some (view (w_sql w))))) r1 w1 /\
    ends (Reconcile factory req) (fun r2 w2 =>
      settled_in KDatabase (database_settled true) r2 w2 /\ forall n, stays (Reconcile factory req) n w2) w1) w.
Proof.
  intros Hsv Hcmp Hw. destruct (database_first w Hsv Hw) as (r1 & w1 & Hrun & Hdone). exists r1, w1. split; [done|].
  split; [done|]. destruct Hdone as (_ & (Hr & v & Hv & _) & _). apply database_stays; [done..|]. by exists v.
Qed.
End Settling.
End DatabaseSettling.
