(* ===== verification/Watches.v ===== *)
(** * What wakes a waiting object

    A reconcile that misses a Secret reports it and ends without a requeue: the
    object then waits for the watch on Secrets, whose mapping functions
    (mapSecretTo..., internal/controller/helpers.go and the controllers) say
    which objects a changed Secret concerns. *)
From S2P Require Import Prelude Types SqlClient Kube Helpers OneShot Progress.
From S2P Require Import LoginController DatabaseUserController SchemaController PermissionController.
From S2P Require Import DatabaseController.

Module Watches.
Section Watch.
Context `{GoEnv} {K D Conn : Type} `{KubeClient K} `{SQLClient Conn D} `{KubeUtil}.
Context `{!KubeUtilLaws} `{!KubeStore K} `{!KubeUp K}.
Variable factory : ClientFactory Conn D.
Abbreviation W := (World K D Conn).
Abbreviation any := (fun (_ : Action Conn) (_ : D) => True).

(** A listed object that passes the test is to be reconciled. *)
Lemma map_secret_lists k meta (test : obj k -> string -> bool) secret o (w : W) items s' :
  kube_List k (Some (Namespace (o_meta secret))) ∅ (w_kube w) = (inl items, s') -> o ∈ items ->
  test o (Name (o_meta secret)) = true ->
  exists reqs w', map_secret (R := unit) k meta test secret w = (Next reqs, w') /\
    mkKey (Namespace (meta o)) (Name (meta o)) ∈ reqs.
Proof.
  intros Hl Ho Ht. unfold map_secret, List_, on_kube. cbn. unfold mbind, go_bind. rewrite Hl.
  do 2 eexists. split; [reflexivity|]. unfold requests_of.
  apply (list_elem_of_fmap_2 (fun o => mkKey (Namespace (meta o)) (Name (meta o)))).
  by apply list_elem_of_filter.
Qed.

(** *** Waiting *)
(** The reconcile ends without an error and without asking to run again. *)
Definition waits (r : ReconcileResult) (w : W) : Prop := r = (Result0, None).

Lemma does_missing_credentials {R} ns name F (E : R -> W -> Prop) w :
  stored KSecret (mkKey ns name) (w_kube w) = None ->
  (forall err w', IsNotFound err = true -> F (inr err) w') ->
  does any (getCredentialsFromSecret ns name) F E w.
Proof.
  intros Hs HF. apply Get_missing in Hs as (err & s' & Hg & Hn). unfold getCredentialsFromSecret.
  do 2 does_step. known Hg. does_step. by apply HF.
Qed.
Lemma does_some_credentials {R} ns name F (E : R -> W -> Prop) w :
  (forall r w', same_store (w_kube w) (w_kube w') -> F r w') ->
  does any (getCredentialsFromSecret ns name) F E w.
Proof.
  intros HF. unfold getCredentialsFromSecret. do 2 does_step.
  match goal with Hg : _ = (_, _) |- _ => apply (Get_stored KSecret) in Hg as [Hs _] end.
  does_auto; by apply HF.
Qed.
Lemma does_report_waiting {A} (k : Kind) (o written : obj k) (F : A -> W -> Prop) w :
  does any (try_write (StatusPatch k o written) ;; return_ (Result0, None)) F waits w.
Proof.
  destruct (StatusPatch_up k o written (w_kube w)) as (o' & s' & Hp).
  unfold try_write. do 5 does_step. known Hp. by do 2 does_step.
Qed.
Lemma waits_observed {A} labels (m : Go W ReconcileResult A) w :
  does any m (fun _ _ => False) waits w ->
  does any (defer_ (_ ← Now; Metric "ReconcileDuration" labels Observed) m) (fun _ _ => False) waits w.
Proof. apply does_defer_logs; [runs_auto|by intros a w1 w2|by intros r w1 w2 ? _]. Qed.

(** *** By kind *)
Inductive Watched := WDatabase | WLogin | WDatabaseUser | WSchema | WPermission.
Definition kind_of (x : Watched) : Kind :=
  match x with
  | WDatabase => KDatabase | WLogin => KLogin | WDatabaseUser => KDatabaseUser
  | WSchema => KSchema | WPermission => KPermission
  end.
Definition Reconcile_of (x : Watched) : NamespacedName -> Go W ReconcileResult ReconcileResult :=
  match x with
  | WDatabase => Database.Reconcile factory | WLogin => LoginCtl.Reconcile factory
  | WDatabaseUser => UserCtl.Reconcile factory | WSchema => SchemaCtl.Reconcile factory
  | WPermission => PermCtl.Reconcile factory
  end.
Definition mapping_of (x : Watched) : Secret -> Go W unit (list NamespacedName) :=
  match x with
  | WDatabase => mapSecretToDatabases | WLogin => mapSecretToLogins
  | WDatabaseUser => mapSecretToDatabaseUsers | WSchema => mapSecretToSchemas
  | WPermission => mapSecretToPermissions
  end.
(** The Secrets of its own namespace an object names: none for a Database that
    names an SQLServer instead. *)
Definition secrets_of (x : Watched) : obj (kind_of x) -> list string :=
  match x with
  | WDatabase => fun o => match SQLServerRef (db_Server (o_spec o)) with
                          | None => [sec_Name (CredentialsSecret (db_Server (o_spec o)))]
                          | Some _ => []
                          end
  | WLogin => fun o => [sec_Name (CredentialsSecret (login_Server (o_spec o)));
                        sec_Name (login_PasswordSecret (o_spec o))]
  | WDatabaseUser => fun o => [sec_Name (CredentialsSecret (user_Server (o_spec o)))]
  | WSchema => fun o => [sec_Name (CredentialsSecret (schema_Server (o_spec o)))]
  | WPermission => fun o => [sec_Name (CredentialsSecret (perm_Server (o_spec o)))]
  end.
(** What a DatabaseUser needs besides: its Login. *)
Definition others_stored (x : Watched) : obj (kind_of x) -> K -> Prop :=
  match x with
  | WDatabaseUser => fun o s => is_Some (stored KLogin
      (mkKey (Namespace (o_meta o)) (loginref_Name (user_LoginRef (o_spec o)))) s)
  | _ => fun _ _ => True
  end.

Ltac starts k Hget Hlive Hfin :=
  do 2 does_step; apply waits_observed; does_step;
  eapply (does_Get_stored _ k); [exact Hget|]; intros w1 Hk1 Hd1; rewrite Hlive;
  rewrite ContainsFinalizer_spec, bool_decide_true by done; do 3 does_step.
Ltac reports k := unfold set_condition_and_return; by apply (does_report_waiting k).

Lemma reconcile_waits x req o name w :
  stored (kind_of x) req (w_kube w) = Some o -> live (obj_meta _ o) -> others_stored x o (w_kube w) ->
  name ∈ secrets_of x o -> stored KSecret (mkKey (Namespace (obj_meta _ o)) name) (w_kube w) = None ->
  does any (Reconcile_of x req) (fun _ _ => False) waits w.
Proof.
  destruct x; cbn; intros Hget [Hlive Hfin] Hothers Hname Hs.
  - unfold Database.Reconcile, Database.reconcile_live. starts KDatabase Hget Hlive Hfin.
    unfold resolveServerReference, resolveServerCredentials.
    destruct (SQLServerRef (db_Server (o_spec o))) eqn:Href; [by apply elem_of_nil in Hname|].
    apply list_elem_of_singleton in Hname as ->. do 2 does_step.
    apply does_missing_credentials; [by rewrite Hk1|]. intros err w2 ->. reports KDatabase.
  - unfold LoginCtl.Reconcile, LoginCtl.reconcile_live. starts KLogin Hget Hlive Hfin.
    apply elem_of_cons in Hname as [->|Hname].
    { apply does_missing_credentials; [by rewrite Hk1|]. intros err w2 ->. reports KLogin. }
    apply list_elem_of_singleton in Hname as ->.
    apply does_some_credentials. intros [[u p]|err] w2 Hk2; [|case_match; reports KLogin].
    rewrite <- Hk1, <- Hk2 in Hs. destruct (Get_missing KSecret _ _ Hs) as (err & s' & Hg & Hn).
    do 2 does_step. known Hg. rewrite Hn. reports KLogin.
  - unfold UserCtl.Reconcile, UserCtl.reconcile_live. starts KDatabaseUser Hget Hlive Hfin.
    apply list_elem_of_singleton in Hname as ->. destruct Hothers as [l Hl].
    eapply (does_Get_stored _ KLogin); [by rewrite Hk1|]. intros w2 Hk2 Hd2. does_step.
    apply does_missing_credentials; [by rewrite Hk2, Hk1|]. intros err w3 ->. reports KDatabaseUser.
  - unfold SchemaCtl.Reconcile, SchemaCtl.reconcile_live. starts KSchema Hget Hlive Hfin.
    apply list_elem_of_singleton in Hname as ->.
    apply does_missing_credentials; [by rewrite Hk1|]. intros err w2 ->. reports KSchema.
  - unfold PermCtl.Reconcile, PermCtl.reconcile_live. starts KPermission Hget Hlive Hfin.
    apply list_elem_of_singleton in Hname as ->.
    apply does_missing_credentials; [by rewrite Hk1|]. intros err w2 ->. reports KPermission.
Qed.

(** C29: over an API server that answers, a Database (without sqlServerRef),
    Login, DatabaseUser (whose Login is stored), Schema or Permission that
    is not being deleted, already holds the finalizer and names a Secret
    which does not exist is waited for: its reconcile ends without an error
    or a requeue, and the mapping function of the watch on Secrets puts its
    request in the queue as soon as a Secret of that name appears in its
    namespace, in whatever listing still has it. *)
Theorem missing_secret_is_waited_for x req o name w :
  stored (kind_of x) req (w_kube w) = Some o -> live (obj_meta _ o) -> others_stored x o (w_kube w) ->
  name ∈ secrets_of x o -> stored KSecret (mkKey (Namespace (obj_meta _ o)) name) (w_kube w) = None ->
  ends (Reconcile_of x req) waits w /\
  forall secret o' items w' s',
    mkKey (Namespace (o_meta secret)) (Name (o_meta secret)) = mkKey (Namespace (obj_meta _ o)) name ->
    kube_List (kind_of x) (Some (Namespace (o_meta secret))) ∅ (w_kube w') = (inl items, s') ->
    o' ∈ items -> obj_meta _ o' = obj_meta _ o -> secrets_of x o' = secrets_of x o ->
    exists reqs w'', mapping_of x secret w' = (Next reqs, w'') /\ req ∈ reqs.
Proof.
  intros Hget Hlive Hothers Hname Hs. split.
  { apply (ends_intro any). by eapply reconcile_waits. }
  intros secret o' items w' s' [= Hns Hn] Hl Ho' Hm Hsec.
  apply stored_key in Hget as <-. rewrite <- Hm. rewrite <- Hsec in Hname. clear Hsec Hs Hothers Hlive.
  destruct x; cbn in *;
    (eapply map_secret_lists; [exact Hl|exact Ho'|cbn; rewrite Hn; unfold uses_secret]).
  - destruct (SQLServerRef _); [by apply elem_of_nil in Hname|].
    apply list_elem_of_singleton in Hname as ->. apply String.eqb_refl.
  - apply orb_true_iff. apply elem_of_cons in Hname as [->|Hname]; [left; apply String.eqb_refl|].
    apply list_elem_of_singleton in Hname as ->. right. apply String.eqb_refl.
  - apply list_elem_of_singleton in Hname as ->. apply String.eqb_refl.
  - apply list_elem_of_singleton in Hname as ->. apply String.eqb_refl.
  - apply list_elem_of_singleton in Hname as ->. apply String.eqb_refl.
Qed.

End Watch.
End Watches.
