(* ===== verification/ExampleWorld.v ===== *)
(** * A concrete world

    An in-memory API server, the finalizer and condition helpers, and the mock
    SQL servers as one [World], to run the controllers on concrete objects. The
    laws of the third-party interfaces hold of it. *)
From S2P Require Import Prelude Types SqlClient MockClient Kube Helpers OneShot.

(** ** An API server: a list of objects *)
Definition AnyObject : Type := { k : Kind & obj k }.
Definition cast (k : Kind) (x : AnyObject) : option (obj k) :=
  match decide (projT1 x = k) with
  | left e => Some (eq_rect (projT1 x) obj (projT2 x) k e)
  | right _ => None
  end.

(** The kind's metadata. *)
Definition meta_of (k : Kind) : obj k -> ObjectMeta := obj_meta k.
Definition has_key (k : Kind) (key : NamespacedName) (x : AnyObject) : bool :=
  match cast k x with
  | Some o => bool_decide (mkKey (Namespace (meta_of k o)) (Name (meta_of k o)) = key)
  | None => false
  end.
Definition key_in (k : Kind) (o : obj k) : NamespacedName :=
  mkKey (Namespace (meta_of k o)) (Name (meta_of k o)).

Definition store (k : Kind) (o : obj k) (s : list AnyObject) : list AnyObject :=
  existT k o :: filter (fun x => has_key k (key_in k o) x = false) s.

Definition example_get (k : Kind) (key : NamespacedName) (s : list AnyObject) : obj k + error :=
  match List.find (has_key k key) s with
  | Some x => match cast k x with Some o => inl o | None => inr (ErrNotFound "not found") end
  | None => inr (ErrNotFound "not found")
  end.

#[export] Instance example_kube : KubeClient (list AnyObject) := {
  kube_Get k key s := (example_get k key s, s);
  kube_List k ns labels s :=
    (inl (filter (fun o => match ns with Some n => bool_decide (Namespace (meta_of k o) = n) | None => true end &&
                            bool_decide (labels ⊆ Labels (meta_of k o)) = true)
            (omap (cast k) s)), s);
  kube_Create k o s := (inl o, store k o s);
  kube_Update k o s := (inl o, store k o s);
  kube_Delete k o s := (None, filter (fun x => has_key k (key_in k o) x = false) s);
  kube_Patch k _ o s := (inl o, store k o s);
  kube_StatusPatch k _ o s := (inl o, store k o s)
}.

(** Reads see the last write. *)
Definition example_stored (k : Kind) (key : NamespacedName) (s : list AnyObject) : option (obj k) :=
  match example_get k key s with inl o => Some o | inr _ => None end.

Lemma cast_eq (k : Kind) (o : obj k) : cast k (existT k o) = Some o.
Proof.
  unfold cast. cbn. destruct (decide (k = k)) as [e|]; [|done].
  by rewrite <- (Eqdep_dec.eq_rect_eq_dec Kind_eq_dec).
Qed.

Lemma example_get_store k (o : obj k) s : example_get k (key_in k o) (store k o s) = inl o.
Proof.
  unfold example_get, store. cbn [List.find].
  unfold has_key at 1. rewrite cast_eq, bool_decide_true by done. by rewrite cast_eq.
Qed.

Lemma example_get_key k key s o : example_get k key s = inl o -> key_in k o = key.
Proof.
  unfold example_get. destruct (List.find _ _) as [x|] eqn:Hf; [|done].
  apply List.find_some in Hf as [_ Hk]. unfold has_key in Hk.
  destruct (cast k x) as [o'|]; [|done]. intros [= ->]. by apply bool_decide_eq_true_1 in Hk.
Qed.

#[export, refine] Instance example_kube_store : KubeStore (list AnyObject) := {|
  stored := example_stored
|}.
Proof.
  - intros k key s o. unfold example_stored. destruct (example_get k key s) eqn:Hg; [|done].
    intros [= ->]. by eapply example_get_key.
  - intros k key s r s' [= <- <-]. split; [done|]. unfold example_stored.
    destruct (example_get k key s); done.
  - intros k key base o s o' s' [= <- <-] Hb Hm. split.
    + unfold example_stored in Hb |- *. destruct (example_get k key s) as [b|] eqn:Hg; [|done].
      injection Hb as ->. apply example_get_key in Hg. replace key with (key_in k o).
      * by rewrite example_get_store.
      * rewrite <- Hg. unfold key_in, meta_of. by rewrite Hm.
    + by destruct k.
Defined.

Fixpoint set_condition (conds : list Condition) (c : Condition) : list Condition :=
  match conds with
  | [] => [c]
  | x :: rest => if String.eqb (c_Type x) (c_Type c) then c :: rest else x :: set_condition rest c
  end.

#[export] Instance example_util : KubeUtil := {
  ContainsFinalizer m f := bool_decide (f ∈ Finalizers m);
  AddFinalizer m f := with_finalizers (if bool_decide (f ∈ Finalizers m) then Finalizers m
                                       else Finalizers m ++ [f]) m;
  RemoveFinalizer m f := with_finalizers (filter (fun g => g <> f) (Finalizers m)) m;
  SetStatusCondition := set_condition;
  SetControllerReference owner m := inl (with_owners (mkOwner (Name owner) true :: OwnerReferences m) m)
}.

#[export] Instance example_util_laws : KubeUtilLaws.
Proof.
  split; cbn.
  - done.
  - intros m f. split; [|by destruct m]. case_bool_decide; [done|]. cbn.
    rewrite elem_of_app, list_elem_of_singleton. auto.
  - done.
  - intros conds c. induction conds as [|x conds [IH1 IH2]]; cbn.
    { rewrite String.eqb_refl. split; [done|]. intros t Ht.
      by rewrite (proj2 (String.eqb_neq (c_Type c) t)) by auto. }
    destruct (String.eqb_spec (c_Type x) (c_Type c)) as [Heq|Hne]; cbn.
    + rewrite String.eqb_refl. split; [done|]. intros t Ht.
      by rewrite Heq, (proj2 (String.eqb_neq (c_Type c) t)) by auto.
    + rewrite (proj2 (String.eqb_neq _ _) Hne). split; [done|]. intros t Ht.
      destruct (String.eqb_spec (c_Type x) t); [done|]. by apply IH2.
  - intros owner m m' [= <-]. split; [done|]. by left.
Qed.

(** ** The SQL servers and the factory *)
#[export] Existing Instance example_env.
#[export] Existing Instance example_env_laws.

Definition Servers : Type := string -> Mock.MockClient.
Definition example_factory : ClientFactory string Servers :=
  fun host _ _ _ _ d => (inl host, d).
Definition fresh_servers : Servers := fun _ => Mock.NewMockClient.
Definition example_world (s : list AnyObject) (d : Servers) : World (list AnyObject) Servers string :=
  mkWorld s d [] 0.

(** ** Objects *)
Definition example_meta (name : string) (fs : list string) (deleted : bool) : ObjectMeta :=
  mkMeta name "ns" 1 (if deleted then Some 0 else None) fs ∅ ∅ "1" 0 [].
Definition example_server : ServerReference :=
  mkServerRef "srv" None (mkSecretRef "creds") None None.
Definition example_secret (name : string) : Secret :=
  mkObject (example_meta name [] false)
    {["username" := "sa"; "password" := "pw"]} tt.
Definition no_status {X} (x : X) : CRStatus X := mkStatus [] 0 x.

(** The number of Ready=True writes in a log, and its SQL calls. *)
Definition is_readyb (conds : list Condition) : bool :=
  match find_condition ConditionReady conds with
  | Some c => String.eqb (c_Status c) ConditionTrue
  | None => false
  end.
Definition ready_writes {D Conn} (l : list (Action Conn * D)) : nat :=
  length (filter (fun x => match x.1 with
    | AStatusPatch k _ o => is_readyb (obj_conditions k o) | _ => false end = true) l).
Definition sql_calls {D Conn} (l : list (Action Conn * D)) : list (string * list string) :=
  omap (fun x => match x.1 with ASql _ m args => Some (m, args) | _ => None end) l.
