(* ===== verification/MockProgress.v ===== *)
(** * The in-memory server accepts every spec

    Without injected errors, the mock of internal/sql/mock_client.go accepts
    what a Login, a DatabaseUser, a Schema or a Database leads to; with the
    concrete API server, the theorems of ObjectProgress.v and DatabaseProgress.v
    apply to it. *)
From stdpp Require Import functions.
From S2P Require Import Prelude Types SqlClient MockClient Kube Helpers OneShot Progress.
From S2P Require Import LoginController DatabaseUserController SchemaController DatabaseController.
From S2P Require Import ObjectProgress DatabaseProgress ExampleWorld.

Module InMemory.
Abbreviation Heap := (string -> Mock.MockClient).

(** No error is injected. *)
Definition healthy (m : Mock.MockClient) : Prop := Mock.ConnectError m = None /\ Mock.MethodErrors m = ∅.
Definition up (p : string) (h : Heap) : Prop := healthy (h p).

Lemma locked_healthy n inj body m : healthy m -> Mock.locked n inj body m = body (Mock.track n m).
Proof.
  intros [Hc Hm]. unfold Mock.locked, Mock.checkConnect, Mock.checkMethodError. cbn. rewrite Hc, Hm.
  by destruct inj.
Qed.
Lemma lockedq_healthy {T} n inj (z : T) body m :
  healthy m -> Mock.lockedq n inj z body m = body (Mock.track n m).
Proof.
  intros [Hc Hm]. unfold Mock.lockedq, Mock.checkConnect, Mock.checkMethodError. cbn. rewrite Hc, Hm.
  by destruct inj.
Qed.

(** A call on the heap is a call on the client. *)
Lemma deref_accepts (ok : Mock.MockClient -> Prop) (f : Mock.MockClient -> option error * Mock.MockClient) p (h : Heap) m' :
  f (h p) = (None, m') -> ok m' -> accepts (fun h => ok (h p)) (deref f) p h.
Proof.
  intros Hf Hok. exists (<[p := m']> h). unfold deref. rewrite Hf. split; [done|].
  by rewrite fn_lookup_insert.
Qed.
Lemma deref_answers {A} (ok : Mock.MockClient -> Prop) (f : Mock.MockClient -> (A * option error) * Mock.MockClient)
    p (h : Heap) x m' :
  f (h p) = ((x, None), m') -> ok m' -> answers (fun h => ok (h p)) (deref f) p h.
Proof.
  intros Hf Hok. exists x, (<[p := m']> h). unfold deref. rewrite Hf. split; [done|].
  by rewrite fn_lookup_insert.
Qed.

(** Compute a call on a healthy client, the entry it needs being there. *)
Ltac there := match goal with
  | H : LoginProgress.exists_in _ _ _ |- _ => destruct H as [? H]; cbn in H; apply fmap_Some in H as (e & He & _)
  | H : UserProgress.exists_in _ _ _ |- _ => destruct H as [? H]; cbn in H; apply fmap_Some in H as (e & He & _)
  | H : SchemaProgress.exists_in _ _ _ |- _ => destruct H as [? H]; cbn in H; apply fmap_Some in H as (e & He & _)
  | H : DatabaseProgress.exists_in _ _ _ |- _ => destruct H as [? H]; cbn in H; apply fmap_Some in H as (e & He & _)
  end.
Ltac called ok :=
  intros; cbn; try there;
  first [eapply (deref_accepts ok) | eapply (deref_answers ok)];
  [ etrans; [first [apply locked_healthy | apply lockedq_healthy]; done|]; cbn;
    repeat match goal with H : _ !! _ = _ |- _ => rewrite H end; reflexivity
  | ].
Ltac accepted := called healthy; done.

Lemma login_accepted_in_memory login p pw :
  LoginProgress.login_accepted login p (up p) pw.
Proof. split.  all: accepted.
Qed.
Lemma user_accepted_in_memory user p loginName :
  UserProgress.user_accepted user p (up p) loginName.
Proof. split; accepted. Qed.
Lemma schema_accepted_in_memory schema p : SchemaProgress.schema_accepted schema p (up p).
Proof. split; accepted. Qed.

(** The recovery model and the compatibility level are reported after a test, and
    a new database has the collation it was created with. *)
Lemma database_accepted_in_memory db p : DatabaseProgress.database_accepted db p (up p).
Proof.
  split; try solve [accepted]; intros.
  - there.
    destruct (String.eqb (Mock.db_RecoveryModel e) "") eqn:Hr;
      (eapply (deref_answers healthy);
       [etrans; [by apply lockedq_healthy|]; cbn; rewrite He; cbn; rewrite Hr; reflexivity|done]).
  - there.
    destruct (Mock.db_CompatibilityLevel e =? 0) eqn:Hr;
      (eapply (deref_answers healthy);
       [etrans; [by apply lockedq_healthy|]; cbn; rewrite He; cbn; rewrite Hr; reflexivity|done]).
  - match goal with Hup : up _ _, Hc : SqlClient.CreateDatabase _ _ _ _ = _ |- _ => revert Hc; cbn; unfold deref, Mock.CreateDatabase; rewrite locked_healthy by exact Hup end.
    cbn. intros [= <-] x v Hx. cbn. rewrite fn_lookup_insert. cbn. rewrite lookup_insert_eq, Hx.
    by intros [= <-].
Qed.
End InMemory.
