(* ===== verification/Witnesses.v ===== *)
(** * Witnesses

    Each theorem about a controller applied in the concrete world of
    ExampleWorld.v, where its hypotheses hold and its conclusion says something:
    what the run did is computed beside it. *)
From S2P Require Import Prelude Types SqlClient MockClient Kube Helpers ExampleWorld.
From S2P Require Import DatabaseController LoginController DatabaseUserController.
From S2P Require Import SchemaController PermissionController.

Definition example_db (fs : list string) (deleted : bool) (policy : string) : Database :=
  mkObject (example_meta "db" fs deleted)
    (mkDatabaseSpec example_server "app" None (Some "owner") (Some RecoveryModelFull) None
       [mkDatabaseOption "READ_COMMITTED_SNAPSHOT" true] (Some policy))
    (no_status tt).
Definition db_world (db : Database) : World (list AnyObject) Servers string :=
  example_world [existT KDatabase db; existT KSecret (example_secret "creds")] fresh_servers.
Definition db_key : NamespacedName := mkKey "ns" "db".

(** A run by its outcome alone, which is what gets computed. *)
Lemma run_outcome {W R A} (m : Go W R A) w o : (m w).1 = o -> m w = (o, (m w).2).
Proof. by intros <-; destruct (m w). Qed.
Definition run_log {R A} (m : Go (World (list AnyObject) Servers string) R A) w := w_log (m w).2.

(** The database that a first reconcile leaves, with the recovery model FULL. *)
Definition existing_db_world : World (list AnyObject) Servers string :=
  example_world [] (w_sql (Database.Reconcile example_factory db_key
                             (db_world (example_db [] false DeletionPolicyRetain))).2).

Lemma Database_ready_witness :
  let w := db_world (example_db [] false DeletionPolicyRetain) in
  ready_writes (run_log (Database.Reconcile example_factory db_key) w) = 1%nat /\
  performs (ready_claim KDatabase (fun _ db d => exists ref c v,
      (SQLServerRef (db_Server (o_spec db)) = None -> ref = db_Server (o_spec db)) /\
      connected example_factory ref c /\
      v_db c d (db_DatabaseName (o_spec db)) = Some v /\ Database.synced (o_spec db) false v))
    (Database.Reconcile example_factory db_key) w.
Proof.
  split; [by vm_compute|].
  exact (Database.Reconcile_ready_sound example_factory db_key _).
Defined.

(** The view of that database, once created and given its owner and option. *)
Definition existing_view : DbView := mkDbView "owner" "" "FULL" 160 {["READ_COMMITTED_SNAPSHOT"]}.
Lemma existing_db_view : v_db "srv" (w_sql existing_db_world) "app" = Some existing_view.
Proof. by vm_compute. Qed.

Lemma Database_existing_witness :
  let db := example_db [Finalizer] false DeletionPolicyRetain in
  ready_writes (run_log (Database.reconcile_connected db "srv") existing_db_world) = 1%nat /\
  performs (ready_claim KDatabase (fun _ _ d => exists v,
      v_db "srv" d "app" = Some v /\ Database.synced (o_spec db) true v))
    (Database.reconcile_connected db "srv") existing_db_world.
Proof.
  split; [by vm_compute|].
  exact (Database.reconcile_connected_existing (example_db [Finalizer] false DeletionPolicyRetain)
           "srv" _ _ existing_db_view).
Defined.

Lemma Database_drop_witness :
  let w := db_world (example_db [Finalizer] true DeletionPolicyDelete) in
  sql_calls (run_log (Database.Reconcile example_factory db_key) w) =
    [("DropDatabase", ["app"]); ("Close", [])] /\
  performs (fun a _ => Database.drop_justified db_key a)
    (Database.Reconcile example_factory db_key) w.
Proof.
  split; [by vm_compute|]. exact (Database.Reconcile_drop_justified example_factory db_key _).
Defined.

Lemma Database_releases_witness :
  let db := example_db [Finalizer] true DeletionPolicyDelete in
  ends (Database.handleDeletion example_factory db) (fun _ w' => exists d,
    (AUpdate KDatabase (with_meta (RemoveFinalizer (o_meta db) Finalizer) db), d) ∈ w_log w')
    (example_world [] fresh_servers).
Proof.
  apply (Database.handleDeletion_releases example_factory). cbn. by left.
Defined.

Definition bulk_db : Database :=
  mkObject (example_meta "db" [Finalizer] false)
    (mkDatabaseSpec example_server "app" None (Some "owner") None (Some 160)
       [mkDatabaseOption "READ_COMMITTED_SNAPSHOT" true] None) (no_status tt).

Lemma Database_stable_witness :
  sql_calls (run_log (Database.reconcile_connected bulk_db "srv") existing_db_world) =
    [("DatabaseExists", ["app"]); ("GetDatabaseOwner", ["app"]);
     ("GetDatabaseCompatibilityLevel", ["app"]);
     ("GetDatabaseOption", ["app"; "READ_COMMITTED_SNAPSHOT"])] /\
  performs (fun a _ => read_only a) (Database.reconcile_connected bulk_db "srv") existing_db_world.
Proof.
  split; [by vm_compute|].
  apply (Database.reconcile_connected_stable bulk_db "srv" existing_view); [exact existing_db_view|].
  split; cbn; [by intros ? [= <-]|done|by intros ? [= <-]|].
  intros opt ->%list_elem_of_singleton. by vm_compute.
Defined.

Lemma Database_full_witness :
  let db := example_db [Finalizer] false DeletionPolicyRetain in
  exists d, (ASql "srv" "SetDatabaseRecoveryModel" ["app"; "Full"], d)
    ∈ w_log (Database.reconcile_recovery_model db "srv" true existing_db_world).2.
Proof.
  apply (Database.recovery_full_always_altered (example_db [Finalizer] false DeletionPolicyRetain)
    "srv" existing_view existing_db_world _ eq_refl existing_db_view eq_refl).
  apply run_outcome. by vm_compute.
Defined.

Lemma requeue_bounds_witness :
  exists d, requeueWithJitter (R := unit) requeueInterval existing_db_world =
              (Next d, (requeueWithJitter (R := unit) requeueInterval existing_db_world).2) /\
            requeueInterval * 4 <= d * 5 < requeueInterval * 6.
Proof.
  destruct (requeueWithJitter_bounds (R := unit) requeueInterval existing_db_world _ _
    ltac:(by vm_compute) (surjective_pairing _)) as (d & Hd & Hb & _).
  exists d. split; [by apply run_outcome|exact Hb].
Defined.

Lemma requeue_panics_witness :
  requeueWithJitter (R := unit) 0 existing_db_world =
    (Panic "invalid argument to Int63n", existing_db_world).
Proof. exact (requeueWithJitter_panics 0 existing_db_world ltac:(by vm_compute)). Defined.

(** ** Login *)
Definition example_login (fs : list string) (deleted : bool) (version : string) : Login :=
  mkObject (example_meta "login" fs deleted)
    (mkLoginSpec example_server "app_login" (mkSecretRef "login-pw") (Some "app")
       ["sysadmin"; "dbcreator"] (Some DeletionPolicyDelete))
    (no_status (mkLoginStatus version)).
Definition example_pw : Secret := example_secret "login-pw".
Definition login_world (login : Login) : World (list AnyObject) Servers string :=
  example_world [existT KLogin login; existT KSecret (example_secret "creds"); existT KSecret example_pw]
    fresh_servers.
Definition login_key : NamespacedName := mkKey "ns" "login".
(** The server after a first reconcile. *)
Definition existing_login_world : World (list AnyObject) Servers string :=
  example_world [] (w_sql (LoginCtl.Reconcile example_factory login_key
                             (login_world (example_login [] false ""))).2).

Lemma Login_ready_witness :
  let w := login_world (example_login [] false "") in
  sql_calls (run_log (LoginCtl.Reconcile example_factory login_key) w) =
    [("LoginExists", ["app_login"]); ("CreateLogin", ["app_login"; "pw"]);
     ("GetLoginDefaultDatabase", ["app_login"]); ("SetLoginDefaultDatabase", ["app_login"; "app"]);
     ("GetLoginServerRoles", ["app_login"]);
     ("AddLoginToServerRole", ["app_login"; "sysadmin"]);
     ("AddLoginToServerRole", ["app_login"; "dbcreator"]); ("Close", [])] /\
  ready_writes (run_log (LoginCtl.Reconcile example_factory login_key) w) = 1%nat /\
  performs (ready_claim KLogin (fun login written d => exists c pwSecret pw v k k',
      connected example_factory (login_Server (o_spec login)) c /\
      kube_Get KSecret (mkKey (Namespace (o_meta login)) (sec_Name (login_PasswordSecret (o_spec login)))) k
        = (inl pwSecret, k') /\
      o_spec pwSecret !! "password" = Some pw /\
      v_login c d (login_LoginName (o_spec login)) = Some v /\
      LoginCtl.synced login pwSecret pw written v))
    (LoginCtl.Reconcile example_factory login_key) w.
Proof.
  split; [by vm_compute|]. split; [by vm_compute|].
  exact (LoginCtl.Reconcile_login_ready_sound example_factory login_key _).
Defined.

Lemma Login_drop_witness :
  let w := login_world (example_login [Finalizer] true "1") in
  sql_calls (run_log (LoginCtl.Reconcile example_factory login_key) w) =
    [("LoginHasUsers", ["app_login"]); ("DropLogin", ["app_login"]); ("Close", [])] /\
  performs (LoginCtl.drop_justified login_key) (LoginCtl.Reconcile example_factory login_key) w.
Proof.
  split; [by vm_compute|]. exact (LoginCtl.Reconcile_login_drop_justified example_factory login_key _).
Defined.

Lemma Login_deletion_witness :
  let login := example_login [Finalizer] true "1" in
  ends (LoginCtl.handleDeletion example_factory login) (fun r w' =>
    (exists d, (AUpdate KLogin (with_meta (RemoveFinalizer (o_meta login) Finalizer) login), d) ∈ w_log w') \/
    (r.2 = None /\ 0 < RequeueAfter r.1 /\
     exists c d0 d1, LoginHasUsers (login_LoginName (o_spec login)) c d0 = ((true, None), d1)))
    (example_world [] fresh_servers).
Proof. apply (LoginCtl.login_deletion_ends example_factory). cbn. by left. Defined.

Definition existing_login_view : LoginView := mkLoginView "pw" "app" {["sysadmin"; "dbcreator"]}.
Lemma existing_login : v_login "srv" (w_sql existing_login_world) "app_login" = Some existing_login_view.
Proof. by vm_compute. Qed.

Lemma Login_stable_witness :
  let login := example_login [Finalizer] false "1" in
  ready_writes (run_log (LoginCtl.reconcile_connected login "srv" example_pw "pw") existing_login_world) = 1%nat /\
  performs (fun a _ => read_only a) (LoginCtl.reconcile_connected login "srv" example_pw "pw") existing_login_world.
Proof.
  split; [by vm_compute|].
  apply (LoginCtl.login_reconcile_stable (example_login [Finalizer] false "1") "srv" example_pw "pw"
           existing_login_view); [exact existing_login|].
  split; [done|by intros ? [= <-]|by vm_compute].
Defined.

(** ** DatabaseUser *)
Definition example_user (fs : list string) (deleted : bool) : DatabaseUser :=
  mkObject (example_meta "user" fs deleted)
    (mkDatabaseUserSpec example_server "app" "app_user" (mkLoginRef "login") ["db_datareader"]) (no_status tt).
Definition user_world (u : DatabaseUser) : World (list AnyObject) Servers string :=
  example_world [existT KDatabaseUser u; existT KLogin (example_login [] false "");
                 existT KSecret (example_secret "creds")] (w_sql existing_db_world).
Definition user_key : NamespacedName := mkKey "ns" "user".

Lemma User_ready_witness :
  let w := user_world (example_user [] false) in
  sql_calls (run_log (UserCtl.Reconcile example_factory user_key) w) =
    [("UserExists", ["app"; "app_user"]); ("CreateUser", ["app"; "app_user"; "app_login"]);
     ("GetUserDatabaseRoles", ["app"; "app_user"]);
     ("AddUserToDatabaseRole", ["app"; "app_user"; "db_datareader"]); ("Close", [])] /\
  performs (ready_claim KDatabaseUser (fun dbUser _ d => exists c login v k k',
      connected example_factory (user_Server (o_spec dbUser)) c /\
      kube_Get KLogin (mkKey (Namespace (o_meta dbUser)) (loginref_Name (user_LoginRef (o_spec dbUser)))) k
        = (inl login, k') /\
      v_user c d (user_DatabaseName (o_spec dbUser)) (user_UserName (o_spec dbUser)) = Some v /\
      uv_roles v = toSet (user_DatabaseRoles (o_spec dbUser))))
    (UserCtl.Reconcile example_factory user_key) w.
Proof.
  split; [by vm_compute|]. exact (UserCtl.Reconcile_user_ready_sound example_factory user_key _).
Defined.

Lemma User_drop_witness :
  let w := user_world (example_user [Finalizer] true) in
  sql_calls (run_log (UserCtl.Reconcile example_factory user_key) w) =
    [("UserOwnsObjects", ["app"; "app_user"]); ("DropUser", ["app"; "app_user"]); ("Close", [])] /\
  performs (UserCtl.drop_justified user_key) (UserCtl.Reconcile example_factory user_key) w.
Proof.
  split; [by vm_compute|]. exact (UserCtl.Reconcile_user_drop_justified example_factory user_key _).
Defined.

(** ** Schema *)
Definition example_schema (fs : list string) (deleted : bool) : Schema :=
  mkObject (example_meta "schema" fs deleted)
    (mkSchemaSpec example_server "app" "sales" (Some "dbo") (Some DeletionPolicyDelete)) (no_status tt).
Definition schema_world (s : Schema) : World (list AnyObject) Servers string :=
  example_world [existT KSchema s; existT KSecret (example_secret "creds")] (w_sql existing_db_world).
Definition schema_key : NamespacedName := mkKey "ns" "schema".

Lemma Schema_ready_witness :
  let w := schema_world (example_schema [] false) in
  sql_calls (run_log (SchemaCtl.Reconcile example_factory schema_key) w) =
    [("SchemaExists", ["app"; "sales"]); ("CreateSchema", ["app"; "sales"]);
     ("GetSchemaOwner", ["app"; "sales"]); ("Close", [])] /\
  performs (ready_claim KSchema (fun schema _ d => exists c,
      connected example_factory (schema_Server (o_spec schema)) c /\ SchemaCtl.synced schema c d))
    (SchemaCtl.Reconcile example_factory schema_key) w.
Proof.
  split; [by vm_compute|]. exact (SchemaCtl.Reconcile_schema_ready_sound example_factory schema_key _).
Defined.

Lemma Schema_drop_witness :
  let w := schema_world (example_schema [Finalizer] true) in
  sql_calls (run_log (SchemaCtl.Reconcile example_factory schema_key) w) =
    [("SchemaHasObjects", ["app"; "sales"]); ("DropSchema", ["app"; "sales"]); ("Close", [])] /\
  performs (SchemaCtl.drop_justified schema_key) (SchemaCtl.Reconcile example_factory schema_key) w.
Proof.
  split; [by vm_compute|]. exact (SchemaCtl.Reconcile_schema_drop_justified example_factory schema_key _).
Defined.

(** ** Permission *)
Definition sales := "SCHEMA::sales".
Definition example_permission (grants denies : list PermissionEntry) : Permission :=
  mkObject (example_meta "perm" [Finalizer] false)
    (mkPermissionSpec example_server "app" "app_user" grants denies) (no_status tt).
(** A server where SELECT on the schema is in state [denied], and INSERT granted. *)
Definition perm_world (select_denied : bool) : World (list AnyObject) Servers string :=
  let d0 := (CreateUser "app" "app_user" "app_login" "srv" (w_sql existing_db_world)).2 in
  let d1 := ((if select_denied then DenyPermission "app" "SELECT" sales "app_user"
              else GrantPermission "app" "SELECT" sales "app_user") "srv" d0).2 in
  example_world [] (GrantPermission "app" "INSERT" sales "app_user" "srv" d1).2.

Lemma perm_world_perms b :
  v_perms "srv" (w_sql (perm_world b)) "app" "app_user" =
    [mkPermissionState "SELECT" sales (if b then "DENY" else "GRANT");
     mkPermissionState "INSERT" sales "GRANT"].
Proof. by destruct b; vm_compute. Qed.

Lemma Permission_reconciled_witness :
  let perm := example_permission [mkPermissionEntry "select" sales] [mkPermissionEntry "DELETE" sales] in
  sql_calls (run_log (PermCtl.reconcile_connected perm "srv") (perm_world false)) =
    [("GetPermissions", ["app"; "app_user"]); ("DenyPermission", ["app"; "DELETE"; sales; "app_user"]);
     ("RevokePermission", ["app"; "INSERT"; sales; "app_user"])] /\
  performs (ready_claim KPermission (fun _ _ d => PermCtl.reconciled perm (PermCtl.perms_of perm "srv" d)))
    (PermCtl.reconcile_connected perm "srv") (perm_world false).
Proof.
  split; [by vm_compute|].
  apply (PermCtl.permissions_reconciled
    (example_permission [mkPermissionEntry "select" sales] [mkPermissionEntry "DELETE" sales])).
  unfold PermCtl.perms_of. change (v_perms "srv" (w_sql (perm_world false)) _ _)
    with (v_perms "srv" (w_sql (perm_world false)) "app" "app_user").
  rewrite perm_world_perms. split.
  - apply (bool_decide_unpack _). by vm_compute.
  - intros key Hg Hd. unfold PermCtl.granted, PermCtl.denied in Hg, Hd.
    apply list_elem_of_singleton in Hg as ->. by apply list_elem_of_singleton in Hd.
  - intros p [->|[->|[]%elem_of_nil]%elem_of_cons]%elem_of_cons _ Hd; by apply list_elem_of_singleton in Hd.
  - by intros p [->|[->|[]%elem_of_nil]%elem_of_cons]%elem_of_cons Hs.
Defined.

Lemma Permission_switch_witness :
  let perm := example_permission [mkPermissionEntry "SELECT" sales; mkPermissionEntry "INSERT" sales] [] in
  sql_calls (run_log (PermCtl.reconcile_connected perm "srv") (perm_world true)) =
    [("GetPermissions", ["app"; "app_user"]); ("GrantPermission", ["app"; "SELECT"; sales; "app_user"]);
     ("RevokePermission", ["app"; "SELECT"; sales; "app_user"])] /\
  ready_writes (run_log (PermCtl.reconcile_connected perm "srv") (perm_world true)) = 1%nat /\
  performs (ready_claim KPermission (fun _ _ d => PermCtl.absent "SELECT" sales (PermCtl.perms_of perm "srv" d)))
    (PermCtl.reconcile_connected perm "srv") (perm_world true).
Proof.
  split; [by vm_compute|]. split; [by vm_compute|].
  apply (PermCtl.permission_switch_lost
    (example_permission [mkPermissionEntry "SELECT" sales; mkPermissionEntry "INSERT" sales] []) "srv"
    (perm_world true) "SELECT|SCHEMA::SALES" (mkPermissionState "SELECT" sales "DENY")).
  - unfold PermCtl.perms_of. change (v_perms "srv" (w_sql (perm_world true)) _ _)
      with (v_perms "srv" (w_sql (perm_world true)) "app" "app_user").
    by rewrite perm_world_perms.
  - right. split; [done|]. apply not_elem_of_nil.
Defined.

Lemma Permission_deletion_witness :
  let perm := example_permission [mkPermissionEntry "SELECT" sales] [mkPermissionEntry "DELETE" sales] in
  let w := example_world [existT KSecret (example_secret "creds")] (w_sql (perm_world false)) in
  sql_calls (run_log (PermCtl.handleDeletion example_factory perm) w) =
    [("RevokePermission", ["app"; "SELECT"; sales; "app_user"]);
     ("RevokePermission", ["app"; "DELETE"; sales; "app_user"]); ("Close", [])] /\
  ends (PermCtl.handleDeletion example_factory perm) (fun _ w' =>
    PermCtl.released perm w' /\ PermCtl.revoked_once_connected example_factory perm w w') w.
Proof.
  split; [by vm_compute|].
  apply (PermCtl.deletion_revokes_all example_factory
    (example_permission [mkPermissionEntry "SELECT" sales] [mkPermissionEntry "DELETE" sales])). by left.
Defined.
