(* ===== verification/ProgressWitnesses.v ===== *)
(** * Objects that become ready

    The theorems of ObjectProgress.v and DatabaseProgress.v applied to new
    objects in the concrete world. *)
From S2P Require Import Prelude Types SqlClient MockClient Kube Helpers OneShot ExampleWorld.
From S2P Require Import DatabaseController LoginController DatabaseUserController SchemaController.
From S2P Require Import Progress ObjectProgress DatabaseProgress MockProgress Witnesses.

#[export, refine] Instance example_kube_up : KubeUp (list AnyObject) := {| Get_up := _ |}.
Proof.
  - intros k key s o. cbn. unfold example_stored. destruct (example_get k key s); [|done].
    intros [= ->]. by exists s.
  - intros k key s. cbn. unfold example_stored.
    destruct (example_get k key s) as [|err] eqn:Hg; [done|]. intros _. exists err, s.
    split; [done|]. unfold example_get in Hg.
    destruct (List.find _ _); [destruct (cast _ _)|]; by simplify_eq.
  - intros k base o s. by exists o, (store k o s).
Defined.

Lemma login_progress_witness :
  let login := example_login [Finalizer] false "" in
  let w := login_world login in
  ready_writes (run_log (LoginCtl.Reconcile example_factory login_key) w) = 1%nat /\
  ends (LoginCtl.Reconcile example_factory login_key)
    (made_ready KLogin login (LoginProgress.as_asked login "srv")) w.
Proof.
  split; [by vm_compute|].
  refine (LoginProgress.login_becomes_ready example_factory (example_login [Finalizer] false "") "srv"
    (InMemory.up "srv") login_key "sa" "pw" example_pw "pw" fresh_servers
    (login_world (example_login [Finalizer] false "")) _ _ _ _ _ _ _ _).
  - by vm_compute.
  - split; [done|]. by left.
  - by exists (example_secret "creds").
  - by vm_compute.
  - done.
  - done.
  - done.
  - apply InMemory.login_accepted_in_memory.
Defined.

Lemma user_progress_witness :
  let user := example_user [Finalizer] false in
  let w := user_world user in
  ready_writes (run_log (UserCtl.Reconcile example_factory user_key) w) = 1%nat /\
  ends (UserCtl.Reconcile example_factory user_key)
    (made_ready KDatabaseUser user (UserProgress.as_asked user "srv")) w.
Proof.
  split; [by vm_compute|].
  refine (UserProgress.user_becomes_ready example_factory (example_user [Finalizer] false) "srv"
    (InMemory.up "srv") user_key "sa" "pw" (example_login [] false "") (w_sql (user_world (example_user [Finalizer] false)))
    (user_world (example_user [Finalizer] false)) _ _ _ _ _ _ _).
  - by vm_compute.
  - split; [done|]. by left.
  - by vm_compute.
  - by exists (example_secret "creds").
  - reflexivity.
  - split; by vm_compute.
  - apply InMemory.user_accepted_in_memory.
Defined.

Lemma schema_progress_witness :
  let schema := example_schema [Finalizer] false in
  let w := schema_world schema in
  ready_writes (run_log (SchemaCtl.Reconcile example_factory schema_key) w) = 1%nat /\
  ends (SchemaCtl.Reconcile example_factory schema_key)
    (made_ready KSchema schema (SchemaCtl.synced schema "srv")) w.
Proof.
  split; [by vm_compute|].
  refine (SchemaProgress.schema_becomes_ready example_factory (example_schema [Finalizer] false) "srv"
    (InMemory.up "srv") schema_key "sa" "pw" (w_sql (schema_world (example_schema [Finalizer] false)))
    (schema_world (example_schema [Finalizer] false)) _ _ _ _ _ _).
  - by vm_compute.
  - split; [done|]. by left.
  - by exists (example_secret "creds").
  - reflexivity.
  - split; by vm_compute.
  - apply InMemory.schema_accepted_in_memory.
Defined.

Lemma database_progress_witness :
  let db := example_db [Finalizer] false DeletionPolicyRetain in
  let w := db_world db in
  ready_writes (run_log (Database.Reconcile example_factory db_key) w) = 1%nat /\
  ends (Database.Reconcile example_factory db_key)
    (made_ready KDatabase db (DatabaseProgress.as_asked db "srv" false)) w.
Proof.
  split; [by vm_compute|].
  refine (DatabaseProgress.database_becomes_ready example_factory
    (example_db [Finalizer] false DeletionPolicyRetain) "srv"
    (InMemory.up "srv") db_key
    example_server "sa" "pw" fresh_servers
    (db_world (example_db [Finalizer] false DeletionPolicyRetain)) _ _ _ _ _ _ _).
  - by vm_compute.
  - split; [done|]. by left.
  - split; [done|]. by exists (example_secret "creds").
  - done.
  - done.
  - done.
  - apply InMemory.database_accepted_in_memory.
Defined.
