(* ===== verification/SettlingWitnesses.v ===== *)
(** * Objects that settle

    The concrete API server keeps what is written, the in-memory SQL server
    stays as it is left, and the theorems of ObjectSettling.v and
    DatabaseSettling.v apply to new objects there. *)
From stdpp Require Import functions.
From S2P Require Import Prelude Types SqlClient MockClient Kube Helpers OneShot ExampleWorld.
From S2P Require Import DatabaseController LoginController DatabaseUserController.
From S2P Require Import Progress Settling ObjectProgress DatabaseProgress ObjectSettling DatabaseSettling.
From S2P Require Import MockProgress Witnesses ProgressWitnesses.

(** ** The store *)
Lemma find_filter {A} (f g : A -> bool) (l : list A) :
  (forall x, f x = true -> g x = false) ->
  List.find f (filter (fun x => g x = false) l) = List.find f l.
Proof.
  intros Hfg. induction l as [|x l IH]; [done|]. rewrite filter_cons. cbn.
  destruct (f x) eqn:Hf; [by rewrite decide_True by auto; cbn; rewrite Hf|].
  destruct (decide (g x = false)); cbn; by rewrite ?Hf.
Qed.
Lemma has_key_of k key k' key' x :
  has_key k key x = true -> has_key k' key' x = true -> k' = k /\ key' = key.
Proof.
  unfold has_key, cast. destruct x as [k0 o]. cbn.
  destruct (decide (k0 = k)) as [<-|]; [|done]. destruct (decide (k0 = k')) as [<-|]; [|done].
  cbn. intros Hk%bool_decide_eq_true Hk'%bool_decide_eq_true. split; [done|]. congruence.
Qed.
Lemma example_store_others k (o : obj k) s : others_same (K := list AnyObject) k (key_in k o) s (store k o s).
Proof.
  intros k' key' Hne. cbn. unfold example_stored, example_get, store. cbn [List.find].
  destruct (has_key k' key' (existT k o)) eqn:Hk.
  - assert (Hk0 : has_key k (key_in k o) (existT k o) = true)
      by (unfold has_key; rewrite cast_eq; by apply bool_decide_true).
    destruct (has_key_of _ _ _ _ _ Hk0 Hk). tauto.
  - rewrite find_filter; [done|]. intros x Hx. destruct (has_key k (key_in k o) x) eqn:Hx'; [|done].
    destruct (has_key_of _ _ _ _ _ Hx' Hx). tauto.
Qed.
Lemma example_stored_key k key s (o : obj k) : example_stored k key s = Some o -> key_in k o = key.
Proof.
  unfold example_stored. destruct (example_get k key s) eqn:Hg; [|done]. intros [= ->]. by eapply example_get_key.
Qed.
Lemma example_stored_store k (o : obj k) s : example_stored k (key_in k o) (store k o s) = Some o.
Proof. unfold example_stored. by rewrite example_get_store. Qed.

#[export] Instance example_kube_keeps : KubeKeeps (list AnyObject).
Proof.
  split.
  - intros k key o o1 s Hs [fs Hm] Hc. apply example_stored_key in Hs.
    assert (key_in k o1 = key) as <- by (rewrite <- Hs; unfold key_in, meta_of; by rewrite Hm).
    exists o1, (store k o1 s). split_and!; [done|apply example_stored_store|by destruct k|done| |apply example_store_others].
    by rewrite Hm.
  - intros k key o o1 s o' s' [= <- <-] Hs Hm. apply example_stored_key in Hs.
    assert (key_in k o1 = key) as <- by (rewrite <- Hs; unfold key_in, meta_of; by rewrite Hm).
    split_and!; [by rewrite Hm|by rewrite Hm|apply example_store_others].
Qed.

(** ** The in-memory server *)
Lemma in_memory_close p (h : Servers) : (Close p h).2 p = Mock.track "Close" (h p).
Proof. cbn. unfold deref. cbn. by rewrite fn_lookup_insert. Qed.
Ltac steady_in_memory :=
  split; [by intros d Hd; exists d|]; intros d Hd; cbn in *; unfold InMemory.up in *;
  rewrite ?in_memory_close; split; [exact Hd|].

Lemma login_settles_witness :
  let login := example_login [] false "" in
  let w := login_world login in
  ready_writes (run_log (LoginCtl.Reconcile example_factory login_key) w) = 1%nat /\
  ends (LoginCtl.Reconcile example_factory login_key) (fun r w1 =>
    settled_in KLogin (LoginSettling.login_settled login_key (o_spec login) "srv" (InMemory.up "srv") "sa" "pw" example_pw) r w1 /\
    forall n, stays (LoginCtl.Reconcile example_factory login_key) n w1) w.
Proof.
  split; [by vm_compute|].
  apply (LoginSettling.login_settles example_factory login_key (o_spec (example_login [] false "")) "srv"
    (InMemory.up "srv") "sa" "pw" example_pw "pw").
  - split; [|intros login _; apply InMemory.login_accepted_in_memory|done]. steady_in_memory.
    unfold deref. cbn. by rewrite fn_lookup_insert.
  - exists (example_login [] false ""). split_and!; [by vm_compute|done|done| |by vm_compute|done].
    by exists (example_secret "creds").
Defined.

Lemma user_settles_witness :
  let user := example_user [] false in
  let w := user_world user in
  ready_writes (run_log (UserCtl.Reconcile example_factory user_key) w) = 1%nat /\
  ends (UserCtl.Reconcile example_factory user_key) (fun r w1 =>
    settled_in KDatabaseUser (UserSettling.user_settled user_key (o_spec user) "srv" (InMemory.up "srv") "sa" "pw"
      (example_login [] false "")) r w1 /\
    forall n, stays (UserCtl.Reconcile example_factory user_key) n w1) w.
Proof.
  split; [by vm_compute|].
  apply (UserSettling.user_settles example_factory user_key (o_spec (example_user [] false)) "srv"
    (InMemory.up "srv") "sa" "pw" (example_login [] false "")).
  - split; [|intros user _; apply InMemory.user_accepted_in_memory]. steady_in_memory.
    unfold deref. cbn. by rewrite fn_lookup_insert.
  - exists (example_user [] false). split_and!; [by vm_compute|done|done|by vm_compute| |split; by vm_compute].
    by exists (example_secret "creds").
Defined.

(** A database whose recovery model the server reports as the spec has it. *)
Definition bulk_logged_db : Database :=
  mkObject (example_meta "db" [] false)
    (mkDatabaseSpec example_server "app" (Some "Latin1_General_CI_AS") (Some "owner") (Some RecoveryModelBulkLogged) (Some 150)
       [mkDatabaseOption "READ_COMMITTED_SNAPSHOT" true] (Some DeletionPolicyRetain))
    (no_status tt).
(** The statements of the first three reconciles: it is created, then its
    recovery model and compatibility level are set, then it is only read. *)
Example bulk_logged_runs :
  let m := Database.Reconcile example_factory db_key in
  let w1 := (m (db_world bulk_logged_db)).2 in let w2 := (m w1).2 in
  let changes w := filter (fun x => bool_decide (x.1 ∈ read_only_methods) = false) (sql_calls (w_log w)) in
  changes w1 = [("CreateDatabase", ["app"]); ("SetDatabaseOwner", ["app"; "owner"]);
                ("SetDatabaseOption", ["app"; "READ_COMMITTED_SNAPSHOT"; "true"])] /\
  changes w2 = changes w1 ++ [("SetDatabaseRecoveryModel", ["app"; "BULK_LOGGED"]);
                              ("SetDatabaseCompatibilityLevel", ["app"; "150"])] /\
  changes (m w2).2 = changes w2.
Proof. vm_compute. done. Qed.

Lemma database_settles_witness :
  let w := db_world bulk_logged_db in
  ends (Database.Reconcile example_factory db_key) (fun r1 w1 =>
    settled_in KDatabase (DatabaseSettling.database_settled db_key (o_spec bulk_logged_db) example_server "srv"
      (InMemory.up "srv") "sa" "pw" false) r1 w1 /\
    ends (Database.Reconcile example_factory db_key) (fun r2 w2 =>
      settled_in KDatabase (DatabaseSettling.database_settled db_key (o_spec bulk_logged_db) example_server "srv"
        (InMemory.up "srv") "sa" "pw" true) r2 w2 /\
      forall n, stays (Database.Reconcile example_factory db_key) n w2) w1) w.
Proof.
  refine (DatabaseSettling.database_settles example_factory db_key (o_spec bulk_logged_db) example_server "srv"
    (InMemory.up "srv") "sa" "pw" (db_world bulk_logged_db) _ _ _).
  - split.
    + steady_in_memory. unfold deref. cbn. by rewrite fn_lookup_insert.
    + intros db _. apply InMemory.database_accepted_in_memory.
  - split; [|done|by repeat constructor; set_solver]. intros m [= <-]. split; [done|by vm_compute].
  - exists bulk_logged_db. split_and!; [by vm_compute|done|done| |done|done].
    split; [done|]. by exists (example_secret "creds").
Defined.
