(* ===== verification/WatchWitnesses.v ===== *)
(** * Objects that wait

    A Login whose password Secret is missing waits for it and is woken; a
    Database that reaches its credentials through an SQLServer and a
    DatabaseUser without its Login wait as well, and nothing wakes them. *)
From S2P Require Import Prelude Types SqlClient MockClient Kube Helpers OneShot ExampleWorld.
From S2P Require Import DatabaseController LoginController DatabaseUserController.
From S2P Require Import Progress Watches Witnesses ProgressWitnesses.

Definition waiting_login : Login := example_login [Finalizer] false "".
Definition waiting_login_world : World (list AnyObject) Servers string :=
  example_world [existT KLogin waiting_login; existT KSecret (example_secret "creds")] fresh_servers.

Lemma waiting_witness :
  ends (LoginCtl.Reconcile example_factory login_key) Watches.waits waiting_login_world /\
  exists reqs w'', mapSecretToLogins (R := unit) example_pw waiting_login_world = (Next reqs, w'') /\ login_key ∈ reqs.
Proof.
  destruct (Watches.missing_secret_is_waited_for example_factory Watches.WLogin login_key waiting_login
    "login-pw" waiting_login_world) as [Hwaits Hwoken].
  - by vm_compute.
  - split; [done|]. by left.
  - done.
  - by right; left.
  - by vm_compute.
  - split; [exact Hwaits|].
    exact (Hwoken example_pw waiting_login [waiting_login] waiting_login_world _ eq_refl eq_refl
      ltac:(by left) eq_refl eq_refl).
Defined.

(** The Secret an SQLServer names for a Database is in no mapping. *)
Definition referring_db : Database :=
  mkObject (example_meta "db" [Finalizer] false)
    (mkDatabaseSpec (mkServerRef "" None (mkSecretRef "") None (Some "sql")) "app" None None None None [] None)
    (no_status tt).
Definition referred_server : SQLServer :=
  mkObject (example_meta "sql" [] false)
    (mkSQLServerSpec "srv" None "" (Some (mkXSecretRef "creds" None)) None None None None None)
    (no_status (mkSQLServerStatus "" "" None "" None "" None)).
Definition referring_world : World (list AnyObject) Servers string :=
  example_world [existT KDatabase referring_db; existT KSQLServer referred_server] fresh_servers.
Example referred_secret_not_mapped :
  (Database.Reconcile example_factory db_key referring_world).1 = Return (Result0, None) /\
  (mapSecretToDatabases (R := unit) (example_secret "creds") referring_world).1 = Next [].
Proof. by vm_compute. Qed.

(** Nothing watches the Logins a DatabaseUser refers to. *)
Definition early_user_world : World (list AnyObject) Servers string :=
  example_world [existT KDatabaseUser (example_user [Finalizer] false); existT KSecret (example_secret "creds")]
    fresh_servers.
Example missing_login_not_requeued :
  (UserCtl.Reconcile example_factory user_key early_user_world).1 = Return (Result0, None).
Proof. by vm_compute. Qed.

(** The Login controller does not follow [sqlServerRef]: it looks for the Secret
    the reference leaves empty, where the Database controller finds the server. *)
Definition referring_login : Login :=
  mkObject (example_meta "login" [Finalizer] false)
    (mkLoginSpec (db_Server (o_spec referring_db)) "app_login" (mkSecretRef "login-pw") None [] None)
    (no_status (mkLoginStatus "")).
Definition complete_world (x : AnyObject) : World (list AnyObject) Servers string :=
  example_world [x; existT KSQLServer referred_server; existT KSecret (example_secret "creds");
                 existT KSecret example_pw] fresh_servers.
Example login_reference_ignored :
  let db := Database.Reconcile example_factory db_key (complete_world (existT KDatabase referring_db)) in
  let login := LoginCtl.Reconcile example_factory login_key (complete_world (existT KLogin referring_login)) in
  ready_writes (w_log db.2) = 1%nat /\
  login.1 = Return (Result0, None) /\ ready_writes (w_log login.2) = 0%nat /\ sql_calls (w_log login.2) = [].
Proof. by vm_compute. Qed.
