(* ===== verification/AgWitnesses.v ===== *)
(** * Witnesses for the availability group

    The theorems of AgFencing.v and AvailabilityGroup.v applied to a group of two
    replicas on two mock servers: created, failed over, split, and failed over
    behind the operator's back. *)
From S2P Require Import Prelude Types SqlClient MockClient Kube Helpers ExampleWorld Witnesses.
From S2P Require Import SetReconcile History AgFencing AvailabilityGroup.

Definition example_replica (name host : string) : AGReplicaSpec :=
  mkAGReplicaSpec name ("TCP://" +:+ host +:+ ":5022") AvailabilityModeSynchronous FailoverModeManual
    SeedingModeAutomatic SecondaryRoleNo (mkServerRef host None (mkSecretRef "creds") None None).
Definition sql0 := example_replica "sql-0" "h0".
Definition sql1 := example_replica "sql-1" "h1".
Definition example_ag_spec (auto : bool) : AvailabilityGroupSpec :=
  mkAvailabilityGroupSpec "ag1" [sql0; sql1] [mkAGDatabaseSpec "app"] None None None (Some "None")
    (Some auto) None None.
Definition example_ag (auto : bool) (primary : string) : AvailabilityGroup :=
  mkObject (example_meta "ag" [Finalizer] false) (example_ag_spec auto)
    (no_status (mkAvailabilityGroupStatus primary [] [] None 0 None 0 0 "")).

(** A server on which the replicas [rs] form the group, the first being primary. *)
Definition ag_server (rs : list AGReplicaSpec) (lsn : Z) (err : option error) : Mock.MockClient :=
  let m := (Mock.CreateAG (mkAGConfig "ag1" (replica_config <$> rs) ["app"] "SECONDARY" true "NONE")
              Mock.NewMockClient).2 in
  Mock.mkMockClient (Mock.databases m) (Mock.logins m) (Mock.users m) (Mock.schemas m)
    (Mock.permissions m) (Mock.ags m) (Mock.calls m) err (Mock.MethodErrors m) lsn.
Definition two_servers (h0 h1 : Mock.MockClient) : Servers := fun h => if String.eqb h "h0" then h0 else h1.
Definition ag_world (d : Servers) : World (list AnyObject) Servers string :=
  example_world [existT KSecret (example_secret "creds")] d.

(** Both replicas are primary, [sql-1] with the higher log position. *)
Definition split_world := ag_world (two_servers (ag_server [sql0; sql1] 3 None) (ag_server [sql1; sql0] 7 None)).

Lemma fencing_witness :
  let ag := example_ag false "sql-0" in
  sql_calls (run_log (Fencing.detectAndResolveSplitBrain example_factory ag) split_world) =
    [("GetAGReplicaRole", ["ag1"; "sql-0"]); ("Close", []); ("GetAGReplicaRole", ["ag1"; "sql-1"]); ("Close", []);
     ("GetLastHardenedLSN", ["ag1"]); ("Close", []); ("GetLastHardenedLSN", ["ag1"]); ("Close", []);
     ("SetAGRoleSecondary", ["ag1"]); ("Close", [])] /\
  performs_after (fun e L a _ => Fencing.fence_justified example_factory ag split_world e L a)
    (Fencing.detectAndResolveSplitBrain example_factory ag) split_world /\
  ends (Fencing.detectAndResolveSplitBrain example_factory ag)
    (fun r w' => r.1 = true -> Fencing.fencing_recorded example_factory ag split_world w') split_world.
Proof.
  split; [by vm_compute|]. exact (Fencing.fencing_justified example_factory (example_ag false "sql-0") split_world).
Defined.

Lemma circuit_breaker_witness :
  let s := fun ts => Fencing.fenced_at "sql-1" "sql-0" ts in
  let ag := example_ag false "sql-1" in
  Fencing.exhausted_at (with_ag_status (s [1; 2; 3; 4; 5]) ag) (60 * Second) 6 sql0.
Proof. apply (Fencing.circuit_breaker_opens (example_ag false "sql-1") "sql-1" sql0); [by cbn|by vm_compute]. Defined.

(** The primary [sql-0] does not answer; [sql-1] is secondary. *)
Definition down_world := ag_world (two_servers (ag_server [sql0; sql1] 3 (Some (ErrString "no route")))
                                               (ag_server [sql0; sql1] 3 None)).

Lemma failover_witness :
  let ag := example_ag true "sql-0" in
  sql_calls (run_log (AG.reconcile_live example_factory "op/1" ag) down_world) =
    [("Ping", []); ("Close", []); ("GetAGReplicaRole", ["ag1"; "sql-1"]); ("ForceFailoverAG", ["ag1"]);
     ("Close", []); ("Close", [])] /\
  performs (AG.failover_justified example_factory "op/1" down_world ag)
    (AG.reconcile_live example_factory "op/1" ag) down_world.
Proof.
  split; [by vm_compute|].
  apply (AG.reconcile_live_failover_justified example_factory "op/1" (example_ag true "sql-0")); [done|by vm_compute].
Defined.

(** Two servers without a group. *)
Definition bare_world := ag_world fresh_servers.
Lemma ag_ready_witness :
  let ag := example_ag false "" in
  sql_calls (run_log (AG.reconcile_live example_factory "op/1" ag) bare_world) =
    [("HADREndpointExists", []); ("CreateHADREndpoint", ["5022"]); ("AGExists", ["ag1"]); ("CreateAG", ["ag1"]);
     ("HADREndpointExists", []); ("CreateHADREndpoint", ["5022"]); ("JoinAG", ["ag1"; "NONE"]);
     ("GrantAGCreateDatabase", ["ag1"]); ("Close", []);
     ("GetAGStatus", ["ag1"]); ("GetAGStatus", ["ag1"]); ("Close", [])] /\
  ready_writes (run_log (AG.reconcile_live example_factory "op/1" ag) bare_world) = 1%nat /\
  performs (ready_claim KAvailabilityGroup (AG.healthy_claim example_factory ag))
    (AG.reconcile_live example_factory "op/1" ag) bare_world.
Proof.
  split; [by vm_compute|]. split; [by vm_compute|].
  apply (AG.reconcile_live_ready_sound example_factory "op/1" (example_ag false "")); [done|by vm_compute].
Defined.

Lemma ag_fence_witness :
  let ag := example_ag false "sql-0" in
  performs (fun a _ => exists w' e L, Fencing.fence_justified example_factory ag w' e L a)
    (AG.reconcile_live example_factory "op/1" ag) split_world.
Proof.
  apply (AG.reconcile_live_fence_justified example_factory "op/1" (example_ag false "sql-0")); [done|by vm_compute].
Defined.

(** [sql-1] became primary without the operator, which recorded [sql-0]. *)
Definition moved_world := ag_world (two_servers (ag_server [sql1; sql0] 3 None) (ag_server [sql1; sql0] 3 None)).
Lemma stale_primary_witness :
  let ag := example_ag false "sql-0" in
  performs (fun a _ => AG.unrecorded a)
    (AG.reconcile_connected example_factory "op/1" ag requeueInterval "h0") moved_world /\
  ends (AG.reconcile_connected example_factory "op/1" ag requeueInterval "h0")
    (fun r _ => r = (RequeueIn (5 * Second), None)) moved_world.
Proof.
  eapply (AG.stale_primary_never_recorded example_factory "op/1" (example_ag false "sql-0") requeueInterval "h0"
    moved_world _ _ {["sql-0" := "SECONDARY"; "sql-1" := "PRIMARY"]} sql1); [done|done|by right| | |by vm_compute|done].
  - apply run_outcome. by vm_compute.
  - apply run_outcome. by vm_compute.
Defined.
