(* ===== verification/LeaseWitnesses.v ===== *)
(** * A server of Leases, and the theorems of LeaseRace.v at two processes

    The server keeps the versions of each Lease, answers from the last one and
    accepts every patch. *)
From S2P Require Import Prelude Types SqlClient Kube Helpers SetReconcile AgFencing AvailabilityGroup LeaseRace.
Import Race.

Module LeaseExample.
Definition Server : Type := NamespacedName -> list LeaseSpec.
Definition lease_of (key : NamespacedName) (v : LeaseSpec) : Lease :=
  mkObject (new_meta (key_name key) (key_ns key) ∅) v tt.
Definition store (key : NamespacedName) (v : LeaseSpec) (s : Server) : Server :=
  fun key' => if decide (key' = key) then s key' ++ [v] else s key'.
Definition refused {A} : A + error := inr (ErrString "refused").

Definition get_lease (key : NamespacedName) (s : Server) : Lease + error :=
  match last (s key) with Some v => inl (lease_of key v) | None => inr (ErrNotFound "not found") end.
Definition create_lease (o : Lease) (s : Server) : (Lease + error) * Server :=
  match s (lease_key o) with
  | [] => (inl (lease_of (lease_key o) (micro_spec (o_spec o))), store (lease_key o) (micro_spec (o_spec o)) s)
  | _ => (refused, s)
  end.
Definition patch_lease (base o : Lease) (s : Server) : (Lease + error) * Server :=
  match last (s (lease_key base)) with
  | Some cur =>
      let v := merge_spec (micro_spec (o_spec base)) (micro_spec (o_spec o)) cur in
      (inl (lease_of (lease_key base) v), store (lease_key base) v s)
  | None => (inr (ErrNotFound "not found"), s)
  end.

#[export] Instance server_client : KubeClient Server := {
  kube_Get k := match k return NamespacedName -> Server -> (obj k + error) * Server with
                | KLease => fun key s => (get_lease key s, s)
                | _ => fun _ s => (refused, s)
                end;
  kube_List k _ _ s := (refused, s);
  kube_Create k := match k return obj k -> Server -> (obj k + error) * Server with
                   | KLease => create_lease
                   | _ => fun _ s => (refused, s)
                   end;
  kube_Update k _ s := (refused, s);
  kube_Delete k _ s := (Some (ErrString "refused"), s);
  kube_Patch k := match k return obj k -> obj k -> Server -> (obj k + error) * Server with
                  | KLease => patch_lease
                  | _ => fun _ _ s => (refused, s)
                  end;
  kube_StatusPatch k _ _ s := (refused, s)
}.

#[export] Instance server_leases : LeaseServer Server.
Proof.
  refine {| versions key (s : Server) := s key |}.
  - cbn. intros key s r s' [= <- <-]. split; [done|]. unfold get_lease.
    destruct (last (s key)) as [v|] eqn:Hv; [|done]. cbn. split; [by apply last_Some_elem_of|by destruct key].
  - cbn. unfold create_lease. intros o s r s' key. case_decide as Hk.
    + subst key. destruct (s (lease_key o)) eqn:Hs; intros [= <- <-]; [left|right; eauto].
      unfold store. by rewrite decide_True, Hs.
    + destruct (s (lease_key o)); intros [= <- <-]; [|done]. unfold store. by rewrite decide_False.
  - cbn. unfold patch_lease. intros base o s r s' key. case_decide as Hk.
    + subst key. destruct (last (s (lease_key base))) as [cur|]; intros [= <- <-]; [left|right; eauto].
      exists cur. unfold store. by rewrite decide_True.
    + destruct (last (s (lease_key base))); intros [= <- <-]; [|done]. unfold store. by rewrite decide_False.
Defined.

#[export] Instance server_up : LeaseServerUp Server.
Proof.
  split.
  - cbn. intros key s v Hv. unfold get_lease. rewrite Hv. eauto.
  - cbn. intros base o s Hs. unfold patch_lease. destruct (last _) eqn:Hl; [eauto|]. by apply last_None in Hl.
Qed.

(** Two operator pods with the same clock, at a reconcile each. *)
Definition the_lease : string := "ag-failover-prod".
Definition pod (name : string) : Process :=
  mkProcess name 0 (lease_call name "sql" the_lease).
Definition pods : list Process := [pod "operator-a/1"; pod "operator-b/1"].
Definition no_lease : Server := fun _ => [].
Definition t0 : Z := 1000 * Second.
(** A Lease that a third pod, long gone, held until [t0]. *)
Definition old_lease : Server :=
  store (mkKey "sql" the_lease) (mkLeaseSpec (Some "operator-0/1") (Some 30) (Some 0) (Some (t0 - 31 * Second))) no_lease.

(** Both find no Lease; the second create is refused. *)
Definition first_come : System (K := Server) := turns (mkSystem no_lease t0 pods []) [0; 1; 0; 1; 0; 1]%nat.
Example first_come_acquires : sys_acquired first_come = ["operator-a/1"].
Proof. vm_compute. reflexivity. Qed.

Lemma lease_exclusive_witness : exists h', forall x, x ∈ sys_acquired first_come -> x = h'.
Proof.
  destruct (lease_exclusive (K := Server) "sql" the_lease 0 (t0 - Microsecond) "operator-a/1"
    (mkSystem no_lease t0 pods []) first_come) as (h' & _ & Hh').
  - constructor.
  - vm_compute. discriminate.
  - repeat (constructor; [split; [by left|split; vm_compute; discriminate]|]). constructor.
  - reflexivity.
  - apply turns_steps.
  - vm_compute. discriminate.
  - by exists h'.
Defined.

(** Both read the expired Lease before either has patched it. *)
Example both_acquire :
  sys_acquired (turns (mkSystem old_lease t0 pods []) [0; 1; 0; 1; 0; 1; 0; 1]%nat) = ["operator-a/1"; "operator-b/1"].
Proof. vm_compute. reflexivity. Qed.

Lemma expired_lease_taken_twice_witness : exists s' ps',
  rtc (step "sql" the_lease) (mkSystem old_lease t0 pods [])
      (mkSystem s' t0 ps' (["operator-a/1"; "operator-b/1"])).
Proof.
  apply (expired_lease_taken_twice (K := Server) "sql" the_lease old_lease t0 pods [] 0 1
    (pod "operator-a/1") (pod "operator-b/1")
    (mkLeaseSpec (Some "operator-0/1") (Some 30) (Some 0) (Some (t0 - 31 * Second))) (t0 - 31 * Second) 30);
    [done|reflexivity..|vm_compute; reflexivity|vm_compute; reflexivity].
Defined.
End LeaseExample.
