(* ===== verification/OneShotWitnesses.v ===== *)
(** * Witnesses for the one-shot operations

    A Backup, a Restore and an AGFailover run in the concrete world. *)
From S2P Require Import Prelude Types SqlClient MockClient Kube Helpers OneShot ExampleWorld Witnesses.
From S2P Require Import AgFencing AvailabilityGroup AgWitnesses.
From S2P Require Import BackupController RestoreController AgFailoverController.

Definition one_shot_key : NamespacedName := mkKey "ns" "op".
Definition one_shot_meta : ObjectMeta := example_meta "op" [] false.
Definition no_run : BackupStatus := mkBackupStatus "" None None.
Definition with_creds (x : AnyObject) : list AnyObject := [x; existT KSecret (example_secret "creds")].

(** The phases a run wrote, in order. *)
Definition phases_written {D Conn} (k : Kind) `{!OneShot k} (l : list (Action Conn * D)) : list string :=
  omap (fun x => match x.1 with
    | AStatusPatch k' _ o => match decide (k' = k) with
        | left e => Some (phase (eq_rect k' obj o k e)) | right _ => None end
    | _ => None end) l.

(** ** Backup *)
Definition example_backup : Backup :=
  mkObject one_shot_meta
    (mkBackupSpec example_server "app" BackupTypeFull "/backups/app.bak" (Some true)) (no_status no_run).
Definition backup_world : World (list AnyObject) Servers string :=
  example_world (with_creds (existT KBackup example_backup)) fresh_servers.

Lemma Backup_sound_witness :
  phases_written KBackup (run_log (BackupCtl.Reconcile example_factory one_shot_key) backup_world) =
    [PhaseRunning; PhaseRunning; PhaseCompleted] /\
  sql_calls (run_log (BackupCtl.Reconcile example_factory one_shot_key) backup_world) =
    [("BackupDatabase", ["app"; "/backups/app.bak"; "Full"; "true"]); ("Close", [])] /\
  performs (BackupCtl.backup_action example_factory one_shot_key backup_world)
    (BackupCtl.Reconcile example_factory one_shot_key) backup_world.
Proof.
  split_and!; [by vm_compute|by vm_compute|].
  exact (BackupCtl.backup_reconcile_sound example_factory one_shot_key backup_world).
Defined.

Lemma Backup_settles_witness :
  exists b', at_store KBackup one_shot_key b'
      (BackupCtl.Reconcile example_factory one_shot_key backup_world).2 /\
    terminal (phase b') = true.
Proof.
  destruct (BackupCtl.backup_settles example_factory one_shot_key example_backup Result0 backup_world
    (BackupCtl.Reconcile example_factory one_shot_key backup_world).2) as (b' & Hs & Ht & _).
  - reflexivity.
  - apply run_outcome. by vm_compute.
  - exact (ex_intro _ b' (conj Hs Ht)).
Defined.

(** ** Restore *)
Definition example_restore (stop log : option string) (ms : list FileMapping) : Restore :=
  mkObject one_shot_meta
    (mkRestoreSpec example_server "app" "/backups/app.bak" stop log ms) (no_status no_run).
Definition restore_world r : World (list AnyObject) Servers string :=
  example_world (with_creds (existT KRestore r)) fresh_servers.
Definition two_moves := [mkFileMapping "app" "/data/old.mdf"; mkFileMapping "app" "/data/app.mdf"].

Lemma Restore_sound_witness :
  let calls r := sql_calls (run_log (RestoreCtl.Reconcile example_factory one_shot_key) (restore_world r)) in
  calls (example_restore (Some "2025-01-01T00:00:00") (Some "/backups/app.trn") two_moves) =
    [("RestoreDatabasePIT", ["app"; "/backups/app.bak"; "/backups/app.trn"; "2025-01-01T00:00:00"]);
     ("Close", [])] /\
  calls (example_restore (Some "2025-01-01T00:00:00") None two_moves) =
    [("RestoreDatabaseWithMove", ["app"; "/backups/app.bak"]); ("Close", [])] /\
  RestoreCtl.moves two_moves = {["app" := "/data/app.mdf"]} /\
  performs (RestoreCtl.restore_action example_factory one_shot_key (restore_world (example_restore None None [])))
    (RestoreCtl.Reconcile example_factory one_shot_key) (restore_world (example_restore None None [])).
Proof.
  split_and!; [by vm_compute|by vm_compute|by vm_compute|].
  exact (RestoreCtl.restore_reconcile_sound example_factory one_shot_key _).
Defined.

Lemma Restore_settles_witness :
  let w := restore_world (example_restore None None []) in
  exists r', at_store KRestore one_shot_key r'
      (RestoreCtl.Reconcile example_factory one_shot_key w).2 /\ terminal (phase r') = true.
Proof.
  intros w. destruct (RestoreCtl.restore_settles example_factory one_shot_key (example_restore None None [])
    Result0 w (RestoreCtl.Reconcile example_factory one_shot_key w).2) as (r' & Hs & Ht & _).
  - reflexivity.
  - apply run_outcome. by vm_compute.
  - exact (ex_intro _ r' (conj Hs Ht)).
Defined.

(** ** AGFailover: the target sql-0 connects to a server where it is secondary *)
Definition example_failover (force : option bool) : AGFailover :=
  mkObject one_shot_meta
    (mkAGFailoverSpec "ag1" "sql-0" (mkServerRef "h1" None (mkSecretRef "creds") None None) force)
    (no_status (mkAGFailoverStatus "" None None "" "")).
Definition failover_world fo : World (list AnyObject) Servers string :=
  example_world (with_creds (existT KAGFailover fo))
    (two_servers (ag_server [sql0; sql1] 3 None) (ag_server [sql1; sql0] 7 None)).

Lemma Failover_sound_witness :
  let run fo := run_log (FailoverCtl.Reconcile example_factory one_shot_key) (failover_world fo) in
  phases_written KAGFailover (run (example_failover None)) = [PhaseRunning; PhaseRunning; PhaseCompleted] /\
  sql_calls (run (example_failover None)) =
    [("GetAGReplicaRole", ["ag1"; "sql-0"]); ("FailoverAG", ["ag1"]); ("GetAGStatus", ["ag1"]);
     ("Close", [])] /\
  (* no annotation confirms the data loss *)
  Annotations (o_meta (example_failover (Some true))) !! ConfirmDataLossAnnotation = None /\
  sql_calls (run (example_failover (Some true))) =
    [("GetAGReplicaRole", ["ag1"; "sql-0"]); ("ForceFailoverAG", ["ag1"]); ("GetAGStatus", ["ag1"]);
     ("Close", [])] /\
  performs (FailoverCtl.failover_action example_factory one_shot_key (failover_world (example_failover None)))
    (FailoverCtl.Reconcile example_factory one_shot_key) (failover_world (example_failover None)).
Proof.
  split_and!; [by vm_compute..|].
  exact (FailoverCtl.failover_reconcile_sound example_factory one_shot_key _).
Defined.

Lemma Failover_settles_witness :
  let w := failover_world (example_failover None) in
  exists fo', at_store KAGFailover one_shot_key fo'
      (FailoverCtl.Reconcile example_factory one_shot_key w).2 /\ terminal (phase fo') = true.
Proof.
  intros w. destruct (FailoverCtl.failover_settles example_factory one_shot_key (example_failover None)
    Result0 w (FailoverCtl.Reconcile example_factory one_shot_key w).2) as (fo' & Hs & Ht & _).
  - reflexivity.
  - apply run_outcome. by vm_compute.
  - exact (ex_intro _ fo' (conj Hs Ht)).
Defined.
