(* ===== verification/ScheduledWitnesses.v ===== *)
(** * Witnesses for the scheduled backups

    A schedule with concrete parsers and a stable sort, run in the concrete
    world. *)
From stdpp Require Import sorting.
From S2P Require Import Prelude Types SqlClient MockClient Kube Helpers OneShot ExampleWorld Witnesses.
From S2P Require Import OneShotWitnesses BackupController ScheduledBackupController.

(** Every minute, never, or not a schedule. *)
#[export] Instance example_cron : Cron := {
  cron_Parse s := if String.eqb s "* * * * *" then inl (fun t => t + Minute)
                  else if String.eqb s "0 0 30 2 *" then inl (fun _ => zero_time)
                  else inr (ErrString "expected exactly 5 fields")
}.
#[export] Instance example_template : Template := {
  template_Execute tmpl db ts ty := inl (tmpl +:+ db +:+ "-" +:+ ts +:+ ".bak")
}.
#[export] Instance older_dec : RelDecision older.
Proof. intros a b. unfold older. apply _. Defined.
#[export] Instance older_trans : Transitive older.
Proof. intros a b c. unfold older. lia. Qed.
#[export] Instance older_total : Total older.
Proof. intros a b. unfold older. lia. Qed.
#[export] Instance example_sort : SortSlice := { sort_by_creation := merge_sort older }.
#[export] Instance example_sort_laws : SortSliceLaws.
Proof.
  split; cbn; intros l; [apply merge_sort_Permutation|apply StronglySorted_merge_sort; apply _].
Qed.

Definition sched_key : NamespacedName := mkKey "ns" "nightly".
Definition example_schedule (cron active : string) (ret : option RetentionPolicy) : ScheduledBackup :=
  mkObject (example_meta "nightly" [] false)
    (mkScheduledBackupSpec example_server "app" cron BackupTypeFull None "/backups/" ret None)
    (no_status (mkScheduledBackupStatus None None "" active [] 0 0 0)).
(** A finished backup of the schedule, created at [t] seconds. *)
Definition old_backup (name phase : string) (t : Z) : Backup :=
  mkObject (mkMeta name "ns" 1 None [] {[ScheduledBackupLabel := "nightly"]} ∅ "1" (t * Second) [])
    (mkBackupSpec example_server "app" BackupTypeFull "/backups/x.bak" None)
    (no_status (mkBackupStatus phase None None)).

(** A minute has passed since the creation of the object, on a clock that starts late. *)
Definition late_env : GoEnv := {|
  clock n := (100000 + Z.of_nat n) * Second;
  rand63 n := Z.of_nat n;
  range_order _ l := l;
  strconv_quote s := s;
  ParseDuration s := if String.eqb s "1h" then Some Hour else None;
  unicode_upper s := s
|}.

(** What a run created and deleted. *)
Definition backups_made {D Conn} (l : list (Action Conn * D)) : list (string * string) :=
  omap (fun x => match x.1 with
    | ACreate KBackup b => Some ("create", Name (o_meta (b : Backup)))
    | ADelete KBackup b => Some ("delete", Name (o_meta (b : Backup)))
    | _ => None end) l.

Definition sched_world sb (bs : list Backup) : World (list AnyObject) Servers string :=
  example_world (existT KScheduledBackup sb :: (existT KBackup <$> bs)) fresh_servers.
Definition run_schedule sb bs : list (string * string) :=
  backups_made (run_log (SchedCtl.Reconcile (H := late_env) sched_key) (sched_world sb bs)).
Definition keep_two : RetentionPolicy := mkRetentionPolicy (Some 2) None.

Lemma Schedule_sound_witness :
  run_schedule (example_schedule "* * * * *" "" None) [] = [("create", "nightly-19700102-034641")] /\
  run_schedule (example_schedule "* * * * *" "b3" (Some keep_two))
    [old_backup "b3" PhaseCompleted 30; old_backup "b1" PhaseCompleted 10;
     old_backup "b0" PhaseFailed 5; old_backup "b2" PhaseCompleted 20] = [("delete", "b1")] /\
  let w := sched_world (example_schedule "* * * * *" "" None) [] in
  performs (SchedCtl.sched_action (H := late_env) sched_key w) (SchedCtl.Reconcile (H := late_env) sched_key) w.
Proof.
  split_and!; [by vm_compute|by vm_compute|].
  exact (SchedCtl.schedule_reconcile_sound (H := late_env) sched_key _).
Defined.

Lemma Schedule_history_witness :
  performs (fun a _ => SchedCtl.keeps_history a) (SchedCtl.Reconcile (H := late_env) sched_key)
    (sched_world (example_schedule "* * * * *" "b3" None) [old_backup "b3" PhaseCompleted 30]).
Proof. exact (SchedCtl.history_recorded_once (H := late_env) sched_key _). Defined.

Lemma Schedule_impossible_witness :
  let w := sched_world (example_schedule "0 0 30 2 *" "" None) [] in
  run_schedule (example_schedule "0 0 30 2 *" "" None) [] = [("create", "nightly-19700102-034641")] /\
  SchedCtl.created (SchedCtl.Reconcile (H := late_env) sched_key w).2.
Proof.
  intros w. split; [by vm_compute|].
  apply (SchedCtl.impossible_schedule_creates (H := late_env) sched_key
    (example_schedule "0 0 30 2 *" "" None) (fun _ => zero_time) w (w_kube w)).
  - reflexivity.
  - reflexivity.
  - discriminate.
  - reflexivity.
  - reflexivity.
  - reflexivity.
  - intros n. unfold zero_time, late_env, clock, Second, Millisecond. lia.
  - intros t. by eexists.
  - intros owner m. by eexists.
Defined.

