(* ===== verification/Admission.v ===== *)
(** * Admission webhooks: the contract (api/v1alpha1, the _webhook.go files)

    What the webhook methods of a custom resource are, and what a sequence of
    admitted writes guarantees. [field.Error] and its paths belong to
    apimachinery and are kept as terms; [ErrorList.ToAggregate] is the
    constructor [Aggregate]. The operator's part is which errors are reported,
    where, and in which order.

    [Webhook k] has the four methods of kind [k], [WebhookContract k] states
    them as a specification: [valid] is what a create must satisfy, [fixed] what
    no update may change, [kept] what stays true of every stored object. *)
From S2P Require Import Prelude Types.

(** ** Field errors *)
Inductive PathElem := Child (name : string) | Index (i : nat).
Definition Path := list PathElem.
(** [field.NewPath] and [Path.Child], which take several names. *)
Definition NewPath (names : list string) : Path := map Child names.
Inductive FieldValue := IntValue (z : Z) | StringValue (s : string).
Inductive FieldError :=
| Required (path : Path) (detail : string)
| Forbidden (path : Path) (detail : string)
| Invalid (path : Path) (value : FieldValue) (detail : string)
| Duplicate (path : Path) (value : string).

Inductive AdmissionError := Aggregate (errs : list FieldError) | BadObject (e : error).
(** The warnings and the error a validator returns. *)
Definition Verdict : Type := list string * option AdmissionError.
Definition accepted (v : Verdict) : Prop := v.2 = None.

(** [if b { allErrs = append(allErrs, e) }]. *)
Definition check (b : bool) (e : FieldError) : list FieldError := if b then [e] else [].
(** [if len(allErrs) > 0 { return allErrs.ToAggregate() }; return nil]. *)
Definition aggregate (allErrs : list FieldError) : option AdmissionError :=
  match allErrs with [] => None | _ => Some (Aggregate allErrs) end.

(** [if p == nil { p = &d }]. *)
Definition or_default {A} (d : A) (p : option A) : option A :=
  match p with None => Some d | Some x => Some x end.
Definition with_spec {Sp St} (s : Sp) (o : Object Sp St) : Object Sp St :=
  mkObject (o_meta o) s (o_status o).

(** ** The old object of an update *)
Definition runtime_Object : Type := { k : Kind & obj k }.
Definition as_object (k : Kind) (o : obj k) : runtime_Object := existT k o.
(** The type assertion of [old] to the kind's pointer type. *)
Definition type_assert (k : Kind) (old : runtime_Object) : option (obj k) :=
  match decide (projT1 old = k) with
  | left e => Some (eq_rect (projT1 old) obj (projT2 old) k e)
  | right _ => None
  end.
(** The verb [%T]. *)
Definition type_name (k : Kind) : string :=
  match k with
  | KDatabase => "*v1alpha1.Database" | KLogin => "*v1alpha1.Login"
  | KDatabaseUser => "*v1alpha1.DatabaseUser" | KSchema => "*v1alpha1.Schema"
  | KPermission => "*v1alpha1.Permission" | KBackup => "*v1alpha1.Backup"
  | KRestore => "*v1alpha1.Restore" | KScheduledBackup => "*v1alpha1.ScheduledBackup"
  | KAGFailover => "*v1alpha1.AGFailover" | KAvailabilityGroup => "*v1alpha1.AvailabilityGroup"
  | KSQLServer => "*v1alpha1.SQLServer" | KSecret => "*v1.Secret" | KPod => "*v1.Pod"
  | KLease => "*v1.Lease" | KConfigMap => "*v1.ConfigMap" | KService => "*v1.Service"
  | KStatefulSet => "*v1.StatefulSet"
  end.
(** The assertion, and the error returned when it fails. *)
Definition with_old (k : Kind) (expected : string) (old : runtime_Object)
    (validate : obj k -> option AdmissionError) : Verdict :=
  match type_assert k old with
  | None => ([], Some (BadObject (ErrString
              ("expected " +:+ expected +:+ ", got " +:+ type_name (projT1 old)))))
  | Some o => ([], validate o)
  end.

(** ** The pointer comparisons of database_webhook.go *)
Definition stringPtrEqual (a b : option string) : bool :=
  match a, b with
  | None, None => true
  | None, Some _ | Some _, None => false
  | Some x, Some y => String.eqb x y
  end.
Definition int32PtrEqual (a b : option Z) : bool :=
  match a, b with
  | None, None => true
  | None, Some _ | Some _, None => false
  | Some x, Some y => Z.eqb x y
  end.
Definition boolPtrEqual (a b : option bool) : bool :=
  match a, b with
  | None, None => true
  | None, Some _ | Some _, None => false
  | Some x, Some y => Bool.eqb x y
  end.

(** ** The server reference, treated alike by most kinds *)
Definition default_server (s : ServerReference) : ServerReference :=
  mkServerRef (Host s) (or_default 1433 (Port s)) (CredentialsSecret s) (TLS s) (SQLServerRef s).
Definition server_required (s : ServerReference) : list FieldError :=
  check (String.eqb (Host s) "")
    (Required (NewPath ["spec"; "server"; "host"]) "server host is required") ++
  check (String.eqb (sec_Name (CredentialsSecret s)) "")
    (Required (NewPath ["spec"; "server"; "credentialsSecret"; "name"])
      "credentialsSecret name is required").
Definition server_immutable (new old : ServerReference) : list FieldError :=
  check (negb (String.eqb (Host new) (Host old)))
    (Forbidden (NewPath ["spec"; "server"; "host"]) "server host is immutable") ++
  check (negb (int32PtrEqual (Port new) (Port old)))
    (Forbidden (NewPath ["spec"; "server"; "port"]) "server port is immutable") ++
  check (negb (boolPtrEqual (TLS new) (TLS old)))
    (Forbidden (NewPath ["spec"; "server"; "tls"]) "server tls is immutable").

(** ** Lemmas *)
Lemma check_nil b e : check b e = [] <-> b = false.
Proof. by destruct b. Qed.
Lemma aggregate_none errs : aggregate errs = None <-> errs = [].
Proof. by destruct errs. Qed.
Lemma stringPtrEqual_spec a b : stringPtrEqual a b = true <-> a = b.
Proof.
  destruct a as [a|], b as [b|]; cbn; try done.
  rewrite String.eqb_eq. split; [by intros ->|by intros [= ->]].
Qed.
Lemma int32PtrEqual_spec a b : int32PtrEqual a b = true <-> a = b.
Proof.
  destruct a as [a|], b as [b|]; cbn; try done.
  rewrite Z.eqb_eq. split; [by intros ->|by intros [= ->]].
Qed.
Lemma boolPtrEqual_spec a b : boolPtrEqual a b = true <-> a = b.
Proof. destruct a as [[]|], b as [[]|]; cbn; done. Qed.
Lemma or_default_idem {A} (d : A) p : or_default d (or_default d p) = or_default d p.
Proof. by destruct p. Qed.
Lemma default_server_idem s : default_server (default_server s) = default_server s.
Proof. unfold default_server; cbn. by rewrite or_default_idem. Qed.
Lemma type_assert_same k o : type_assert k (as_object k o) = Some o.
Proof.
  unfold type_assert; cbn. destruct (decide (k = k)) as [e|]; [|done].
  by rewrite <- (Eqdep_dec.eq_rect_eq_dec Kind_eq_dec).
Qed.
Lemma with_old_same k expected o (f : obj k -> option AdmissionError) :
  with_old k expected (as_object k o) f = ([], f o).
Proof. unfold with_old. by rewrite type_assert_same. Qed.
Lemma with_old_accepted k expected o (f : obj k -> option AdmissionError) :
  accepted (with_old k expected (as_object k o) f) -> f o = None.
Proof. unfold accepted. by rewrite with_old_same. Qed.

(** What the tests of the validators say. *)
Lemma eqb_empty_false s t : String.eqb s t = false <-> s <> t.
Proof. apply String.eqb_neq. Qed.
Lemma negb_eqb_false s t : negb (String.eqb s t) = false <-> s = t.
Proof. by rewrite negb_false_iff, String.eqb_eq. Qed.
Lemma negb_stringPtr_false a b : negb (stringPtrEqual a b) = false <-> a = b.
Proof. by rewrite negb_false_iff, stringPtrEqual_spec. Qed.
Lemma negb_int32Ptr_false a b : negb (int32PtrEqual a b) = false <-> a = b.
Proof. by rewrite negb_false_iff, int32PtrEqual_spec. Qed.
Lemma negb_boolPtr_false a b : negb (boolPtrEqual a b) = false <-> a = b.
Proof. by rewrite negb_false_iff, boolPtrEqual_spec. Qed.

Definition server_given (s : ServerReference) : Prop :=
  Host s <> "" /\ sec_Name (CredentialsSecret s) <> "".
Definition same_server (new old : ServerReference) : Prop :=
  Host new = Host old /\ Port new = Port old /\ TLS new = TLS old.
Lemma server_required_nil s : server_required s = [] <-> server_given s.
Proof.
  unfold server_required, server_given. by rewrite app_nil, !check_nil, !eqb_empty_false.
Qed.
Lemma server_immutable_nil n o : server_immutable n o = [] <-> same_server n o.
Proof.
  unfold server_immutable, same_server.
  by rewrite !app_nil, !check_nil, negb_eqb_false, negb_int32Ptr_false, negb_boolPtr_false.
Qed.
#[export] Instance same_server_preorder : PreOrder same_server.
Proof. unfold same_server. split; [done|]. intros x y z; naive_solver congruence. Qed.

(** Turns "no error was reported" into what the tests say. *)
Ltac errors_nil :=
  rewrite ?aggregate_none, ?app_nil, ?check_nil, ?eqb_empty_false, ?negb_eqb_false,
    ?negb_stringPtr_false, ?negb_int32Ptr_false, ?negb_boolPtr_false,
    ?server_required_nil, ?server_immutable_nil.
Tactic Notation "errors_nil" "in" hyp(H) :=
  rewrite ?aggregate_none, ?app_nil, ?check_nil, ?eqb_empty_false, ?negb_eqb_false,
    ?negb_stringPtr_false, ?negb_int32Ptr_false, ?negb_boolPtr_false,
    ?server_required_nil, ?server_immutable_nil in H.

(** ** The contract *)
Class Webhook (k : Kind) := {
  Default : obj k -> obj k;
  ValidateCreate : obj k -> Verdict;
  ValidateUpdate : obj k -> runtime_Object -> Verdict;   (* the new object, the old one *)
  ValidateDelete : obj k -> Verdict
}.

Class WebhookContract (k : Kind) `{Webhook k} := {
  valid : obj k -> Prop;
  fixed : obj k -> obj k -> Prop;    (* the new object, the old one *)
  kept : obj k -> Prop;
  #[global] fixed_preorder :: PreOrder fixed;
  Default_idem o : Default (Default o) = Default o;
  accept_create o : accepted (ValidateCreate o) <-> valid o;
  valid_kept o : valid o -> kept o;
  accept_update n o : kept o -> accepted (ValidateUpdate n (as_object k o)) -> fixed n o /\ kept n;
  accept_delete o : accepted (ValidateDelete o);
  reject_other k' (o : obj k') n : k' <> k -> ~ accepted (ValidateUpdate n (as_object k' o))
}.

(** The first version of an object and the one stored now, after any number of
    writes that the API server defaulted and the webhook admitted. *)
Inductive admitted (k : Kind) `{Webhook k} : obj k -> obj k -> Prop :=
| admitted_create o : accepted (ValidateCreate (Default o)) -> admitted k (Default o) (Default o)
| admitted_update o0 o n :
    admitted k o0 o -> accepted (ValidateUpdate (Default n) (as_object k o)) ->
    admitted k o0 (Default n).

Lemma admitted_keeps k `{WebhookContract k} o0 o :
  admitted k o0 o -> fixed o o0 /\ kept o /\ valid o0 /\ Default o = o.
Proof.
  induction 1 as [o Ha|o0 o n _ (Hf & Hk & Hv & _) Ha].
  - apply accept_create in Ha. split_and!; [done|by apply valid_kept|done|apply Default_idem].
  - destruct (accept_update _ _ Hk Ha) as [Hf' Hk'].
    split_and!; [by etrans|done|done|apply Default_idem].
Qed.

(** The common proof of the last two laws. *)
Lemma with_old_other k expected k' (o : obj k') f :
  k' <> k -> ~ accepted (with_old k expected (as_object k' o) f).
Proof.
  intros Hk. unfold accepted, with_old, type_assert; cbn.
  by destruct (decide (k' = k)).
Qed.
