(* ===== verification/ObjectWebhooks.v ===== *)
(** * Webhooks of the SQL objects

    database_webhook.go, login_webhook.go, databaseuser_webhook.go,
    schema_webhook.go and permission_webhook.go: each kind's methods as an
    instance of [Webhook], with the specification the instance of
    [WebhookContract] states. All of them validate again on an update, after the
    comparison with the old object. *)
From S2P Require Import Prelude Types Admission ScheduledBackupController.

(** What is common to the kinds that validate again on every update. *)
Definition update_or_validate (errs : list FieldError) (v : option AdmissionError)
    : option AdmissionError :=
  match errs with [] => v | _ => aggregate errs end.
Lemma update_or_validate_none errs v :
  update_or_validate errs v = None <-> errs = [] /\ v = None.
Proof. destruct errs; cbn; naive_solver. Qed.

(** Reads off what an accepted update says; [validated] is the equivalence for
    the kind's validator. *)
Tactic Notation "by_update" "using" uconstr(validated) :=
  let H := fresh "Hup" in
  intros n o Hkept H; apply with_old_accepted in H; cbn beta iota zeta in H;
  rewrite update_or_validate_none, validated in H; errors_nil in H.
(** The laws that hold of every kind for the same reason. *)
Ltac by_with_old := intros k' o n Hk; by apply with_old_other.

(** ** database_webhook.go *)
Module DatabaseWebhook.
Definition validateDatabase (r : Database) : option AdmissionError := aggregate (
  check (String.eqb (db_DatabaseName (o_spec r)) "")
    (Required (NewPath ["spec"; "databaseName"]) "databaseName is required") ++
  server_required (db_Server (o_spec r))).

#[export] Instance webhook : Webhook KDatabase := {
  Default r :=
    let s := o_spec r in
    with_spec (mkDatabaseSpec (default_server (db_Server s)) (db_DatabaseName s) (db_Collation s)
      (db_Owner s) (db_RecoveryModel s) (db_CompatibilityLevel s) (db_Options s)
      (or_default DeletionPolicyRetain (db_DeletionPolicy s))) r;
  ValidateCreate r := ([], validateDatabase r);
  ValidateUpdate r old := with_old KDatabase "Database" old (fun oldDB =>
    let s := o_spec r in let o := o_spec oldDB in
    update_or_validate (
      check (negb (String.eqb (db_DatabaseName s) (db_DatabaseName o)))
        (Forbidden (NewPath ["spec"; "databaseName"]) "databaseName is immutable after creation") ++
      check (negb (stringPtrEqual (db_Collation s) (db_Collation o)))
        (Forbidden (NewPath ["spec"; "collation"]) "collation is immutable after creation") ++
      server_immutable (db_Server s) (db_Server o))
    (validateDatabase r));
  ValidateDelete _ := ([], None)
}.

Definition well_formed (r : Database) : Prop :=
  db_DatabaseName (o_spec r) <> "" /\ server_given (db_Server (o_spec r)).
Definition same (n o : Database) : Prop :=
  db_DatabaseName (o_spec n) = db_DatabaseName (o_spec o) /\
  db_Collation (o_spec n) = db_Collation (o_spec o) /\
  same_server (db_Server (o_spec n)) (db_Server (o_spec o)).

Lemma database_validate_none r : validateDatabase r = None <-> well_formed r.
Proof. unfold validateDatabase, well_formed. by errors_nil. Qed.
#[export] Instance same_preorder : PreOrder same.
Proof. unfold same. split; [done|]. intros x y z (?&?&?) (?&?&?). split_and!; by etrans. Qed.
#[export] Instance contract : WebhookContract KDatabase.
Proof.
  refine {| valid := well_formed; fixed := same; kept := well_formed |}; try done.
  - intros r. cbn. by rewrite or_default_idem, default_server_idem.
  - apply database_validate_none.
  - by_update using database_validate_none. unfold same. tauto.
  - by_with_old.
Defined.
End DatabaseWebhook.

(** ** login_webhook.go *)
Module LoginWebhook.
Definition validateLogin (r : Login) : option AdmissionError := aggregate (
  check (String.eqb (login_LoginName (o_spec r)) "")
    (Required (NewPath ["spec"; "loginName"]) "loginName is required") ++
  server_required (login_Server (o_spec r)) ++
  check (String.eqb (sec_Name (login_PasswordSecret (o_spec r))) "")
    (Required (NewPath ["spec"; "passwordSecret"; "name"]) "passwordSecret name is required")).

#[export] Instance webhook : Webhook KLogin := {
  Default r :=
    let s := o_spec r in
    with_spec (mkLoginSpec (default_server (login_Server s)) (login_LoginName s)
      (login_PasswordSecret s) (login_DefaultDatabase s) (login_ServerRoles s)
      (or_default DeletionPolicyRetain (login_DeletionPolicy s))) r;
  ValidateCreate r := ([], validateLogin r);
  ValidateUpdate r old := with_old KLogin "Login" old (fun oldLogin =>
    let s := o_spec r in let o := o_spec oldLogin in
    update_or_validate (
      check (negb (String.eqb (login_LoginName s) (login_LoginName o)))
        (Forbidden (NewPath ["spec"; "loginName"]) "loginName is immutable after creation") ++
      server_immutable (login_Server s) (login_Server o))
    (validateLogin r));
  ValidateDelete _ := ([], None)
}.

Definition well_formed (r : Login) : Prop :=
  login_LoginName (o_spec r) <> "" /\ server_given (login_Server (o_spec r)) /\
  sec_Name (login_PasswordSecret (o_spec r)) <> "".
Definition same (n o : Login) : Prop :=
  login_LoginName (o_spec n) = login_LoginName (o_spec o) /\
  same_server (login_Server (o_spec n)) (login_Server (o_spec o)).

Lemma login_validate_none r : validateLogin r = None <-> well_formed r.
Proof. unfold validateLogin, well_formed. by errors_nil. Qed.
#[export] Instance same_preorder : PreOrder same.
Proof. unfold same. split; [done|]. intros x y z (?&?) (?&?). split; by etrans. Qed.
#[export] Instance contract : WebhookContract KLogin.
Proof.
  refine {| valid := well_formed; fixed := same; kept := well_formed |}; try done.
  - intros r. cbn. by rewrite or_default_idem, default_server_idem.
  - apply login_validate_none.
  - by_update using login_validate_none. unfold same. tauto.
  - by_with_old.
Defined.
End LoginWebhook.

(** ** databaseuser_webhook.go *)
Module DatabaseUserWebhook.
Definition validateDatabaseUser (r : DatabaseUser) : option AdmissionError := aggregate (
  check (String.eqb (user_UserName (o_spec r)) "")
    (Required (NewPath ["spec"; "userName"]) "userName is required") ++
  check (String.eqb (user_DatabaseName (o_spec r)) "")
    (Required (NewPath ["spec"; "databaseName"]) "databaseName is required") ++
  server_required (user_Server (o_spec r)) ++
  check (String.eqb (loginref_Name (user_LoginRef (o_spec r))) "")
    (Required (NewPath ["spec"; "loginRef"; "name"]) "loginRef name is required")).

#[export] Instance webhook : Webhook KDatabaseUser := {
  Default r :=
    let s := o_spec r in
    with_spec (mkDatabaseUserSpec (default_server (user_Server s)) (user_DatabaseName s)
      (user_UserName s) (user_LoginRef s) (user_DatabaseRoles s)) r;
  ValidateCreate r := ([], validateDatabaseUser r);
  ValidateUpdate r old := with_old KDatabaseUser "DatabaseUser" old (fun oldUser =>
    let s := o_spec r in let o := o_spec oldUser in
    update_or_validate (
      check (negb (String.eqb (user_UserName s) (user_UserName o)))
        (Forbidden (NewPath ["spec"; "userName"]) "userName is immutable after creation") ++
      check (negb (String.eqb (user_DatabaseName s) (user_DatabaseName o)))
        (Forbidden (NewPath ["spec"; "databaseName"]) "databaseName is immutable after creation") ++
      server_immutable (user_Server s) (user_Server o) ++
      check (negb (String.eqb (loginref_Name (user_LoginRef s)) (loginref_Name (user_LoginRef o))))
        (Forbidden (NewPath ["spec"; "loginRef"; "name"]) "loginRef is immutable after creation"))
    (validateDatabaseUser r));
  ValidateDelete _ := ([], None)
}.

Definition well_formed (r : DatabaseUser) : Prop :=
  user_UserName (o_spec r) <> "" /\ user_DatabaseName (o_spec r) <> "" /\
  server_given (user_Server (o_spec r)) /\ loginref_Name (user_LoginRef (o_spec r)) <> "".
Definition same (n o : DatabaseUser) : Prop :=
  user_UserName (o_spec n) = user_UserName (o_spec o) /\
  user_DatabaseName (o_spec n) = user_DatabaseName (o_spec o) /\
  same_server (user_Server (o_spec n)) (user_Server (o_spec o)) /\
  loginref_Name (user_LoginRef (o_spec n)) = loginref_Name (user_LoginRef (o_spec o)).

Lemma user_validate_none r : validateDatabaseUser r = None <-> well_formed r.
Proof. unfold validateDatabaseUser, well_formed. by errors_nil. Qed.
#[export] Instance same_preorder : PreOrder same.
Proof. unfold same. split; [done|]. intros x y z (?&?&?&?) (?&?&?&?). split_and!; by etrans. Qed.
#[export] Instance contract : WebhookContract KDatabaseUser.
Proof.
  refine {| valid := well_formed; fixed := same; kept := well_formed |}; try done.
  - intros r. cbn. by rewrite default_server_idem.
  - apply user_validate_none.
  - by_update using user_validate_none. unfold same. tauto.
  - by_with_old.
Defined.
End DatabaseUserWebhook.

(** ** schema_webhook.go *)
Module SchemaWebhook.
Definition validateSchema (r : Schema) : option AdmissionError := aggregate (
  check (String.eqb (schema_SchemaName (o_spec r)) "")
    (Required (NewPath ["spec"; "schemaName"]) "schemaName is required") ++
  check (String.eqb (schema_DatabaseName (o_spec r)) "")
    (Required (NewPath ["spec"; "databaseName"]) "databaseName is required") ++
  server_required (schema_Server (o_spec r))).

#[export] Instance webhook : Webhook KSchema := {
  Default r :=
    let s := o_spec r in
    with_spec (mkSchemaSpec (default_server (schema_Server s)) (schema_DatabaseName s)
      (schema_SchemaName s) (schema_Owner s)
      (or_default DeletionPolicyRetain (schema_DeletionPolicy s))) r;
  ValidateCreate r := ([], validateSchema r);
  ValidateUpdate r old := with_old KSchema "Schema" old (fun oldSchema =>
    let s := o_spec r in let o := o_spec oldSchema in
    update_or_validate (
      check (negb (String.eqb (schema_SchemaName s) (schema_SchemaName o)))
        (Forbidden (NewPath ["spec"; "schemaName"]) "schemaName is immutable after creation") ++
      check (negb (String.eqb (schema_DatabaseName s) (schema_DatabaseName o)))
        (Forbidden (NewPath ["spec"; "databaseName"]) "databaseName is immutable after creation") ++
      server_immutable (schema_Server s) (schema_Server o))
    (validateSchema r));
  ValidateDelete _ := ([], None)
}.

Definition well_formed (r : Schema) : Prop :=
  schema_SchemaName (o_spec r) <> "" /\ schema_DatabaseName (o_spec r) <> "" /\
  server_given (schema_Server (o_spec r)).
Definition same (n o : Schema) : Prop :=
  schema_SchemaName (o_spec n) = schema_SchemaName (o_spec o) /\
  schema_DatabaseName (o_spec n) = schema_DatabaseName (o_spec o) /\
  same_server (schema_Server (o_spec n)) (schema_Server (o_spec o)).

Lemma schema_validate_none r : validateSchema r = None <-> well_formed r.
Proof. unfold validateSchema, well_formed. by errors_nil. Qed.
#[export] Instance same_preorder : PreOrder same.
Proof. unfold same. split; [done|]. intros x y z (?&?&?) (?&?&?). split_and!; by etrans. Qed.
#[export] Instance contract : WebhookContract KSchema.
Proof.
  refine {| valid := well_formed; fixed := same; kept := well_formed |}; try done.
  - intros r. cbn. by rewrite or_default_idem, default_server_idem.
  - apply schema_validate_none.
  - by_update using schema_validate_none. unfold same. tauto.
  - by_with_old.
Defined.
End SchemaWebhook.

(** ** permission_webhook.go *)
Module PermissionWebhook.
(** One round of the loops over the grants and the denies. *)
Definition validate_entry (field : string) (i : nat) (e : PermissionEntry) : list FieldError :=
  check (String.eqb (pe_Permission e) "")
    (Required (NewPath ["spec"; field] ++ [Index i] ++ [Child "permission"]) "permission is required") ++
  check (String.eqb (pe_On e) "")
    (Required (NewPath ["spec"; field] ++ [Index i] ++ [Child "on"]) "on is required").
Definition validatePermission (r : Permission) : option AdmissionError := aggregate (
  check (String.eqb (perm_UserName (o_spec r)) "")
    (Required (NewPath ["spec"; "userName"]) "userName is required") ++
  check (String.eqb (perm_DatabaseName (o_spec r)) "")
    (Required (NewPath ["spec"; "databaseName"]) "databaseName is required") ++
  server_required (perm_Server (o_spec r)) ++
  concat (imap (validate_entry "grants") (perm_Grants (o_spec r))) ++
  concat (imap (validate_entry "denies") (perm_Denies (o_spec r)))).

#[export] Instance webhook : Webhook KPermission := {
  Default r :=
    let s := o_spec r in
    with_spec (mkPermissionSpec (default_server (perm_Server s)) (perm_DatabaseName s)
      (perm_UserName s) (perm_Grants s) (perm_Denies s)) r;
  ValidateCreate r := ([], validatePermission r);
  ValidateUpdate r old := with_old KPermission "Permission" old (fun oldPerm =>
    let s := o_spec r in let o := o_spec oldPerm in
    update_or_validate (
      check (negb (String.eqb (perm_UserName s) (perm_UserName o)))
        (Forbidden (NewPath ["spec"; "userName"]) "userName is immutable after creation") ++
      check (negb (String.eqb (perm_DatabaseName s) (perm_DatabaseName o)))
        (Forbidden (NewPath ["spec"; "databaseName"]) "databaseName is immutable after creation") ++
      server_immutable (perm_Server s) (perm_Server o))
    (validatePermission r));
  ValidateDelete _ := ([], None)
}.

Definition entry_given (e : PermissionEntry) : Prop := pe_Permission e <> "" /\ pe_On e <> "".
Definition well_formed (r : Permission) : Prop :=
  perm_UserName (o_spec r) <> "" /\ perm_DatabaseName (o_spec r) <> "" /\
  server_given (perm_Server (o_spec r)) /\
  Forall entry_given (perm_Grants (o_spec r)) /\ Forall entry_given (perm_Denies (o_spec r)).
Definition same (n o : Permission) : Prop :=
  perm_UserName (o_spec n) = perm_UserName (o_spec o) /\
  perm_DatabaseName (o_spec n) = perm_DatabaseName (o_spec o) /\
  same_server (perm_Server (o_spec n)) (perm_Server (o_spec o)).

Lemma entries_nil (f : nat -> PermissionEntry -> list FieldError) es :
  (forall i e, f i e = [] <-> entry_given e) -> concat (imap f es) = [] <-> Forall entry_given es.
Proof.
  intros Hf. revert f Hf. induction es as [|e es IH]; intros f Hf; cbn; [done|].
  rewrite app_nil, Hf, Forall_cons, IH; [done|]. intros. apply Hf.
Qed.
Lemma validate_entry_nil field i e : validate_entry field i e = [] <-> entry_given e.
Proof. unfold validate_entry, entry_given. by errors_nil. Qed.
Lemma permission_validate_none r : validatePermission r = None <-> well_formed r.
Proof.
  unfold validatePermission, well_formed. errors_nil.
  by rewrite !entries_nil by apply validate_entry_nil.
Qed.
#[export] Instance same_preorder : PreOrder same.
Proof. unfold same. split; [done|]. intros x y z (?&?&?) (?&?&?). split_and!; by etrans. Qed.
#[export] Instance contract : WebhookContract KPermission.
Proof.
  refine {| valid := well_formed; fixed := same; kept := well_formed |}; try done.
  - intros r. cbn. by rewrite default_server_idem.
  - apply permission_validate_none.
  - by_update using permission_validate_none. unfold same. tauto.
  - by_with_old.
Defined.
End PermissionWebhook.
