(* ===== verification/BackupWebhooks.v ===== *)
(** * Webhooks of the backup, restore and failover kinds

    backup_webhook.go, restore_webhook.go, agfailover_webhook.go and
    scheduledbackup_webhook.go. The one-shot kinds only compare the fields they
    fix on an update and do not validate again, so less is kept of a stored
    object than was valid when it was created ([kept] and [valid]). *)
From S2P Require Import Prelude Types Admission ObjectWebhooks ScheduledBackupController.

(** [len(allErrs) > 0] is the only test of an update of the one-shot kinds. *)
Tactic Notation "by_update_only" :=
  let H := fresh "Hup" in
  intros n o Hkept H; apply with_old_accepted in H; cbn beta iota zeta in H; errors_nil in H.

(** ** backup_webhook.go *)
Module BackupWebhook.
Definition validateBackup (r : Backup) : option AdmissionError := aggregate (
  check (String.eqb (bak_DatabaseName (o_spec r)) "")
    (Required (NewPath ["spec"; "databaseName"]) "databaseName is required") ++
  check (String.eqb (bak_Destination (o_spec r)) "")
    (Required (NewPath ["spec"; "destination"]) "destination is required") ++
  server_required (bak_Server (o_spec r))).

#[export] Instance webhook : Webhook KBackup := {
  Default r :=
    let s := o_spec r in
    with_spec (mkBackupSpec (default_server (bak_Server s)) (bak_DatabaseName s)
      (if String.eqb (bak_Type s) "" then BackupTypeFull else bak_Type s)
      (bak_Destination s) (or_default false (bak_Compression s))) r;
  ValidateCreate r := ([], validateBackup r);
  ValidateUpdate r old := with_old KBackup "Backup" old (fun oldBackup =>
    let s := o_spec r in let o := o_spec oldBackup in
    aggregate (
      check (negb (String.eqb (bak_DatabaseName s) (bak_DatabaseName o)))
        (Forbidden (NewPath ["spec"; "databaseName"]) "spec is immutable after creation") ++
      check (negb (String.eqb (bak_Destination s) (bak_Destination o)))
        (Forbidden (NewPath ["spec"; "destination"]) "spec is immutable after creation") ++
      check (negb (String.eqb (bak_Type s) (bak_Type o)))
        (Forbidden (NewPath ["spec"; "type"]) "spec is immutable after creation") ++
      check (negb (String.eqb (Host (bak_Server s)) (Host (bak_Server o))))
        (Forbidden (NewPath ["spec"; "server"; "host"]) "spec is immutable after creation")));
  ValidateDelete _ := ([], None)
}.

Definition target_given (r : Backup) : Prop :=
  bak_DatabaseName (o_spec r) <> "" /\ bak_Destination (o_spec r) <> "" /\
  Host (bak_Server (o_spec r)) <> "".
Definition well_formed (r : Backup) : Prop :=
  target_given r /\ sec_Name (CredentialsSecret (bak_Server (o_spec r))) <> "".
Definition same (n o : Backup) : Prop :=
  bak_DatabaseName (o_spec n) = bak_DatabaseName (o_spec o) /\
  bak_Destination (o_spec n) = bak_Destination (o_spec o) /\
  bak_Type (o_spec n) = bak_Type (o_spec o) /\
  Host (bak_Server (o_spec n)) = Host (bak_Server (o_spec o)).

Lemma backup_validate_none r : validateBackup r = None <-> well_formed r.
Proof. unfold validateBackup, well_formed, target_given. errors_nil. unfold server_given. tauto. Qed.
#[export] Instance same_preorder : PreOrder same.
Proof. unfold same. split; [done|]. intros x y z (?&?&?&?) (?&?&?&?). split_and!; by etrans. Qed.
#[export] Instance contract : WebhookContract KBackup.
Proof.
  refine {| valid := well_formed; fixed := same; kept := target_given |}; try done.
  - intros r. cbn. rewrite or_default_idem, default_server_idem.
    by destruct (String.eqb (bak_Type (o_spec r)) "") eqn:E; cbn; rewrite ?E.
  - apply backup_validate_none.
  - by intros o [].
  - by_update_only. unfold same, target_given in *. destruct Hup as (-> & -> & -> & ->). tauto.
  - by_with_old.
Defined.
End BackupWebhook.

(** ** restore_webhook.go *)
Module RestoreWebhook.
Definition validateRestore (r : Restore) : option AdmissionError := aggregate (
  check (String.eqb (rst_DatabaseName (o_spec r)) "")
    (Required (NewPath ["spec"; "databaseName"]) "databaseName is required") ++
  check (String.eqb (rst_Source (o_spec r)) "")
    (Required (NewPath ["spec"; "source"]) "source is required") ++
  server_required (rst_Server (o_spec r))).

#[export] Instance webhook : Webhook KRestore := {
  Default r :=
    let s := o_spec r in
    with_spec (mkRestoreSpec (default_server (rst_Server s)) (rst_DatabaseName s) (rst_Source s)
      (rst_StopAt s) (rst_LogSource s) (rst_WithMove s)) r;
  ValidateCreate r := ([], validateRestore r);
  ValidateUpdate r old := with_old KRestore "Restore" old (fun oldRestore =>
    let s := o_spec r in let o := o_spec oldRestore in
    aggregate (
      check (negb (String.eqb (rst_DatabaseName s) (rst_DatabaseName o)))
        (Forbidden (NewPath ["spec"; "databaseName"]) "spec is immutable after creation") ++
      check (negb (String.eqb (rst_Source s) (rst_Source o)))
        (Forbidden (NewPath ["spec"; "source"]) "spec is immutable after creation") ++
      check (negb (String.eqb (Host (rst_Server s)) (Host (rst_Server o))))
        (Forbidden (NewPath ["spec"; "server"; "host"]) "spec is immutable after creation")));
  ValidateDelete _ := ([], None)
}.

Definition target_given (r : Restore) : Prop :=
  rst_DatabaseName (o_spec r) <> "" /\ rst_Source (o_spec r) <> "" /\
  Host (rst_Server (o_spec r)) <> "".
Definition well_formed (r : Restore) : Prop :=
  target_given r /\ sec_Name (CredentialsSecret (rst_Server (o_spec r))) <> "".
Definition same (n o : Restore) : Prop :=
  rst_DatabaseName (o_spec n) = rst_DatabaseName (o_spec o) /\
  rst_Source (o_spec n) = rst_Source (o_spec o) /\
  Host (rst_Server (o_spec n)) = Host (rst_Server (o_spec o)).

Lemma restore_validate_none r : validateRestore r = None <-> well_formed r.
Proof. unfold validateRestore, well_formed, target_given. errors_nil. unfold server_given. tauto. Qed.
#[export] Instance same_preorder : PreOrder same.
Proof. unfold same. split; [done|]. intros x y z (?&?&?) (?&?&?). split_and!; by etrans. Qed.
#[export] Instance contract : WebhookContract KRestore.
Proof.
  refine {| valid := well_formed; fixed := same; kept := target_given |}; try done.
  - intros r. cbn. by rewrite default_server_idem.
  - apply restore_validate_none.
  - by intros o [].
  - by_update_only. unfold same, target_given in *. destruct Hup as (-> & -> & ->). tauto.
  - by_with_old.
Defined.
End RestoreWebhook.

(** ** agfailover_webhook.go *)
Module AgFailoverWebhook.
Definition boolValue (b : option bool) : bool := match b with None => false | Some b => b end.
Definition validateAGFailover (r : AGFailover) : option AdmissionError := aggregate (
  check (String.eqb (fo_AGName (o_spec r)) "")
    (Required (NewPath ["spec"; "agName"]) "agName is required") ++
  check (String.eqb (fo_TargetReplica (o_spec r)) "")
    (Required (NewPath ["spec"; "targetReplica"]) "targetReplica is required") ++
  server_required (fo_Server (o_spec r)) ++
  (* force=true requires the confirm-data-loss annotation *)
  match fo_Force (o_spec r) with
  | Some true =>
      check (negb (String.eqb (default "" (Annotations (o_meta r) !! ConfirmDataLossAnnotation)) "yes"))
        (Required (NewPath ["metadata"; "annotations"; ConfirmDataLossAnnotation])
          ("force failover requires annotation mssql.popul.io/confirm-data-loss: " +:+
           String "034" ("yes" +:+ String "034" " to acknowledge potential data loss")))
  | _ => []
  end).

#[export] Instance webhook : Webhook KAGFailover := {
  Default r :=
    let s := o_spec r in
    with_spec (mkAGFailoverSpec (fo_AGName s) (fo_TargetReplica s) (default_server (fo_Server s))
      (or_default false (fo_Force s))) r;
  ValidateCreate r := ([], validateAGFailover r);
  ValidateUpdate r old := with_old KAGFailover "AGFailover" old (fun oldFO =>
    let s := o_spec r in let o := o_spec oldFO in
    aggregate (
      check (negb (String.eqb (fo_AGName s) (fo_AGName o)))
        (Forbidden (NewPath ["spec"; "agName"]) "agName is immutable after creation") ++
      check (negb (String.eqb (fo_TargetReplica s) (fo_TargetReplica o)))
        (Forbidden (NewPath ["spec"; "targetReplica"]) "targetReplica is immutable after creation") ++
      check (negb (String.eqb (Host (fo_Server s)) (Host (fo_Server o))))
        (Forbidden (NewPath ["spec"; "server"; "host"]) "server host is immutable after creation") ++
      check (negb (Bool.eqb (boolValue (fo_Force s)) (boolValue (fo_Force o))))
        (Forbidden (NewPath ["spec"; "force"]) "force is immutable after creation")));
  ValidateDelete _ := ([], None)
}.

Definition target_given (r : AGFailover) : Prop :=
  fo_AGName (o_spec r) <> "" /\ fo_TargetReplica (o_spec r) <> "" /\
  Host (fo_Server (o_spec r)) <> "".
Definition loss_confirmed (r : AGFailover) : Prop :=
  fo_Force (o_spec r) = Some true -> Annotations (o_meta r) !! ConfirmDataLossAnnotation = Some "yes".
Definition well_formed (r : AGFailover) : Prop :=
  target_given r /\ sec_Name (CredentialsSecret (fo_Server (o_spec r))) <> "" /\ loss_confirmed r.
Definition same (n o : AGFailover) : Prop :=
  fo_AGName (o_spec n) = fo_AGName (o_spec o) /\
  fo_TargetReplica (o_spec n) = fo_TargetReplica (o_spec o) /\
  Host (fo_Server (o_spec n)) = Host (fo_Server (o_spec o)) /\
  (fo_Force (o_spec n) = Some true <-> fo_Force (o_spec o) = Some true).

Lemma annotation_yes (x : option string) :
  negb (String.eqb (default "" x) "yes") = false <-> x = Some "yes".
Proof. destruct x as [x|]; [|done]. rewrite negb_eqb_false. cbn. naive_solver. Qed.
Lemma failover_validate_none r : validateAGFailover r = None <-> well_formed r.
Proof.
  unfold validateAGFailover, well_formed, target_given, loss_confirmed. errors_nil.
  unfold server_given.
  destruct (fo_Force (o_spec r)) as [[]|]; [|naive_solver|naive_solver].
  rewrite check_nil, annotation_yes. naive_solver.
Qed.
Lemma same_force a b :
  negb (Bool.eqb (boolValue a) (boolValue b)) = false -> (a = Some true <-> b = Some true).
Proof. by destruct a as [[]|], b as [[]|]. Qed.
#[export] Instance same_preorder : PreOrder same.
Proof. unfold same. split; [done|]. intros x y z (?&?&?&?) (?&?&?&?). split_and!; by etrans. Qed.
#[export] Instance contract : WebhookContract KAGFailover.
Proof.
  refine {| valid := well_formed; fixed := same; kept := target_given |}; try done.
  - intros r. cbn. by rewrite or_default_idem, default_server_idem.
  - apply failover_validate_none.
  - by intros o [].
  - by_update_only. unfold same, target_given in *. destruct Hup as (-> & -> & -> & H%same_force). tauto.
  - by_with_old.
Defined.
End AgFailoverWebhook.

(** ** scheduledbackup_webhook.go *)
Module ScheduledBackupWebhook.
Section Schedule.
Context `{Cron}.

Definition validate (r : ScheduledBackup) : option AdmissionError := aggregate (
  check (String.eqb (sb_DatabaseName (o_spec r)) "")
    (Required (NewPath ["spec"; "databaseName"]) "must be specified") ++
  (if String.eqb (sb_Schedule (o_spec r)) "" then
     [Required (NewPath ["spec"; "schedule"]) "must be specified"]
   else match cron_Parse (sb_Schedule (o_spec r)) with
        | inr err => [Invalid (NewPath ["spec"; "schedule"]) (StringValue (sb_Schedule (o_spec r)))
                        (Sprintf "invalid cron expression: %v" [err_text err])]
        | inl _ => []
        end) ++
  check (String.eqb (sb_DestinationTemplate (o_spec r)) "")
    (Required (NewPath ["spec"; "destinationTemplate"]) "must be specified") ++
  check (String.eqb (Host (sb_Server (o_spec r))) "" &&
         bool_decide (SQLServerRef (sb_Server (o_spec r)) = None))
    (Required (NewPath ["spec"; "server"]) "must specify either server.host or server.sqlServerRef")).

#[export] Instance webhook : Webhook KScheduledBackup := {
  Default r :=
    let s := o_spec r in
    with_spec (mkScheduledBackupSpec (default_server (sb_Server s)) (sb_DatabaseName s)
      (sb_Schedule s) (if String.eqb (sb_Type s) "" then BackupTypeFull else sb_Type s)
      (or_default false (sb_Compression s)) (sb_DestinationTemplate s) (sb_Retention s)
      (or_default false (sb_Suspend s))) r;
  ValidateCreate r := ([], validate r);
  ValidateUpdate r old := with_old KScheduledBackup "ScheduledBackup" old (fun oldSB =>
    let allErrs :=
      check (negb (String.eqb (sb_DatabaseName (o_spec r)) (sb_DatabaseName (o_spec oldSB))))
        (Forbidden (NewPath ["spec"; "databaseName"]) "databaseName is immutable") in
    match validate r with
    | Some err => Some err
    | None => aggregate allErrs
    end);
  ValidateDelete _ := ([], None)
}.

(** The schedule parses, and there is a server to reach. *)
Definition well_formed (r : ScheduledBackup) : Prop :=
  sb_DatabaseName (o_spec r) <> "" /\
  (sb_Schedule (o_spec r) <> "" /\ exists sched, cron_Parse (sb_Schedule (o_spec r)) = inl sched) /\
  sb_DestinationTemplate (o_spec r) <> "" /\
  (Host (sb_Server (o_spec r)) <> "" \/ exists ref, SQLServerRef (sb_Server (o_spec r)) = Some ref).
Definition same (n o : ScheduledBackup) : Prop :=
  sb_DatabaseName (o_spec n) = sb_DatabaseName (o_spec o).

Lemma scheduled_validate_none r : validate r = None <-> well_formed r.
Proof.
  unfold validate, well_formed. errors_nil. rewrite andb_false_iff, eqb_empty_false.
  apply ZifyClasses.and_morph; [done|]. apply ZifyClasses.and_morph.
  - destruct (String.eqb_spec (sb_Schedule (o_spec r)) ""); [naive_solver|].
    destruct (cron_Parse _); naive_solver.
  - apply ZifyClasses.and_morph; [done|]. apply ZifyClasses.or_morph; [done|].
    rewrite bool_decide_eq_false. destruct (SQLServerRef _); naive_solver.
Qed.
#[export] Instance same_preorder : PreOrder same.
Proof. unfold same. split; [done|]. intros x y z ??; by etrans. Qed.
#[export] Instance contract : WebhookContract KScheduledBackup.
Proof.
  refine {| valid := well_formed; fixed := same; kept := well_formed |}; try done.
  - intros r. cbn. rewrite !or_default_idem, default_server_idem.
    by destruct (String.eqb (sb_Type (o_spec r)) "") eqn:E; cbn; rewrite ?E.
  - apply scheduled_validate_none.
  - intros n o _ Ha%with_old_accepted. cbn beta iota zeta in Ha.
    destruct (validate n) eqn:Hv; [done|]. errors_nil in Ha. by rewrite <- scheduled_validate_none.
  - by_with_old.
Defined.
End Schedule.
End ScheduledBackupWebhook.
