(* ===== verification/AgWebhook.v ===== *)
(** * Webhook of the AvailabilityGroup (api/v1alpha1/availabilitygroup_webhook.go)

    The loops over the replicas and the databases carry the set of names seen
    so far (the maps [serverNames] and [dbNames]). *)
From S2P Require Import Prelude Types Admission ObjectWebhooks.

Module AgWebhook.
(** ** Defaulting *)
Definition string_default (d s : string) : string := if String.eqb s "" then d else s.
Definition default_replica (r : AGReplicaSpec) : AGReplicaSpec :=
  mkAGReplicaSpec (rep_ServerName r) (rep_EndpointURL r)
    (string_default AvailabilityModeSynchronous (rep_AvailabilityMode r))
    (string_default FailoverModeAutomatic (rep_FailoverMode r))
    (string_default SeedingModeAutomatic (rep_SeedingMode r))
    (string_default SecondaryRoleNo (rep_SecondaryRole r))
    (default_server (rep_Server r)).
Definition default_listener (l : AGListenerSpec) : AGListenerSpec :=
  mkAGListenerSpec (lis_Name l) (or_default 1433 (lis_Port l)) (lis_IPAddresses l).
Definition default_spec (s : AvailabilityGroupSpec) : AvailabilityGroupSpec :=
  mkAvailabilityGroupSpec (ag_AGName s) (map default_replica (ag_Replicas s)) (ag_Databases s)
    (default_listener <$> ag_Listener s) (or_default "Secondary" (ag_AutomatedBackupPreference s))
    (or_default true (ag_DBFailover s)) (ag_ClusterType s) (ag_AutoFailover s)
    (ag_HealthCheckInterval s) (ag_FailoverCooldown s).

(** ** Validation *)
Definition replica_path (i : nat) : Path := NewPath ["spec"; "replicas"] ++ [Index i].
Definition validate_replica (i : nat) (serverNames : gset string) (replica : AGReplicaSpec)
    : list FieldError :=
  check (String.eqb (rep_ServerName replica) "")
    (Required (replica_path i ++ NewPath ["serverName"]) "serverName is required") ++
  check (bool_decide (rep_ServerName replica ∈ serverNames))
    (Duplicate (replica_path i ++ NewPath ["serverName"]) (rep_ServerName replica)) ++
  check (String.eqb (rep_EndpointURL replica) "")
    (Required (replica_path i ++ NewPath ["endpointURL"]) "endpointURL is required") ++
  check (String.eqb (Host (rep_Server replica)) "")
    (Required (replica_path i ++ NewPath ["server"; "host"]) "server host is required") ++
  check (String.eqb (sec_Name (CredentialsSecret (rep_Server replica))) "")
    (Required (replica_path i ++ NewPath ["server"; "credentialsSecret"; "name"])
      "credentialsSecret name is required") ++
  (* Automatic failover requires synchronous commit *)
  check (String.eqb (rep_FailoverMode replica) FailoverModeAutomatic &&
         String.eqb (rep_AvailabilityMode replica) AvailabilityModeAsynchronous)
    (Invalid (replica_path i ++ NewPath ["failoverMode"]) (StringValue (rep_FailoverMode replica))
      "Automatic failover requires SynchronousCommit availability mode").
Fixpoint validate_replicas (i : nat) (serverNames : gset string) (rs : list AGReplicaSpec)
    : list FieldError :=
  match rs with
  | [] => []
  | r :: rs' =>
      validate_replica i serverNames r ++
      validate_replicas (S i) ({[rep_ServerName r]} ∪ serverNames) rs'
  end.

Fixpoint validate_databases (i : nat) (dbNames : gset string) (dbs : list AGDatabaseSpec)
    : list FieldError :=
  match dbs with
  | [] => []
  | db :: dbs' =>
      let path := NewPath ["spec"; "databases"] ++ [Index i] ++ NewPath ["name"] in
      check (String.eqb (agdb_Name db) "") (Required path "database name is required") ++
      check (bool_decide (agdb_Name db ∈ dbNames)) (Duplicate path (agdb_Name db)) ++
      validate_databases (S i) ({[agdb_Name db]} ∪ dbNames) dbs'
  end.

Definition validateAG (r : AvailabilityGroup) : option AdmissionError :=
  let s := o_spec r in
  aggregate (
    check (String.eqb (ag_AGName s) "") (Required (NewPath ["spec"; "agName"]) "agName is required") ++
    check (length (ag_Replicas s) <? 2)%nat
      (Invalid (NewPath ["spec"; "replicas"]) (IntValue (Z.of_nat (length (ag_Replicas s))))
        "at least 2 replicas are required") ++
    validate_replicas 0 ∅ (ag_Replicas s) ++
    validate_databases 0 ∅ (ag_Databases s) ++
    match ag_Listener s with
    | Some l => check (String.eqb (lis_Name l) "")
                  (Required (NewPath ["spec"; "listener"; "name"]) "listener name is required")
    | None => []
    end).

#[export] Instance webhook : Webhook KAvailabilityGroup := {
  Default r := with_spec (default_spec (o_spec r)) r;
  ValidateCreate r := ([], validateAG r);
  ValidateUpdate r old := with_old KAvailabilityGroup "AvailabilityGroup" old (fun oldAG =>
    update_or_validate (
      check (negb (String.eqb (ag_AGName (o_spec r)) (ag_AGName (o_spec oldAG))))
        (Forbidden (NewPath ["spec"; "agName"]) "agName is immutable after creation"))
    (validateAG r));
  ValidateDelete _ := ([], None)
}.

(** ** What is admitted *)
Definition replica_given (r : AGReplicaSpec) : Prop :=
  rep_ServerName r <> "" /\ rep_EndpointURL r <> "" /\ server_given (rep_Server r) /\
  (rep_FailoverMode r = FailoverModeAutomatic ->
   rep_AvailabilityMode r <> AvailabilityModeAsynchronous).
Definition server_names (r : AvailabilityGroup) : list string :=
  map rep_ServerName (ag_Replicas (o_spec r)).
Definition database_names (r : AvailabilityGroup) : list string :=
  map agdb_Name (ag_Databases (o_spec r)).
Definition well_formed (r : AvailabilityGroup) : Prop :=
  ag_AGName (o_spec r) <> "" /\ (2 <= length (ag_Replicas (o_spec r)))%nat /\
  Forall replica_given (ag_Replicas (o_spec r)) /\ NoDup (server_names r) /\
  Forall (fun db => agdb_Name db <> "") (ag_Databases (o_spec r)) /\ NoDup (database_names r) /\
  (forall l, ag_Listener (o_spec r) = Some l -> lis_Name l <> "").
Definition same (n o : AvailabilityGroup) : Prop := ag_AGName (o_spec n) = ag_AGName (o_spec o).

(** *** The loops *)
Lemma fresh_cons (x : string) (seen : gset string) (l : list string) :
  (NoDup (x :: l) /\ (forall y, y ∈ x :: l -> y ∉ seen)) <->
  x ∉ seen /\ NoDup l /\ (forall y, y ∈ l -> y ∉ {[x]} ∪ seen).
Proof.
  rewrite NoDup_cons. split.
  - intros [[Hx Hl] Hs]. split_and!; [set_solver|done|]. intros y Hy.
    assert (y <> x) by (intros ->; done). set_solver.
  - intros (Hx & Hl & Hs). split_and!; [intros Hin; apply (Hs x Hin); set_solver|done|].
    intros y [->|Hy]%elem_of_cons; set_solver.
Qed.
Lemma validate_replica_nil i seen r :
  validate_replica i seen r = [] <-> replica_given r /\ rep_ServerName r ∉ seen.
Proof.
  unfold validate_replica, replica_given, server_given. errors_nil.
  rewrite bool_decide_eq_false, andb_false_iff, !eqb_empty_false.
  destruct (decide (rep_FailoverMode r = FailoverModeAutomatic)); naive_solver.
Qed.
Lemma validate_replicas_nil i seen rs :
  validate_replicas i seen rs = [] <->
  Forall replica_given rs /\
  (NoDup (map rep_ServerName rs) /\ forall y, y ∈ map rep_ServerName rs -> y ∉ seen).
Proof.
  revert i seen. induction rs as [|r rs IH]; intros i seen; cbn.
  - split; [|done]. intros _. split_and!; [done|apply NoDup_nil_2|set_solver].
  - rewrite app_nil, validate_replica_nil, IH, fresh_cons, Forall_cons. tauto.
Qed.
Lemma validate_databases_nil i seen dbs :
  validate_databases i seen dbs = [] <->
  Forall (fun db => agdb_Name db <> "") dbs /\
  (NoDup (map agdb_Name dbs) /\ forall y, y ∈ map agdb_Name dbs -> y ∉ seen).
Proof.
  revert i seen. induction dbs as [|db dbs IH]; intros i seen; cbn.
  - split; [|done]. intros _. split_and!; [done|apply NoDup_nil_2|set_solver].
  - rewrite !app_nil, !check_nil, eqb_empty_false, bool_decide_eq_false, IH, fresh_cons, Forall_cons.
    tauto.
Qed.

Lemma not_seen_empty (l : list string) : (forall y, y ∈ l -> y ∉ (∅ : gset string)) <-> True.
Proof. split; [done|]. set_solver. Qed.
Lemma listener_named (l : option AGListenerSpec) (e : FieldError) :
  match l with Some l => check (String.eqb (lis_Name l) "") e | None => [] end = [] <->
  (forall l', l = Some l' -> lis_Name l' <> "").
Proof.
  destruct l as [l|]; [|naive_solver]. rewrite check_nil, eqb_empty_false. naive_solver.
Qed.
Lemma ag_validate_none r : validateAG r = None <-> well_formed r.
Proof.
  unfold validateAG, well_formed, server_names, database_names.
  rewrite aggregate_none, !app_nil, !check_nil, eqb_empty_false, Nat.ltb_ge,
    validate_replicas_nil, validate_databases_nil, !not_seen_empty, listener_named. tauto.
Qed.

(** *** The contract *)
Lemma string_default_idem d s : string_default d (string_default d s) = string_default d s.
Proof. unfold string_default. destruct (String.eqb s "") eqn:E; [|by rewrite E]. by destruct (String.eqb d ""). Qed.
Lemma default_replica_idem r : default_replica (default_replica r) = default_replica r.
Proof. unfold default_replica; cbn. by rewrite !string_default_idem, default_server_idem. Qed.
Lemma ag_default_spec_idem s : default_spec (default_spec s) = default_spec s.
Proof.
  unfold default_spec; cbn. rewrite !or_default_idem, map_map. f_equal.
  - apply map_ext, default_replica_idem.
  - destruct (ag_Listener s) as [l|]; [|done]. cbn. unfold default_listener; cbn.
    by rewrite or_default_idem.
Qed.
#[export] Instance same_preorder : PreOrder same.
Proof. unfold same. split; [done|]. intros x y z ??; by etrans. Qed.
#[export] Instance contract : WebhookContract KAvailabilityGroup.
Proof.
  refine {| valid := well_formed; fixed := same; kept := well_formed |}; try done.
  - intros r. cbn. by rewrite ag_default_spec_idem.
  - apply ag_validate_none.
  - by_update using ag_validate_none. done.
  - by_with_old.
Defined.

(** *** What a submitted group must satisfy, before defaulting *)
Definition submitted_replica (r : AGReplicaSpec) : Prop :=
  rep_ServerName r <> "" /\ rep_EndpointURL r <> "" /\ server_given (rep_Server r) /\
  (rep_FailoverMode r = "" \/ rep_FailoverMode r = FailoverModeAutomatic ->
   rep_AvailabilityMode r <> AvailabilityModeAsynchronous).
Lemma default_replica_given r : replica_given (default_replica r) <-> submitted_replica r.
Proof.
  unfold replica_given, submitted_replica, default_replica; cbn.
  assert (Hf : string_default FailoverModeAutomatic (rep_FailoverMode r) = FailoverModeAutomatic <->
               rep_FailoverMode r = "" \/ rep_FailoverMode r = FailoverModeAutomatic)
    by (unfold string_default; destruct (String.eqb_spec (rep_FailoverMode r) ""); naive_solver).
  assert (Ha : string_default AvailabilityModeSynchronous (rep_AvailabilityMode r) =
               AvailabilityModeAsynchronous <-> rep_AvailabilityMode r = AvailabilityModeAsynchronous)
    by (unfold string_default; destruct (String.eqb_spec (rep_AvailabilityMode r) "") as [->|]; done).
  rewrite Hf. unfold not at 3. rewrite Ha. done.
Qed.
Lemma default_server_names r : server_names (Default r) = server_names r.
Proof. unfold server_names; cbn. by rewrite map_map. Qed.
Lemma default_listener_named (l : option AGListenerSpec) :
  (forall l', default_listener <$> l = Some l' -> lis_Name l' <> "") <->
  (forall l', l = Some l' -> lis_Name l' <> "").
Proof. destruct l as [l|]; cbn; [|done]. split; intros Hl l' [= <-]; [by apply (Hl _ eq_refl)|exact (Hl l eq_refl)]. Qed.

Definition submitted (r : AvailabilityGroup) : Prop :=
  ag_AGName (o_spec r) <> "" /\ (2 <= length (ag_Replicas (o_spec r)))%nat /\
  Forall submitted_replica (ag_Replicas (o_spec r)) /\ NoDup (server_names r) /\
  Forall (fun db => agdb_Name db <> "") (ag_Databases (o_spec r)) /\ NoDup (database_names r) /\
  (forall l, ag_Listener (o_spec r) = Some l -> lis_Name l <> "").
Lemma default_well_formed (r : AvailabilityGroup) : well_formed (Default r) <-> submitted r.
Proof.
  unfold well_formed, submitted. rewrite default_server_names. cbn.
  rewrite length_map, Forall_map, default_listener_named.
  by setoid_rewrite default_replica_given.
Qed.
Lemma accept_create_submitted (r : AvailabilityGroup) :
  accepted (ValidateCreate (Default r)) <-> submitted r.
Proof. etrans; [apply ag_validate_none|apply default_well_formed]. Qed.

(** C18: the webhook admits a new AvailabilityGroup, after defaulting it,
    exactly when it has a name, at least two replicas with distinct non-
    empty server names, an endpoint, a host and credentials each and no
    asynchronous commit unless the failover mode is given and not Automatic,
    distinct non-empty database names, and a name for its listener if it has
    one. *)
Theorem create_admits_well_formed (r : AvailabilityGroup) :
  accepted (ValidateCreate (Default r)) <->
  ag_AGName (o_spec r) <> "" /\ (2 <= length (ag_Replicas (o_spec r)))%nat /\
  Forall submitted_replica (ag_Replicas (o_spec r)) /\ NoDup (server_names r) /\
  Forall (fun db => agdb_Name db <> "") (ag_Databases (o_spec r)) /\ NoDup (database_names r) /\
  (forall l, ag_Listener (o_spec r) = Some l -> lis_Name l <> "").
Proof. apply accept_create_submitted. Qed.
End AgWebhook.
