(* ===== verification/SQLServerWebhook.v ===== *)
(** * Webhook of the SQLServer (api/v1alpha1/sqlserver_webhook.go)

    Defaulting of the connection, of a managed instance, and in cluster mode of
    its certificates and its availability group; validation of the two modes
    (an external server, or an instance the operator runs). *)
From S2P Require Import Prelude Types Admission.

Module SQLServerWebhook.
(** ** Defaulting *)
Definition default_certificates (c : CertificateSpec) : CertificateSpec :=
  mkCertificateSpec (or_default CertificateModeSelfSigned (cert_Mode c)) (cert_IssuerRef c)
    (or_default "8760h" (cert_Duration c)) (or_default "720h" (cert_RenewBefore c)).
Definition default_managed_ag (name : string) (ag : ManagedAGSpec) : ManagedAGSpec :=
  mkManagedAGSpec (or_default (name +:+ "-ag") (mag_AGName ag))
    (or_default "SynchronousCommit" (mag_AvailabilityMode ag)) (or_default true (mag_AutoFailover ag))
    (or_default "10s" (mag_HealthCheckInterval ag)) (or_default "60s" (mag_FailoverCooldown ag)).
Definition empty_certificates : CertificateSpec := mkCertificateSpec None None None None.
Definition empty_managed_ag : ManagedAGSpec := mkManagedAGSpec None None None None None.
Definition replicas_of (i : InstanceSpec) : Z := default 1 (inst_Replicas i).
Definition default_instance (name : string) (i : InstanceSpec) : InstanceSpec :=
  let cluster := 1 <? replicas_of i in
  mkInstanceSpec (or_default "mcr.microsoft.com/mssql/server:2022-latest" (inst_Image i))
    (inst_SAPasswordSecret i) (inst_AcceptEULA i) (or_default "Developer" (inst_Edition i))
    (or_default 1 (inst_Replicas i))
    (or_default "10Gi" (inst_StorageSize i)) (inst_StorageClassName i) (inst_Resources i)
    (or_default ServiceTypeClusterIP (inst_ServiceType i)) (inst_Scheduling i) (inst_Config i)
    (if cluster then Some (default_certificates (default empty_certificates (inst_Certificates i)))
     else inst_Certificates i)
    (if cluster then Some (default_managed_ag name (default empty_managed_ag (inst_AvailabilityGroup i)))
     else inst_AvailabilityGroup i).
Definition default_spec (name : string) (s : SQLServerSpec) : SQLServerSpec :=
  mkSQLServerSpec (srv_Host s) (or_default 1433 (srv_Port s))
    (if String.eqb (srv_AuthMethod s) "" then AuthSqlLogin else srv_AuthMethod s)
    (srv_CredentialsSecret s) (srv_AzureAD s) (or_default false (srv_TLS s))
    (or_default 10 (srv_MaxConnections s)) (or_default 30 (srv_ConnectionTimeout s))
    (default_instance name <$> srv_Instance s).

(** ** Validation *)
Definition inst_path (names : list string) : Path := NewPath (["spec"; "instance"] ++ names).
Definition validate_managed (s : SQLServerSpec) (i : InstanceSpec) : list FieldError :=
  check (negb (String.eqb (srv_Host s) ""))
    (Forbidden (NewPath ["spec"; "host"])
      "host must not be set when instance is configured (managed mode)") ++
  check (negb (inst_AcceptEULA i))
    (Required (inst_path ["acceptEULA"]) "acceptEULA must be true to deploy SQL Server") ++
  check (String.eqb (sec_Name (inst_SAPasswordSecret i)) "")
    (Required (inst_path ["saPasswordSecret"; "name"]) "saPasswordSecret is required") ++
  check ((1 <? replicas_of i) && bool_decide (inst_Edition i = Some "Express"))
    (Forbidden (inst_path ["edition"]) "Express edition does not support Availability Groups") ++
  match inst_Certificates i with
  | Some c =>
      check ((1 <? replicas_of i) && bool_decide (cert_Mode c = Some CertificateModeCertManager) &&
             bool_decide (cert_IssuerRef c = None))
        (Required (inst_path ["certificates"; "issuerRef"])
          "issuerRef is required when certificate mode is CertManager")
  | None => []
  end.
Definition validate_external (s : SQLServerSpec) : list FieldError :=
  check (String.eqb (srv_Host s) "")
    (Required (NewPath ["spec"; "host"]) "host is required when instance is not set") ++
  (if String.eqb (srv_AuthMethod s) AuthSqlLogin then
     check (bool_decide (srv_CredentialsSecret s = None))
       (Required (NewPath ["spec"; "credentialsSecret"])
         "credentialsSecret is required when authMethod is SqlLogin")
   else if String.eqb (srv_AuthMethod s) AuthAzureAD then
     check (bool_decide (srv_AzureAD s = None))
       (Required (NewPath ["spec"; "azureAD"]) "azureAD is required when authMethod is AzureAD")
   else []).
Definition validate (r : SQLServer) : option AdmissionError :=
  let s := o_spec r in
  aggregate match srv_Instance s with
            | Some i => validate_managed s i
            | None => validate_external s
            end.

Definition validate_change (s o : SQLServerSpec) : list FieldError :=
  check (bool_decide (srv_Instance s = None) && negb (String.eqb (srv_Host s) (srv_Host o)))
    (Forbidden (NewPath ["spec"; "host"]) "host is immutable after creation") ++
  check (negb (Bool.eqb (bool_decide (srv_Instance s = None)) (bool_decide (srv_Instance o = None))))
    (Forbidden (NewPath ["spec"; "instance"])
      "cannot switch between managed and external mode after creation") ++
  match srv_Instance s, srv_Instance o with
  | Some i, Some j =>
      check (negb (stringPtrEqual (inst_StorageClassName i) (inst_StorageClassName j)))
        (Forbidden (inst_path ["storageClassName"]) "storageClassName is immutable after creation") ++
      check (negb (Bool.eqb (1 <? replicas_of j) (1 <? replicas_of i)))
        (Forbidden (inst_path ["replicas"])
          "cannot switch between standalone (1) and cluster (2+) mode after creation")
  | _, _ => []
  end.

#[export] Instance webhook : Webhook KSQLServer := {
  Default r := with_spec (default_spec (Name (o_meta r)) (o_spec r)) r;
  ValidateCreate r := ([], validate r);
  ValidateUpdate r old := with_old KSQLServer "SQLServer" old (fun oldSrv =>
    let allErrs := validate_change (o_spec r) (o_spec oldSrv) in
    match validate r with
    | Some err => Some err
    | None => aggregate allErrs
    end);
  ValidateDelete _ := ([], None)
}.

(** ** What is admitted *)
Definition managed_given (s : SQLServerSpec) (i : InstanceSpec) : Prop :=
  srv_Host s = "" /\ inst_AcceptEULA i = true /\ sec_Name (inst_SAPasswordSecret i) <> "" /\
  (1 < replicas_of i ->
   inst_Edition i <> Some "Express" /\
   forall c, inst_Certificates i = Some c -> cert_Mode c = Some CertificateModeCertManager ->
     exists ref, cert_IssuerRef c = Some ref).
Definition external_given (s : SQLServerSpec) : Prop :=
  srv_Host s <> "" /\
  (srv_AuthMethod s = AuthSqlLogin -> exists ref, srv_CredentialsSecret s = Some ref) /\
  (srv_AuthMethod s = AuthAzureAD -> exists aad, srv_AzureAD s = Some aad).
Definition well_formed (r : SQLServer) : Prop :=
  match srv_Instance (o_spec r) with
  | Some i => managed_given (o_spec r) i
  | None => external_given (o_spec r)
  end.
(** Neither the mode nor, within it, the host, the storage class or the step
    from one replica to several can change. *)
Definition same (n o : SQLServer) : Prop :=
  match srv_Instance (o_spec n), srv_Instance (o_spec o) with
  | Some i, Some j =>
      inst_StorageClassName i = inst_StorageClassName j /\ (1 < replicas_of i <-> 1 < replicas_of j)
  | None, None => srv_Host (o_spec n) = srv_Host (o_spec o)
  | _, _ => False
  end.

Lemma is_none_false {A} (x : option A) : bool_decide (x = None) = false <-> exists y, x = Some y.
Proof. rewrite bool_decide_eq_false. destruct x; naive_solver. Qed.
Lemma validate_managed_nil s i : validate_managed s i = [] <-> managed_given s i.
Proof.
  unfold validate_managed, managed_given.
  rewrite !app_nil, !check_nil, negb_eqb_false, negb_false_iff, eqb_empty_false, andb_false_iff,
    Z.ltb_ge, bool_decide_eq_false.
  destruct (inst_Certificates i) as [c|].
  - rewrite check_nil, !andb_false_iff, is_none_false, Z.ltb_ge, bool_decide_eq_false.
    destruct (decide (cert_Mode c = Some CertificateModeCertManager)),
      (Z.le_gt_cases (replicas_of i) 1); naive_solver lia.
  - destruct (Z.le_gt_cases (replicas_of i) 1); naive_solver lia.
Qed.
Lemma validate_external_nil s : validate_external s = [] <-> external_given s.
Proof.
  unfold validate_external, external_given. rewrite app_nil, check_nil, eqb_empty_false.
  destruct (String.eqb_spec (srv_AuthMethod s) AuthSqlLogin) as [->|];
    [|destruct (String.eqb_spec (srv_AuthMethod s) AuthAzureAD) as [->|]];
    rewrite ?check_nil, ?is_none_false; naive_solver.
Qed.
Lemma server_validate_none r : validate r = None <-> well_formed r.
Proof.
  unfold validate, well_formed. rewrite aggregate_none.
  destruct (srv_Instance _); [apply validate_managed_nil|apply validate_external_nil].
Qed.
Lemma validate_change_nil n o : validate_change (o_spec n) (o_spec o) = [] <-> same n o.
Proof.
  unfold validate_change, same. rewrite !app_nil, !check_nil.
  destruct (srv_Instance (o_spec n)) as [i|], (srv_Instance (o_spec o)) as [j|]; cbn;
    rewrite ?app_nil, ?check_nil, ?negb_eqb_false, ?negb_stringPtr_false; [|naive_solver..].
  destruct (Z.ltb_spec 1 (replicas_of i)), (Z.ltb_spec 1 (replicas_of j)); cbn; naive_solver lia.
Qed.

(** *** The contract *)
#[export] Instance same_preorder : PreOrder same.
Proof.
  unfold same. split.
  - intros x. by destruct (srv_Instance _).
  - intros x y z. destruct (srv_Instance (o_spec x)), (srv_Instance (o_spec y)),
      (srv_Instance (o_spec z)); try done; [intros [-> ->] [-> ->]; done|by intros -> ->].
Qed.
Lemma default_instance_idem name i :
  default_instance name (default_instance name i) = default_instance name i.
Proof.
  unfold default_instance, replicas_of, default_certificates, default_managed_ag; cbn.
  rewrite !or_default_idem. f_equal; destruct (inst_Replicas i) as [n|]; cbn; try done;
    destruct (1 <? n); try done; cbn; by rewrite !or_default_idem.
Qed.
Lemma server_default_spec_idem name s : default_spec name (default_spec name s) = default_spec name s.
Proof.
  unfold default_spec; cbn. rewrite !or_default_idem. f_equal.
  - by destruct (String.eqb (srv_AuthMethod s) "") eqn:E; cbn; rewrite ?E.
  - destruct (srv_Instance s) as [i|]; cbn; [|done]. by rewrite default_instance_idem.
Qed.
#[export] Instance contract : WebhookContract KSQLServer.
Proof.
  refine {| valid := well_formed; fixed := same; kept := well_formed |}; try done.
  - intros r. cbn. by rewrite server_default_spec_idem.
  - apply server_validate_none.
  - intros n o _ Ha%with_old_accepted. cbn beta iota zeta in Ha.
    destruct (validate n) eqn:Hv; [done|].
    rewrite aggregate_none, validate_change_nil in Ha. by rewrite <- server_validate_none.
  - intros k' o n Hk; by apply with_old_other.
Defined.

(** *** Objects the controller can use as they are *)
Definition given {A} (p : option A) : Prop := exists x, p = Some x.
(** The pointers the controller dereferences. *)
Definition cluster_ready (i : InstanceSpec) : Prop :=
  inst_Edition i <> Some "Express" /\
  exists c ag mode,
    inst_Certificates i = Some c /\ cert_Mode c = Some mode /\ given (cert_Duration c) /\
    given (cert_RenewBefore c) /\
    (mode = CertificateModeCertManager -> given (cert_IssuerRef c)) /\
    inst_AvailabilityGroup i = Some ag /\ given (mag_AGName ag) /\
    given (mag_AvailabilityMode ag) /\ given (mag_AutoFailover ag) /\
    given (mag_HealthCheckInterval ag) /\ given (mag_FailoverCooldown ag).
Definition instance_ready (i : InstanceSpec) : Prop :=
  inst_AcceptEULA i = true /\ sec_Name (inst_SAPasswordSecret i) <> "" /\
  given (inst_Image i) /\ given (inst_Edition i) /\ given (inst_StorageSize i) /\
  given (inst_ServiceType i) /\
  exists n, inst_Replicas i = Some n /\ (1 < n -> cluster_ready i).
Lemma given_default {A} (d : A) p : given (or_default d p).
Proof. destruct p; by eexists. Qed.
#[local] Hint Resolve given_default : core.
Lemma default_instance_ready name s i :
  managed_given s (default_instance name i) -> instance_ready (default_instance name i).
Proof.
  intros (_ & Heula & Hsa & Hcluster). unfold instance_ready. split_and!; try done; cbn; auto.
  exists (replicas_of i). split; [unfold replicas_of; by destruct (inst_Replicas i)|].
  intros Hn. assert (Hr : replicas_of (default_instance name i) = replicas_of i)
    by (unfold replicas_of; cbn; by destruct (inst_Replicas i)).
  rewrite Hr in Hcluster. destruct (Hcluster Hn) as [He Hc]. split; [done|].
  cbn in Hc. apply Z.ltb_lt in Hn as Hb. rewrite Hb in Hc. specialize (Hc _ eq_refl).
  set (c := default empty_certificates (inst_Certificates i)) in *.
  set (ag := default empty_managed_ag (inst_AvailabilityGroup i)).
  destruct (given_default CertificateModeSelfSigned (cert_Mode c)) as [mode Hmode].
  exists (default_certificates c), (default_managed_ag name ag), mode. cbn. rewrite Hb.
  split_and!; auto. intros ->. by apply Hc.
Qed.

(** C17: an SQLServer reached by an admitted create and any number of admitted
    updates has every optional field the controller dereferences set (port,
    TLS, pool sizes; image, edition, storage, service type and replicas of a
    managed instance; in cluster mode an edition other than Express, and all
    fields of the certificates, with an issuer under CertManager, and of the
    availability group), and has kept the mode, and within it the host, the
    storage class and being a cluster or not, of its creation. *)
Theorem admitted_usable (srv0 srv : SQLServer) :
  admitted KSQLServer srv0 srv ->
  given (srv_Port (o_spec srv)) /\ given (srv_TLS (o_spec srv)) /\
  given (srv_MaxConnections (o_spec srv)) /\ given (srv_ConnectionTimeout (o_spec srv)) /\
  srv_AuthMethod (o_spec srv) <> "" /\
  match srv_Instance (o_spec srv), srv_Instance (o_spec srv0) with
  | Some i, Some j =>
      srv_Host (o_spec srv) = "" /\ instance_ready i /\
      inst_StorageClassName i = inst_StorageClassName j /\ (1 < replicas_of i <-> 1 < replicas_of j)
  | None, None => srv_Host (o_spec srv) <> "" /\ srv_Host (o_spec srv) = srv_Host (o_spec srv0)
  | _, _ => False
  end.
Proof.
  intros Hadm. destruct (admitted_keeps KSQLServer _ _ Hadm) as (Hsame & Hkept & _ & Hdef).
  rewrite <- Hdef in Hsame, Hkept |- *. clear Hadm Hdef. cbn in Hsame, Hkept |- *.
  unfold same in Hsame. unfold well_formed in Hkept. cbn in Hsame, Hkept.
  split_and!; auto; [by destruct (String.eqb_spec (srv_AuthMethod (o_spec srv)) "")|].
  destruct (srv_Instance (o_spec srv)) as [i|], (srv_Instance (o_spec srv0)) as [j|]; cbn in *; try done.
  - destruct Hsame as [Hsc Hr]. split_and!; try done; [apply Hkept|].
    by eapply default_instance_ready.
  - split; [apply Hkept|done].
Qed.
End SQLServerWebhook.
