(* ===== verification/Webhooks.v ===== *)
(** * The admission webhooks together

    Every kind's webhook by kind ([webhook_of]; kinds of Kubernetes itself have
    none, and any write of theirs is admitted), with its specification
    ([contract_of]), and what a history of admitted writes guarantees.

    These are the methods of the kinds: cmd/main.go hands the kinds it serves to
    controller-runtime, which is what decides whether and when the methods run. *)
From S2P Require Import Prelude Types Admission ObjectWebhooks BackupWebhooks AgWebhook SQLServerWebhook.
From S2P Require Import ScheduledBackupController.

Module Webhooks.
Definition no_webhook (k : Kind) : Webhook k := {|
  Default o := o;
  ValidateCreate _ := ([], None);
  ValidateUpdate _ old := with_old k (type_name k) old (fun _ => None);
  ValidateDelete _ := ([], None)
|}.
Definition no_contract (k : Kind) : @WebhookContract k (no_webhook k).
Proof.
  refine {| valid := fun _ => True; fixed := fun _ _ => True; kept := fun _ => True |}; try done.
  intros k' o n Hk; by apply with_old_other.
Defined.

Section Kinds.
Context `{Cron}.

Definition webhook_of (k : Kind) : Webhook k :=
  match k with
  | KDatabase => DatabaseWebhook.webhook
  | KLogin => LoginWebhook.webhook
  | KDatabaseUser => DatabaseUserWebhook.webhook
  | KSchema => SchemaWebhook.webhook
  | KPermission => PermissionWebhook.webhook
  | KBackup => BackupWebhook.webhook
  | KRestore => RestoreWebhook.webhook
  | KScheduledBackup => ScheduledBackupWebhook.webhook
  | KAGFailover => AgFailoverWebhook.webhook
  | KAvailabilityGroup => AgWebhook.webhook
  | KSQLServer => SQLServerWebhook.webhook
  | KSecret => no_webhook KSecret
  | KPod => no_webhook KPod
  | KLease => no_webhook KLease
  | KConfigMap => no_webhook KConfigMap
  | KService => no_webhook KService
  | KStatefulSet => no_webhook KStatefulSet
  end.
Definition contract_of (k : Kind) : @WebhookContract k (webhook_of k) :=
  match k with
  | KDatabase => DatabaseWebhook.contract
  | KLogin => LoginWebhook.contract
  | KDatabaseUser => DatabaseUserWebhook.contract
  | KSchema => SchemaWebhook.contract
  | KPermission => PermissionWebhook.contract
  | KBackup => BackupWebhook.contract
  | KRestore => RestoreWebhook.contract
  | KScheduledBackup => ScheduledBackupWebhook.contract
  | KAGFailover => AgFailoverWebhook.contract
  | KAvailabilityGroup => AgWebhook.contract
  | KSQLServer => SQLServerWebhook.contract
  | KSecret => no_contract KSecret
  | KPod => no_contract KPod
  | KLease => no_contract KLease
  | KConfigMap => no_contract KConfigMap
  | KService => no_contract KService
  | KStatefulSet => no_contract KStatefulSet
  end.

(** C19: for every kind, an object reached by an admitted create and any number
    of admitted updates has the immutable fields of its creation, was valid
    when created, still satisfies what the kind keeps (for the kinds
    validated on update, all of what a create must satisfy), and is its own
    default. *)
Theorem admitted_objects (k : Kind) (o0 o : obj k) :
  @admitted k (webhook_of k) o0 o ->
  @fixed k _ (contract_of k) o o0 /\ @kept k _ (contract_of k) o /\
  @valid k _ (contract_of k) o0 /\ @Default k (webhook_of k) o = o.
Proof. apply admitted_keeps. Qed.

(** The spec of a backup is not fully fixed: its credentials, port, TLS and
    compression can be changed, to an empty Secret name for one. *)
Example backup_credentials_removed (o : Backup) :
  let srv := bak_Server (o_spec o) in
  let n := with_spec (mkBackupSpec (mkServerRef (Host srv) (Port srv) (mkSecretRef "") (TLS srv)
             (SQLServerRef srv)) (bak_DatabaseName (o_spec o)) (bak_Type (o_spec o))
             (bak_Destination (o_spec o)) (bak_Compression (o_spec o))) o in
  accepted (@ValidateUpdate KBackup (webhook_of KBackup) n (as_object KBackup o)) /\
  ~ accepted (@ValidateCreate KBackup (webhook_of KBackup) n).
Proof.
  cbn. split.
  - unfold accepted. rewrite with_old_same. cbn. by rewrite !String.eqb_refl.
  - unfold accepted. cbn. rewrite BackupWebhook.backup_validate_none. by intros [_ Hc].
Qed.
End Kinds.
End Webhooks.
