(* ===== verification/WebhookWitnesses.v ===== *)
(** * Witnesses for the admission webhooks

    A managed SQLServer submitted with only the required fields, defaulted,
    admitted, and scaled from two replicas to three. *)
From S2P Require Import Prelude Types Admission SQLServerWebhook Webhooks.
From S2P Require Import ScheduledBackupController ScheduledWitnesses.

Definition bare_instance (replicas : Z) : InstanceSpec :=
  mkInstanceSpec None (mkSecretRef "sa") true None (Some replicas) None None None None
    (mkScheduling ∅ "" "" "") None None None.
Definition bare_server (replicas : Z) : SQLServer :=
  mkObject (new_meta "sql" "ns" ∅)
    (mkSQLServerSpec "" None "" None None None None None (Some (bare_instance replicas)))
    (mkStatus [] 0 (mkSQLServerStatus "" "" None "" None "" None)).

Lemma scaled_up :
  @admitted KSQLServer SQLServerWebhook.webhook
    (@Default KSQLServer SQLServerWebhook.webhook (bare_server 2))
    (@Default KSQLServer SQLServerWebhook.webhook (bare_server 3)).
Proof.
  apply (admitted_update KSQLServer _ (@Default KSQLServer SQLServerWebhook.webhook (bare_server 2))).
  - apply admitted_create. reflexivity.
  - unfold accepted. reflexivity.
Qed.

Lemma admitted_usable_witness :
  @admitted KSQLServer SQLServerWebhook.webhook
    (@Default KSQLServer SQLServerWebhook.webhook (bare_server 2))
    (@Default KSQLServer SQLServerWebhook.webhook (bare_server 3)) /\
  SQLServerWebhook.given (srv_MaxConnections (o_spec (@Default KSQLServer SQLServerWebhook.webhook (bare_server 3)))).
Proof.
  split; [exact scaled_up|].
  exact (proj1 (proj2 (proj2 (SQLServerWebhook.admitted_usable _ _ scaled_up)))).
Defined.

Lemma admitted_objects_witness :
  @admitted KSQLServer (Webhooks.webhook_of KSQLServer)
    (@Default KSQLServer SQLServerWebhook.webhook (bare_server 2))
    (@Default KSQLServer SQLServerWebhook.webhook (bare_server 3)) /\
  SQLServerWebhook.well_formed (@Default KSQLServer SQLServerWebhook.webhook (bare_server 3)).
Proof.
  split; [exact scaled_up|].
  exact (proj1 (proj2 (Webhooks.admitted_objects KSQLServer _ _ scaled_up))).
Defined.
