(* ===== verification/SQLServerResources.v ===== *)
(** * The Kubernetes objects of a managed SQLServer
    (internal/controller/sqlserver_instance.go, the desired and build functions)

    What the operator wants for an instance: the configuration file, the
    StatefulSet, the Services, and their names and labels. Parsing a resource
    quantity belongs to apimachinery and is the parameter [Quantities]. *)
From stdpp Require Import list_numbers.
From S2P Require Import Prelude Types AgFencing.

(** [resource.ParseQuantity]; [MustParse] panics where it fails. *)
Class Quantities := { ParseQuantity : string -> option Quantity }.

Definition hadrEndpointPort : Z := 5022.
Definition sqlPort : Z := 1433.

Module Resources.
(** ** Names *)
(** The instance of a managed SQLServer, and its replicas (default 1). *)
Definition replica_count (inst : InstanceSpec) : Z := default 1 (inst_Replicas inst).
Definition managedHost (srv : SQLServer) : string :=
  Sprintf "%s.%s.svc.cluster.local" [Name (o_meta srv); Namespace (o_meta srv)].
Definition replicaHost (srv : SQLServer) (index : Z) : string :=
  Sprintf "%s-%d.%s-headless.%s.svc.cluster.local"
    [Name (o_meta srv); fmt_d index; Name (o_meta srv); Namespace (o_meta srv)].
Definition pod_name (srv : SQLServer) (i : Z) : string :=
  Sprintf "%s-%d" [Name (o_meta srv); fmt_d i].
Definition cert_secret (srv : SQLServer) (i : Z) : string :=
  Sprintf "%s-cert-%d" [Name (o_meta srv); fmt_d i].
Definition instanceLabels (srv : SQLServer) : gmap string string :=
  <["app.kubernetes.io/name" := "mssql"]>
    (<["app.kubernetes.io/instance" := Name (o_meta srv)]>
      (<["app.kubernetes.io/managed-by" := "mssql-operator"]> ∅)).

(** ** The configuration file *)
Definition newline : string := String "010" "".
(** The memory limit in megabytes: 80% of the container's. *)
Definition auto_limit (limit : Quantity) : Z := (Quantity_Value limit ÷ (1024 * 1024)) * 80 ÷ 100.
Definition buildMSSQLConf (inst : InstanceSpec) : string :=
  let conf := default "" (inst_Config inst) in
  match inst_Resources inst with
  | Some res =>
      if negb (Contains conf "memorylimitmb") then
        match res_Limits res !! "memory" with
        | Some memLimit =>
            let autoLimit := auto_limit memLimit in
            if 0 <? autoLimit then
              (if negb (Contains conf "[memory]") then conf +:+ newline +:+ "[memory]" +:+ newline
               else conf) +:+ "memorylimitmb = " +:+ fmt_d autoLimit +:+ newline
            else conf
        | None => conf
        end
      else conf
  | None => conf
  end.
Definition desiredConfigMap (srv : SQLServer) (inst : InstanceSpec) : ConfigMap :=
  mkObject (new_meta (Name (o_meta srv) +:+ "-config") (Namespace (o_meta srv)) (instanceLabels srv))
    (<["mssql.conf" := buildMSSQLConf inst]> ∅) tt.

(** ** The StatefulSet *)
Definition env_vars (inst : InstanceSpec) : list EnvVar :=
  [mkEnvVar "ACCEPT_EULA" (EnvText "Y");
   mkEnvVar "MSSQL_SA_PASSWORD"
     (EnvSecretKey (sec_Name (inst_SAPasswordSecret inst)) "MSSQL_SA_PASSWORD")] ++
  match inst_Edition inst with
  | Some ed => if negb (String.eqb ed "Developer") then [mkEnvVar "MSSQL_PID" (EnvText ed)] else []
  | None => []
  end ++
  (if 1 <? replica_count inst then [mkEnvVar "MSSQL_ENABLE_HADR" (EnvText "1")] else []).
Definition cert_volume (srv : SQLServer) (i : Z) : Volume :=
  mkVolume (Sprintf "cert-%d" [fmt_d i]) (VolSecret (cert_secret srv i) true).
Definition cert_mount (i : Z) : VolumeMount :=
  mkVolumeMount (Sprintf "cert-%d" [fmt_d i]) (Sprintf "/var/opt/mssql/certs/%d" [fmt_d i]) "" true.
Definition no_resources : ResourceRequirements := mkResources ∅ ∅.
Definition mssql_container (inst : InstanceSpec) : Container :=
  let cluster := 1 <? replica_count inst in
  mkContainer "mssql" (default "mcr.microsoft.com/mssql/server:2022-latest" (inst_Image inst))
    (env_vars inst)
    (mkContainerPort "sql" sqlPort ::
     (if cluster then [mkContainerPort "hadr" hadrEndpointPort] else []))
    ([mkVolumeMount "mssql-data" "/var/opt/mssql" "" false;
      mkVolumeMount "mssql-config" "/var/opt/mssql/mssql.conf" "mssql.conf" true] ++
     (if cluster then map cert_mount (seqZ 0 (replica_count inst)) else []))
    (Some (mkProbe sqlPort 20 10)) (Some (mkProbe sqlPort 30 15))
    (default no_resources (inst_Resources inst)).
Definition volumes (srv : SQLServer) (inst : InstanceSpec) : list Volume :=
  mkVolume "mssql-config" (VolConfigMap (Name (o_meta srv) +:+ "-config")) ::
  (if 1 <? replica_count inst then map (cert_volume srv) (seqZ 0 (replica_count inst)) else []).

Section WithQuantities.
Context `{Quantities}.
(** [resource.MustParse]. *)
Definition MustParse {W R} (s : string) : Go W R Quantity :=
  match ParseQuantity s with
  | Some q => mret q
  | None => panic "cannot parse quantity"
  end.
Definition desiredStatefulSet {W R} (srv : SQLServer) (inst : InstanceSpec) : Go W R StatefulSet :=
  let labels := instanceLabels srv in
  storage ← MustParse (default "10Gi" (inst_StorageSize inst));
  mret (mkObject (new_meta (Name (o_meta srv)) (Namespace (o_meta srv)) labels)
    (mkStatefulSetSpec (Name (o_meta srv) +:+ "-headless") (Some (replica_count inst)) labels
      (mkPodTemplate labels [mssql_container inst] (volumes srv inst) (inst_Scheduling inst))
      [mkPVC "mssql-data" ["ReadWriteOnce"] storage (inst_StorageClassName inst)])
    (mkStatefulSetStatus 0)).
End WithQuantities.

(** ** The Services *)
Definition sql_port : ServicePort := mkServicePort "sql" sqlPort sqlPort.
Definition desiredHeadlessService (srv : SQLServer) (inst : InstanceSpec) : Service :=
  let labels := instanceLabels srv in
  mkObject (new_meta (Name (o_meta srv) +:+ "-headless") (Namespace (o_meta srv)) labels)
    (mkServiceSpec "" "None" labels
      (sql_port ::
       (if 1 <? replica_count inst then [mkServicePort "hadr" hadrEndpointPort hadrEndpointPort]
        else []))) tt.
Definition service_type (inst : InstanceSpec) : string := default ServiceTypeClusterIP (inst_ServiceType inst).
(** In multi-replica mode, route traffic only to the primary. *)
Definition desiredClientService (srv : SQLServer) (inst : InstanceSpec) : Service :=
  let labels := instanceLabels srv in
  let selector := if 1 <? replica_count inst then <[LabelRole := RolePrimary]> labels else labels in
  mkObject (new_meta (Name (o_meta srv)) (Namespace (o_meta srv)) labels)
    (mkServiceSpec (service_type inst) "" selector [sql_port]) tt.
Definition desiredReadOnlyService (srv : SQLServer) (inst : InstanceSpec) : Service :=
  let labels := instanceLabels srv in
  mkObject (new_meta (Name (o_meta srv) +:+ "-readonly") (Namespace (o_meta srv)) labels)
    (mkServiceSpec (service_type inst) "" (<[LabelRole := RoleSecondary]> labels) [sql_port]) tt.
End Resources.
