(* ===== verification/SQLServerInfra.v ===== *)
(** * The infrastructure of a managed SQLServer
    (internal/controller/sqlserver_instance.go, the reconcile functions)

    Each function compares the object the operator wants with the stored one:
    it creates the object when there is none, and otherwise updates the fields
    it owns when one of them differs. *)
From stdpp Require Import list_numbers.
From S2P Require Import Prelude Types SqlClient Kube Helpers AgFencing SQLServerResources.

(** The error of a call that returns an object or an error. *)
Definition err_of {A} (r : A + error) : option error :=
  match r with inl _ => None | inr err => Some err end.

Module Infra.
Import Resources.

(** ** The fields compared *)
(** [if !DeepEqual(existing.f, desired.f) { existing.f = desired.f; needsUpdate = true }]. *)
Definition step {A B} `{EqDecision B} (f : A -> B) (set : B -> A -> A) (want : B)
    (x : A * bool) : A * bool :=
  if decide (f x.1 = want) then x else (set want x.1, true).
Definition needed {A} (x : A * bool) : option A := if x.2 then Some x.1 else None.

Definition set_image (v : string) (c : Container) : Container :=
  mkContainer (ctr_Name c) v (ctr_Env c) (ctr_Ports c) (ctr_VolumeMounts c)
    (ctr_ReadinessProbe c) (ctr_LivenessProbe c) (ctr_Resources c).
Definition set_env (v : list EnvVar) (c : Container) : Container :=
  mkContainer (ctr_Name c) (ctr_Image c) v (ctr_Ports c) (ctr_VolumeMounts c)
    (ctr_ReadinessProbe c) (ctr_LivenessProbe c) (ctr_Resources c).
Definition set_resources (v : ResourceRequirements) (c : Container) : Container :=
  mkContainer (ctr_Name c) (ctr_Image c) (ctr_Env c) (ctr_Ports c) (ctr_VolumeMounts c)
    (ctr_ReadinessProbe c) (ctr_LivenessProbe c) v.
Definition sts_with (f : StatefulSetSpec -> StatefulSetSpec) (s : StatefulSet) : StatefulSet :=
  mkObject (o_meta s) (f (o_spec s)) (o_status s).
Definition set_replicas (v : option Z) : StatefulSet -> StatefulSet := sts_with (fun s =>
  mkStatefulSetSpec (sts_ServiceName s) v (sts_Selector s) (sts_Template s) (sts_VolumeClaimTemplates s)).
Definition set_template (v : PodTemplateSpec) : StatefulSet -> StatefulSet := sts_with (fun s =>
  mkStatefulSetSpec (sts_ServiceName s) (sts_Replicas s) (sts_Selector s) v (sts_VolumeClaimTemplates s)).
Definition template (s : StatefulSet) : PodTemplateSpec := sts_Template (o_spec s).
Definition set_containers (v : list Container) (s : StatefulSet) : StatefulSet :=
  let t := template s in
  set_template (mkPodTemplate (pt_Labels t) v (pt_Volumes t) (pt_Scheduling t)) s.
Definition scheduling (s : StatefulSet) : Scheduling := pt_Scheduling (template s).
Definition set_scheduling (v : Scheduling) (s : StatefulSet) : StatefulSet :=
  let t := template s in
  set_template (mkPodTemplate (pt_Labels t) (pt_Containers t) (pt_Volumes t) v) s.
Definition set_node_selector v (s : StatefulSet) : StatefulSet :=
  let d := scheduling s in
  set_scheduling (mkScheduling v (Tolerations d) (Affinity d) (TopologySpreadConstraints d)) s.
Definition set_tolerations v (s : StatefulSet) : StatefulSet :=
  let d := scheduling s in
  set_scheduling (mkScheduling (NodeSelector d) v (Affinity d) (TopologySpreadConstraints d)) s.
Definition set_affinity v (s : StatefulSet) : StatefulSet :=
  let d := scheduling s in
  set_scheduling (mkScheduling (NodeSelector d) (Tolerations d) v (TopologySpreadConstraints d)) s.
Definition set_spread v (s : StatefulSet) : StatefulSet :=
  let d := scheduling s in
  set_scheduling (mkScheduling (NodeSelector d) (Tolerations d) (Affinity d) v) s.

Definition update_container (inst : InstanceSpec) (desired : Container) (x : Container * bool)
    : Container * bool :=
  let x := step ctr_Image set_image (ctr_Image desired) x in
  let x := step ctr_Env set_env (ctr_Env desired) x in
  match inst_Resources inst with
  | Some res => step ctr_Resources set_resources res x
  | None => x
  end.
Definition update_containers (inst : InstanceSpec) (desired : StatefulSet) (x : StatefulSet * bool)
    : StatefulSet * bool :=
  match pt_Containers (template x.1), pt_Containers (template desired) with
  | c :: cs, d :: _ =>
      let '(c', b) := update_container inst d (c, x.2) in (set_containers (c' :: cs) x.1, b)
  | [], _ => (set_template (template desired) x.1, true)
  | _ :: _, [] => x
  end.
Definition update_statefulset (inst : InstanceSpec) (desired existing : StatefulSet)
    : StatefulSet * bool :=
  let d := scheduling desired in
  let x := step (fun s => sts_Replicas (o_spec s)) set_replicas (sts_Replicas (o_spec desired))
             (existing, false) in
  let x := update_containers inst desired x in
  let x := step (fun s => NodeSelector (scheduling s)) set_node_selector (NodeSelector d) x in
  let x := step (fun s => Tolerations (scheduling s)) set_tolerations (Tolerations d) x in
  let x := step (fun s => Affinity (scheduling s)) set_affinity (Affinity d) x in
  step (fun s => TopologySpreadConstraints (scheduling s)) set_spread (TopologySpreadConstraints d) x.

Definition set_service_type (v : string) (s : Service) : Service :=
  mkObject (o_meta s) (mkServiceSpec v (svc_ClusterIP (o_spec s)) (svc_Selector (o_spec s))
    (svc_Ports (o_spec s))) (o_status s).
Definition set_selector (v : gmap string string) (s : Service) : Service :=
  mkObject (o_meta s) (mkServiceSpec (svc_Type (o_spec s)) (svc_ClusterIP (o_spec s)) v
    (svc_Ports (o_spec s))) (o_status s).
(** Only the role is compared, the whole selector is replaced. *)
Definition selected_role (s : Service) : string := default "" (svc_Selector (o_spec s) !! LabelRole).
Definition update_service (desired existing : Service) : Service * bool :=
  let x := step (fun s => svc_Type (o_spec s)) set_service_type (svc_Type (o_spec desired))
             (existing, false) in
  if String.eqb (selected_role x.1) (selected_role desired) then x
  else (set_selector (svc_Selector (o_spec desired)) x.1, true).

Definition update_config_map (desired existing : ConfigMap) : ConfigMap * bool :=
  if String.eqb (default "" (o_spec existing !! "mssql.conf")) (default "" (o_spec desired !! "mssql.conf"))
  then (existing, false)
  else (mkObject (o_meta existing) (o_spec desired) (o_status existing), true).

(** ** The reconcile functions *)
Section Functions.
Context `{GoEnv} {K D Conn : Type} `{KubeClient K} `{SQLClient Conn D} `{KubeUtil} `{Quantities}.
Context {R : Type}.
Abbreviation M A := (Go (World K D Conn) R A).

(** The pattern of the functions below: own the desired object, fetch the
    stored one, create or update. [wrap] is the context of the first error. *)
Definition ensure {Sp St} (srv : SQLServer) (wrap : error -> error)
    (get : NamespacedName -> M (Object Sp St + error)) (create write : Object Sp St -> M (Object Sp St + error))
    (desired : Object Sp St) (update : Object Sp St -> Object Sp St -> Object Sp St * bool)
    : M (option error) :=
  match SetControllerReference (o_meta srv) (o_meta desired) with
  | inr err => mret (Some (wrap err))
  | inl m =>
      let desired := with_meta m desired in
      r ← get (key_of desired);
      match r with
      | inr err => if IsNotFound err then r ← create desired; mret (err_of r) else mret (Some err)
      | inl existing =>
          match needed (update desired existing) with
          | Some o => r ← write o; mret (err_of r)
          | None => mret None
          end
      end
  end.
Definition no_update {A} (_ existing : A) : A * bool := (existing, false).

Definition reconcileStatefulSet (srv : SQLServer) (inst : InstanceSpec) : M (option error) :=
  desired ← desiredStatefulSet srv inst;
  ensure srv (ErrWrap "failed to set owner reference on StatefulSet")
    (Get KStatefulSet) (Create KStatefulSet) (Update KStatefulSet) desired (update_statefulset inst).
Definition reconcileHeadlessService (srv : SQLServer) (inst : InstanceSpec) : M (option error) :=
  ensure srv (ErrWrap "failed to set owner reference on headless Service")
    (Get KService) (Create KService) (Update KService) (desiredHeadlessService srv inst) no_update.
Definition reconcileClientService (srv : SQLServer) (inst : InstanceSpec) : M (option error) :=
  ensure srv (ErrWrap "failed to set owner reference on client Service")
    (Get KService) (Create KService) (Update KService) (desiredClientService srv inst) update_service.
Definition reconcileReadOnlyService (srv : SQLServer) (inst : InstanceSpec) : M (option error) :=
  ensure srv (ErrWrap "failed to set owner reference on read-only Service")
    (Get KService) (Create KService) (Update KService) (desiredReadOnlyService srv inst) update_service.
Definition reconcileConfigMap (srv : SQLServer) (inst : InstanceSpec) : M (option error) :=
  ensure srv (fun err => err)
    (Get KConfigMap) (Create KConfigMap) (Update KConfigMap) (desiredConfigMap srv inst) update_config_map.

(** All replicas are ready, and how many are. *)
Definition isStatefulSetReady (srv : SQLServer) (inst : InstanceSpec) : M (bool * Z + error) :=
  r ← Get KStatefulSet (key_of srv);
  match r with
  | inr err => mret (inr err)
  | inl sts =>
      let n := sts_ReadyReplicas (o_status sts) in
      mret (inl (replica_count inst <=? n, n))
  end.

(** The pod name in a fully qualified one. *)
Definition short_name (primaryReplica : string) : string :=
  match SplitN2 primaryReplica "." with
  | (name, Some _) => if String.eqb name "" then primaryReplica else name
  | (_, None) => primaryReplica
  end.
Definition desired_role (primaryReplica podName : string) : string :=
  if String.eqb podName (short_name primaryReplica) then RolePrimary else RoleSecondary.
Definition label_pod (srv : SQLServer) (primaryReplica : string) (i : Z)
    : Go (World K D Conn) (option error) unit :=
  let podName := pod_name srv i in
  let role := desired_role primaryReplica podName in
  r ← Get KPod (mkKey (Namespace (o_meta srv)) podName);
  match r with
  | inr _ => mret tt  (* Pod may not exist yet *)
  | inl pod =>
      if String.eqb (default "" (Labels (o_meta pod) !! LabelRole)) role then mret tt
      else
        r ← Patch KPod pod (with_meta (with_labels (<[LabelRole := role]> (Labels (o_meta pod))) (o_meta pod)) pod);
        match r with
        | inr err => return_ (Some (ErrWrap (Sprintf "failed to label pod %s with role %s" [podName; role]) err))
        | inl _ => mret tt
        end
  end.
Definition reconcileReplicaRoleLabels (srv : SQLServer) (inst : InstanceSpec) (primaryReplica : string)
    : M (option error) :=
  fn (for_each (seqZ 0 (replica_count inst)) (label_pod srv primaryReplica) ;; return_ None).
End Functions.
End Infra.
