(* ===== verification/SQLServerCertificates.v ===== *)
(** * Certificates of a managed cluster (internal/controller/sqlserver_certificates.go)

    A CA and a certificate per replica in Secrets (self-signed mode), or the
    wait for the Secrets cert-manager provisions; then on every replica's
    server the master key, its own certificate and the endpoint, and the import
    of every other replica's certificate.

    Keys, certificates and PEM belong to the crypto packages: the parameters of
    [Crypto], where a failing reader of randomness is an error of the call. *)
From stdpp Require Import list_numbers.
From S2P Require Import Prelude Types SqlClient Kube Helpers SQLServerResources SQLServerInfra.

(** crypto/x509, crypto/ecdsa, encoding/pem. *)
Record CertTemplate := mkCertTemplate {
  ct_SerialNumber : Z;
  ct_CommonName : string;
  ct_DNSNames : list string;
  ct_NotBefore : Z;
  ct_NotAfter : Z;
  ct_IsCA : bool;
  ct_KeyUsage : list string;
  ct_ExtKeyUsage : list string;
  ct_MaxPathLen : Z
}.
Class Crypto := {
  PrivateKey : Type;
  X509Certificate : Type;
  (* the n-th draw of the random source *)
  GenerateKey : nat -> PrivateKey + error;
  (* template, parent (itself, or a parsed certificate), the key certified, the parent's key *)
  x509_CreateCertificate : nat -> CertTemplate -> CertTemplate + X509Certificate ->
    PrivateKey -> PrivateKey -> string + error;
  x509_ParseCertificate : string -> X509Certificate + error;
  MarshalECPrivateKey : PrivateKey -> string + error;
  ParseECPrivateKey : string -> PrivateKey + error;
  pem_Encode : string -> string -> string;       (* type, bytes *)
  pem_Decode : string -> option string           (* the bytes of the first block *)
}.

Definition certPasswordKey := "password".
Definition certCertKey := "tls.crt".
Definition certKeyKey := "tls.key".

Module Certificates.
Import Resources.
Section Functions.
Context `{GoEnv} {K D Conn : Type} `{KubeClient K} `{SQLClient Conn D} `{KubeUtil} `{Crypto}.
(** [r.SQLClientFactory]. *)
Variable factory : ClientFactory Conn D.

(** ** Secrets *)
Section Secrets.
(** A function body that returns [A] or an error. *)
Abbreviation Fn A := (Go (World K D Conn) (A + error) A).
Abbreviation M R A := (Go (World K D Conn) R A).

(** [x, err := f(); if err != nil { return fmt.Errorf(msg: %w, err) }]. *)
Definition try {A B} (m : Go (World K D Conn) (B + error) (A + error)) (wrap : error -> error)
    : Go (World K D Conn) (B + error) A :=
  r ← m;
  match r with inr err => return_ (inr (wrap err)) | inl x => mret x end.
Definition try_pure {A B} (r : A + error) (wrap : error -> error) : Go (World K D Conn) (B + error) A :=
  try (mret r) wrap.

(** The parse of an existing CA. *)
Definition parse_ca (secret : Secret) : Fn (PrivateKey * X509Certificate) :=
  match pem_Decode (default "" (o_spec secret !! certKeyKey)) with
  | None => return_ (inr (ErrString "failed to decode CA private key PEM"))
  | Some bytes =>
      caKey ← try_pure (ParseECPrivateKey bytes) (ErrWrap "failed to parse CA private key");
      match pem_Decode (default "" (o_spec secret !! certCertKey)) with
      | None => return_ (inr (ErrString "failed to decode CA certificate PEM"))
      | Some cert =>
          caCert ← try_pure (x509_ParseCertificate cert) (ErrWrap "failed to parse CA certificate");
          mret (caKey, caCert)
      end
  end.

Definition ca_template (srv : SQLServer) (before after : Z) : CertTemplate :=
  mkCertTemplate 1 (Name (o_meta srv) +:+ "-ca") [] before (after + 10 * 365 * 24 * Hour) true
    ["CertSign"; "CRLSign"] [] 1.

(** A Secret of the instance, owned by it; the error of the owner is not wrapped. *)
Definition create_secret {A} (srv : SQLServer) (name : string) (data : gmap string string)
    (wrap : error -> error) : Go (World K D Conn) (A + error) unit :=
  let meta := new_meta name (Namespace (o_meta srv)) (instanceLabels srv) in
  m ← try_pure (SetControllerReference (o_meta srv) meta) (fun err => err);
  try (Create KSecret (mkObject m data tt)) wrap ;; mret tt.

(** A new CA. *)
Definition generate_ca (srv : SQLServer) (name : string) : Fn (PrivateKey * X509Certificate) :=
  caKey ← try (observe GenerateKey) (ErrWrap "failed to generate CA key");
  before ← Now;
  after ← Now;
  let template := ca_template srv before after in
  caCertDER ← try (observe (fun n => x509_CreateCertificate n template (inl template) caKey caKey))
                (ErrWrap "failed to create CA certificate");
  caCert ← try_pure (x509_ParseCertificate caCertDER) (ErrWrap "failed to parse CA certificate");
  let certPEM := pem_Encode "CERTIFICATE" caCertDER in
  keyDER ← try_pure (MarshalECPrivateKey caKey) (ErrWrap "failed to marshal CA key");
  let keyPEM := pem_Encode "EC PRIVATE KEY" keyDER in
  create_secret srv name (<[certCertKey := certPEM]> (<[certKeyKey := keyPEM]> ∅))
    (ErrWrap "failed to create CA secret") ;;
  mret (caKey, caCert).

Definition ensureCASecret {R} (srv : SQLServer) (name : string)
    : M R (PrivateKey * X509Certificate + error) :=
  fn (r ← Get KSecret (mkKey (Namespace (o_meta srv)) name);
      x ← match r with
          | inl existing => parse_ca existing
          | inr err => if IsNotFound err then generate_ca srv name else return_ (inr err)
          end;
      return_ (inl x)).

Definition replica_template (srv : SQLServer) (i before after : Z) : CertTemplate :=
  let host := replicaHost srv i in
  mkCertTemplate (i + 2) host [host; pod_name srv i] before (after + 365 * 24 * Hour) false
    ["DigitalSignature"; "KeyEncipherment"] ["ServerAuth"; "ClientAuth"] 0.
(** One round of the loop over the replicas, when the Secret does not exist. *)
Definition generate_replica_cert (srv : SQLServer) (ca : PrivateKey * X509Certificate) (i : Z)
    : Go (World K D Conn) (bool + error) unit :=
  replicaKey ← try (observe GenerateKey) (ErrWrap (Sprintf "failed to generate replica %d key" [fmt_d i]));
  before ← Now;
  after ← Now;
  certDER ← try (observe (fun n => x509_CreateCertificate n (replica_template srv i before after)
                                     (inr ca.2) replicaKey ca.1))
              (ErrWrap (Sprintf "failed to create replica %d certificate" [fmt_d i]));
  let certPEM := pem_Encode "CERTIFICATE" certDER in
  keyDER ← try_pure (MarshalECPrivateKey replicaKey)
             (ErrWrap (Sprintf "failed to marshal replica %d key" [fmt_d i]));
  let keyPEM := pem_Encode "EC PRIVATE KEY" keyDER in
  create_secret srv (cert_secret srv i)
    (<[certCertKey := certPEM]> (<[certKeyKey := keyPEM]>
      (<[certPasswordKey := Sprintf "CertP@ss%d!" [fmt_d i]]> ∅)))
    (ErrWrap (Sprintf "failed to create cert secret for replica %d" [fmt_d i])).

Definition reconcileSelfSignedCerts {R} (srv : SQLServer) (replicas : Z) : M R (bool + error) :=
  fn (ca ← try (ensureCASecret srv (Name (o_meta srv) +:+ "-ca")) (ErrWrap "failed to ensure CA secret");
      for_each (seqZ 0 replicas) (fun i =>
        r ← Get KSecret (mkKey (Namespace (o_meta srv)) (cert_secret srv i));
        match r with
        | inl _ => mret tt  (* Already exists *)
        | inr err => if IsNotFound err then generate_replica_cert srv ca i else return_ (inr err)
        end) ;;
      return_ (inl true)).

(** cert-manager: the Secrets are only waited for. *)
Definition reconcileCertManagerCerts {R} (srv : SQLServer) (inst : InstanceSpec) (replicas : Z)
    : M R (bool + error) :=
  match inst_Certificates inst with
  | None => panic "invalid memory address or nil pointer dereference"
  | Some certs =>
      match cert_IssuerRef certs with
      | None => mret (inr (ErrString "issuerRef is required for CertManager mode"))
      | Some _ =>
          fn (allReady ← fold_each (seqZ 0 replicas) true (fun allReady i =>
                r ← Get KSecret (mkKey (Namespace (o_meta srv)) (cert_secret srv i));
                match r with
                | inl secret =>
                    mret (if String.eqb (default "" (o_spec secret !! certCertKey)) "" then false
                          else allReady)
                | inr err => if IsNotFound err then mret false else return_ (inr err)
                end);
              return_ (inl allReady))
      end
  end.

Definition certificate_mode (inst : InstanceSpec) : string :=
  match inst_Certificates inst with
  | Some certs => default CertificateModeSelfSigned (cert_Mode certs)
  | None => CertificateModeSelfSigned
  end.
Definition reconcileCertificates {R} (srv : SQLServer) (inst : InstanceSpec) : M R (bool + error) :=
  let replicas := replica_count inst in
  if replicas <=? 1 then mret (inl true)
  else
    let mode := certificate_mode inst in
    if String.eqb mode CertificateModeSelfSigned then reconcileSelfSignedCerts srv replicas
    else if String.eqb mode CertificateModeCertManager then reconcileCertManagerCerts srv inst replicas
    else mret (inr (ErrString (Sprintf "unsupported certificate mode: %s" [mode]))).
End Secrets.

(** ** On the servers *)
Section Servers.
Abbreviation M R A := (Go (World K D Conn) R A).
(** A function body that returns an error. *)
Abbreviation FnE A := (Go (World K D Conn) (option error) A).

(** The server at [host], with the port and TLS of the instance. *)
Definition instance_ref (srv : SQLServer) (host : string) : ServerReference :=
  mkServerRef host (srv_Port (o_spec srv)) (mkSecretRef "") (srv_TLS (o_spec srv)) None.
Definition ag_cert (i : Z) : string := Sprintf "ag_cert_%d" [fmt_d i].
Definition ag_login (i : Z) : string := Sprintf "ag_login_%d" [fmt_d i].

Definition query_or {A} (c : Conn) (m : string) (args : list string) (q : Query Conn D A)
    (msg : string) : FnE A :=
  ' (x, err) ← sql c m args q;
  match err with Some e => return_ (Some (ErrWrap msg e)) | None => mret x end.
Definition exec_or (c : Conn) (m : string) (args : list string) (o : Op Conn D) (msg : string)
    : FnE unit :=
  err ← sql c m args o;
  on_err err (fun e => return_ (Some (ErrWrap msg e))).

(** Master key, own certificate and endpoint of replica [i], where missing. *)
Definition setupReplicaCertificates {R} (srv : SQLServer) (c : Conn) (i : Z) : M R (option error) :=
  fn (exists_ ← query_or c "MasterKeyExists" [] MasterKeyExists "failed to check master key";
      when (negb exists_) (
        let key := Sprintf "MasterKey%sP@ss!" [Name (o_meta srv)] in
        exec_or c "CreateMasterKey" [key] (CreateMasterKey key) "failed to create master key") ;;
      certExists ← query_or c "CertificateExists" [ag_cert i] (CertificateExists (ag_cert i))
                     "failed to check certificate";
      when (negb certExists) (
        let subject := Sprintf "%s-%d cert" [Name (o_meta srv); fmt_d i] in
        exec_or c "CreateCertificate" [ag_cert i; subject; "2030-01-01"]
          (CreateCertificate (ag_cert i) subject "2030-01-01") "failed to create certificate") ;;
      endpointExists ← query_or c "HADREndpointExists" [] HADREndpointExists "failed to check endpoint";
      when (negb endpointExists) (
        exec_or c "CreateHADREndpointWithCert" [fmt_d hadrEndpointPort; ag_cert i]
          (CreateHADREndpointWithCert hadrEndpointPort (ag_cert i)) "failed to create HADR endpoint") ;;
      return_ None).

(** Pass 1, replica [i]: the binary of its certificate. *)
Definition collect_certificate (srv : SQLServer) (username password : string)
    (certBinaries : gmap Z (list Byte.byte)) (i : Z) : FnE (gmap Z (list Byte.byte)) :=
  let host := replicaHost srv i in
  r ← connectToSQL (instance_ref srv host) username password factory;
  match r with
  | inr err => return_ (Some (ErrWrap (Sprintf "failed to connect to replica %d (%s)" [fmt_d i; host]) err))
  | inl c =>
      err ← setupReplicaCertificates srv c i;
      match err with
      | Some e =>
          sql c "Close" [] Close ;;
          return_ (Some (ErrWrap (Sprintf "failed to setup certificates on replica %d" [fmt_d i]) e))
      | None =>
          ' (certDER, err) ← sql c "GetCertificateBinary" [ag_cert i] (GetCertificateBinary (ag_cert i));
          sql c "Close" [] Close ;;
          match err with
          | Some e => return_ (Some (ErrWrap (Sprintf "failed to get cert binary from replica %d" [fmt_d i]) e))
          | None => mret (<[i := certDER]> certBinaries)
          end
      end
  end.

(** [if err != nil { sqlConn.Close(); return fmt.Errorf(msg: %w, err) }]. *)
Definition close_on_err (c : Conn) (err : option error) (msg : string) : FnE unit :=
  on_err err (fun e => sql c "Close" [] Close ;; return_ (Some (ErrWrap msg e))).

(** Pass 2, replica [i] and peer [j]. *)
Definition import_peer (c : Conn) (i : Z) (certBinaries : gmap Z (list Byte.byte)) (j : Z) : FnE unit :=
  if j =? i then mret tt
  else
    let binary := default [] (certBinaries !! j) in
    ' (peerExists, err) ← sql c "CertificateExists" [ag_cert j] (CertificateExists (ag_cert j));
    close_on_err c err (Sprintf "failed to check peer cert %s on replica %d" [ag_cert j; fmt_d i]) ;;
    if peerExists : bool then mret tt
    else
      err ← sql c "CreateCertificateFromBinary" [ag_cert j] (CreateCertificateFromBinary (ag_cert j) binary);
      close_on_err c err (Sprintf "failed to import peer cert %s on replica %d" [ag_cert j; fmt_d i]) ;;
      err ← sql c "CreateLoginFromCertificate" [ag_login j; ag_cert j]
              (CreateLoginFromCertificate (ag_login j) (ag_cert j));
      close_on_err c err (Sprintf "failed to create login from peer cert on replica %d" [fmt_d i]) ;;
      err ← sql c "GrantEndpointConnect" ["hadr_endpoint"; ag_login j]
              (GrantEndpointConnect "hadr_endpoint" (ag_login j));
      close_on_err c err (Sprintf "failed to grant endpoint connect on replica %d" [fmt_d i]).

Definition import_certificates (srv : SQLServer) (username password : string) (replicas : Z)
    (certBinaries : gmap Z (list Byte.byte)) (i : Z) : FnE unit :=
  r ← connectToSQL (instance_ref srv (replicaHost srv i)) username password factory;
  match r with
  | inr err => return_ (Some (ErrWrap (Sprintf "failed to reconnect to replica %d" [fmt_d i]) err))
  | inl c =>
      for_each (seqZ 0 replicas) (import_peer c i certBinaries) ;;
      sql c "Close" [] Close ;; mret tt
  end.

(** The credentials to connect to each replica. *)
Definition replica_login (srv : SQLServer) (inst : InstanceSpec) : FnE (string * string) :=
  r ← match srv_CredentialsSecret (o_spec srv) with
      | Some s => getCredentialsFromSecret (default (Namespace (o_meta srv)) (xsec_Namespace s)) (xsec_Name s)
      | None =>
          if String.eqb (sec_Name (inst_SAPasswordSecret inst)) "" then
            return_ (Some (ErrString "no credentials available: set credentialsSecret or saPasswordSecret"))
          else getCredentialsFromSAPasswordSecret (Namespace (o_meta srv)) (sec_Name (inst_SAPasswordSecret inst))
      end;
  match r with
  | inr err => return_ (Some (ErrWrap "failed to read credentials" err))
  | inl up => mret up
  end.

Definition distributeCertificatesToSQL {R} (srv : SQLServer) (inst : InstanceSpec) : M R (option error) :=
  let replicas := replica_count inst in
  fn (' (username, password) ← replica_login srv inst;
      certBinaries ← fold_each (seqZ 0 replicas) ∅ (collect_certificate srv username password);
      for_each (seqZ 0 replicas) (import_certificates srv username password replicas certBinaries) ;;
      return_ None).
End Servers.
End Functions.
End Certificates.
