(* ===== verification/SQLServerSetup.v ===== *)
(** * The certificates on the servers of a cluster

    What [distributeCertificatesToSQL] may send to a server, and when: nothing
    is created that was not just found missing on that server, and what is
    imported under the name of a peer is what that peer exported. *)
From stdpp Require Import list_numbers.
From S2P Require Import Prelude Types SqlClient Kube Helpers SQLServerResources SQLServerInfra.
From S2P Require Import SQLServerCertificates.

Module SQLServerSetup.
Import Resources Infra Certificates.

(** The calls that change nothing on the server. *)
Definition reading_methods : list string :=
  ["Ping"; "GetServerVersion"; "GetServerEdition"; "Close"; "MasterKeyExists"; "CertificateExists";
   "HADREndpointExists"; "GetCertificateBinary"].
Definition reading (m : string) : bool := bool_decide (m ∈ reading_methods).

Section Setup.
Context `{GoEnv} {K D Conn : Type} `{KubeClient K} `{SQLClient Conn D} `{KubeUtil} `{Crypto}.
Variable factory : ClientFactory Conn D.
Abbreviation W := (World K D Conn).

(** [c] is a connection to the server of replica [i] of [srv]. *)
Definition at_replica (srv : SQLServer) (inst : InstanceSpec) (i : Z) (c : Conn) : Prop :=
  0 <= i < replica_count inst /\ connected factory (instance_ref srv (replicaHost srv i)) c.
(** [bin] is what the server of replica [j] exported as its certificate. *)
Definition exported (srv : SQLServer) (inst : InstanceSpec) (j : Z) (bin : list Byte.byte) : Prop :=
  exists c d d', at_replica srv inst j c /\ GetCertificateBinary (ag_cert j) c d = ((bin, None), d').

(** A call that changes the server of replica [i], with the state it is made in. *)
Inductive setup_call (srv : SQLServer) (inst : InstanceSpec) (i : Z) (c : Conn)
    : string -> list string -> D -> Prop :=
| may_create_key key d d' :
    MasterKeyExists c d = ((false, None), d') ->
    setup_call srv inst i c "CreateMasterKey" [key] d'
| may_create_certificate subject expiry d d' :
    CertificateExists (ag_cert i) c d = ((false, None), d') ->
    setup_call srv inst i c "CreateCertificate" [ag_cert i; subject; expiry] d'
| may_create_endpoint d d' :
    HADREndpointExists c d = ((false, None), d') ->
    setup_call srv inst i c "CreateHADREndpointWithCert" [fmt_d hadrEndpointPort; ag_cert i] d'
| may_import j d d' :
    j <> i -> CertificateExists (ag_cert j) c d = ((false, None), d') ->
    setup_call srv inst i c "CreateCertificateFromBinary" [ag_cert j] d'
| may_create_login j bin d d' :
    j <> i -> exported srv inst j bin ->
    CreateCertificateFromBinary (ag_cert j) bin c d = (None, d') ->
    setup_call srv inst i c "CreateLoginFromCertificate" [ag_login j; ag_cert j] d'
| may_grant j d d' :
    j <> i -> CreateLoginFromCertificate (ag_login j) (ag_cert j) c d = (None, d') ->
    setup_call srv inst i c "GrantEndpointConnect" ["hadr_endpoint"; ag_login j] d'.

(** What a reconcile may send over a connection. *)
Definition sql_call (srv : SQLServer) (c : Conn) (m : string) (args : list string) (d : D) : Prop :=
  reading m = true \/
  exists inst i, srv_Instance (o_spec srv) = Some inst /\ at_replica srv inst i c /\
    setup_call srv inst i c m args d.

(** The status of the object does not matter. *)
Lemma sql_call_same o srv c m args d :
  o_meta o = o_meta srv -> o_spec o = o_spec srv -> sql_call o c m args d -> sql_call srv c m args d.
Proof.
  intros Hm Hs. assert (Hat : forall inst i c', at_replica o inst i c' -> at_replica srv inst i c').
  { intros inst i c'. unfold at_replica, instance_ref, replicaHost. by rewrite Hm, Hs. }
  intros [Hr|(inst & i & Hi & Hc & Hcall)]; [by left|]. right. exists inst, i.
  rewrite <- Hs. split_and!; [done|by apply Hat|].
  destruct Hcall as [| | | |j bin d1 d2 Hne (c' & d3 & d4 & Hc' & Hbin)|];
    econstructor; try done. exists c', d3, d4. eauto.
Qed.

Section Distribute.
Variables (srv : SQLServer) (inst : InstanceSpec) (P : Action Conn -> D -> Prop).
Hypothesis Hinst : srv_Instance (o_spec srv) = Some inst.
Hypothesis may_connect : forall h port u p t c d, P (AConnect h port u p t c) d.
Hypothesis may_call : forall c m args d, sql_call srv c m args d -> P (ASql c m args) d.
(** [o] names the servers of [srv]. *)
Variable o : SQLServer.
Hypothesis same_servers : forall i,
  instance_ref o (replicaHost o i) = instance_ref srv (replicaHost srv i).

Lemma may_read c (m : string) args d : reading m = true -> P (ASql c m args) d.
Proof. intros Hm. apply may_call. by left. Qed.
Lemma may_setup c i m args d :
  at_replica srv inst i c -> setup_call srv inst i c m args d -> P (ASql c m args) d.
Proof. intros Hc Hm. apply may_call. right. by exists inst, i. Qed.
#[local] Ltac permit ::= by apply may_read.
#[local] Ltac setting_up := eapply may_setup; [done|by econstructor].

(** A question that went well is followed by what its answer was. *)
Lemma does_query_or {A} c (m : string) args (q : Query Conn D A) msg F E w :
  reading m = true ->
  (forall e w', E (Some e) w') ->
  (forall a d l, q c (w_sql w) = ((a, None), d) -> F a (mkWorld (w_kube w) d l (w_tick w))) ->
  does P (query_or c m args q msg : Go W (option error) A) F E w.
Proof.
  intros Hm HE HF. unfold query_or. do 4 does_step.
  destruct x as [a [e|]]; does_step; [apply HE|]. by eapply HF.
Qed.
Lemma does_exec_or c m args (op : Op Conn D) msg F E w :
  P (ASql c m args) (w_sql w) -> (forall e w', E (Some e) w') -> (forall w', F tt w') ->
  does P (exec_or c m args op msg : Go W (option error) unit) F E w.
Proof.
  intros HP HE HF. unfold exec_or, on_err. do 3 does_step; [done|]. does_step.
  destruct x; by does_step.
Qed.

(** What is missing is created. *)
Lemma does_missing {B} c (m : string) args (q : Query Conn D bool) msg body (k : Go W (option error) B) F E w :
  reading m = true -> (forall e w', E (Some e) w') ->
  (forall w', (exists d, q c d = ((false, None), w_sql w')) -> does P body (fun _ _ => True) E w') ->
  (forall w', does P k F E w') ->
  does P (x ← query_or c m args q msg; when (negb x) body ;; k) F E w.
Proof.
  intros Hm HE Hbody Hk. does_step. apply does_query_or; [done..|]. intros x d l Hq. does_step.
  destruct x; cbn; [by apply does_ret|].
  eapply does_post; [apply Hbody; by exists (w_sql w)|by intros|done].
Qed.

Lemma does_setup {R} c i F (E : R -> W -> Prop) w :
  at_replica srv inst i c -> (forall e w', F e w') -> does P (setupReplicaCertificates o c i) F E w.
Proof.
  intros Hc HF. unfold setupReplicaCertificates. does_step.
  apply does_missing; [done..| |intros w1].
  { intros w1 [d Hd]. by apply does_exec_or; [setting_up|..]. }
  apply does_missing; [done..| |intros w2].
  { intros w2 [d Hd]. by apply does_exec_or; [setting_up|..]. }
  apply does_missing; [done..| |intros w3].
  { intros w3 [d Hd]. by apply does_exec_or; [setting_up|..]. }
  by does_step.
Qed.

(** *** Pass 1 *)
(** The binaries collected so far, those of [js] aside. *)
Definition collected (js : list Z) (bins : gmap Z (list Byte.byte)) : Prop :=
  forall j, 0 <= j < replica_count inst -> j ∉ js -> exists bin, bins !! j = Some bin /\ exported srv inst j bin.
Abbreviation ends := (fun (_ : option error) (_ : W) => True).

Lemma does_collect_certificate u p bins i js w :
  0 <= i < replica_count inst -> collected (i :: js) bins ->
  does P (collect_certificate factory o u p bins i) (fun bins' _ => collected js bins') ends w.
Proof.
  intros Hi Hbins. unfold collect_certificate. cbn zeta. rewrite same_servers. does_step.
  apply does_connectToSQL; [intros; by does_step|]. intros c d Hc. split; [done|]. does_step.
  assert (Hat : at_replica srv inst i c) by by split.
  apply does_setup; [done|]. intros [e|] w1; [by does_all|].
  do 4 does_step. destruct x as [bin [e|]]; [by does_all|].
  do 5 does_step. intros j Hj Hjs.
  destruct (decide (j = i)) as [->|Hne].
  - exists bin. rewrite lookup_insert_eq. split; [done|]. by exists c, (w_sql w1), d'.
  - rewrite lookup_insert_ne by done. apply Hbins; [done|]. rewrite elem_of_cons. naive_solver.
Qed.

(** *** Pass 2 *)
Lemma does_close_on_err {B} c err msg (k : unit -> Go W (option error) B) F w :
  (err = None -> does P (k tt) F ends w) -> does P (close_on_err c err msg ≫= k) F ends w.
Proof.
  intros Hk. does_step. unfold close_on_err, on_err. destruct err; [by does_all|].
  does_step. by apply Hk.
Qed.
Lemma does_import_peer c i bins j w :
  0 <= j < replica_count inst -> at_replica srv inst i c -> collected [] bins ->
  does P (import_peer c i bins j) (fun _ _ => True) ends w.
Proof.
  intros Hj Hc Hbins. unfold import_peer.
  destruct (Hbins j Hj) as (bin & Hbin & Hexp); [set_solver|]. rewrite Hbin. cbn.
  destruct (Z.eqb_spec j i) as [|Hne]; [by does_step|].
  do 4 does_step. destruct x as [peer err]. apply does_close_on_err; intros ->. destruct peer; [by does_step|].
  do 3 does_step; [setting_up|]. does_step. apply does_close_on_err; intros ->.
  do 3 does_step; [setting_up|]. does_step. apply does_close_on_err; intros ->.
  do 3 does_step; [setting_up|]. do 1 does_step. unfold close_on_err. by does_all.
Qed.
Lemma does_import_certificates u p bins i w :
  0 <= i < replica_count inst -> collected [] bins ->
  does P (import_certificates factory o u p (replica_count inst) bins i) (fun _ _ => True) ends w.
Proof.
  intros Hi Hbins. unfold import_certificates. rewrite same_servers. does_step.
  apply does_connectToSQL; [intros; by does_step|]. intros c d Hc. split; [done|]. does_step.
  apply does_for_each_in; [|intros w1; by do 5 does_step].
  intros j w1 Hj%elem_of_seqZ. apply does_import_peer; [lia|by split|done].
Qed.

Lemma runs_distribute {R} :
  runs P (fun _ => True) (distributeCertificatesToSQL factory o inst : Go W R _).
Proof.
  intros w. unfold distributeCertificatesToSQL. do 2 does_step.
  eapply (runs_does _ (fun _ => True)); [| |done].
  { unfold replica_login. runs_auto. }
  intros [u p] w1 _. does_step.
  apply (does_fold_each (fun js bins _ =>
    collected js bins /\ Forall (fun j => 0 <= j < replica_count inst) js)).
  - split; [|apply Forall_seqZ; lia]. intros j Hj []. rewrite elem_of_seqZ. lia.
  - intros j js bins w2 [Hbins [Hj Hjs]%Forall_cons].
    eapply does_post; [by apply does_collect_certificate| |done]. by intros.
  - intros bins w2 [Hbins _]. does_step.
    apply does_for_each_in; [|intros w3; by does_step].
    intros i w3 Hi%elem_of_seqZ. apply does_import_certificates; [lia|done].
Qed.
End Distribute.
End Setup.
End SQLServerSetup.
