(* ===== verification/SQLServerController.v ===== *)
(** * The SQLServer controller
    (internal/controller/sqlserver_controller.go, sqlserver_managed_ag.go)

    An external server is probed; a managed one is deployed first: its
    infrastructure, in cluster mode its certificates and the AvailabilityGroup
    object whose own controller creates and follows the group, then the probe of
    the primary. *)
From stdpp Require Import list_numbers.
From S2P Require Import Prelude Types SqlClient Kube Helpers SQLServerResources SQLServerInfra.
From S2P Require Import SQLServerCertificates.

(** common_types.go *)
Definition ReasonDeploymentProvisioning := "DeploymentProvisioning".
Definition ReasonCertificatesProvisioning := "CertificatesProvisioning".
Definition ReasonAGProvisioning := "AGProvisioning".

(** ** Status fields *)
Definition srv_status (srv : SQLServer) : SQLServerStatus := extra (o_status srv).
Definition with_srv_status (f : SQLServerStatus -> SQLServerStatus) (srv : SQLServer) : SQLServer :=
  with_extra (f (srv_status srv)) srv.
Definition set_deployed (host : string) (readyReplicas : Z) : SQLServer -> SQLServer :=
  with_srv_status (fun s => mkSQLServerStatus (srvst_ServerVersion s) (srvst_Edition s)
    (srvst_LastConnectedTime s) host (Some readyReplicas) (srvst_PrimaryReplica s)
    (srvst_CertificatesReady s)).
Definition set_external_host (host : string) : SQLServer -> SQLServer :=
  with_srv_status (fun s => mkSQLServerStatus (srvst_ServerVersion s) (srvst_Edition s)
    (srvst_LastConnectedTime s) host (srvst_ReadyReplicas s) (srvst_PrimaryReplica s)
    (srvst_CertificatesReady s)).
Definition set_primary_replica (p : string) : SQLServer -> SQLServer :=
  with_srv_status (fun s => mkSQLServerStatus (srvst_ServerVersion s) (srvst_Edition s)
    (srvst_LastConnectedTime s) (srvst_Host s) (srvst_ReadyReplicas s) p (srvst_CertificatesReady s)).
Definition set_certificates_ready (b : bool) : SQLServer -> SQLServer :=
  with_srv_status (fun s => mkSQLServerStatus (srvst_ServerVersion s) (srvst_Edition s)
    (srvst_LastConnectedTime s) (srvst_Host s) (srvst_ReadyReplicas s) (srvst_PrimaryReplica s) (Some b)).
Definition set_probed (version edition : string) (now : Z) : SQLServer -> SQLServer :=
  with_srv_status (fun s => mkSQLServerStatus version edition (Some now) (srvst_Host s)
    (srvst_ReadyReplicas s) (srvst_PrimaryReplica s) (srvst_CertificatesReady s)).

(** ** sqlserver_managed_ag.go *)
Module ManagedAG.
Import Resources.

Definition containsDot (s : string) : bool := Contains s ".".
(** The primary the group's status names, as a host to connect to. *)
Definition primary_host (srv : SQLServer) (primary : string) : string :=
  if negb (containsDot primary) then
    Sprintf "%s.%s-headless.%s.svc.cluster.local" [primary; Name (o_meta srv); Namespace (o_meta srv)]
  else primary.

Definition availability_mode (ag : ManagedAGSpec) : string :=
  match mag_AvailabilityMode ag with
  | Some m => if String.eqb m "AsynchronousCommit" then AvailabilityModeAsynchronous
              else AvailabilityModeSynchronous
  | None => AvailabilityModeSynchronous
  end.
Definition ag_replica (srv : SQLServer) (mode credsSecretName : string) (i : Z) : AGReplicaSpec :=
  let host := replicaHost srv i in
  mkAGReplicaSpec (pod_name srv i) (Sprintf "TCP://%s:%d" [host; fmt_d hadrEndpointPort]) mode
    FailoverModeManual SeedingModeAutomatic SecondaryRoleAllowAll
    (mkServerRef host (srv_Port (o_spec srv)) (mkSecretRef credsSecretName) None None).
Definition managed_ag (srv : SQLServer) (inst : InstanceSpec) (ag : ManagedAGSpec)
    (credsSecretName : string) : AvailabilityGroup :=
  mkObject (new_meta (Name (o_meta srv) +:+ "-ag") (Namespace (o_meta srv)) ∅)
    (mkAvailabilityGroupSpec (default (Name (o_meta srv) +:+ "-ag") (mag_AGName ag))
      (map (ag_replica srv (availability_mode ag) credsSecretName) (seqZ 0 (replica_count inst)))
      [] None (Some "Secondary") (Some false) (Some "None") (mag_AutoFailover ag)
      (mag_HealthCheckInterval ag) (mag_FailoverCooldown ag))
    (mkStatus [] 0 (mkAvailabilityGroupStatus "" [] [] None 0 None 0 0 "")).

Section Functions.
Context `{GoEnv} {K D Conn : Type} `{KubeClient K} `{SQLClient Conn D} `{KubeUtil}.
Abbreviation M R A := (Go (World K D Conn) R A).

(** The Secret the group's controller reads, made from the SA password. *)
Definition ensureSACredentialsSecret {R} (srv : SQLServer) (inst : InstanceSpec) (secretName : string)
    : M R (option error) :=
  r ← Get KSecret (mkKey (Namespace (o_meta srv)) secretName);
  match r with
  | inl _ => mret None  (* Already exists *)
  | inr err =>
      if negb (IsNotFound err) then mret (Some err)
      else
        r ← getCredentialsFromSAPasswordSecret (Namespace (o_meta srv)) (sec_Name (inst_SAPasswordSecret inst));
        match r with
        | inr err => mret (Some (ErrWrap "failed to read SA password" err))
        | inl (_, password) =>
            match SetControllerReference (o_meta srv)
                    (new_meta secretName (Namespace (o_meta srv)) (instanceLabels srv)) with
            | inr err => mret (Some err)
            | inl m =>
                r ← Create KSecret (mkObject m (<["username" := "sa"]> (<["password" := password]> ∅)) tt);
                mret (err_of r)
            end
        end
  end.

(** The name of the credentials of the group's replicas. *)
Definition group_credentials {R} (srv : SQLServer) (inst : InstanceSpec) : M R (string + error) :=
  match srv_CredentialsSecret (o_spec srv) with
  | Some s => mret (inl (xsec_Name s))
  | None =>
      if String.eqb (sec_Name (inst_SAPasswordSecret inst)) "" then mret (inl "")
      else
        let name := Name (o_meta srv) +:+ "-sa-credentials" in
        err ← ensureSACredentialsSecret srv inst name;
        match err with
        | Some e => mret (inr (ErrWrap "failed to ensure SA credentials secret" e))
        | None => mret (inl name)
        end
  end.

Definition create_managed_ag {R} (srv : SQLServer) (inst : InstanceSpec) (ag : ManagedAGSpec)
    : M R (option error) :=
  r ← group_credentials srv inst;
  match r with
  | inr err => mret (Some err)
  | inl credsSecretName =>
      let agCR := managed_ag srv inst ag credsSecretName in
      match SetControllerReference (o_meta srv) (o_meta agCR) with
      | inr err => mret (Some (ErrWrap "failed to set owner reference on AG CRD" err))
      | inl m =>
          r ← Create KAvailabilityGroup (with_meta m agCR);
          match r with
          | inr err => mret (Some (ErrWrap "failed to create AvailabilityGroup CRD" err))
          | inl _ =>
              Event "Normal" "AGCRDCreated"
                (Sprintf "AvailabilityGroup CRD %s created for managed cluster" [Name (o_meta srv) +:+ "-ag"]) ;;
              mret None
          end
      end
  end.

(** The SQLServer with the primary the group reports, and the error. *)
Definition reconcileManagedAG {R} (srv : SQLServer) (inst : InstanceSpec)
    : M R (SQLServer * option error) :=
  if replica_count inst <=? 1 then mret (srv, None)
  else
    match inst_AvailabilityGroup inst with
    | None => mret (srv, None)
    | Some ag =>
        r ← Get KAvailabilityGroup (mkKey (Namespace (o_meta srv)) (Name (o_meta srv) +:+ "-ag"));
        match r with
        | inl existingAG =>
            let p := ag_PrimaryReplica (extra (o_status existingAG)) in
            mret (if String.eqb p "" then srv else set_primary_replica (primary_host srv p) srv, None)
        | inr err =>
            if negb (IsNotFound err) then mret (srv, Some (ErrWrap "failed to check AG CRD" err))
            else err ← create_managed_ag srv inst ag; mret (srv, err)
        end
    end.
End Functions.
End ManagedAG.

(** ** sqlserver_controller.go *)
Module SQLServerCtl.
Import Resources Infra Certificates ManagedAG.
Section Controller.
Context `{GoEnv} {K D Conn : Type} `{KubeClient K} `{SQLClient Conn D} `{KubeUtil} `{Quantities} `{Crypto}.
Variable factory : ClientFactory Conn D.
Abbreviation M A := (Go (World K D Conn) ReconcileResult A).

Definition setConditionAndReturn (srv : SQLServer) (status reason message : string) : M ReconcileResult :=
  try_write (StatusPatch KSQLServer srv (with_ready status reason message srv)) ;;
  return_ (Result0, None).

(** Connect, ping, gather and report; [base] is the object the patch is against. *)
Definition report_connected (srv base : SQLServer) (host : string) (c : Conn) : M ReconcileResult :=
  err ← sql c "Ping" [] Ping;
  on_err err (fun e =>
    Event EventTypeWarning ReasonConnectionFailed (err_text e) ;;
    fail "failed to ping SQL Server" e) ;;
  ' (version, _) ← sql c "GetServerVersion" [] GetServerVersion;
  ' (edition, _) ← sql c "GetServerEdition" [] GetServerEdition;
  now ← Now;
  let srv := with_ready ConditionTrue ReasonReady
               (Sprintf "Connected to %s (%s)" [host; version]) (set_probed version edition now srv) in
  try_write (StatusPatch KSQLServer base srv) ;;
  Metric "ReconcileTotal" ["SQLServer"; "success"] Inc ;;
  Metric "SQLServerConnected" [Name (o_meta srv); Namespace (o_meta srv); host] (SetTo 1) ;;
  d ← requeueWithJitter (60 * Second);
  return_ (RequeueIn d, None).

Definition probe_connect (srv base : SQLServer) (host username password : string) : M ReconcileResult :=
  r ← connectToSQL (instance_ref srv host) username password factory;
  match r with
  | inr err =>
      Event EventTypeWarning ReasonConnectionFailed (err_text err) ;;
      Metric "SQLServerConnected" [Name (o_meta srv); Namespace (o_meta srv); host] (SetTo 0) ;;
      fail "failed to connect to SQL Server" err
  | inl c => defer_ (sql c "Close" [] Close ;; mret tt) (report_connected srv base host c)
  end.

Definition probeAndUpdateStatus (srv base : SQLServer) (host : string) : M ReconcileResult :=
  let after_credentials r :=
    match r with
    | inr err =>
        setConditionAndReturn srv ConditionFalse
          (if IsNotFound err then ReasonSecretNotFound else ReasonInvalidCredentialsSecret) (err_text err)
    | inl (username, password) => probe_connect srv base host username password
    end in
  match srv_CredentialsSecret (o_spec srv), srv_Instance (o_spec srv) with
  | Some s, _ =>
      r ← getCredentialsFromSecret (default (Namespace (o_meta srv)) (xsec_Namespace s)) (xsec_Name s);
      after_credentials r
  | None, Some inst =>
      r ← getCredentialsFromSAPasswordSecret (Namespace (o_meta srv)) (sec_Name (inst_SAPasswordSecret inst));
      after_credentials r
  | None, None =>
      setConditionAndReturn srv ConditionFalse ReasonSecretNotFound
        "credentialsSecret is required for SqlLogin auth in external mode"
  end.

Definition reconcileExternal (srv : SQLServer) : M ReconcileResult :=
  let auth := srv_AuthMethod (o_spec srv) in
  if negb (String.eqb auth AuthSqlLogin) && negb (String.eqb auth "") then
    setConditionAndReturn srv ConditionFalse "UnsupportedAuthMethod"
      (Sprintf "Authentication method %s is not yet supported" [auth])
  else probeAndUpdateStatus (set_external_host (srv_Host (o_spec srv)) srv) srv (srv_Host (o_spec srv)).

(** [if err := f(); err != nil { return ctrl.Result{}, fmt.Errorf(msg: %w, err) }]. *)
Definition or_fail (m : M (option error)) (msg : string) : M unit :=
  err ← m; on_err err (fail msg).
(** A status that reports what is still missing, and the next attempt. *)
Definition report_provisioning (srv base : SQLServer) (reason message : string) (after : Z)
    : M ReconcileResult :=
  try_write (StatusPatch KSQLServer base (with_ready ConditionFalse reason message srv)) ;;
  return_ (RequeueIn after, None).

(** Phase 1. *)
Definition reconcile_infrastructure (srv : SQLServer) (inst : InstanceSpec) : M unit :=
  or_fail (reconcileConfigMap srv inst) "failed to reconcile config" ;;
  or_fail (reconcileHeadlessService srv inst) "failed to reconcile headless service" ;;
  or_fail (reconcileClientService srv inst) "failed to reconcile client service" ;;
  when (1 <? replica_count inst) (
    or_fail (reconcileReadOnlyService srv inst) "failed to reconcile read-only service") ;;
  or_fail (reconcileStatefulSet srv inst) "failed to reconcile statefulset".

(** The message of a deployment in progress dereferences [spec.instance.replicas]. *)
Definition report_not_ready (srv base : SQLServer) (inst : InstanceSpec) (readyReplicas : Z)
    : M ReconcileResult :=
  match inst_Replicas inst with
  | None => panic "invalid memory address or nil pointer dereference"
  | Some n =>
      report_provisioning srv base ReasonDeploymentProvisioning
        (Sprintf "StatefulSet not ready: %d/%d replicas" [fmt_d readyReplicas; fmt_d n]) (5 * Second)
  end.

(** Phase 2, in cluster mode: the SQLServer with its certificates in place. *)
Definition provision_certificates (srv base : SQLServer) (inst : InstanceSpec) : M SQLServer :=
  r ← reconcileCertificates srv inst;
  match r with
  | inr err => fail "failed to reconcile certificates" err
  | inl certsReady =>
      let srv := set_certificates_ready certsReady srv in
      if negb certsReady then
        x ← report_provisioning srv base ReasonCertificatesProvisioning
              "Waiting for HADR certificates" (5 * Second);
        return_ x
      else
        err ← distributeCertificatesToSQL factory srv inst;
        match err with
        | Some _ => return_ (RequeueIn (10 * Second), None)
        | None => mret srv
        end
  end.

(** Phase 3, in cluster mode: the SQLServer with the primary of its group. *)
Definition provision_group (srv base : SQLServer) (inst : InstanceSpec) : M SQLServer :=
  ' (srv, err) ← reconcileManagedAG srv inst;
  match err with
  | Some e =>
      x ← report_provisioning srv base ReasonAGProvisioning
            (Sprintf "AG provisioning: %s" [err_text e]) (10 * Second);
      return_ x
  | None => mret srv
  end.

(** Phase 4: the SQLServer and the base of the next patch. The object decoded
    from the answer to the patch is used from here on; labelling dereferences
    its [spec.instance], and its error is only logged. *)
Definition label_replicas (srv base : SQLServer) : M (SQLServer * SQLServer) :=
  if String.eqb (srvst_PrimaryReplica (srv_status srv)) "" then mret (srv, base)
  else
    srv ← try_write (StatusPatch KSQLServer base srv);
    match srv_Instance (o_spec srv) with
    | None => panic "invalid memory address or nil pointer dereference"
    | Some inst =>
        reconcileReplicaRoleLabels srv inst (srvst_PrimaryReplica (srv_status srv)) ;;
        mret (srv, srv)
    end.

(** Phase 5: whom to probe. *)
Definition probe_host (srv : SQLServer) (inst : InstanceSpec) : string :=
  if 1 <? replica_count inst then
    let p := srvst_PrimaryReplica (srv_status srv) in
    if String.eqb p "" then replicaHost srv 0 else p
  else managedHost srv.

(** From Phase 2 on. *)
Definition reconcile_deployed (srv base : SQLServer) (inst : InstanceSpec) : M ReconcileResult :=
  srv ← (if 1 <? replica_count inst then
           srv ← provision_certificates srv base inst; provision_group srv base inst
         else mret srv);
  ' (srv, base) ← label_replicas srv base;
  probeAndUpdateStatus srv base (probe_host srv inst).

Definition deploy (srv : SQLServer) (inst : InstanceSpec) : M ReconcileResult :=
  reconcile_infrastructure srv inst ;;
  r ← isStatefulSetReady srv inst;
  match r with
  | inr err => fail "failed to check statefulset readiness" err
  | inl (ready, readyReplicas) =>
      let srv' := set_deployed (managedHost srv) readyReplicas srv in
      if negb ready then report_not_ready srv' srv inst readyReplicas
      else reconcile_deployed srv' srv inst
  end.

Definition reconcileManaged (srv : SQLServer) (inst : InstanceSpec) : M ReconcileResult :=
  if negb (ContainsFinalizer (o_meta srv) Finalizer) then
    try_write (Update KSQLServer (with_meta (AddFinalizer (o_meta srv) Finalizer) srv)) ;;
    return_ (mkResult true 0, None)
  else
    match DeletionTimestamp (o_meta srv) with
    | Some _ =>
        try_write (Update KSQLServer (with_meta (RemoveFinalizer (o_meta srv) Finalizer) srv)) ;;
        return_ (Result0, None)
    | None => deploy srv inst
    end.

Definition Reconcile (req : NamespacedName) : M ReconcileResult :=
  _ ← Now;
  defer_ (_ ← Now; Metric "ReconcileDuration" ["SQLServer"] Observed) (
    r ← Get KSQLServer req;
    match r with
    | inr err => if IsNotFound err then return_ (Result0, None) else return_ (Result0, Some err)
    | inl srv =>
        match srv_Instance (o_spec srv) with
        | Some inst => reconcileManaged srv inst
        | None => reconcileExternal srv
        end
    end).

(** [mapSecretToSQLServers]: over every namespace. *)
Definition mapSecretToSQLServers (secret : Secret) : M (list NamespacedName) :=
  r ← List_ KSQLServer None ∅;
  match r with
  | inr _ => mret []
  | inl items =>
      mret (requests_of (k := KSQLServer) o_meta (fun srv =>
        match srv_CredentialsSecret (o_spec srv) with
        | Some s => String.eqb (xsec_Name s) (Name (o_meta secret)) &&
                    String.eqb (default (Namespace (o_meta srv)) (xsec_Namespace s)) (Namespace (o_meta secret))
        | None => false
        end) items)
  end.
End Controller.
End SQLServerCtl.
