(* ===== verification/SQLServerTheorems.v ===== *)
(** * What a reconcile of an SQLServer does

    The actions of every function of the controller, the evidence behind
    Ready=True, and the certificates the replicas exchange. *)
From stdpp Require Import list_numbers.
From S2P Require Import Prelude Types SqlClient Kube Helpers SQLServerResources SQLServerInfra.
From S2P Require Import SQLServerCertificates SQLServerSetup SQLServerController.

Module SQLServerSpec.
Import Resources Infra Certificates SQLServerSetup ManagedAG SQLServerCtl.

(** ** The actions of a reconcile *)
Definition updated_kinds : list Kind := [KSQLServer; KConfigMap; KService; KStatefulSet].
Definition created_kinds : list Kind := [KConfigMap; KService; KStatefulSet; KSecret; KAvailabilityGroup].
(** The object is in the namespace of [srv], which is its controller. *)
Definition owned_by (srv : SQLServer) (m : ObjectMeta) : Prop :=
  Namespace m = Namespace (o_meta srv) /\ mkOwner (Name (o_meta srv)) true ∈ OwnerReferences m.

Section Actions.
Context `{GoEnv} {K D Conn : Type} `{KubeClient K} `{SQLClient Conn D}.
Definition srv_action (factory : ClientFactory Conn D) (srv : SQLServer)
    (C : SQLServer -> SQLServer -> D -> Prop) (a : Action Conn) (d : D) : Prop :=
  match a with
  | AUpdate k o => k ∈ updated_kinds
  | ACreate k o => k ∈ created_kinds /\ owned_by srv (obj_meta k o)
  | APatch k _ _ => k = KPod
  | AStatusPatch k _ _ => k = KSQLServer /\ ready_claim KSQLServer C a d
  | ASql c m args => sql_call factory srv c m args d
  | AConnect _ _ _ _ _ _ | AEvent _ _ _ | AMetric _ _ _ => True
  | ADelete _ _ => False
  end.
End Actions.

Lemma in_kinds (k : Kind) (l : list Kind) : bool_decide (k ∈ l) = true -> k ∈ l.
Proof. apply bool_decide_eq_true_1. Qed.
Ltac permit ::= first [ done | by apply in_kinds | by left ].

Section Spec.
Context `{GoEnv} {K D Conn : Type} `{KubeClient K} `{SQLClient Conn D} `{KubeUtil} `{Quantities} `{Crypto}.
Context `{!KubeUtilLaws}.
Variable factory : ClientFactory Conn D.
Abbreviation W := (World K D Conn).

(** A run seen from its end. *)
Lemma does_self {R A} P (m : Go W R A) (F : A -> W -> Prop) (E : R -> W -> Prop) w :
  does P m F E w ->
  does P m (fun a w' => F a w' /\ m w = (Next a, w')) E w.
Proof.
  intros Hd. apply does_intro. intros o w' Hrun.
  destruct (does_run _ _ _ _ _ _ _ Hd Hrun) as (Hl & Ht & Ho). split; [done|]. split; [done|].
  destruct o; [|done|done]. by split.
Qed.
Lemma runs_self {R A} P (F : A -> Prop) (m : Go W R A) w :
  runs P F m -> does P m (fun a w' => F a /\ m w = (Next a, w')) (fun _ _ => True) w.
Proof. intros Hm. eapply does_post; [apply does_self, Hm| |]; done. Qed.

Section Functions.
Variables (srv : SQLServer) (C : SQLServer -> SQLServer -> D -> Prop).
Abbreviation P := (srv_action factory srv C).
Abbreviation T := (fun _ => True).

Lemma owned_reference m m' :
  SetControllerReference (o_meta srv) m = inl m' ->
  Namespace m = Namespace (o_meta srv) -> owned_by srv m'.
Proof.
  intros Hs Hn. apply SetControllerReference_spec in Hs as [-> Ho]. by split.
Qed.

(** *** Infrastructure *)
Lemma runs_ensure {R Sp St} wrap (get : NamespacedName -> Go W R (Object Sp St + error))
    create write desired update :
  (forall key, runs P T (get key)) ->
  (forall o, owned_by srv (o_meta o) -> runs P T (create o)) -> (forall o, runs P T (write o)) ->
  Namespace (o_meta desired) = Namespace (o_meta srv) ->
  runs P T (ensure srv wrap get create write desired update).
Proof.
  intros Hget Hcreate Hwrite Hn. unfold ensure.
  destruct (SetControllerReference _ _) as [m|] eqn:Hm; [|by apply runs_ret].
  apply runs_bind; [done|]. intros [existing|err].
  - destruct (needed _); [|by apply runs_ret].
    apply runs_bind; [done|]. intros; by apply runs_ret.
  - destruct (IsNotFound err); [|by apply runs_ret].
    apply runs_bind; [|intros; by apply runs_ret]. apply Hcreate. by eapply owned_reference.
Qed.
Ltac ensured := apply runs_ensure; [intros; by runs_auto| | intros; by runs_auto | done];
  intros ? [? ?]; unfold Create; apply runs_bind; [|intros; by runs_auto];
  apply runs_logged; [intros; split; [by apply in_kinds|done]|done].

Lemma runs_reconcileConfigMap {R} inst : runs (R := R) P T (reconcileConfigMap srv inst : Go W R _).
Proof. unfold reconcileConfigMap. ensured. Qed.
Lemma runs_reconcileHeadlessService {R} inst :
  runs P T (reconcileHeadlessService srv inst : Go W R _).
Proof. unfold reconcileHeadlessService. ensured. Qed.
Lemma runs_reconcileClientService {R} inst : runs P T (reconcileClientService srv inst : Go W R _).
Proof. unfold reconcileClientService. ensured. Qed.
Lemma runs_reconcileReadOnlyService {R} inst :
  runs P T (reconcileReadOnlyService srv inst : Go W R _).
Proof. unfold reconcileReadOnlyService. ensured. Qed.
Lemma runs_reconcileStatefulSet {R} inst :
  is_Some (ParseQuantity (default "10Gi" (inst_StorageSize inst))) ->
  runs P T (reconcileStatefulSet srv inst : Go W R _).
Proof.
  intros [q Hq] w. unfold reconcileStatefulSet, desiredStatefulSet, MustParse. rewrite Hq.
  do 4 does_step. revert w. ensured.
Qed.

Lemma runs_reconcileReplicaRoleLabels {R} o inst p :
  runs (R := R) P T (reconcileReplicaRoleLabels o inst p : Go W R _).
Proof. unfold reconcileReplicaRoleLabels, label_pod. runs_auto. Qed.

(** *** Secrets *)
Lemma runs_create_secret {A} name data wrap :
  runs P T (create_secret srv name data wrap : Go W (A + error) _).
Proof.
  intros w. unfold create_secret, try_pure, try. do 2 does_step.
  destruct (SetControllerReference _ _) as [m|] eqn:Hm; [|by does_all].
  do 6 does_step; [|by does_all]. split; [by apply in_kinds|]. by apply (owned_reference _ _ Hm).
Qed.
Ltac runs_secrets := repeat first
  [ runs_step | runs_helper | apply runs_create_secret
  | progress unfold try, try_pure, generate_ca, parse_ca, generate_replica_cert ].
Lemma runs_ensureCASecret {R} name : runs P T (ensureCASecret srv name : Go W R _).
Proof. unfold ensureCASecret. runs_secrets. Qed.
(** The nil certificates are not reached: their mode would be self-signed. *)
Lemma runs_reconcileCertificates {R} inst : runs P T (reconcileCertificates srv inst : Go W R _).
Proof.
  unfold reconcileCertificates, reconcileSelfSignedCerts, reconcileCertManagerCerts, certificate_mode.
  runs_secrets; try apply runs_ensureCASecret. done.
Qed.

(** *** The servers *)
Lemma runs_distributeCertificatesToSQL {R} o inst :
  srv_Instance (o_spec srv) = Some inst -> o_meta o = o_meta srv -> o_spec o = o_spec srv ->
  runs P T (distributeCertificatesToSQL factory o inst : Go W R _).
Proof.
  intros Hi Hm Hs. apply (runs_distribute _ srv); [done..|].
  intros i. unfold instance_ref, replicaHost. by rewrite Hm, Hs.
Qed.

(** *** The group *)
Lemma runs_create_managed_ag {R} inst ag : runs P T (create_managed_ag srv inst ag : Go W R _).
Proof.
  unfold create_managed_ag, group_credentials, ensureSACredentialsSecret.
  runs_auto; split; try (by apply in_kinds); by eapply owned_reference.
Qed.
End Functions.

(** ** Ready=True *)
(** The server at [host] was reached with the connection [o] describes, pinged
    and asked for its version and edition, which are those of [o]'s status. *)
Definition probed (o : SQLServer) (host : string) (d : D) : Prop :=
  exists c d0 d1 v d2 e,
    connected factory (instance_ref o host) c /\ Ping c d0 = (None, d1) /\
    GetServerVersion c d1 = (v, d2) /\ GetServerEdition c d2 = (e, d) /\
    srvst_ServerVersion (srv_status o) = v.1 /\ srvst_Edition (srv_status o) = e.1.
(** The same object with the same conditions, other status fields aside. *)
Definition same_object (a b : SQLServer) : Prop := o_meta a = o_meta b /\ o_spec a = o_spec b.
Definition same_conditions (a b : SQLServer) : Prop :=
  same_object a b /\ Conditions (o_status a) = Conditions (o_status b).
(** The StatefulSet was read with as many ready replicas as [inst] asks for. *)
Definition deployed (srv : SQLServer) (inst : InstanceSpec) : Prop :=
  exists sts s s', kube_Get KStatefulSet (key_of srv) s = (inl sts, s') /\
    replica_count inst <= sts_ReadyReplicas (o_status sts).
(** A distribution of the certificates of [srv] succeeded. *)
Definition distributed (srv : SQLServer) (inst : InstanceSpec) : Prop :=
  exists o (w1 w2 : W), same_object o srv /\
    distributeCertificatesToSQL (R := ReconcileResult) factory o inst w1 = (Next None, w2).
(** Ready=True is what [base] already said, or it is what the probe found. *)
Definition ready_evidence (srv : SQLServer) (base o : SQLServer) (d : D) : Prop :=
  Conditions (o_status o) = Conditions (o_status base) \/
  exists host, probed o host d /\
    match srv_Instance (o_spec srv) with
    | None => host = srv_Host (o_spec srv)
    | Some inst =>
        deployed srv inst /\ (1 < replica_count inst -> distributed srv inst) /\
        host = probe_host o inst
    end.

Section Controller.
Variable srv : SQLServer.
Abbreviation P := (srv_action factory srv (ready_evidence srv)).
Abbreviation ends_well := (fun (_ : ReconcileResult) (_ : W) => True).

Lemma may_report base o r m d :
  P (AStatusPatch KSQLServer base (with_ready ConditionFalse r m o)) d.
Proof. split; [done|]. apply ready_claim_patch. intros Hr.
  by apply (is_ready_with ConditionFalse r m o) in Hr. Qed.

Lemma does_setConditionAndReturn o r m w :
  does P (setConditionAndReturn o ConditionFalse r m) (fun _ _ => False) ends_well w.
Proof. unfold setConditionAndReturn. does_all; try done. apply may_report. Qed.
Lemma does_report_provisioning o base r m t w :
  does P (report_provisioning o base r m t) (fun _ _ => False) ends_well w.
Proof. unfold report_provisioning. does_all; try done. apply may_report. Qed.

(** *** The probe *)
(** Whatever is reported of [o] is evidence, once probed. *)
Definition claims (o : SQLServer) (host : string) : Prop :=
  forall base o' d, same_object o' o ->
    srvst_PrimaryReplica (srv_status o') = srvst_PrimaryReplica (srv_status o) ->
    probed o' host d -> ready_evidence srv base o' d.
Lemma does_report_connected o base host c w :
  connected factory (instance_ref o host) c -> claims o host ->
  does P (report_connected o base host c) (fun _ _ => False) ends_well w.
Proof.
  intros Hc Hclaim. unfold report_connected. do 4 does_step.
  destruct x as [e|]; unfold on_err, fail; do 2 does_step; [by do 2 does_step|].
  do 4 does_step. destruct x as [v verr]. do 4 does_step.
  destruct x as [ed ederr]. do 2 does_step. unfold try_write. do 4 does_step.
  { split; [done|]. apply ready_claim_patch. intros _. apply Hclaim; [done..|].
    exists c, (w_sql w), d', (v, verr), d'0, (ed, ederr). by split_and!. }
  does_all; [|done]. apply does_requeueWithJitter; [by vm_compute|]. intros. by does_step.
Qed.
Lemma does_probe_connect o base host u p w :
  claims o host -> does P (probe_connect factory o base host u p) (fun _ _ => False) ends_well w.
Proof.
  intros Hclaim. unfold probe_connect. does_step.
  apply does_connectToSQL; [intros; by does_all|]. intros c d' Hc. split; [done|].
  does_step. eapply does_post; [by apply does_report_connected|done|]. intros; by does_all.
Qed.
Lemma does_probeAndUpdateStatus o base host w :
  claims o host -> does P (probeAndUpdateStatus factory o base host) (fun _ _ => False) ends_well w.
Proof.
  intros Hclaim. unfold probeAndUpdateStatus.
  destruct (srv_CredentialsSecret _); [|destruct (srv_Instance _)];
    [does_step; does_helper|does_step; does_helper|apply does_setConditionAndReturn];
    (destruct r as [[u p]|err]; [by apply does_probe_connect|apply does_setConditionAndReturn]).
Qed.
Lemma does_reconcileExternal w :
  srv_Instance (o_spec srv) = None ->
  does P (reconcileExternal factory srv) (fun _ _ => False) ends_well w.
Proof.
  intros Hi. unfold reconcileExternal. destruct (_ && _); [apply does_setConditionAndReturn|].
  apply does_probeAndUpdateStatus. intros base o d _ _ Hp. right. exists (srv_Host (o_spec srv)).
  by rewrite Hi.
Qed.

(** *** Managed instances *)
Lemma runs_same {R A} o (F : A -> Prop) (m : Go W R A) :
  same_object o srv -> runs (srv_action factory o (ready_evidence srv)) F m -> runs P F m.
Proof.
  intros [Hm Hs] Hr w. eapply does_mono; [apply Hr| |done|done]. intros a d.
  unfold srv_action, owned_by. rewrite Hm. destruct a; auto. by apply sql_call_same.
Qed.
Lemma probe_host_same o' o inst :
  same_object o' o -> srvst_PrimaryReplica (srv_status o') = srvst_PrimaryReplica (srv_status o) ->
  probe_host o' inst = probe_host o inst.
Proof. intros [Hm _] Hp. unfold probe_host, replicaHost, managedHost. by rewrite Hm, Hp. Qed.

Lemma does_reconcileManagedAG o inst w :
  same_object o srv ->
  does P (reconcileManagedAG o inst) (fun r _ => same_conditions r.1 o) ends_well w.
Proof.
  intros [Hm Hs]. unfold reconcileManagedAG. destruct (_ <=? _); [by does_step|].
  destruct (inst_AvailabilityGroup inst) as [ag|]; [|by does_step]. do 2 does_step.
  destruct x as [g|err]; [does_step; by case_match|]. destruct (negb _); [by does_step|].
  does_step. eapply runs_does; [by apply (runs_same o), runs_create_managed_ag| |done].
  intros; by does_step.
Qed.

Section Managed.
Variables (inst : InstanceSpec) (Hinst : srv_Instance (o_spec srv) = Some inst).
(** A status patch does not turn a managed SQLServer into an external one. *)
Hypothesis mode_kept : forall base o s o' s',
  kube_StatusPatch KSQLServer base o s = (inl o', s') ->
  is_Some (srv_Instance (o_spec o)) -> is_Some (srv_Instance (o_spec o')).

Lemma does_provision_certificates o base w :
  same_conditions o srv ->
  does P (provision_certificates factory o base inst)
    (fun o' _ => same_conditions o' srv /\ distributed srv inst) ends_well w.
Proof.
  intros [[Hm Hs] Hc]. unfold provision_certificates. does_step.
  eapply runs_does; [by apply (runs_same o); [..|apply runs_reconcileCertificates]| |done].
  intros [ready|err] w1 _; [|unfold fail; by does_step]. destruct (negb ready).
  - does_step. eapply does_post; [apply does_report_provisioning|done|done].
  - does_step. eapply does_post; [by apply runs_self, runs_distributeCertificatesToSQL| |done].
    intros [e|] w2 [_ Hrun]; does_step; [done|]. split; [done|].
    by exists (set_certificates_ready ready o), w1, w2.
Qed.
Lemma does_provision_group o base w :
  same_conditions o srv ->
  does P (provision_group o base inst) (fun o' _ => same_conditions o' srv) ends_well w.
Proof.
  intros [[Hm Hs] Hc]. unfold provision_group. does_step.
  eapply does_post; [by apply does_reconcileManagedAG| |done].
  intros [o' [e|]] w1 [[Hm' Hs'] Hc']; cbn in *.
  - does_step. eapply does_post; [apply does_report_provisioning|done|done].
  - does_step. split; [split|]; congruence.
Qed.
Lemma does_label_replicas o w :
  same_conditions o srv ->
  does P (label_replicas o srv) (fun _ _ => True) ends_well w.
Proof.
  intros [[Hm Hs] Hc]. unfold label_replicas. destruct (String.eqb _ ""); [by does_step|].
  unfold try_write. do 4 does_step.
  { split; [done|]. apply ready_claim_patch. by left. }
  does_step. destruct x as [o'|e]; [|by does_step]. does_step.
  destruct (mode_kept _ _ _ _ _ H6) as [inst' ->]; [by rewrite Hs, Hinst|]. does_step.
  eapply runs_does; [apply runs_reconcileReplicaRoleLabels| |done]. intros; by does_step.
Qed.

Lemma does_reconcile_deployed o w :
  same_conditions o srv -> deployed srv inst ->
  does P (reconcile_deployed factory o srv inst) (fun _ _ => False) ends_well w.
Proof.
  intros Ho Hdep. unfold reconcile_deployed. does_step.
  assert (Hrest : forall o1 w1, same_conditions o1 srv ->
    (1 < replica_count inst -> distributed srv inst) ->
    does P (' (srv', base) ← label_replicas o1 srv;
            probeAndUpdateStatus factory srv' base (probe_host srv' inst))
      (fun _ _ => False) ends_well w1).
  { intros o1 w1 Ho1 Hdist. does_step. eapply does_post; [by apply does_label_replicas| |done].
    intros [o2 base] w2 _. apply does_probeAndUpdateStatus. intros base' o' d Hsame Hp Hprobed.
    right. exists (probe_host o2 inst). split; [done|]. rewrite Hinst. split_and!; [done..|].
    by rewrite (probe_host_same o' o2). }
  destruct (Z.ltb_spec 1 (replica_count inst)); [|does_step; apply Hrest; [done|lia]].
  does_step. eapply does_post; [by apply does_provision_certificates| |done].
  intros o1 w1 [Ho1 Hd]. eapply does_post; [by apply does_provision_group| |done].
  intros o2 w2 Ho2. by apply Hrest.
Qed.

(** The storage size parses and the number of replicas is given. *)
Definition deployable : Prop :=
  is_Some (ParseQuantity (default "10Gi" (inst_StorageSize inst))) /\ is_Some (inst_Replicas inst).
Lemma does_or_fail m msg (F : unit -> W -> Prop) w :
  runs P (fun _ => True) m -> (forall w', F tt w') -> does P (or_fail m msg) F ends_well w.
Proof.
  intros Hm HF. unfold or_fail. does_step. eapply runs_does; [exact Hm| |done].
  intros [e|] w' _; unfold on_err, fail; does_step; auto.
Qed.
Lemma does_deploy w : deployable -> does P (deploy factory srv inst) (fun _ _ => False) ends_well w.
Proof.
  intros [Hq [n Hn]]. unfold deploy, reconcile_infrastructure. do 2 does_step.
  apply does_or_fail; [apply runs_reconcileConfigMap|]. intros w1. does_step.
  apply does_or_fail; [apply runs_reconcileHeadlessService|]. intros w2. does_step.
  apply does_or_fail; [apply runs_reconcileClientService|]. intros w3. does_step.
  apply (runs_does _ (fun _ => True)); [|intros [] w4 _|done].
  { unfold when. destruct (1 <? _); [|by runs_auto]. intros w4.
    apply does_or_fail; [apply runs_reconcileReadOnlyService|done]. }
  apply does_or_fail; [by apply runs_reconcileStatefulSet|]. intros w5.
  unfold isStatefulSetReady. do 3 does_step. destruct x as [sts|err]; does_step; [|unfold fail; by does_step].
  destruct (Z.leb_spec (replica_count inst) (sts_ReadyReplicas (o_status sts))).
  - apply does_reconcile_deployed; [done|]. by exists sts, (w_kube w5), k'.
  - unfold report_not_ready. rewrite Hn. apply does_report_provisioning.
Qed.
Lemma does_reconcileManaged w :
  deployable -> does P (reconcileManaged factory srv inst) (fun _ _ => False) ends_well w.
Proof.
  intros Hd. unfold reconcileManaged. destruct (negb _); [by does_all|].
  destruct (DeletionTimestamp _); [by does_all|by apply does_deploy].
Qed.
End Managed.
End Controller.

(** What a reconcile needs of a managed SQLServer not to panic; defaulting and
    a storage size that parses give it. *)
Definition usable (srv : SQLServer) : Prop :=
  match srv_Instance (o_spec srv) with Some inst => deployable inst | None => True end.

(** C14: reconciling an SQLServer whose storage size parses and whose number of
    replicas is given always returns, over an API server whose answer to a
    status patch is still managed. It deletes nothing, creates only objects
    of its own namespace with the SQLServer as controller, and patches only
    pods. It changes a server only over a connection to a replica: it
    creates a master key, a certificate or an endpoint just found missing
    there, or the login and the grant for a certificate it has just
    imported, which is the one the peer exported. A status it writes says
    Ready=True only as it did before or with the version and edition just
    read, after a ping, from the host of the spec or, for a managed one,
    from the primary or client host once the StatefulSet has been read with
    every replica ready and, in a cluster, a distribution of the
    certificates has succeeded. *)
Theorem server_reconcile_sound req srv w k' :
  kube_Get KSQLServer req (w_kube w) = (inl srv, k') -> usable srv ->
  (forall base o s o' s', kube_StatusPatch KSQLServer base o s = (inl o', s') ->
     is_Some (srv_Instance (o_spec o)) -> is_Some (srv_Instance (o_spec o'))) ->
  performs (srv_action factory srv (ready_evidence srv)) (Reconcile factory req) w.
Proof.
  intros Hget Husable Hmode. apply performs_intro. unfold Reconcile. do 3 does_step.
  do 2 does_step. cbn in *. rewrite Hget in *. simplify_eq.
  unfold usable in Husable. destruct (srv_Instance (o_spec srv)) as [inst|] eqn:Hinst.
  - eapply does_post; [by apply does_reconcileManaged|done|]. intros; by does_all.
  - eapply does_post; [by apply does_reconcileExternal|done|]. intros; by does_all.
Qed.
End Spec.
End SQLServerSpec.
