(* ===== verification/SQLServerObjects.v ===== *)
(** * The objects a managed SQLServer leads to

    The group it creates passes the webhook of groups, an update of its
    StatefulSet reaches what is wanted in one step, and the memory limit it
    writes stays within the container's. *)
From stdpp Require Import list_numbers.
From S2P Require Import Prelude Types SqlClient Kube Helpers SQLServerResources SQLServerInfra.
From S2P Require Import SQLServerCertificates SQLServerController.
From S2P Require Import Admission AgWebhook SQLServerWebhook.

Module ManagedObjects.
Import Resources Infra Certificates ManagedAG.

(** ** The group *)
(** The group, defaulted, is accepted by its webhook. *)
Definition ag_accepted (ag : AvailabilityGroup) : Prop :=
  accepted (@ValidateCreate _ AgWebhook.webhook (@Default KAvailabilityGroup AgWebhook.webhook ag)).
Definition group_admitted {Conn D} (a : Action Conn) (_ : D) : Prop :=
  match a with
  | ACreate k o =>
      match k return obj k -> Prop with
      | KAvailabilityGroup => fun ag => ag_accepted ag
      | _ => fun _ => True
      end o
  | _ => True
  end.

(** What defaulting and validation of the SQLServer do not ensure: a name given
    to the group or to the credentials Secret may still be empty. *)
Definition names_given (srv : SQLServer) (inst : InstanceSpec) : Prop :=
  (forall ag, inst_AvailabilityGroup inst = Some ag -> mag_AGName ag <> Some "") /\
  (forall s, srv_CredentialsSecret (o_spec srv) = Some s -> xsec_Name s <> "").

Lemma app_not_empty (a b : string) : b <> "" -> a +:+ b <> "".
Proof. destruct a; [done|by intros]. Qed.
Lemma pod_name_inj srv : Inj (=) (=) (pod_name srv).
Proof.
  intros i j Hij. unfold pod_name in Hij. cbn in Hij. apply (inj _) in Hij. cbn in Hij.
  injection Hij as Hij. rewrite !string_app_nil_r in Hij. unfold fmt_d in Hij. by apply (inj pretty).
Qed.
Lemma ag_replica_submitted srv mode creds i :
  creds <> "" -> AgWebhook.submitted_replica (ag_replica srv mode creds i).
Proof.
  intros Hc. unfold AgWebhook.submitted_replica, server_given. cbn.
  split_and!; try done; try (by apply app_not_empty). by intros [|].
Qed.

Lemma managed_ag_accepted srv inst ag creds meta :
  1 < replica_count inst -> creds <> "" -> mag_AGName ag <> Some "" ->
  ag_accepted (with_meta meta (managed_ag srv inst ag creds)).
Proof.
  intros Hn Hc Ha. apply AgWebhook.accept_create_submitted.
  unfold AgWebhook.submitted, AgWebhook.server_names, AgWebhook.database_names. cbn.
  split_and!; try done.
  - destruct (mag_AGName ag) as [n|]; cbn; [by intros ->|by apply app_not_empty].
  - rewrite length_map, length_seqZ. lia.
  - apply Forall_map, Forall_true. intros i. by apply ag_replica_submitted.
  - rewrite map_map. cbn. pose proof (pod_name_inj srv). apply (NoDup_fmap_2 (pod_name srv)), NoDup_seqZ.
  - apply NoDup_nil_2.
Qed.

Section Group.
Context `{GoEnv} {K D Conn : Type} `{KubeClient K} `{SQLClient Conn D} `{KubeUtil}.
Abbreviation W := (World K D Conn).
Abbreviation P := (group_admitted (Conn := Conn) (D := D)).

Lemma runs_group_credentials {R} srv inst :
  names_given srv inst -> sec_Name (inst_SAPasswordSecret inst) <> "" ->
  runs (R := R) P (fun r => match r with inl name => name <> "" | inr _ => True end)
    (group_credentials srv inst : Go W R _).
Proof.
  intros [_ Hnames] Hsa w. unfold group_credentials.
  destruct (srv_CredentialsSecret _) as [s|] eqn:Hs; [does_step; by apply Hnames|].
  destruct (String.eqb_spec (sec_Name (inst_SAPasswordSecret inst)) ""); [done|].
  unfold ensureSACredentialsSecret. does_all; try done; by apply app_not_empty.
Qed.
Lemma runs_create_group {R} srv inst ag :
  names_given srv inst -> sec_Name (inst_SAPasswordSecret inst) <> "" ->
  1 < replica_count inst -> inst_AvailabilityGroup inst = Some ag ->
  runs (R := R) P (fun _ => True) (create_managed_ag srv inst ag : Go W R _).
Proof.
  intros Hnames Hsa Hn Hag w. unfold create_managed_ag. does_step.
  eapply runs_does; [by apply runs_group_credentials| |done]. intros [creds|err] w1 Hc; [|by does_step].
  destruct (SetControllerReference _ _) as [m|]; [|by does_step]. do 3 does_step.
  - apply managed_ag_accepted; [done..|]. by apply Hnames.
  - by does_all.
Qed.

Lemma runs_managed_group srv inst :
  names_given srv inst -> sec_Name (inst_SAPasswordSecret inst) <> "" ->
  runs P (fun _ => True) (reconcileManagedAG srv inst : Go W ReconcileResult _).
Proof.
  intros Hnames Hsa. unfold reconcileManagedAG.
  destruct (Z.leb_spec (replica_count inst) 1); [by apply runs_ret|].
  destruct (inst_AvailabilityGroup inst) as [ag|] eqn:Hag; [|by apply runs_ret].
  apply runs_bind; [by runs_auto|]. intros [g|err]; [by apply runs_ret|].
  destruct (negb _); [by apply runs_ret|].
  apply runs_bind; [by apply runs_create_group|]. intros e. by apply runs_ret.
Qed.

(** C15: every AvailabilityGroup a managed SQLServer that passed its own webhook
    creates is accepted by the webhook of groups, provided the names given
    to the group and to the credentials Secret are not empty. *)
Theorem managed_group_admitted (srv : SQLServer) (inst : InstanceSpec) (w w' : W)
    (o : outcome ReconcileResult (SQLServer * option error)) :
  SQLServerWebhook.well_formed srv -> srv_Instance (o_spec srv) = Some inst ->
  names_given srv inst -> reconcileManagedAG srv inst w = (o, w') ->
  exists l, w_log w' = w_log w ++ l /\ Forall (fun x => group_admitted x.1 x.2) l.
Proof.
  intros Hwf Hinst Hnames Hrun. unfold SQLServerWebhook.well_formed in Hwf. rewrite Hinst in Hwf.
  destruct Hwf as (_ & _ & Hsa & _).
  by destruct (does_run _ _ _ _ _ _ _ (runs_managed_group srv inst Hnames Hsa w) Hrun).
Qed.
End Group.

(** ** The StatefulSet *)
(** What the operator keeps equal to [d] in a StatefulSet. *)
Definition agrees (inst : InstanceSpec) (d e : StatefulSet) : Prop :=
  sts_Replicas (o_spec e) = sts_Replicas (o_spec d) /\ scheduling e = scheduling d /\
  exists c cs dc ds,
    pt_Containers (template e) = c :: cs /\ pt_Containers (template d) = dc :: ds /\
    ctr_Image c = ctr_Image dc /\ ctr_Env c = ctr_Env dc /\
    (forall res, inst_Resources inst = Some res -> ctr_Resources c = res).

Section Steps.
Context {A B : Type} `{EqDecision B} (f : A -> B) (set : B -> A -> A) (want : B).
(** A step with nothing to do. *)
Lemma step_id x : f x.1 = want -> step f set want x = x.
Proof. intros Hf. unfold step. by destruct (decide _). Qed.
(** A step that reports nothing did nothing. *)
Lemma step_false x : (step f set want x).2 = false -> step f set want x = x.
Proof. unfold step. destruct (decide _); cbn; done. Qed.
Lemma step_got x : (forall y, f (set want y) = want) -> f (step f set want x).1 = want.
Proof. intros Hset. unfold step. destruct (decide _); cbn; [done|apply Hset]. Qed.
(** What a step of another field leaves alone. *)
Lemma step_kept {C} (g : A -> C) x :
  (forall y, g (set want y) = g y) -> g (step f set want x).1 = g x.1.
Proof. intros Hset. unfold step. destruct (decide _); cbn; [done|apply Hset]. Qed.
End Steps.

Lemma set_containers_id s : set_containers (pt_Containers (template s)) s = s.
Proof. by destruct s as [m [? ? ? [] ?] st]. Qed.

Lemma update_container_false inst d x :
  (update_container inst d x).2 = false -> update_container inst d x = x.
Proof.
  unfold update_container. destruct (inst_Resources inst); intros Hf.
  - rewrite (step_false _ _ _ _ Hf) in Hf |- *.
    rewrite (step_false _ _ _ _ Hf) in Hf |- *. by apply step_false.
  - rewrite (step_false _ _ _ _ Hf) in Hf |- *. by apply step_false.
Qed.
Lemma update_containers_false inst d x :
  (update_containers inst d x).2 = false -> update_containers inst d x = x.
Proof.
  destruct x as [s b]. unfold update_containers. cbn.
  destruct (pt_Containers (template s)) as [|c cs] eqn:Hc; [done|].
  destruct (pt_Containers (template d)) as [|dc ds]; [done|].
  destruct (update_container inst dc (c, b)) as [c' b'] eqn:Hu. cbn. intros ->.
  rewrite update_container_false in Hu by by rewrite Hu.
  injection Hu as <- <-. by rewrite <- Hc, set_containers_id.
Qed.
Lemma update_statefulset_false inst d e :
  (update_statefulset inst d e).2 = false -> update_statefulset inst d e = (e, false).
Proof.
  unfold update_statefulset. intros Hf.
  do 4 (rewrite (step_false _ _ _ _ Hf) in Hf |- *).
  rewrite (update_containers_false _ _ _ Hf) in Hf |- *. by apply step_false.
Qed.

Lemma update_statefulset_agreed inst d e : agrees inst d e -> update_statefulset inst d e = (e, false).
Proof.
  intros (Hr & Hs & c & cs & dc & ds & Hc & Hd & Hi & He & Hres). unfold update_statefulset.
  assert (Hcs : update_containers inst d (e, false) = (e, false)).
  { unfold update_containers. cbn. rewrite Hc, Hd. unfold update_container.
    rewrite (step_id ctr_Image), (step_id ctr_Env) by done.
    destruct (inst_Resources inst); rewrite ?(step_id ctr_Resources) by (cbn; by apply Hres);
      by rewrite <- Hc, set_containers_id. }
  rewrite (step_id (fun s => sts_Replicas (o_spec s))), Hcs by done.
  rewrite (step_id (fun s => NodeSelector (scheduling s))) by (cbn; by rewrite Hs).
  rewrite (step_id (fun s => Tolerations (scheduling s))) by (cbn; by rewrite Hs).
  rewrite (step_id (fun s => Affinity (scheduling s))) by (cbn; by rewrite Hs).
  by rewrite (step_id (fun s => TopologySpreadConstraints (scheduling s))) by (cbn; by rewrite Hs).
Qed.

(** The StatefulSet the operator wants has one container, with the resources
    of the instance if it gives any. *)
Definition one_container (inst : InstanceSpec) (d : StatefulSet) : Prop :=
  exists dc, pt_Containers (template d) = [dc] /\
    forall res, inst_Resources inst = Some res -> ctr_Resources dc = res.
Definition container_agrees (inst : InstanceSpec) (d e : StatefulSet) : Prop :=
  exists c cs dc ds,
    pt_Containers (template e) = c :: cs /\ pt_Containers (template d) = dc :: ds /\
    ctr_Image c = ctr_Image dc /\ ctr_Env c = ctr_Env dc /\
    (forall res, inst_Resources inst = Some res -> ctr_Resources c = res).

Lemma update_container_agrees inst dc x :
  let c := (update_container inst dc x).1 in
  ctr_Image c = ctr_Image dc /\ ctr_Env c = ctr_Env dc /\
  forall res, inst_Resources inst = Some res -> ctr_Resources c = res.
Proof.
  cbn. unfold update_container. destruct (inst_Resources inst) as [r|].
  - rewrite !(step_kept ctr_Resources) by done.
    rewrite (step_got ctr_Resources), (step_got ctr_Env) by done.
    rewrite (step_kept _ _ _ ctr_Image), (step_got ctr_Image) by done. naive_solver.
  - rewrite (step_got ctr_Env) by done.
    rewrite (step_kept _ _ _ ctr_Image), (step_got ctr_Image) by done. naive_solver.
Qed.
Lemma update_containers_agrees inst d x :
  one_container inst d -> container_agrees inst d (update_containers inst d x).1.
Proof.
  intros (dc & Hd & Hres). destruct x as [s b]. unfold update_containers, container_agrees. cbn.
  rewrite Hd. destruct (pt_Containers (template s)) as [|c cs]; cbn.
  - rewrite Hd. by exists dc, [], dc, [].
  - pose proof (update_container_agrees inst dc (c, b)) as Hu.
    destruct (update_container inst dc (c, b)) as [c' b']. cbn in *.
    exists c', cs, dc, []. naive_solver.
Qed.
Lemma update_containers_kept inst d x :
  sts_Replicas (o_spec (update_containers inst d x).1) = sts_Replicas (o_spec x.1).
Proof.
  destruct x as [s b]. unfold update_containers. cbn.
  destruct (pt_Containers (template s)); [done|]. destruct (pt_Containers (template d)); [done|].
  by destruct (update_container _ _ _).
Qed.
Lemma scheduling_eta (a b : Scheduling) :
  NodeSelector a = NodeSelector b -> Tolerations a = Tolerations b -> Affinity a = Affinity b ->
  TopologySpreadConstraints a = TopologySpreadConstraints b -> a = b.
Proof. destruct a, b; cbn. by intros -> -> -> ->. Qed.
Lemma update_statefulset_agrees inst d e :
  one_container inst d -> agrees inst d (update_statefulset inst d e).1.
Proof.
  intros Hd. unfold agrees, update_statefulset; cbv zeta. split; [|split].
  - rewrite !(step_kept _ _ _ (fun s : StatefulSet => sts_Replicas (o_spec s))) by done.
    rewrite update_containers_kept. by rewrite (step_got (fun s : StatefulSet => sts_Replicas (o_spec s))).
  - apply scheduling_eta.
    + rewrite !(step_kept _ _ _ (fun s : StatefulSet => NodeSelector (scheduling s))) by done.
      by rewrite (step_got (fun s : StatefulSet => NodeSelector (scheduling s))).
    + rewrite !(step_kept _ _ _ (fun s : StatefulSet => Tolerations (scheduling s))) by done.
      by rewrite (step_got (fun s : StatefulSet => Tolerations (scheduling s))).
    + rewrite !(step_kept _ _ _ (fun s : StatefulSet => Affinity (scheduling s))) by done.
      by rewrite (step_got (fun s : StatefulSet => Affinity (scheduling s))).
    + by rewrite (step_got (fun s : StatefulSet => TopologySpreadConstraints (scheduling s))).
  - change (container_agrees inst d (update_statefulset inst d e).1).
    unfold container_agrees, update_statefulset; cbv zeta.
    rewrite !(step_kept _ _ _ (fun s : StatefulSet => pt_Containers (template s))) by done.
    by apply update_containers_agrees.
Qed.

(** C16: updating a StatefulSet gives one that agrees with the desired one on
    replicas, scheduling, and the image, environment and (if given)
    resources of its first container; an update is asked for exactly when
    the stored one does not agree, and the updated one asks for none, so
    reconciling does not write for ever. *)
Theorem update_statefulset_converges `{Quantities} {W R} (srv : SQLServer) (inst : InstanceSpec)
    (d e : StatefulSet) (w w' : W) :
  desiredStatefulSet (R := R) srv inst w = (Next d, w') ->
  let '(e', changed) := update_statefulset inst d e in
  agrees inst d e' /\ (changed = false <-> agrees inst d e) /\ (changed = false -> e' = e) /\
  update_statefulset inst d e' = (e', false).
Proof.
  intros Hd. assert (Hone : one_container inst d).
  { unfold desiredStatefulSet, MustParse in Hd. destruct (ParseQuantity _); [|done].
    injection Hd as <- _. eexists. split; [done|]. cbn. by intros res ->. }
  pose proof (update_statefulset_agrees inst d e Hone) as Hg.
  pose proof (update_statefulset_false inst d e) as Hf.
  pose proof (update_statefulset_agreed inst d e) as Ha.
  destruct (update_statefulset inst d e) as [e' changed] eqn:Hu. cbn in *. split_and!.
  - done.
  - split; [intros Hc; by injection (Hf Hc) as <- _|intros Hag; by injection (Ha Hag) as _ ->].
  - intros Hc. by injection (Hf Hc) as <- _.
  - by apply update_statefulset_agreed.
Qed.

(** ** The memory limit *)
(** The limit written is at most 80% of the container's, which has no fraction
    of a byte below [q]. *)
Lemma auto_limit_within q :
  0 <= q -> 0 <= auto_limit q /\ auto_limit q * (1024 * 1024) * 100 <= Quantity_Value q * 80.
Proof.
  intros Hq. unfold auto_limit.
  assert (Hv : 0 <= Quantity_Value q) by (apply Z.div_pos; lia).
  set (v := Quantity_Value q) in *. rewrite (Z.quot_div_nonneg v) by lia.
  pose proof (Z.div_pos v (1024 * 1024) Hv ltac:(lia)) as Hmb.
  pose proof (Z.mul_div_le v (1024 * 1024) ltac:(lia)) as Hle.
  set (mb := v / (1024 * 1024)) in *. rewrite Z.quot_div_nonneg by lia.
  pose proof (Z.div_pos (mb * 80) 100 ltac:(lia) ltac:(lia)).
  pose proof (Z.mul_div_le (mb * 80) 100 ltac:(lia)). lia.
Qed.

(** The line is put at the end of the file, whatever its last section, and on
    the last line when that one is not ended. *)
Definition with_conf (conf : string) (limit : Quantity) : InstanceSpec :=
  mkInstanceSpec None (mkSecretRef "sa") true None None None None
    (Some (mkResources {["memory" := limit]} ∅)) None (mkScheduling ∅ "" "" "") (Some conf) None None.
Example conf_other_section :
  buildMSSQLConf (with_conf ("[memory]" +:+ newline +:+ "[network]" +:+ newline) (4294967296 * 1000000000)) =
  "[memory]" +:+ newline +:+ "[network]" +:+ newline +:+ "memorylimitmb = 3276" +:+ newline.
Proof. by vm_compute. Qed.
Example conf_unended_line :
  buildMSSQLConf (with_conf ("[memory]" +:+ newline +:+ "x = 1") (4294967296 * 1000000000)) =
  "[memory]" +:+ newline +:+ "x = 1memorylimitmb = 3276" +:+ newline.
Proof. by vm_compute. Qed.
End ManagedObjects.
