(* ===== verification/SQLServerWitnesses.v ===== *)
(** * Witnesses for the SQLServer controller

    A managed cluster of two replicas, deployed and ready, in the concrete
    world: a reconcile creates its Services and Secrets, sets up and exchanges
    the certificates, creates the group and probes the first replica. *)
From stdpp Require Import list_numbers.
From S2P Require Import Prelude Types SqlClient MockClient Kube Helpers ExampleWorld Witnesses.
From S2P Require Import SQLServerResources SQLServerInfra SQLServerCertificates SQLServerController.
From S2P Require Import SQLServerTheorems SQLServerObjects Admission SQLServerWebhook.

(** Sizes in whole gibibytes, and texts for keys and certificates. *)
#[export] Instance example_quantities : Quantities := {
  ParseQuantity s := if String.eqb s "10Gi" then Some (10737418240 * 1000000000) else None
}.
#[export] Instance example_crypto : Crypto := {
  PrivateKey := string;
  X509Certificate := string;
  GenerateKey n := inl ("key" +:+ fmt_d (Z.of_nat n));
  x509_CreateCertificate _ t _ _ _ := inl (ct_CommonName t);
  x509_ParseCertificate der := inl der;
  MarshalECPrivateKey k := inl k;
  ParseECPrivateKey der := inl der;
  pem_Encode ty bytes := bytes;
  pem_Decode s := if String.eqb s "" then None else Some s
}.

Definition cluster_instance (replicas : option Z) : InstanceSpec :=
  mkInstanceSpec None (mkSecretRef "sa") true None replicas (Some "10Gi") None None None
    (mkScheduling ∅ "" "" "") None None (Some (mkManagedAGSpec None None (Some true) None None)).
Definition cluster (replicas : option Z) : SQLServer :=
  mkObject (example_meta "sql" [Finalizer] false)
    (mkSQLServerSpec "" None AuthSqlLogin None None None None None (Some (cluster_instance replicas)))
    (no_status (mkSQLServerStatus "" "" None "" None "" None)).
Definition sa_secret : Secret :=
  mkObject (example_meta "sa" [] false) {["MSSQL_SA_PASSWORD" := "pw"]} tt.
Definition running_set (ready : Z) : StatefulSet :=
  mkObject (example_meta "sql" [] false)
    (mkStatefulSetSpec "sql-headless" (Some 1) ∅ (mkPodTemplate ∅ [] [] (mkScheduling ∅ "" "" "")) [])
    (mkStatefulSetStatus ready).
Definition cluster_world (srv : SQLServer) (ready : Z) : World (list AnyObject) Servers string :=
  example_world [existT KSQLServer srv; existT KSecret sa_secret; existT KStatefulSet (running_set ready)]
    fresh_servers.
Definition server_key : NamespacedName := mkKey "ns" "sql".

Definition created {D Conn} (l : list (Action Conn * D)) : list string :=
  omap (fun x => match x.1 with ACreate k o => Some (Name (obj_meta k o)) | _ => None end) l.

Lemma server_sound_witness :
  created (run_log (SQLServerCtl.Reconcile example_factory server_key) (cluster_world (cluster (Some 2)) 2)) =
   ["sql-config"; "sql-headless"; "sql"; "sql-readonly"; "sql-ca"; "sql-cert-0";
    "sql-cert-1"; "sql-sa-credentials"; "sql-ag"] /\
  ready_writes (run_log (SQLServerCtl.Reconcile example_factory server_key)
                  (cluster_world (cluster (Some 2)) 2)) = 1%nat /\
  performs (SQLServerSpec.srv_action example_factory (cluster (Some 2))
      (SQLServerSpec.ready_evidence example_factory (cluster (Some 2))))
    (SQLServerCtl.Reconcile example_factory server_key) (cluster_world (cluster (Some 2)) 2).
Proof.
  split_and!; [by vm_compute|by vm_compute|].
  eapply (SQLServerSpec.server_reconcile_sound example_factory server_key (cluster (Some 2))
            (cluster_world (cluster (Some 2)) 2)).
  - reflexivity.
  - split; eexists; reflexivity.
  - intros base o s o' s' [= <- <-] Hi. exact Hi.
Defined.

(** Without a number of replicas, a deployment in progress panics. *)
Example nil_replicas_panic :
  (SQLServerCtl.Reconcile example_factory server_key (cluster_world (cluster None) 0)).1 =
  Panic "invalid memory address or nil pointer dereference".
Proof. by vm_compute. Qed.

Lemma managed_group_witness :
  let w := cluster_world (cluster (Some 2)) 2 in
  let run := ManagedAG.reconcileManagedAG (R := ReconcileResult) (cluster (Some 2)) (cluster_instance (Some 2)) in
  created (w_log (run w).2) = ["sql-sa-credentials"; "sql-ag"] /\
  exists l, w_log (run w).2 = l /\ Forall (fun x => ManagedObjects.group_admitted x.1 x.2) l.
Proof.
  split; [by vm_compute|].
  destruct (ManagedObjects.managed_group_admitted (cluster (Some 2)) (cluster_instance (Some 2))
    (cluster_world (cluster (Some 2)) 2)
    (ManagedAG.reconcileManagedAG (R := ReconcileResult) (cluster (Some 2)) (cluster_instance (Some 2))
      (cluster_world (cluster (Some 2)) 2)).2
    (ManagedAG.reconcileManagedAG (R := ReconcileResult) (cluster (Some 2)) (cluster_instance (Some 2))
      (cluster_world (cluster (Some 2)) 2)).1) as (l & Hl & HP).
  - cbn. split_and!; done.
  - reflexivity.
  - split; [intros ag [= <-]; done|done].
  - apply surjective_pairing.
  - exact (ex_intro _ l (conj Hl HP)).
Defined.

Lemma statefulset_witness :
  let run := Resources.desiredStatefulSet (R := unit) (cluster (Some 2)) (cluster_instance (Some 2)) tt in
  match run.1 with
  | Next d => (Infra.update_statefulset (cluster_instance (Some 2)) d (running_set 2)).2 = true /\
      let '(e', changed) := Infra.update_statefulset (cluster_instance (Some 2)) d (running_set 2) in
      Infra.update_statefulset (cluster_instance (Some 2)) d e' = (e', false)
  | _ => False
  end.
Proof.
  cbn -[Infra.update_statefulset]. split; [by vm_compute|].
  pose proof (ManagedObjects.update_statefulset_converges (R := unit) (cluster (Some 2))
    (cluster_instance (Some 2)) _ (running_set 2) tt tt eq_refl) as Hc.
  destruct (Infra.update_statefulset _ _ _) as [e' changed]. exact (proj2 (proj2 (proj2 Hc))).
Defined.
