(* ===== verification/Metrics.v ===== *)
(** * Metrics (internal/metrics/metrics.go)

    The registered collectors, and that every observation the controllers make
    fits one of them: [WithLabelValues] panics on a wrong number of labels, so
    this is what lets an observation be a plain action of the log. *)
From S2P Require Import Prelude Types SqlClient Kube Helpers SetReconcile OneShot.
From S2P Require Import DatabaseController LoginController DatabaseUserController SchemaController.
From S2P Require Import PermissionController AgFencing AvailabilityGroup AgFailoverController.
From S2P Require Import BackupController RestoreController ScheduledBackupController.
From S2P Require Import SQLServerResources SQLServerInfra SQLServerCertificates SQLServerController.

(** ** The collectors *)
Inductive CollectorType := CounterVec | GaugeVec | HistogramVec.
Record Collector := mkCollector {
  col_var : string;          (* the Go variable *)
  col_type : CollectorType;
  col_Namespace : string;
  col_Name : string;
  col_labels : list string
}.
Definition ReconcileTotal : Collector :=
  mkCollector "ReconcileTotal" CounterVec "mssql_operator" "reconcile_total" ["controller"; "result"].
Definition ReconcileErrors : Collector :=
  mkCollector "ReconcileErrors" CounterVec "mssql_operator" "reconcile_errors_total" ["controller"; "reason"].
Definition ReconcileDuration : Collector :=
  mkCollector "ReconcileDuration" HistogramVec "mssql_operator" "reconcile_duration_seconds" ["controller"].
Definition ManagedResources : Collector :=
  mkCollector "ManagedResources" GaugeVec "mssql_operator" "managed_resources" ["type"; "namespace"].
Definition DatabaseState : Collector :=
  mkCollector "DatabaseState" GaugeVec "mssql" "database_ready" ["name"; "namespace"; "database"; "server"].
Definition BackupLastSuccess : Collector :=
  mkCollector "BackupLastSuccess" GaugeVec "mssql" "backup_last_success_timestamp" ["name"; "namespace"; "database"].
Definition BackupTotal : Collector :=
  mkCollector "BackupTotal" GaugeVec "mssql" "scheduled_backup_total" ["name"; "namespace"; "result"].
Definition AGReplicaLag : Collector :=
  mkCollector "AGReplicaLag" GaugeVec "mssql" "ag_replica_synchronized" ["ag_name"; "namespace"; "replica"; "role"].
Definition SQLServerConnected : Collector :=
  mkCollector "SQLServerConnected" GaugeVec "mssql" "server_connected" ["name"; "namespace"; "host"].
Definition FencingTotal : Collector :=
  mkCollector "FencingTotal" CounterVec "mssql_operator" "fencing_total"
    ["ag_name"; "namespace"; "fenced_replica"; "type"].
Definition LoginCount : Collector :=
  mkCollector "LoginCount" GaugeVec "mssql" "login_ready" ["name"; "namespace"; "login"].

(** [metrics.Registry.MustRegister(...)] of [init]. *)
Definition registered : list Collector :=
  [ReconcileTotal; ReconcileErrors; ReconcileDuration; ManagedResources; DatabaseState; BackupLastSuccess;
   BackupTotal; AGReplicaLag; FencingTotal; SQLServerConnected; LoginCount].

(** The name Prometheus registers a collector under. *)
Definition fq_name (c : Collector) : string := col_Namespace c +:+ "_" +:+ col_Name c.

(** [MustRegister] panics on a name registered twice and on a label named twice. *)
Lemma registered_once :
  NoDup (fq_name <$> registered) /\ NoDup (col_var <$> registered) /\
  Forall (fun c => NoDup (col_labels c)) registered.
Proof. split_and!; [apply (bool_decide_unpack _); by vm_compute..|]. repeat constructor; set_solver. Qed.

(** What a collector of a type offers. *)
Definition offers (t : CollectorType) (op : MetricOp) : bool :=
  match t, op with
  | CounterVec, Inc | GaugeVec, Inc | GaugeVec, SetTo _ | GaugeVec, SetToCurrentTime | HistogramVec, Observed => true
  | _, _ => false
  end.
Definition fits (metric : string) (labels : list string) (op : MetricOp) : bool :=
  match List.find (fun c => String.eqb (col_var c) metric) registered with
  | Some c => Nat.eqb (length labels) (length (col_labels c)) && offers (col_type c) op
  | None => false
  end.
(** The readiness gauges, documented as 1 for ready and 0 for not ready, are
    only ever set to 1; the gauge of managed resources is never set. *)
Definition gauge_use (metric : string) (op : MetricOp) : Prop :=
  metric <> "ManagedResources" /\
  (metric = "DatabaseState" \/ metric = "LoginCount" -> op = SetTo 1).
Definition well_observed {Conn} (a : Action Conn) : Prop :=
  match a with AMetric m labels op => fits m labels op = true /\ gauge_use m op | _ => True end.

(** ** What a program logs, whatever its outcome *)
Section Logs.
Context {K D Conn : Type}.
Abbreviation W := (World K D Conn).
Variable P : Action Conn -> Prop.
Definition logs {R A} (m : Go W R A) : Prop :=
  forall w, exists l, w_log (m w).2 = w_log w ++ l /\ Forall (fun x => P x.1) l.

Lemma logs_nothing {R A} (m : Go W R A) : (forall w, w_log (m w).2 = w_log w) -> logs m.
Proof. intros Hm w. exists []. by rewrite Hm, app_nil_r. Qed.
Lemma logs_then (l1 l2 : list (Action Conn * D)) (w w1 w2 : W) :
  (w_log w1 = w_log w ++ l1 /\ Forall (fun x => P x.1) l1) -> (w_log w2 = w_log w1 ++ l2 /\ Forall (fun x => P x.1) l2) ->
  exists l, w_log w2 = w_log w ++ l /\ Forall (fun x => P x.1) l.
Proof.
  intros [H1 HP1] [H2 HP2]. exists (l1 ++ l2). rewrite H2, H1, (assoc_L (++)). split; [done|]. by apply Forall_app.
Qed.
Lemma logs_bind {R A B} (m : Go W R A) (k : A -> Go W R B) :
  logs m -> (forall a, logs (k a)) -> logs (m ≫= k).
Proof.
  intros Hm Hk w. unfold mbind, go_bind. destruct (Hm w) as (l1 & H1). destruct (m w) as [[a|r|s] w1]; cbn in *.
  - destruct (Hk a w1) as (l2 & H2). by eapply logs_then.
  - by exists l1.
  - by exists l1.
Qed.
Lemma logs_logged {R} a : P a -> logs (R := R) (logged a).
Proof. intros Ha w. exists [(a, w_sql w)]. by repeat constructor. Qed.
Lemma logs_on_kube {R A} (f : K -> A * K) : logs (R := R) (on_kube f).
Proof. apply logs_nothing. intros w. unfold on_kube. by destruct (f (w_kube w)). Qed.
Lemma logs_on_sql {R A} (f : D -> A * D) : logs (R := R) (on_sql f).
Proof. apply logs_nothing. intros w. unfold on_sql. by destruct (f (w_sql w)). Qed.
Lemma logs_for_each {R A} xs (body : A -> Go W R unit) : (forall x, logs (body x)) -> logs (for_each xs body).
Proof. intros Hb. induction xs; cbn; [by apply logs_nothing|]. by apply logs_bind. Qed.
Lemma logs_fold_each {R S A} xs (body : S -> A -> Go W R S) s :
  (forall s x, logs (body s x)) -> logs (fold_each xs s body).
Proof. intros Hb. revert s. induction xs; intros s; cbn; [by apply logs_nothing|]. by apply logs_bind. Qed.
Lemma logs_fn {R R'} (m : Go W R' R') : logs m -> logs (R := R) (fn m).
Proof. intros Hm w. unfold fn. specialize (Hm w). by destruct (m w) as [[] ?]. Qed.
Lemma logs_defer {R A} (cleanup : Go W R unit) (m : Go W R A) : logs cleanup -> logs m -> logs (defer_ cleanup m).
Proof.
  intros Hc Hm w. unfold defer_. destruct (Hm w) as (l1 & H1). destruct (m w) as [o w1]. cbn in H1.
  destruct (Hc w1) as (l2 & H2). destruct (cleanup w1) as [[] w2]; cbn in *; by eapply logs_then.
Qed.
Lemma logs_reconcile_set `{GoEnv} (rc : SetCalls (K := K) (D := D) (Conn := Conn)) desired :
  logs (get_items rc) -> (forall r, logs (add_item rc r)) -> (forall r, logs (remove_item rc r)) ->
  (forall r, logs (added rc r)) -> (forall r, logs (removed rc r)) -> logs (reconcile_set rc desired).
Proof.
  intros Hg Ha Hr Had Hrem. unfold reconcile_set, set_loop.
  apply logs_bind; [done|]. intros [items [e|]]; [by apply logs_nothing|].
  unfold on_err. repeat first [ done | case_match | apply logs_bind; [|intros ?] | apply logs_for_each; intros ? | by apply logs_nothing ].
Qed.
End Logs.

Ltac head_of t := match t with ?f _ => head_of f | _ => t end.
Ltac log_fits := split; [reflexivity|split; [done|by intros [?|?]]].
Ltac logs_step :=
  lazymatch goal with
  | |- logs _ (_ ≫= _) => apply logs_bind; [|intros ?]
  | |- logs _ (fn _) => apply logs_fn
  | |- logs _ (defer_ _ _) => apply logs_defer
  | |- logs _ (for_each _ _) => apply logs_for_each; intros ?
  | |- logs _ (fold_each _ _ _) => apply logs_fold_each; intros ? ?
  | |- logs _ (reconcile_set _ _) => apply logs_reconcile_set; intros; cbn
  | |- logs _ (logged _) => apply logs_logged; try done
  | |- logs _ (Event _ _ _) => apply logs_logged; done
  | |- logs _ (Metric _ _ _) => apply logs_logged; try log_fits
  | |- logs _ (Get _ _) => apply logs_on_kube
  | |- logs _ (List_ _ _ _) => apply logs_on_kube
  | |- logs _ (on_kube _) => apply logs_on_kube
  | |- logs _ (on_sql _) => apply logs_on_sql
  | |- logs _ (Create _ _) => unfold Create
  | |- logs _ (Update _ _) => unfold Update
  | |- logs _ (Delete_ _ _) => unfold Delete_
  | |- logs _ (Patch _ _ _) => unfold Patch
  | |- logs _ (StatusPatch _ _ _) => unfold StatusPatch
  | |- logs _ (sql _ _ _ _) => unfold sql
  | |- logs _ (let '(_, _) := ?p in _) => destruct p
  | |- logs _ (when ?b _) => destruct b; unfold when
  | |- logs _ (on_err ?e _) => destruct e; unfold on_err
  | |- logs _ (if_some ?x _) => destruct x; unfold if_some
  | |- logs _ (match ?x with _ => _ end) => destruct x
  | |- logs _ (mret _) => by apply logs_nothing
  | |- logs _ (return_ _) => by apply logs_nothing
  | |- logs _ (panic _) => by apply logs_nothing
  | |- logs _ Now => by apply logs_nothing
  | |- logs _ (observe _) => by apply logs_nothing
  | |- logs _ (range_keys _) => by apply logs_nothing
  | |- logs _ (Int63n _) => apply logs_nothing; intros ?; unfold Int63n; by case_match
  | |- logs _ ?m => let h := head_of m in unfold h
  end; cbn beta iota zeta.
Ltac logs_auto := repeat logs_step.

(** ** The controllers *)
Inductive Controller :=
| CDatabase | CLogin | CDatabaseUser | CSchema | CPermission | CAvailabilityGroup | CAGFailover
| CBackup | CRestore | CSQLServer | CScheduledBackup.

Section Reconcilers.
Context `{GoEnv} {K D Conn : Type} `{KubeClient K} `{SQLClient Conn D} `{KubeUtil}.
Context `{Cron} `{Template} `{SortSlice} `{Quantities} `{Crypto}.
Variable factory : ClientFactory Conn D.
Variable holder : string.

Definition Reconcile_of (x : Controller) : NamespacedName -> Go (World K D Conn) ReconcileResult ReconcileResult :=
  match x with
  | CDatabase => Database.Reconcile factory
  | CLogin => LoginCtl.Reconcile factory
  | CDatabaseUser => UserCtl.Reconcile factory
  | CSchema => SchemaCtl.Reconcile factory
  | CPermission => PermCtl.Reconcile factory
  | CAvailabilityGroup => AG.Reconcile factory holder
  | CAGFailover => FailoverCtl.Reconcile factory
  | CBackup => BackupCtl.Reconcile factory
  | CRestore => RestoreCtl.Reconcile factory
  | CSQLServer => SQLServerCtl.Reconcile factory
  | CScheduledBackup => SchedCtl.Reconcile
  end.

Lemma logs_database req : logs well_observed (Database.Reconcile factory req).
Proof. logs_auto. Qed.
Lemma logs_login req : logs well_observed (LoginCtl.Reconcile factory req).
Proof. logs_auto. Qed.
Lemma logs_user req : logs well_observed (UserCtl.Reconcile factory req).
Proof. logs_auto. Qed.
Lemma logs_schema req : logs well_observed (SchemaCtl.Reconcile factory req).
Proof. logs_auto. Qed.
Lemma logs_permission req : logs well_observed (PermCtl.Reconcile factory req).
Proof. logs_auto. Qed.
Lemma logs_backup req : logs well_observed (BackupCtl.Reconcile factory req).
Proof. logs_auto. Qed.
Lemma logs_restore req : logs well_observed (RestoreCtl.Reconcile factory req).
Proof. logs_auto. Qed.
Lemma logs_failover req : logs well_observed (FailoverCtl.Reconcile factory req).
Proof. logs_auto. Qed.
Lemma logs_schedule req : logs well_observed (SchedCtl.Reconcile (K := K) (D := D) (Conn := Conn) req).
Proof. logs_auto. Qed.
Lemma logs_group req : logs well_observed (AG.Reconcile factory holder req).
Proof. logs_auto. Qed.
Lemma logs_server req : logs well_observed (SQLServerCtl.Reconcile factory req).
Proof. logs_auto. Qed.

(** C39: every metric a reconcile of any of the eleven kinds observes, whatever
    its outcome, is a registered collector of the right type with exactly as
    many labels as it declares, so WithLabelValues does not panic; the
    readiness gauges of databases and logins are only ever set to 1, and the
    gauge of managed resources is never set. *)
Theorem observations_fit x req w :
  exists l, w_log (Reconcile_of x req w).2 = w_log w ++ l /\ Forall (fun y => well_observed y.1) l.
Proof.
  revert w. change (logs (K := K) (D := D) well_observed (Reconcile_of x req)).
  destruct x; [apply logs_database|apply logs_login|apply logs_user|apply logs_schema|apply logs_permission|apply logs_group
    |apply logs_failover|apply logs_backup|apply logs_restore|apply logs_server|apply logs_schedule].
Qed.
End Reconcilers.
