(* ===== verification/Manager.v ===== *)
(** * The manager (cmd/main.go)

    What the process registers, in which order, and with what it exits. The
    manager itself is controller-runtime's. *)
From S2P Require Import Prelude Types Metrics.

Module Manager.
(** ** controller-runtime
    A manager takes registrations and is started; each may fail. *)
Record ManagerOptions := mkManagerOptions {
  BindAddress : string;
  HealthProbeBindAddress : string;
  LeaderElection : bool;
  LeaderElectionID : string;
  mgr_LeaseDuration : Z;
  mgr_RenewDeadline : Z;
  mgr_RetryPeriod : Z
}.
Inductive Registration :=
| RegisterController (x : Controller) (recorder : string)
| RegisterWebhook (k : Kind)
| AddHealthzCheck (name : string)
| AddReadyzCheck (name : string)
| Start.
Class CtrlManager (Mgr : Type) := {
  NewManager : ManagerOptions -> Mgr + error;
  register : Registration -> Mgr -> option error * Mgr
}.

(** ** main *)
Record Flags := mkFlags {
  metricsAddr : string;
  probeAddr : string;
  enableLeaderElection : bool;
  enableWebhooks : bool;
  leaseDuration : Z;
  renewDeadline : Z;
  retryPeriod : Z
}.
(** The values without arguments. *)
Definition default_flags : Flags :=
  mkFlags ":8080" ":8081" false false (15 * Second) (10 * Second) (2 * Second).
Definition manager_options (f : Flags) : ManagerOptions :=
  mkManagerOptions (metricsAddr f) (probeAddr f) (enableLeaderElection f) "mssql-operator.popul.io"
    (leaseDuration f) (renewDeadline f) (retryPeriod f).

Definition controllers : list (Controller * string) :=
  [(CDatabase, "database-controller"); (CLogin, "login-controller"); (CDatabaseUser, "databaseuser-controller");
   (CSchema, "schema-controller"); (CPermission, "permission-controller");
   (CAvailabilityGroup, "availabilitygroup-controller"); (CAGFailover, "agfailover-controller");
   (CBackup, "backup-controller"); (CRestore, "restore-controller"); (CSQLServer, "sqlserver-controller");
   (CScheduledBackup, "scheduledbackup-controller")].
Definition webhookTypes : list Kind :=
  [KDatabase; KLogin; KDatabaseUser; KBackup; KRestore; KSchema; KPermission; KAvailabilityGroup; KSQLServer].

Section Main.
Context {Mgr : Type} `{CtrlManager Mgr}.
(** The manager and the registrations asked of it, oldest first; [main]
    leaves with the exit status. *)
Definition Process : Type := Mgr * list Registration.
Definition must (r : Registration) : Go Process Z unit :=
  err ← (fun '(m, l) => let '(err, m') := register r m in (Next err, (m', l ++ [r])));
  on_err err (fun _ => return_ 1).

Definition run_manager (f : Flags) : Go Process Z Z :=
  for_each controllers (fun '(x, recorder) => must (RegisterController x recorder)) ;;
  when (enableWebhooks f) (for_each webhookTypes (fun k => must (RegisterWebhook k))) ;;
  must (AddHealthzCheck "healthz") ;;
  must (AddReadyzCheck "readyz") ;;
  must Start ;;
  return_ 0.

(** The exit status, and what was registered. *)
Definition main (f : Flags) : Z * list Registration :=
  match NewManager (manager_options f) with
  | inr _ => (1, [])
  | inl m => match run_manager f (m, []) with
             | (Return code, (_, l)) => (code, l)
             | (_, (_, l)) => (0, l)
             end
  end.

(** What a run without an error registers. *)
Definition plan (f : Flags) : list Registration :=
  ((fun '(x, recorder) => RegisterController x recorder) <$> controllers) ++
  (if enableWebhooks f then RegisterWebhook <$> webhookTypes else []) ++
  [AddHealthzCheck "healthz"; AddReadyzCheck "readyz"; Start].

(** Asking for [rs] in turn, up to the first refusal. *)
Fixpoint attempt (m : Mgr) (rs : list Registration) : Z * list Registration :=
  match rs with
  | [] => (0, [])
  | r :: rest =>
      match register r m with
      | (None, m') => let '(code, l) := attempt m' rest in (code, r :: l)
      | (Some _, _) => (1, [r])
      end
  end.

(** [k], run after some registrations, makes those of [rest] and exits. *)
Definition exit_of {A} (o : outcome Z A * Process) : Z * list Registration :=
  match o with (Return code, (_, l)) => (code, l) | (_, (_, l)) => (0, l) end.
Definition continues (rest : list Registration) (k : Go Process Z Z) : Prop :=
  forall m l, exit_of (k (m, l)) = (let '(code, l') := attempt m rest in (code, l ++ l')).
(** [g] makes those of [rs]. *)
Definition registers (rs : list Registration) (g : Go Process Z unit) : Prop :=
  forall rest k, continues rest k -> continues (rs ++ rest) (g ;; k).

Lemma continues_end : continues [] (return_ 0).
Proof. intros m l. cbn. by rewrite app_nil_r. Qed.
Lemma registers_must r : registers [r] (must r).
Proof.
  intros rest k Hk m l. unfold must, mbind, go_bind. cbn. destruct (register r m) as [[e|] m'] eqn:Hr; cbn; [done|].
  rewrite Hk. destruct (attempt m' rest) as [code l']. by rewrite <- app_assoc.
Qed.
Lemma registers_nothing : registers [] (mret tt).
Proof. intros rest k Hk m l. apply Hk. Qed.
Lemma registers_seq rs1 rs2 g1 g2 : registers rs1 g1 -> registers rs2 g2 -> registers (rs1 ++ rs2) (g1 ;; g2).
Proof.
  intros H1 H2 rest k Hk m l. rewrite <- app_assoc, <- (H1 _ (g2 ;; k) (H2 _ _ Hk)).
  unfold mbind, go_bind. by destruct (g1 (m, l)) as [[] ?].
Qed.
Lemma registers_for_each {A} (f : A -> Registration) (body : A -> Go Process Z unit) xs :
  (forall x, registers [f x] (body x)) -> registers (f <$> xs) (for_each xs body).
Proof.
  intros Hb. induction xs as [|x xs IH]; [apply registers_nothing|].
  exact (registers_seq [f x] (f <$> xs) (body x) (for_each xs body) (Hb x) IH).
Qed.

Lemma registers_when (b : bool) rs g : registers rs g -> registers (if b then rs else []) (when b g).
Proof. intros Hg. destruct b; [done|apply registers_nothing]. Qed.

(** main asks the manager for the controllers, then, when they are enabled,
    the webhooks, then the two checks and the start, in this order, up to the
    first refusal; it exits with 1 at a refusal and with 0 otherwise. *)
Theorem main_registers f m :
  NewManager (manager_options f) = inl m -> main f = attempt m (plan f).
Proof.
  intros Hm. unfold main. rewrite Hm.
  assert (Hrun : continues (plan f) (run_manager f)).
  { unfold plan, run_manager.
    refine (registers_for_each (fun '(x, recorder) => RegisterController x recorder) _ _ _ _ _ _);
      [intros []; apply registers_must|].
    refine (registers_when _ _ _ (registers_for_each RegisterWebhook _ _ _) _ _ _); [intros ?; apply registers_must|].
    refine (registers_must _ _ _ (registers_must _ _ _ (registers_must _ _ _ continues_end))). }
  specialize (Hrun m []). unfold exit_of in Hrun. destruct (attempt m (plan f)) as [code l].
  cbn in Hrun. by rewrite <- Hrun.
Qed.
End Main.
End Manager.
