(* ===== verification/Wiring.v ===== *)
(** * What wakes a controller (the SetupWithManager functions)

    Each controller names its kind, the kinds it owns, the kinds it watches
    with the function from such an object to requests, and the options of its
    queue. Events and their delivery are controller-runtime's: the predicate on
    the generation and the handler for owned objects are parameters. *)
From S2P Require Import Prelude Types SqlClient Kube Helpers SetReconcile OneShot Progress Settling Watches.
From S2P Require Import DatabaseController LoginController DatabaseUserController SchemaController.
From S2P Require Import PermissionController AgFencing AvailabilityGroup AgFailoverController.
From S2P Require Import BackupController RestoreController ScheduledBackupController.
From S2P Require Import SQLServerResources SQLServerInfra SQLServerCertificates SQLServerController Metrics.

(** [predicate.GenerationChangedPredicate] on an update, and
    [handler.EnqueueRequestForOwner]. *)
Class ControllerRuntime := {
  generation_changed : ObjectMeta -> ObjectMeta -> bool;
  owner_requests : Kind -> ObjectMeta -> list NamespacedName
}.
Class ControllerRuntimeLaws `{ControllerRuntime} := {
  generation_changed_spec old new : generation_changed old new = negb (Generation old =? Generation new)
}.

Module Wiring.
(** The options of the controller: workers, and the two rate limiters of its
    queue (per item, doubling from base to max; overall, a bucket). *)
Record ControllerOptions := mkControllerOptions {
  MaxConcurrentReconciles : Z;
  limiter_base : Z;
  limiter_max : Z;
  limiter_rate : Z;
  limiter_burst : Z
}.
Definition default_options (workers : Z) : ControllerOptions :=
  mkControllerOptions workers Second (5 * Minute) 10 100.
Definition ag_options (workers : Z) : ControllerOptions :=
  mkControllerOptions workers (2 * Second) (5 * Minute) 5 50.

Inductive Event :=
| CreateEvent (k : Kind) (o : obj k)
| UpdateEvent (k : Kind) (old new : obj k)
| DeleteEvent (k : Kind) (o : obj k).
Definition event_kind (e : Event) : Kind :=
  match e with CreateEvent k _ | UpdateEvent k _ _ | DeleteEvent k _ => k end.
(** The objects of an event, which the handlers look at. *)
Definition event_objects (e : Event) : list (obj (event_kind e)) :=
  match e with CreateEvent _ o | DeleteEvent _ o => [o] | UpdateEvent _ old new => [old; new] end.

Section Setup.
Context `{GoEnv} {K D Conn : Type} `{KubeClient K} `{SQLClient Conn D} `{KubeUtil} `{ControllerRuntime}.
Context `{Quantities} `{Crypto}.
Abbreviation W := (World K D Conn).
Abbreviation M A := (Go W ReconcileResult A).

(** [Watches(&Kind{}, handler.EnqueueRequestsFromMapFunc(f))]. *)
Record Watch := mkWatch { watch_kind : Kind; watch_map : obj watch_kind -> M (list NamespacedName) }.
Record Setup := mkSetup {
  For : Kind;             (* with GenerationChangedPredicate *)
  Owns : list Kind;
  Watches_ : list Watch;
  options : ControllerOptions
}.
Definition watch_secrets (f : Secret -> M (list NamespacedName)) : Watch := mkWatch KSecret f.

(** The SetupWithManager of each reconciler. *)
Definition setup_Database : Setup :=
  mkSetup KDatabase [] [watch_secrets mapSecretToDatabases] (default_options 5).
Definition setup_Login : Setup :=
  mkSetup KLogin [] [watch_secrets mapSecretToLogins] (default_options 5).
Definition setup_DatabaseUser : Setup :=
  mkSetup KDatabaseUser [] [watch_secrets mapSecretToDatabaseUsers] (default_options 5).
Definition setup_Schema : Setup :=
  mkSetup KSchema [] [watch_secrets mapSecretToSchemas] (default_options 5).
Definition setup_Permission : Setup :=
  mkSetup KPermission [] [watch_secrets mapSecretToPermissions] (default_options 5).
Definition setup_Backup : Setup :=
  mkSetup KBackup [] [watch_secrets mapSecretToBackups] (default_options 5).
Definition setup_Restore : Setup :=
  mkSetup KRestore [] [watch_secrets mapSecretToRestores] (default_options 5).
Definition setup_AGFailover : Setup :=
  mkSetup KAGFailover [] [] (ag_options 1).
Definition setup_AvailabilityGroup : Setup :=
  mkSetup KAvailabilityGroup [] [watch_secrets mapSecretToAGs] (ag_options 2).
Definition setup_ScheduledBackup : Setup :=
  mkSetup KScheduledBackup [KBackup]
    [mkWatch KBackup (fun o => mret (SchedCtl.mapBackupToScheduledBackup o))] (default_options 3).
Definition setup_SQLServer : Setup :=
  mkSetup KSQLServer [KStatefulSet; KService] [watch_secrets SQLServerCtl.mapSecretToSQLServers]
    (default_options 3).
Definition SetupWithManager (x : Controller) : Setup :=
  match x with
  | CDatabase => setup_Database
  | CLogin => setup_Login
  | CDatabaseUser => setup_DatabaseUser
  | CSchema => setup_Schema
  | CPermission => setup_Permission
  | CBackup => setup_Backup
  | CRestore => setup_Restore
  | CAGFailover => setup_AGFailover
  | CAvailabilityGroup => setup_AvailabilityGroup
  | CScheduledBackup => setup_ScheduledBackup
  | CSQLServer => setup_SQLServer
  end.

(** ** Delivery *)
Definition key_of (k : Kind) (o : obj k) : NamespacedName :=
  mkKey (Namespace (obj_meta k o)) (Name (obj_meta k o)).
Definition for_requests (x : Controller) (e : Event) : list NamespacedName :=
  if decide (event_kind e = For (SetupWithManager x)) then
    match e with
    | CreateEvent k o | DeleteEvent k o => [key_of k o]
    | UpdateEvent k old new =>
        if generation_changed (obj_meta k old) (obj_meta k new) then [key_of k new] else []
    end
  else [].
Definition own_requests (x : Controller) (e : Event) : list NamespacedName :=
  if decide (event_kind e ∈ Owns (SetupWithManager x)) then
    event_objects e ≫= (fun o => owner_requests (For (SetupWithManager x)) (obj_meta _ o))
  else [].
Definition watch_requests (wt : Watch) (e : Event) : M (list NamespacedName) :=
  match decide (event_kind e = watch_kind wt) with
  | left eq => fold_each (event_objects e) [] (fun acc o =>
                 l ← watch_map wt (eq_rect _ obj o _ eq); mret (acc ++ l))
  | right _ => mret []
  end.
(** The requests an event puts in the queue of a controller. *)
Definition requests (x : Controller) (e : Event) : M (list NamespacedName) :=
  watched ← fold_each (Watches_ (SetupWithManager x)) [] (fun acc wt =>
    l ← watch_requests wt e; mret (acc ++ l));
  mret (for_requests x e ++ own_requests x e ++ watched).

(** Every kind has one controller. *)
Lemma one_controller_per_kind x y : For (SetupWithManager x) = For (SetupWithManager y) -> x = y.
Proof. by destruct x, y. Qed.

Lemma watch_nothing wt e w : event_kind e <> watch_kind wt -> watch_requests wt e w = (Next [], w).
Proof. intros Hne. unfold watch_requests. by destruct (decide _). Qed.

(** No controller watches its own kind but through [For], nor owns it. *)
Lemma own_events x e w :
  event_kind e = For (SetupWithManager x) -> requests x e w = (Next (for_requests x e), w).
Proof.
  intros Hk. unfold requests, own_requests. rewrite decide_False by (rewrite Hk; destruct x; set_solver).
  assert (Hw : forall wt, wt ∈ Watches_ (SetupWithManager x) -> watch_kind wt <> event_kind e).
  { intros wt Hwt. rewrite Hk. destruct x; cbn in *; set_solver. }
  assert (Hf : fold_each (Watches_ (SetupWithManager x)) [] (fun acc wt =>
    l ← watch_requests wt e; mret (acc ++ l)) w = (Next [], w)).
  { revert Hw. generalize (Watches_ (SetupWithManager x)). intros l. induction l as [|wt l IH]; intros Hw; [done|].
    cbn. unfold mbind, go_bind. rewrite watch_nothing by (symmetry; apply Hw; by left). cbn.
    apply IH. intros. apply Hw. by right. }
  unfold mbind at 1, go_bind at 1. rewrite Hf. cbn. by rewrite app_nil_r.
Qed.

Context `{!ControllerRuntimeLaws}.
(** An update of an object of the kind of a controller that leaves its
    generation as it was (a write of the status or of the metadata, which is
    all the controllers write to their own objects) puts no request in its
    queue: an object is reconciled again only after the delay its last
    reconcile asked for, a change of its spec, or an event on what the
    controller watches. *)
Theorem metadata_updates_ignored x old new w :
  Generation (obj_meta _ old) = Generation (obj_meta _ new) ->
  requests x (UpdateEvent (For (SetupWithManager x)) old new) w = (Next [], w).
Proof.
  intros Hg. rewrite own_events by done. unfold for_requests. cbn. rewrite decide_True by done.
  by rewrite generation_changed_spec, Hg, Z.eqb_refl.
Qed.

(** ** Objects nothing wakes *)
Context `{!KubeUtilLaws} `{!KubeStore K} `{!KubeUp K}.
Variable factory : ClientFactory Conn D.
Abbreviation any := (fun (_ : Action Conn) (_ : D) => True).
Lemma waits_stable r : log_stable (Watches.waits (K := K) (D := D) (Conn := Conn) r).
Proof. by intros w w' ?. Qed.

Lemma user_without_login req user w :
  stored KDatabaseUser req (w_kube w) = Some user -> live (o_meta user) ->
  stored KLogin (mkKey (Namespace (o_meta user)) (loginref_Name (user_LoginRef (o_spec user)))) (w_kube w) = None ->
  does any (UserCtl.Reconcile factory req) (fun _ _ => False) Watches.waits w.
Proof.
  intros Hs [Hlive Hfin] Hl. unfold UserCtl.Reconcile.
  apply (does_reconcile_stored any KDatabaseUser req _ _ _ _ _ user); [done|apply waits_stable|done..|].
  intros w1 Hk1 Hd1. unfold UserCtl.reconcile_live. rewrite ContainsFinalizer_spec, bool_decide_true by done.
  do 2 does_step. rewrite <- Hk1 in Hl. destruct (Get_missing KLogin _ _ Hl) as (err & s' & Hg & Hn).
  do 2 does_step. known Hg. rewrite Hn. unfold UserCtl.setConditionAndReturn, set_condition_and_return.
  by apply (Watches.does_report_waiting KDatabaseUser).
Qed.
Lemma database_without_server req db name w :
  stored KDatabase req (w_kube w) = Some db -> live (o_meta db) ->
  SQLServerRef (db_Server (o_spec db)) = Some name ->
  stored KSQLServer (mkKey (Namespace (o_meta db)) name) (w_kube w) = None ->
  does any (Database.Reconcile factory req) (fun _ _ => False) Watches.waits w.
Proof.
  intros Hs [Hlive Hfin] Href Hl. unfold Database.Reconcile.
  apply (does_reconcile_stored any KDatabase req _ _ _ _ _ db); [done|apply waits_stable|done..|].
  intros w1 Hk1 Hd1. unfold Database.reconcile_live. rewrite ContainsFinalizer_spec, bool_decide_true by done.
  do 2 does_step. rewrite <- Hk1 in Hl. destruct (Get_missing KSQLServer _ _ Hl) as (err & s' & Hg & Hn).
  unfold resolveServerReference. rewrite Href. do 3 does_step. known Hg. does_step.
  unfold Database.setConditionAndReturn, set_condition_and_return.
  by apply (Watches.does_report_waiting KDatabase).
Qed.

(** C30: a live DatabaseUser whose Login does not exist, and a live Database
    whose sqlServerRef names an SQLServer that does not exist, are reported
    and left: the reconcile ends without an error or a requeue, and no event
    on a Login (an SQLServer), its creation included, puts a request in the
    queue of the controller of users (of databases). *)
Theorem missing_reference_strands :
  (forall req user w,
     stored KDatabaseUser req (w_kube w) = Some user -> live (o_meta user) ->
     stored KLogin (mkKey (Namespace (o_meta user)) (loginref_Name (user_LoginRef (o_spec user)))) (w_kube w) = None ->
     ends (UserCtl.Reconcile factory req) Watches.waits w /\
     forall e w', event_kind e = KLogin -> requests CDatabaseUser e w' = (Next [], w')) /\
  (forall req db name w,
     stored KDatabase req (w_kube w) = Some db -> live (o_meta db) ->
     SQLServerRef (db_Server (o_spec db)) = Some name ->
     stored KSQLServer (mkKey (Namespace (o_meta db)) name) (w_kube w) = None ->
     ends (Database.Reconcile factory req) Watches.waits w /\
     forall e w', event_kind e = KSQLServer -> requests CDatabase e w' = (Next [], w')).
Proof.
  split; intros; (split; [eapply (ends_intro any); eauto using user_without_login, database_without_server|]);
    intros [k o|k old new|k o] w' He; cbn in He; subst k; reflexivity.
Qed.
End Setup.
End Wiring.
