(* ===== verification/WiringWitnesses.v ===== *)
(** * The manager and its events on concrete inputs *)
From S2P Require Import Prelude Types SqlClient MockClient Kube Helpers OneShot ExampleWorld.
From S2P Require Import DatabaseController LoginController DatabaseUserController.
From S2P Require Import Progress Witnesses ProgressWitnesses WatchWitnesses Metrics Manager Wiring.

(** ** A manager that refuses one registration *)
Definition refusing : Type := option Manager.Registration.
Definition is_refused (r : Manager.Registration) (m : refusing) : bool :=
  match m, r with
  | Some (Manager.RegisterWebhook k), Manager.RegisterWebhook k' => bool_decide (k = k')
  | Some Manager.Start, Manager.Start => true
  | _, _ => false
  end.
#[export] Instance refusing_manager : Manager.CtrlManager refusing := {
  NewManager _ := inl (Some (Manager.RegisterWebhook KLogin));
  register r m := (if is_refused r m then Some (ErrString "refused") else None, m)
}.
Definition with_webhooks : Manager.Flags :=
  Manager.mkFlags ":8080" ":8081" true true (15 * Second) (10 * Second) (2 * Second).
(** Without webhooks everything is registered and the manager started; with
    them the process stops at the one refused. *)
Example main_runs :
  Manager.main (Mgr := refusing) Manager.default_flags = (0, Manager.plan Manager.default_flags) /\
  (Manager.main (Mgr := refusing) with_webhooks).1 = 1 /\
  last (Manager.main (Mgr := refusing) with_webhooks).2 = Some (Manager.RegisterWebhook KLogin).
Proof. by vm_compute. Qed.
Lemma main_registers_witness :
  Manager.main (Mgr := refusing) with_webhooks =
  Manager.attempt (Some (Manager.RegisterWebhook KLogin)) (Manager.plan with_webhooks).
Proof. apply Manager.main_registers. reflexivity. Defined.

(** ** Events *)
#[export] Instance example_runtime : ControllerRuntime := {
  generation_changed old new := negb (Generation old =? Generation new);
  owner_requests _ m := (fun o => mkKey (Namespace m) (or_Name o)) <$> filter (fun o => or_Controller o = true) (OwnerReferences m)
}.
#[export] Instance example_runtime_laws : ControllerRuntimeLaws.
Proof. by split. Qed.

(** A Login that got its finalizer and a status, and one whose spec changed. *)
Definition updated_login (generation : Z) : Login :=
  mkObject (mkMeta "login" "ns" generation None [Finalizer] ∅ ∅ "2" 0 [])
    (o_spec (example_login [] false "")) (no_status (mkLoginStatus "1")).
Example edited_login_requested :
  (Wiring.requests CLogin (Wiring.UpdateEvent KLogin (example_login [] false "") (updated_login 2))
     (login_world (updated_login 2))).1 = Next [login_key].
Proof. by vm_compute. Qed.
Lemma metadata_updates_ignored_witness :
  let w := login_world (updated_login 1) in
  Wiring.requests CLogin (Wiring.UpdateEvent KLogin (example_login [] false "") (updated_login 1)) w = (Next [], w).
Proof. apply (Wiring.metadata_updates_ignored CLogin). reflexivity. Defined.

(** A DatabaseUser created before its Login. *)
Lemma missing_reference_strands_witness :
  ends (UserCtl.Reconcile example_factory user_key) Watches.Watches.waits early_user_world /\
  Wiring.requests CDatabaseUser (Wiring.CreateEvent KLogin (example_login [] false ""))
    (early_user_world) = (Next [], early_user_world).
Proof.
  destruct (Wiring.missing_reference_strands (K := list AnyObject) example_factory) as [Huser _].
  destruct (Huser user_key (example_user [Finalizer] false) early_user_world) as [Hwait Hevents].
  - by vm_compute.
  - split; [done|]. by left.
  - by vm_compute.
  - split; [exact Hwait|]. by apply Hevents.
Defined.
