(* ===== verification/GoMemory.v ===== *)
(** * Go's memory, and what a deep copy is

    Values as Go lays them out: a pointer, a slice or a map is an address, and
    what it refers to is in memory, where several values can share it. [decode]
    reads the value a typed variable stands for; [deep_copies] says that a
    function gives a value that reads the same from memory of its own. *)
From S2P Require Import Prelude.

(** ** Values, cells, memory *)
Definition address : Type := positive.

(** A slice is its array, the offset of its window and its length; [len] and
    indexing look at nothing else. *)
Inductive value : Type :=
| VString (s : string)
| VInt (z : Z)
| VBool (b : bool)
| VPtr (p : option address)
| VSlice (s : option (address * nat * nat))
| VMap (m : option address)
| VStruct (fields : gmap string value).
Inductive cell : Type :=
| CValue (v : value)
| CArray (elements : list value)
| CMap (m : gmap string string).
Notation memory := (gmap address cell).

(** A computation changes memory, or panics. *)
Definition Mem (A : Type) : Type := memory → option (A * memory).
#[export] Instance Mem_ret : MRet Mem := λ A x h, Some (x, h).
#[export] Instance Mem_bind : MBind Mem := λ A B f c h,
  match c h with Some (x, h') => f x h' | None => None end.
Definition panics {A} : Mem A := λ _, None.

(** [new] and [make], after the cell is filled; a dereference, an element loop
    and a map read; the field [in.n]. *)
Definition allocate (c : cell) : Mem address := λ h,
  let l := fresh (dom h) in Some (l, <[l := c]> h).
Definition load (p : value) : Mem value := λ h,
  match p with
  | VPtr (Some l) => match h !! l with Some (CValue v) => Some (v, h) | _ => None end
  | _ => None
  end.
Definition window (off len : nat) (vs : list value) : option (list value) :=
  if bool_decide (off + len ≤ length vs)%nat then Some (take len (drop off vs)) else None.
Definition elements (s : value) : Mem (list value) := λ h,
  match s with
  | VSlice (Some (l, off, len)) =>
      match h !! l with Some (CArray vs) => vs' ← window off len vs; Some (vs', h) | _ => None end
  | _ => None
  end.
Definition entries (m : value) : Mem (gmap string string) := λ h,
  match m with
  | VMap (Some l) => match h !! l with Some (CMap kvs) => Some (kvs, h) | _ => None end
  | _ => None
  end.
Definition field (s : gmap string value) (n : string) : Mem value := λ h,
  v ← s !! n; Some (v, h).
Definition is_nil (v : value) : bool :=
  match v with VPtr None | VSlice None | VMap None => true | _ => false end.

(** ** Types, and what a variable of a type stands for *)
Inductive ty : Type :=
| TString
| TInt (bits : Z)
| TBool
| TPtr (T : ty)
| TSlice (T : ty)
| TStringMap
| TStruct (fields : list (string * ty))
| TExternal (name : string).           (* a type of apimachinery or of k8s.io/api *)

Inductive content : Type :=
| LString (s : string)
| LInt (z : Z)
| LBool (b : bool)
| LNil
| LRef (c : content)
| LList (cs : list content)
| LMap (m : gmap string string)
| LStruct (fields : list (string * content)).

Section ty_ind.
Context (P : ty → Prop).
Hypothesis HString : P TString.
Hypothesis HInt : ∀ bits, P (TInt bits).
Hypothesis HBool : P TBool.
Hypothesis HPtr : ∀ T, P T → P (TPtr T).
Hypothesis HSlice : ∀ T, P T → P (TSlice T).
Hypothesis HMap : P TStringMap.
Hypothesis HStruct : ∀ fs, Forall (λ nT, P nT.2) fs → P (TStruct fs).
Hypothesis HExternal : ∀ n, P (TExternal n).

(** Induction that reaches the types of the fields. *)
Fixpoint ty_nested_ind (T : ty) : P T :=
  match T with
  | TString => HString
  | TInt bits => HInt bits
  | TBool => HBool
  | TPtr T => HPtr T (ty_nested_ind T)
  | TSlice T => HSlice T (ty_nested_ind T)
  | TStringMap => HMap
  | TStruct fs =>
      HStruct fs ((fix go (fs : list (string * ty)) : Forall (λ nT, P nT.2) fs :=
        match fs with
        | [] => @List.Forall_nil _ _
        | nT :: fs => @List.Forall_cons _ _ nT fs (ty_nested_ind nT.2) (go fs)
        end) fs)
  | TExternal n => HExternal n
  end.
End ty_ind.

(** The types of other modules: how their values read, and the methods
    generated for them there. *)
Class ApiMachinery := {
  external_content : string → memory → value → option content;
  external_DeepCopyInto : string → value → Mem value;
  Time_DeepCopy : value → Mem value
}.

Section Decode.
Context `{ApiMachinery}.

Definition int_fits (bits z : Z) : bool :=
  bool_decide (- 2 ^ (bits - 1) ≤ z < 2 ^ (bits - 1))%Z.

Fixpoint decode (h : memory) (T : ty) (v : value) {struct T} : option content :=
  match T, v with
  | TString, VString s => Some (LString s)
  | TInt bits, VInt z => if int_fits bits z then Some (LInt z) else None
  | TBool, VBool b => Some (LBool b)
  | TPtr _, VPtr None | TSlice _, VSlice None | TStringMap, VMap None => Some LNil
  | TPtr T, VPtr (Some l) =>
      match h !! l with Some (CValue v) => LRef <$> decode h T v | _ => None end
  | TSlice T, VSlice (Some (l, off, len)) =>
      match h !! l with
      | Some (CArray vs) => vs' ← window off len vs; LList <$> mapM (decode h T) vs'
      | _ => None
      end
  | TStringMap, VMap (Some l) =>
      match h !! l with Some (CMap m) => Some (LMap m) | _ => None end
  | TStruct fs, VStruct s =>
      LStruct <$> (fix go (fs : list (string * ty)) : option (list (string * content)) :=
        match fs with
        | [] => Some []
        | (n, T) :: fs => v ← s !! n; c ← decode h T v; cs ← go fs; Some ((n, c) :: cs)
        end) fs
  | TExternal n, v => external_content n h v
  | _, _ => None
  end.
Fixpoint decode_fields (h : memory) (fs : list (string * ty)) (s : gmap string value)
    : option (list (string * content)) :=
  match fs with
  | [] => Some []
  | (n, T) :: fs => v ← s !! n; c ← decode h T v; cs ← decode_fields h fs s; Some ((n, c) :: cs)
  end.
Lemma decode_struct h fs s : decode h (TStruct fs) (VStruct s) = LStruct <$> decode_fields h fs s.
Proof.
  simpl. f_equal. induction fs as [|[n T] fs IH]; simpl; [done|]. by rewrite IH.
Qed.

(** ** The statement

    [yields m h x new]: run in [h], the computation returns [x], leaves what
    was in memory as it was, and adds the cells [new]. A deep copy of a value
    that reads [c] is a value that reads [c] from the new cells alone. *)
Definition yields {A} (m : Mem A) (h : memory) (x : A) (new : memory) : Prop :=
  m h = Some (x, h ∪ new) ∧ h ##ₘ new.
Definition deep_copies (T : ty) (f : value → Mem value) : Prop := ∀ h v c,
  decode h T v = Some c → ∃ v' new, yields (f v) h v' new ∧ decode new T v' = Some c.
End Decode.

(** What the other modules promise: reading a value depends on no more cells
    than it reads, and their methods copy deeply. *)
Class ApiContentLaws `{ApiMachinery} := {
  external_content_mono n h h' v c :
    h ⊆ h' → external_content n h v = Some c → external_content n h' v = Some c
}.
Class ApiMachineryLaws `{ApiMachinery} := {
  #[global] api_content_laws :: ApiContentLaws;
  external_DeepCopyInto_copies n : deep_copies (TExternal n) (external_DeepCopyInto n);
  Time_DeepCopy_copies : deep_copies (TPtr (TExternal "Time")) Time_DeepCopy
}.

(** ** The statements of the generated methods

    One definition per shape of statement. The [if in.X != nil] that guards the
    statements on references is [unless_nil]: when it fails, [out.X] keeps the
    nil that [*out = *in] gave it. *)
Section Statements.
Context `{ApiMachinery}.

(** [out.X = in.X]. *)
Definition assign (v : value) : Mem value := mret v.
Definition unless_nil (f : value → Mem value) (v : value) : Mem value :=
  if is_nil v then mret v else f v.
(** [*out = new(T); **out = **in]. *)
Definition new_value (p : value) : Mem value :=
  v ← load p; l ← allocate (CValue v); mret (VPtr (Some l)).
(** [*out = new(T); ( *in).DeepCopyInto( *out)]. *)
Definition new_into (DeepCopyInto : value → Mem value) (p : value) : Mem value :=
  v ← load p; v' ← DeepCopyInto v; l ← allocate (CValue v'); mret (VPtr (Some l)).
Definition new_slice (vs : list value) : Mem value :=
  l ← allocate (CArray vs); mret (VSlice (Some (l, 0%nat, length vs))).
(** [*out = make([]T, len( *in)); copy( *out, *in)]. *)
Definition make_copy (s : value) : Mem value :=
  vs ← elements s; new_slice vs.
(** [*out = make([]T, len( *in))], and [DeepCopyInto] from each element of
    [*in] to the element of [*out] at its index. *)
Definition make_each (DeepCopyInto : value → Mem value) (s : value) : Mem value :=
  vs ← elements s; vs' ← mapM DeepCopyInto vs; new_slice vs'.
(** [*out = make(map[string]string, len( *in))], and [( *out)[key] = val] for
    every entry of [*in]. *)
Definition make_map (m : value) : Mem value :=
  kvs ← entries m; l ← allocate (CMap (map_fold (λ key val m, <[key := val]> m) ∅ kvs));
  mret (VMap (Some l)).

(** [*out = *in] on a struct, then the statements on some of its fields, in
    order. *)
Definition set_field (s : gmap string value) (step : string * (value → Mem value))
    (out : gmap string value) : Mem (gmap string value) :=
  v ← field s step.1; v' ← step.2 v; mret (<[step.1 := v']> out).
Fixpoint set_fields (s : gmap string value) (steps : list (string * (value → Mem value)))
    (out : gmap string value) : Mem (gmap string value) :=
  match steps with
  | [] => mret out
  | step :: steps => out ← set_field s step out; set_fields s steps out
  end.
Definition copy_struct (steps : list (string * (value → Mem value))) (v : value) : Mem value :=
  match v with
  | VStruct s => out ← set_fields s steps s; mret (VStruct out)
  | _ => panics
  end.

(** [DeepCopy] and [DeepCopyObject]. An interface value is nil or holds a
    pointer, so a nil pointer must not be returned as one. *)
Definition DeepCopy_by (DeepCopyInto : value → Mem value) (p : value) : Mem value :=
  if is_nil p then mret (VPtr None) else new_into DeepCopyInto p.
Definition DeepCopyObject_by (DeepCopy : value → Mem value) (p : value) : Mem (option value) :=
  c ← DeepCopy p; mret (if is_nil c then None else Some c).
End Statements.

(** ** Rules for [yields] *)
Section Yields.
Context `{ApiContentLaws}.

Lemma yields_bind {A B} (m : Mem A) (f : A → Mem B) h x y new1 new2 :
  yields m h x new1 → yields (f x) (h ∪ new1) y new2 → yields (m ≫= f) h y (new1 ∪ new2).
Proof.
  intros [E1 D1] [E2 D2]. apply map_disjoint_union_l in D2 as [D2 D3]. split.
  - unfold mbind, Mem_bind. by rewrite E1, E2, assoc by apply _.
  - by apply map_disjoint_union_r.
Qed.
Lemma yields_ret {A} (x : A) h : yields (mret x) h x ∅.
Proof. split; [|apply map_disjoint_empty_r]. by rewrite map_union_empty. Qed.
(** Reading, then [f]. *)
Lemma yields_read {A B} (m : Mem A) (f : A → Mem B) h x y new :
  m h = Some (x, h) → yields (f x) h y new → yields (m ≫= f) h y new.
Proof. intros E [E2 D]. split; [|done]. unfold mbind, Mem_bind. by rewrite E. Qed.
(** [f], then allocating what it gave. *)
Lemma yields_allocate c h : ∃ l, yields (allocate c) h l {[l := c]} ∧ h !! l = None.
Proof.
  exists (fresh (dom h)). assert (h !! fresh (dom h) = None) as E by (apply not_elem_of_dom, is_fresh).
  split; [|done]. split; [|by apply map_disjoint_singleton_r].
  unfold allocate. by rewrite insert_union_singleton_r.
Qed.
Lemma allocates {A} (m : Mem A) (f : A → cell) (g : A → address → value) h x new :
  yields m h x new →
  ∃ l, yields (x ← m; l ← allocate (f x); mret (g x l)) h (g x l) (new ∪ {[l := f x]}) ∧
       new !! l = None.
Proof.
  intros Hm. destruct (yields_allocate (f x) (h ∪ new)) as (l & Hl & E).
  exists l. apply lookup_union_None in E as [_ E]. split; [|done].
  rewrite <- (map_union_empty {[l := f x]}).
  eapply yields_bind; [done|]. eapply yields_bind; [done|apply yields_ret].
Qed.

(** ** Reading is monotone, and pointer-free types read alike everywhere *)
Lemma decode_mono T : ∀ h h' v c,
  h ⊆ h' → decode h T v = Some c → decode h' T v = Some c.
Proof.
  induction T as [|bits| |T IH|T IH| |fs IH|n] using ty_nested_ind; intros h h' v c Hs.
  1-3: done.
  - destruct v as [| | |[l|]| | |]; simpl; try done.
    destruct (h !! l) as [[v| |]|] eqn:E; try done.
    rewrite (lookup_weaken _ _ _ _ E Hs).
    destruct (decode h T v) eqn:D; [|done]. by rewrite (IH _ _ _ _ Hs D).
  - destruct v as [| | | |[[[l off] len]|]| |]; simpl; try done.
    destruct (h !! l) as [[|vs|]|] eqn:E; try done.
    rewrite (lookup_weaken _ _ _ _ E Hs). destruct (window off len vs) as [vs'|]; [simpl|done].
    destruct (mapM (decode h T) vs') as [cs|] eqn:D; [|done].
    assert (mapM (decode h' T) vs' = Some cs) as ->; [|done].
    apply mapM_Some. apply mapM_Some in D. eapply Forall2_impl; [done|eauto].
  - destruct v as [| | | | |[l|]|]; simpl; try done.
    destruct (h !! l) as [[| |m]|] eqn:E; try done.
    by rewrite (lookup_weaken _ _ _ _ E Hs).
  - destruct v; try done. rewrite !decode_struct. intros (cs & Hcs & ->)%fmap_Some.
    apply fmap_Some. exists cs. split; [|done]. revert cs Hcs.
    induction IH as [|[n T] fs IH _ IHfs]; intros cs; [done|]. simpl in *.
    destruct (fields !! n) as [v|]; [simpl|done].
    destruct (decode h T v) eqn:D; [simpl|done]. rewrite (IH _ _ _ _ Hs D). simpl.
    destruct (decode_fields h fs fields); [|done]. by rewrite (IHfs _ eq_refl).
  - apply external_content_mono. done.
Qed.
Lemma decode_fields_mono h h' fs s cs :
  h ⊆ h' → decode_fields h fs s = Some cs → decode_fields h' fs s = Some cs.
Proof.
  intros Hs Hcs. pose proof (decode_mono (TStruct fs) h h' (VStruct s) (LStruct cs) Hs) as Hm.
  rewrite !decode_struct, Hcs in Hm. specialize (Hm eq_refl).
  by apply fmap_Some in Hm as (? & ? & [= ->]).
Qed.
Lemma decode_mono_l T h1 h2 v c :
  decode h1 T v = Some c → decode (h1 ∪ h2) T v = Some c.
Proof. apply decode_mono. apply map_union_subseteq_l. Qed.
Lemma decode_mono_r T h1 h2 v c :
  h1 ##ₘ h2 → decode h2 T v = Some c → decode (h1 ∪ h2) T v = Some c.
Proof. intros ?. apply decode_mono. by apply map_union_subseteq_r. Qed.

Fixpoint plain (T : ty) : bool :=
  match T with
  | TString | TInt _ | TBool => true
  | TStruct fs => forallb (λ nT, plain nT.2) fs
  | _ => false
  end.
Lemma plain_decode T : plain T = true → ∀ h h' v c, decode h T v = Some c → decode h' T v = Some c.
Proof.
  induction T as [|bits| |T IH|T IH| |fs IH|n] using ty_nested_ind; try done.
  intros Hp h h' v c. destruct v; try done. rewrite !decode_struct.
  intros (cs & Hcs & ->)%fmap_Some. apply fmap_Some. exists cs. split; [|done].
  simpl in Hp. revert cs Hcs Hp.
  induction IH as [|[n T] fs IH _ IHfs]; intros cs; [done|]. simpl in *. intros Hcs [HT Hfs]%andb_prop.
  destruct (fields !! n) as [v|]; [simpl in *|done].
  destruct (decode h T v) eqn:D; [simpl in *|done]. rewrite (IH HT _ _ _ _ D). simpl.
  destruct (decode_fields h fs fields); [|done]. by rewrite (IHfs _ eq_refl).
Qed.
End Yields.

(** ** What each statement does *)
Section Copies.
Context `{ApiContentLaws}.

Lemma copies_assign T : plain T = true → deep_copies T assign.
Proof.
  intros HT h v c Hv. exists v, ∅. split; [apply yields_ret|].
  by eapply plain_decode.
Qed.

(** The guard: a nil reads as nil everywhere. *)
Definition reference (T : ty) : Prop :=
  match T with TPtr _ | TSlice _ | TStringMap => True | _ => False end.
Lemma nil_decode T h h' v c :
  reference T → is_nil v = true → decode h T v = Some c → decode h' T v = Some c.
Proof. by destruct T; destruct v as [| | |[|]|[[[]]|]|[|]|]. Qed.
(** A pointer that reads the same as another is nil when that is. *)
Lemma decode_nil h h' T p p' c :
  decode h (TPtr T) p = Some c → decode h' (TPtr T) p' = Some c → is_nil p' = is_nil p.
Proof.
  destruct p as [| | |[l|]| | |]; try done; destruct p' as [| | |[l'|]| | |]; try done; simpl.
  - destruct (h !! l) as [[]|]; try done. intros (? & _ & ->)%fmap_Some. done.
  - intros [= <-]. destruct (h' !! l') as [[]|]; try done. by intros (? & _ & ?)%fmap_Some.
Qed.
Lemma copies_unless_nil T f :
  reference T →
  (∀ h v c, is_nil v = false → decode h T v = Some c →
     ∃ v' new, yields (f v) h v' new ∧ decode new T v' = Some c) →
  deep_copies T (unless_nil f).
Proof.
  intros HT Hf h v c Hv. unfold unless_nil. destruct (is_nil v) eqn:E; [|by eauto].
  exists v, ∅. split; [apply yields_ret|by eapply nil_decode].
Qed.

(** Copying the pointee by [f] and pointing to the result. *)
Lemma copies_pointee T f h l v c :
  deep_copies T f → h !! l = Some (CValue v) → decode h T v = Some c →
  ∃ p new, yields (v ← load (VPtr (Some l)); v' ← f v; l' ← allocate (CValue v'); mret (VPtr (Some l'))) h p new ∧
           decode new (TPtr T) p = Some (LRef c).
Proof.
  intros Hf E (v' & new & Hv & Hc)%Hf.
  destruct (allocates _ CValue (λ _ l', VPtr (Some l')) _ _ _ Hv) as (l' & Hl' & N).
  eexists _, _. split; [eapply yields_read; [by simpl; rewrite E|apply Hl']|].
  simpl. rewrite lookup_union_r, lookup_singleton_eq by done.
  by rewrite (decode_mono_l _ _ _ _ _ Hc).
Qed.
Lemma decode_pointer h T v c :
  is_nil v = false → decode h (TPtr T) v = Some c →
  ∃ l v' c', v = VPtr (Some l) ∧ h !! l = Some (CValue v') ∧ decode h T v' = Some c' ∧ c = LRef c'.
Proof.
  intros Hn Hv. destruct v as [| | |[l|]| | |]; try done. simpl in Hv.
  destruct (h !! l) as [[v'| |]|] eqn:E; try done.
  apply fmap_Some in Hv as (c' & Hc & ->). naive_solver.
Qed.
Lemma copies_new_into T f : deep_copies T f → deep_copies (TPtr T) (unless_nil (new_into f)).
Proof.
  intros Hf. apply copies_unless_nil; [done|]. intros h v c Hn Hv.
  apply decode_pointer in Hv as (l & v' & c' & -> & El & Hc & ->); [|done].
  by eapply copies_pointee.
Qed.
Lemma copies_new_value T : plain T = true → deep_copies (TPtr T) (unless_nil new_value).
Proof. intros HT. apply (copies_new_into T assign). by apply copies_assign. Qed.
Lemma copies_Time `{!ApiMachineryLaws} : deep_copies (TPtr (TExternal "Time")) (unless_nil Time_DeepCopy).
Proof. apply copies_unless_nil; [done|]. intros h v c _. apply Time_DeepCopy_copies. Qed.

Lemma window_all vs : window 0 (length vs) vs = Some vs.
Proof. unfold window. rewrite bool_decide_true by lia. by rewrite drop_0, firstn_all. Qed.
Lemma copies_elements T f vs : deep_copies T f → ∀ h cs,
  mapM (decode h T) vs = Some cs →
  ∃ vs' new, yields (mapM f vs) h vs' new ∧ mapM (decode new T) vs' = Some cs.
Proof.
  intros Hf. induction vs as [|v vs IH]; intros h cs.
  - intros [= <-]. exists [], ∅. split; [apply yields_ret|done].
  - simpl. destruct (decode h T v) as [c|] eqn:E; [simpl|done].
    destruct (mapM (decode h T) vs) as [cs'|] eqn:Es; [simpl|done]. intros [= <-].
    destruct (Hf _ _ _ E) as (v' & new & [Hv D] & Hc).
    destruct (IH (h ∪ new) cs') as (vs' & new' & Hvs & Hcs).
    { apply mapM_Some. apply mapM_Some in Es. eapply Forall2_impl; [done|].
      intros. by apply decode_mono_l. }
    exists (v' :: vs'), (new ∪ new'). split.
    + eapply yields_bind; [by split|]. rewrite <- (map_union_empty new').
      eapply yields_bind; [done|apply yields_ret].
    + simpl. rewrite (decode_mono_l _ _ _ _ _ Hc). simpl.
      assert (mapM (decode (new ∪ new') T) vs' = Some cs') as ->; [|done].
      apply mapM_Some. apply mapM_Some in Hcs. eapply Forall2_impl; [done|].
      intros. apply decode_mono_r; [|done].
      destruct Hvs as [_ D']. by apply map_disjoint_union_l in D' as [_ ?].
Qed.
Lemma copies_make_each T f : deep_copies T f → deep_copies (TSlice T) (unless_nil (make_each f)).
Proof.
  intros Hf. apply copies_unless_nil; [done|]. intros h v c Hn Hv.
  destruct v as [| | | |[[[l off] len]|]| |]; try done. simpl in Hv.
  destruct (h !! l) as [[|vs|]|] eqn:E; try done.
  destruct (window off len vs) as [vs'|] eqn:W; [simpl in Hv|done].
  apply fmap_Some in Hv as (cs & Hcs & ->).
  destruct (copies_elements T f vs' Hf h cs Hcs) as (ws & new & Hws & Hc).
  destruct (allocates _ CArray (λ ws l', VSlice (Some (l', 0%nat, length ws))) _ _ _ Hws)
    as (l' & Hl' & N).
  eexists _, _. split.
  - unfold make_each. eapply yields_read; [by simpl; rewrite E; simpl; rewrite W|]. apply Hl'.
  - simpl. rewrite lookup_union_r, lookup_singleton_eq by done. rewrite window_all. simpl.
    assert (mapM (decode (new ∪ {[l' := CArray ws]}) T) ws = Some cs) as ->; [|done].
    apply mapM_Some. apply mapM_Some in Hc. eapply Forall2_impl; [done|].
    intros. by apply decode_mono_l.
Qed.
Lemma mapM_assign vs : ∀ h, mapM assign vs h = Some (vs, h).
Proof.
  induction vs as [|v vs IH]; intros h; [done|].
  change (mapM assign (v :: vs) h)
    with (match mapM assign vs h with Some (ws, h') => Some (v :: ws, h') | None => None end).
  by rewrite IH.
Qed.
Lemma copies_make_copy T : plain T = true → deep_copies (TSlice T) (unless_nil make_copy).
Proof.
  intros HT h v c Hv.
  destruct (copies_make_each T assign (copies_assign T HT) h v c Hv) as (v' & new & Hy & Hc).
  exists v', new. split; [|done]. revert Hy. unfold yields, unless_nil, make_copy, make_each.
  destruct (is_nil v); [done|]. unfold mbind, Mem_bind.
  destruct (elements v h) as [[vs h']|]; [|done]. by rewrite mapM_assign.
Qed.
Lemma copies_make_map : deep_copies TStringMap (unless_nil make_map).
Proof.
  apply copies_unless_nil; [done|]. intros h v c Hn Hv.
  destruct v as [| | | | |[l|]|]; try done. simpl in Hv.
  destruct (h !! l) as [[| |m]|] eqn:E; try done. injection Hv as <-.
  destruct (allocates _ (λ kvs, CMap (map_fold (λ key val m, <[key := val]> m) ∅ kvs))
    (λ _ l', VMap (Some l')) _ _ _ (yields_ret m h)) as (l' & Hl' & _).
  eexists _, _. split.
  - unfold make_map. eapply yields_read; [by simpl; rewrite E|]. apply Hl'.
  - simpl. rewrite map_empty_union, lookup_singleton_eq. do 2 f_equal.
    apply map_fold_weak_ind; [done|]. intros k x m' r _ ->. done.
Qed.

(** The statements of a method reach every field that is not pointer-free. *)
Inductive covers : list (string * ty) → list (string * (value → Mem value)) → Prop :=
| covers_nil : covers [] []
| covers_set n T f fs steps :
    deep_copies T f → covers fs steps → covers ((n, T) :: fs) ((n, f) :: steps)
| covers_keep n T fs steps :
    plain T = true → covers fs steps → covers ((n, T) :: fs) steps.
Lemma covers_set_fields fs steps : covers fs steps → NoDup fs.*1 → ∀ h s out cs,
  (∀ n, n ∈ fs.*1 → out !! n = s !! n) → decode_fields h fs s = Some cs →
  ∃ out' new, yields (set_fields s steps out) h out' new ∧
    decode_fields new fs out' = Some cs ∧ ∀ n, n ∉ fs.*1 → out' !! n = out !! n.
Proof.
  intros Hcov. induction Hcov as [|n T f fs steps Hf _ IH|n T fs steps HT _ IH];
    intros HN h s out cs Hout Hcs.
  - exists out, ∅. by split; [apply yields_ret|].
  - apply NoDup_cons in HN as [Hn HN]. simpl in Hcs.
    destruct (s !! n) as [v|] eqn:En; [simpl in Hcs|done].
    destruct (decode h T v) as [c|] eqn:Ec; [simpl in Hcs|done].
    destruct (decode_fields h fs s) as [cs'|] eqn:Ecs; [simpl in Hcs|done]. injection Hcs as <-.
    destruct (Hf _ _ _ Ec) as (v' & new1 & Hv & Hc).
    destruct (IH HN (h ∪ new1) s (<[n := v']> out) cs') as (out' & new2 & Ho & Hcs & Hrest).
    { intros k Hk. rewrite lookup_insert_ne by set_solver. apply Hout. set_solver. }
    { by eapply decode_fields_mono; [apply map_union_subseteq_l|]. }
    exists out', (new1 ∪ new2). split; [|split].
    + simpl. eapply yields_bind; [|done]. unfold set_field.
      eapply yields_read; [by unfold field; simpl; rewrite En|].
      rewrite <- (map_union_empty new1). eapply yields_bind; [done|apply yields_ret].
    + simpl. rewrite (Hrest n Hn), lookup_insert_eq. simpl.
      rewrite (decode_mono_l _ _ _ _ _ Hc). simpl.
      destruct Ho as [_ D]. apply map_disjoint_union_l in D as [_ D].
      by rewrite (decode_fields_mono _ _ _ _ _ (map_union_subseteq_r _ _ D) Hcs).
    + intros k Hk. rewrite Hrest, lookup_insert_ne by set_solver. done.
  - apply NoDup_cons in HN as [Hn HN]. simpl in Hcs.
    destruct (s !! n) as [v|] eqn:En; [simpl in Hcs|done].
    destruct (decode h T v) as [c|] eqn:Ec; [simpl in Hcs|done].
    destruct (decode_fields h fs s) as [cs'|] eqn:Ecs; [simpl in Hcs|done]. injection Hcs as <-.
    destruct (IH HN h s out cs') as (out' & new & Ho & Hcs & Hrest); [set_solver|done|].
    exists out', new. split; [done|]. split.
    + simpl. rewrite (Hrest n Hn), Hout, En by set_solver. simpl.
      rewrite (plain_decode T HT _ new _ _ Ec). simpl. by rewrite Hcs.
    + intros k Hk. apply Hrest. set_solver.
Qed.
Lemma copies_struct fs steps :
  covers fs steps → bool_decide (NoDup fs.*1) = true → deep_copies (TStruct fs) (copy_struct steps).
Proof.
  intros Hcov HN%bool_decide_eq_true h v c Hv. destruct v as [| | | | | |s]; try done.
  rewrite decode_struct in Hv. apply fmap_Some in Hv as (cs & Hcs & ->).
  destruct (covers_set_fields fs steps Hcov HN h s s cs) as (out & new & Ho & Hd & _); [done|done|].
  exists (VStruct out), new. split.
  - simpl. rewrite <- (map_union_empty new). eapply yields_bind; [done|apply yields_ret].
  - by rewrite decode_struct, Hd.
Qed.

Lemma copies_DeepCopy T f : deep_copies T f → deep_copies (TPtr T) (DeepCopy_by f).
Proof.
  intros Hf h v c Hv. destruct (copies_new_into T f Hf h v c Hv) as (v' & new & Hy & Hc).
  exists v', new. split; [|done]. revert Hy. unfold unless_nil, DeepCopy_by.
  destruct (is_nil v) eqn:E; [|done]. by destruct v as [| | |[]|[]|[]|].
Qed.
End Copies.
