(* ===== verification/ApiLayouts.v ===== *)
(** * The layout of the API types (api/v1alpha1/*_types.go)

    Every struct of the API with the types of its fields, as memory holds them: an
    optional field is a pointer, a list a slice. A named string type is a string.
    Types.v has the same structs as values, for the code that only reads them. *)
From S2P Require Import Prelude GoMemory.

Module Layout.
(** The two strings of metav1.TypeMeta. *)
Definition TypeMeta : ty := TStruct [("Kind", TString); ("APIVersion", TString)].

Definition SecretReference : ty := TStruct
  [("Name", TString)].
Definition ServerReference : ty := TStruct
  [("Host", TString); ("Port", TPtr (TInt 32)); ("CredentialsSecret", SecretReference);
  ("TLS", TPtr TBool); ("SQLServerRef", TPtr TString)].
Definition AGFailoverSpec : ty := TStruct
  [("AGName", TString); ("TargetReplica", TString); ("Server", ServerReference);
  ("Force", TPtr TBool)].
Definition AGFailoverStatus : ty := TStruct
  [("Phase", TString); ("Conditions", TSlice (TExternal "Condition"));
  ("ObservedGeneration", TInt 64); ("StartTime", TPtr (TExternal "Time"));
  ("CompletionTime", TPtr (TExternal "Time")); ("PreviousPrimary", TString);
  ("NewPrimary", TString)].
Definition AGFailover : ty := TStruct
  [("TypeMeta", TypeMeta); ("ObjectMeta", TExternal "ObjectMeta"); ("Spec", AGFailoverSpec);
  ("Status", AGFailoverStatus)].
Definition AGFailoverList : ty := TStruct
  [("TypeMeta", TypeMeta); ("ListMeta", TExternal "ListMeta"); ("Items", TSlice AGFailover)].
Definition AGReplicaSpec : ty := TStruct
  [("ServerName", TString); ("EndpointURL", TString); ("AvailabilityMode", TString);
  ("FailoverMode", TString); ("SeedingMode", TString); ("SecondaryRole", TString);
  ("Server", ServerReference)].
Definition AGListenerIP : ty := TStruct
  [("IP", TString); ("SubnetMask", TString)].
Definition AGListenerSpec : ty := TStruct
  [("Name", TString); ("Port", TPtr (TInt 32)); ("IPAddresses", TSlice AGListenerIP)].
Definition AGDatabaseSpec : ty := TStruct
  [("Name", TString)].
Definition AvailabilityGroupSpec : ty := TStruct
  [("AGName", TString); ("Replicas", TSlice AGReplicaSpec);
  ("Databases", TSlice AGDatabaseSpec); ("Listener", TPtr AGListenerSpec);
  ("AutomatedBackupPreference", TPtr TString); ("DBFailover", TPtr TBool);
  ("ClusterType", TPtr TString); ("AutoFailover", TPtr TBool);
  ("HealthCheckInterval", TPtr TString); ("FailoverCooldown", TPtr TString)].
Definition AGReplicaStatus : ty := TStruct
  [("ServerName", TString); ("Role", TString); ("SynchronizationState", TString);
  ("Connected", TBool)].
Definition AGDatabaseStatus : ty := TStruct
  [("Name", TString); ("SynchronizationState", TString); ("Joined", TBool)].
Definition AvailabilityGroupStatus : ty := TStruct
  [("Conditions", TSlice (TExternal "Condition")); ("ObservedGeneration", TInt 64);
  ("PrimaryReplica", TString); ("Replicas", TSlice AGReplicaStatus);
  ("Databases", TSlice AGDatabaseStatus); ("LastAutoFailoverTime", TPtr (TExternal "Time"));
  ("AutoFailoverCount", TInt 32); ("LastFencingTime", TPtr (TExternal "Time"));
  ("FencingCount", TInt 32); ("ConsecutiveFencingCount", TInt 32);
  ("LastFencedReplica", TString)].
Definition AvailabilityGroup : ty := TStruct
  [("TypeMeta", TypeMeta); ("ObjectMeta", TExternal "ObjectMeta");
  ("Spec", AvailabilityGroupSpec); ("Status", AvailabilityGroupStatus)].
Definition AvailabilityGroupList : ty := TStruct
  [("TypeMeta", TypeMeta); ("ListMeta", TExternal "ListMeta");
  ("Items", TSlice AvailabilityGroup)].
Definition BackupSpec : ty := TStruct
  [("Server", ServerReference); ("DatabaseName", TString); ("Type", TString);
  ("Destination", TString); ("Compression", TPtr TBool)].
Definition BackupStatus : ty := TStruct
  [("Phase", TString); ("Conditions", TSlice (TExternal "Condition"));
  ("ObservedGeneration", TInt 64); ("StartTime", TPtr (TExternal "Time"));
  ("CompletionTime", TPtr (TExternal "Time")); ("BackupSize", TPtr (TInt 64))].
Definition Backup : ty := TStruct
  [("TypeMeta", TypeMeta); ("ObjectMeta", TExternal "ObjectMeta"); ("Spec", BackupSpec);
  ("Status", BackupStatus)].
Definition BackupList : ty := TStruct
  [("TypeMeta", TypeMeta); ("ListMeta", TExternal "ListMeta"); ("Items", TSlice Backup)].
Definition LoginReference : ty := TStruct
  [("Name", TString)].
Definition DatabaseOption : ty := TStruct
  [("Name", TString); ("Value", TBool)].
Definition DatabaseSpec : ty := TStruct
  [("Server", ServerReference); ("DatabaseName", TString); ("Collation", TPtr TString);
  ("Owner", TPtr TString); ("RecoveryModel", TPtr TString);
  ("CompatibilityLevel", TPtr (TInt 32)); ("Options", TSlice DatabaseOption);
  ("DeletionPolicy", TPtr TString)].
Definition DatabaseStatus : ty := TStruct
  [("Conditions", TSlice (TExternal "Condition")); ("ObservedGeneration", TInt 64)].
Definition Database : ty := TStruct
  [("TypeMeta", TypeMeta); ("ObjectMeta", TExternal "ObjectMeta"); ("Spec", DatabaseSpec);
  ("Status", DatabaseStatus)].
Definition DatabaseList : ty := TStruct
  [("TypeMeta", TypeMeta); ("ListMeta", TExternal "ListMeta"); ("Items", TSlice Database)].
Definition DatabaseUserSpec : ty := TStruct
  [("Server", ServerReference); ("DatabaseName", TString); ("UserName", TString);
  ("LoginRef", LoginReference); ("DatabaseRoles", TSlice TString)].
Definition DatabaseUserStatus : ty := TStruct
  [("Conditions", TSlice (TExternal "Condition")); ("ObservedGeneration", TInt 64)].
Definition DatabaseUser : ty := TStruct
  [("TypeMeta", TypeMeta); ("ObjectMeta", TExternal "ObjectMeta"); ("Spec", DatabaseUserSpec);
  ("Status", DatabaseUserStatus)].
Definition DatabaseUserList : ty := TStruct
  [("TypeMeta", TypeMeta); ("ListMeta", TExternal "ListMeta"); ("Items", TSlice DatabaseUser)].
Definition LoginSpec : ty := TStruct
  [("Server", ServerReference); ("LoginName", TString); ("PasswordSecret", SecretReference);
  ("DefaultDatabase", TPtr TString); ("ServerRoles", TSlice TString);
  ("DeletionPolicy", TPtr TString)].
Definition LoginStatus : ty := TStruct
  [("Conditions", TSlice (TExternal "Condition")); ("ObservedGeneration", TInt 64);
  ("PasswordSecretResourceVersion", TString)].
Definition Login : ty := TStruct
  [("TypeMeta", TypeMeta); ("ObjectMeta", TExternal "ObjectMeta"); ("Spec", LoginSpec);
  ("Status", LoginStatus)].
Definition LoginList : ty := TStruct
  [("TypeMeta", TypeMeta); ("ListMeta", TExternal "ListMeta"); ("Items", TSlice Login)].
Definition PermissionEntry : ty := TStruct
  [("Permission", TString); ("On", TString)].
Definition PermissionSpec : ty := TStruct
  [("Server", ServerReference); ("DatabaseName", TString); ("UserName", TString);
  ("Grants", TSlice PermissionEntry); ("Denies", TSlice PermissionEntry)].
Definition PermissionStatus : ty := TStruct
  [("Conditions", TSlice (TExternal "Condition")); ("ObservedGeneration", TInt 64)].
Definition Permission : ty := TStruct
  [("TypeMeta", TypeMeta); ("ObjectMeta", TExternal "ObjectMeta"); ("Spec", PermissionSpec);
  ("Status", PermissionStatus)].
Definition PermissionList : ty := TStruct
  [("TypeMeta", TypeMeta); ("ListMeta", TExternal "ListMeta"); ("Items", TSlice Permission)].
Definition FileMapping : ty := TStruct
  [("LogicalName", TString); ("PhysicalPath", TString)].
Definition RestoreSpec : ty := TStruct
  [("Server", ServerReference); ("DatabaseName", TString); ("Source", TString);
  ("StopAt", TPtr TString); ("LogSource", TPtr TString); ("WithMove", TSlice FileMapping)].
Definition RestoreStatus : ty := TStruct
  [("Phase", TString); ("Conditions", TSlice (TExternal "Condition"));
  ("ObservedGeneration", TInt 64); ("StartTime", TPtr (TExternal "Time"));
  ("CompletionTime", TPtr (TExternal "Time"))].
Definition Restore : ty := TStruct
  [("TypeMeta", TypeMeta); ("ObjectMeta", TExternal "ObjectMeta"); ("Spec", RestoreSpec);
  ("Status", RestoreStatus)].
Definition RestoreList : ty := TStruct
  [("TypeMeta", TypeMeta); ("ListMeta", TExternal "ListMeta"); ("Items", TSlice Restore)].
Definition RetentionPolicy : ty := TStruct
  [("MaxCount", TPtr (TInt 32)); ("MaxAge", TPtr TString)].
Definition ScheduledBackupSpec : ty := TStruct
  [("Server", ServerReference); ("DatabaseName", TString); ("Schedule", TString);
  ("Type", TString); ("Compression", TPtr TBool); ("DestinationTemplate", TString);
  ("Retention", TPtr RetentionPolicy); ("Suspend", TPtr TBool)].
Definition ScheduledBackupHistory : ty := TStruct
  [("BackupName", TString); ("StartTime", TPtr (TExternal "Time"));
  ("CompletionTime", TPtr (TExternal "Time")); ("Phase", TString); ("Destination", TString)].
Definition ScheduledBackupStatus : ty := TStruct
  [("Conditions", TSlice (TExternal "Condition")); ("ObservedGeneration", TInt 64);
  ("LastScheduleTime", TPtr (TExternal "Time")); ("NextScheduleTime", TPtr (TExternal "Time"));
  ("LastSuccessfulBackup", TString); ("ActiveBackup", TString);
  ("History", TSlice ScheduledBackupHistory); ("TotalBackups", TInt 32);
  ("SuccessfulBackups", TInt 32); ("FailedBackups", TInt 32)].
Definition ScheduledBackup : ty := TStruct
  [("TypeMeta", TypeMeta); ("ObjectMeta", TExternal "ObjectMeta");
  ("Spec", ScheduledBackupSpec); ("Status", ScheduledBackupStatus)].
Definition ScheduledBackupList : ty := TStruct
  [("TypeMeta", TypeMeta); ("ListMeta", TExternal "ListMeta");
  ("Items", TSlice ScheduledBackup)].
Definition SchemaSpec : ty := TStruct
  [("Server", ServerReference); ("DatabaseName", TString); ("SchemaName", TString);
  ("Owner", TPtr TString); ("DeletionPolicy", TPtr TString)].
Definition SchemaStatus : ty := TStruct
  [("Conditions", TSlice (TExternal "Condition")); ("ObservedGeneration", TInt 64)].
Definition Schema : ty := TStruct
  [("TypeMeta", TypeMeta); ("ObjectMeta", TExternal "ObjectMeta"); ("Spec", SchemaSpec);
  ("Status", SchemaStatus)].
Definition SchemaList : ty := TStruct
  [("TypeMeta", TypeMeta); ("ListMeta", TExternal "ListMeta"); ("Items", TSlice Schema)].
Definition CrossNamespaceSecretReference : ty := TStruct
  [("Name", TString); ("Namespace", TPtr TString)].
Definition AzureADAuth : ty := TStruct
  [("ClientID", TString); ("TenantID", TString);
  ("ClientSecretRef", TPtr CrossNamespaceSecretReference)].
Definition ManagedIdentityAuth : ty := TStruct
  [("ClientID", TPtr TString)].
Definition CertManagerIssuerRef : ty := TStruct
  [("Name", TString); ("Kind", TPtr TString); ("Group", TPtr TString)].
Definition CertificateSpec : ty := TStruct
  [("Mode", TPtr TString); ("IssuerRef", TPtr CertManagerIssuerRef); ("Duration", TPtr TString);
  ("RenewBefore", TPtr TString)].
Definition ManagedAGSpec : ty := TStruct
  [("AGName", TPtr TString); ("AvailabilityMode", TPtr TString); ("AutoFailover", TPtr TBool);
  ("HealthCheckInterval", TPtr TString); ("FailoverCooldown", TPtr TString);
  ("Databases", TSlice TString)].
Definition InstanceSpec : ty := TStruct
  [("Image", TPtr TString); ("SAPasswordSecret", SecretReference); ("AcceptEULA", TBool);
  ("Edition", TPtr TString); ("Replicas", TPtr (TInt 32)); ("StorageSize", TPtr TString);
  ("StorageClassName", TPtr TString); ("Resources", TPtr (TExternal "ResourceRequirements"));
  ("ServiceType", TPtr TString); ("NodeSelector", TStringMap);
  ("Tolerations", TSlice (TExternal "Toleration")); ("Affinity", TPtr (TExternal "Affinity"));
  ("TopologySpreadConstraints", TSlice (TExternal "TopologySpreadConstraint"));
  ("Config", TPtr TString); ("Certificates", TPtr CertificateSpec);
  ("AvailabilityGroup", TPtr ManagedAGSpec)].
Definition SQLServerSpec : ty := TStruct
  [("Host", TString); ("Port", TPtr (TInt 32)); ("AuthMethod", TString);
  ("CredentialsSecret", TPtr CrossNamespaceSecretReference); ("AzureAD", TPtr AzureADAuth);
  ("ManagedIdentity", TPtr ManagedIdentityAuth); ("TLS", TPtr TBool);
  ("MaxConnections", TPtr (TInt 32)); ("ConnectionTimeout", TPtr (TInt 32));
  ("Instance", TPtr InstanceSpec)].
Definition SQLServerStatus : ty := TStruct
  [("Conditions", TSlice (TExternal "Condition")); ("ObservedGeneration", TInt 64);
  ("ServerVersion", TString); ("Edition", TString);
  ("LastConnectedTime", TPtr (TExternal "Time")); ("Host", TString);
  ("ReadyReplicas", TPtr (TInt 32)); ("PrimaryReplica", TString);
  ("CertificatesReady", TPtr TBool)].
Definition SQLServer : ty := TStruct
  [("TypeMeta", TypeMeta); ("ObjectMeta", TExternal "ObjectMeta"); ("Spec", SQLServerSpec);
  ("Status", SQLServerStatus)].
Definition SQLServerList : ty := TStruct
  [("TypeMeta", TypeMeta); ("ListMeta", TExternal "ListMeta"); ("Items", TSlice SQLServer)].
End Layout.
