(* ===== verification/DeepCopies.v ===== *)
(** * The generated copies (api/v1alpha1/zz_generated.deepcopy.go)

    The three methods of every type of the API, statement by statement, and that
    they copy deeply: the generated file is up to date with the types. The
    operator relies on it where it keeps the state before a change, to send the
    difference ([client.MergeFrom(obj.DeepCopy())]), and where it changes an object
    the cache may share. *)
From S2P Require Import Prelude GoMemory ApiLayouts.

(** A method [DeepCopyInto] is modelled by the value it leaves in [*out]. *)
Module DeepCopyInto.
Section DeepCopyInto.
Context `{ApiMachinery}.
Definition SecretReference : value → Mem value := copy_struct [].
Definition ServerReference : value → Mem value := copy_struct
  [("Port", unless_nil new_value); ("CredentialsSecret", assign); ("TLS", unless_nil new_value);
  ("SQLServerRef", unless_nil new_value)].
Definition AGFailoverSpec : value → Mem value := copy_struct
  [("Server", ServerReference); ("Force", unless_nil new_value)].
Definition AGFailoverStatus : value → Mem value := copy_struct
  [("Conditions", unless_nil (make_each (external_DeepCopyInto "Condition")));
  ("StartTime", unless_nil Time_DeepCopy); ("CompletionTime", unless_nil Time_DeepCopy)].
Definition AGFailover : value → Mem value := copy_struct
  [("TypeMeta", assign); ("ObjectMeta", external_DeepCopyInto "ObjectMeta");
  ("Spec", AGFailoverSpec); ("Status", AGFailoverStatus)].
Definition AGFailoverList : value → Mem value := copy_struct
  [("TypeMeta", assign); ("ListMeta", external_DeepCopyInto "ListMeta");
  ("Items", unless_nil (make_each AGFailover))].
Definition AGReplicaSpec : value → Mem value := copy_struct
  [("Server", ServerReference)].
Definition AGListenerIP : value → Mem value := copy_struct [].
Definition AGListenerSpec : value → Mem value := copy_struct
  [("Port", unless_nil new_value); ("IPAddresses", unless_nil make_copy)].
Definition AGDatabaseSpec : value → Mem value := copy_struct [].
Definition AvailabilityGroupSpec : value → Mem value := copy_struct
  [("Replicas", unless_nil (make_each AGReplicaSpec)); ("Databases", unless_nil make_copy);
  ("Listener", unless_nil (new_into AGListenerSpec));
  ("AutomatedBackupPreference", unless_nil new_value); ("DBFailover", unless_nil new_value);
  ("ClusterType", unless_nil new_value); ("AutoFailover", unless_nil new_value);
  ("HealthCheckInterval", unless_nil new_value); ("FailoverCooldown", unless_nil new_value)].
Definition AGReplicaStatus : value → Mem value := copy_struct [].
Definition AGDatabaseStatus : value → Mem value := copy_struct [].
Definition AvailabilityGroupStatus : value → Mem value := copy_struct
  [("Conditions", unless_nil (make_each (external_DeepCopyInto "Condition")));
  ("Replicas", unless_nil make_copy); ("Databases", unless_nil make_copy);
  ("LastAutoFailoverTime", unless_nil Time_DeepCopy);
  ("LastFencingTime", unless_nil Time_DeepCopy)].
Definition AvailabilityGroup : value → Mem value := copy_struct
  [("TypeMeta", assign); ("ObjectMeta", external_DeepCopyInto "ObjectMeta");
  ("Spec", AvailabilityGroupSpec); ("Status", AvailabilityGroupStatus)].
Definition AvailabilityGroupList : value → Mem value := copy_struct
  [("TypeMeta", assign); ("ListMeta", external_DeepCopyInto "ListMeta");
  ("Items", unless_nil (make_each AvailabilityGroup))].
Definition BackupSpec : value → Mem value := copy_struct
  [("Server", ServerReference); ("Compression", unless_nil new_value)].
Definition BackupStatus : value → Mem value := copy_struct
  [("Conditions", unless_nil (make_each (external_DeepCopyInto "Condition")));
  ("StartTime", unless_nil Time_DeepCopy); ("CompletionTime", unless_nil Time_DeepCopy);
  ("BackupSize", unless_nil new_value)].
Definition Backup : value → Mem value := copy_struct
  [("TypeMeta", assign); ("ObjectMeta", external_DeepCopyInto "ObjectMeta");
  ("Spec", BackupSpec); ("Status", BackupStatus)].
Definition BackupList : value → Mem value := copy_struct
  [("TypeMeta", assign); ("ListMeta", external_DeepCopyInto "ListMeta");
  ("Items", unless_nil (make_each Backup))].
Definition LoginReference : value → Mem value := copy_struct [].
Definition DatabaseOption : value → Mem value := copy_struct [].
Definition DatabaseSpec : value → Mem value := copy_struct
  [("Server", ServerReference); ("Collation", unless_nil new_value);
  ("Owner", unless_nil new_value); ("RecoveryModel", unless_nil new_value);
  ("CompatibilityLevel", unless_nil new_value); ("Options", unless_nil make_copy);
  ("DeletionPolicy", unless_nil new_value)].
Definition DatabaseStatus : value → Mem value := copy_struct
  [("Conditions", unless_nil (make_each (external_DeepCopyInto "Condition")))].
Definition Database : value → Mem value := copy_struct
  [("TypeMeta", assign); ("ObjectMeta", external_DeepCopyInto "ObjectMeta");
  ("Spec", DatabaseSpec); ("Status", DatabaseStatus)].
Definition DatabaseList : value → Mem value := copy_struct
  [("TypeMeta", assign); ("ListMeta", external_DeepCopyInto "ListMeta");
  ("Items", unless_nil (make_each Database))].
Definition DatabaseUserSpec : value → Mem value := copy_struct
  [("Server", ServerReference); ("LoginRef", assign); ("DatabaseRoles", unless_nil make_copy)].
Definition DatabaseUserStatus : value → Mem value := copy_struct
  [("Conditions", unless_nil (make_each (external_DeepCopyInto "Condition")))].
Definition DatabaseUser : value → Mem value := copy_struct
  [("TypeMeta", assign); ("ObjectMeta", external_DeepCopyInto "ObjectMeta");
  ("Spec", DatabaseUserSpec); ("Status", DatabaseUserStatus)].
Definition DatabaseUserList : value → Mem value := copy_struct
  [("TypeMeta", assign); ("ListMeta", external_DeepCopyInto "ListMeta");
  ("Items", unless_nil (make_each DatabaseUser))].
Definition LoginSpec : value → Mem value := copy_struct
  [("Server", ServerReference); ("PasswordSecret", assign);
  ("DefaultDatabase", unless_nil new_value); ("ServerRoles", unless_nil make_copy);
  ("DeletionPolicy", unless_nil new_value)].
Definition LoginStatus : value → Mem value := copy_struct
  [("Conditions", unless_nil (make_each (external_DeepCopyInto "Condition")))].
Definition Login : value → Mem value := copy_struct
  [("TypeMeta", assign); ("ObjectMeta", external_DeepCopyInto "ObjectMeta");
  ("Spec", LoginSpec); ("Status", LoginStatus)].
Definition LoginList : value → Mem value := copy_struct
  [("TypeMeta", assign); ("ListMeta", external_DeepCopyInto "ListMeta");
  ("Items", unless_nil (make_each Login))].
Definition PermissionEntry : value → Mem value := copy_struct [].
Definition PermissionSpec : value → Mem value := copy_struct
  [("Server", ServerReference); ("Grants", unless_nil make_copy);
  ("Denies", unless_nil make_copy)].
Definition PermissionStatus : value → Mem value := copy_struct
  [("Conditions", unless_nil (make_each (external_DeepCopyInto "Condition")))].
Definition Permission : value → Mem value := copy_struct
  [("TypeMeta", assign); ("ObjectMeta", external_DeepCopyInto "ObjectMeta");
  ("Spec", PermissionSpec); ("Status", PermissionStatus)].
Definition PermissionList : value → Mem value := copy_struct
  [("TypeMeta", assign); ("ListMeta", external_DeepCopyInto "ListMeta");
  ("Items", unless_nil (make_each Permission))].
Definition FileMapping : value → Mem value := copy_struct [].
Definition RestoreSpec : value → Mem value := copy_struct
  [("Server", ServerReference); ("StopAt", unless_nil new_value);
  ("LogSource", unless_nil new_value); ("WithMove", unless_nil make_copy)].
Definition RestoreStatus : value → Mem value := copy_struct
  [("Conditions", unless_nil (make_each (external_DeepCopyInto "Condition")));
  ("StartTime", unless_nil Time_DeepCopy); ("CompletionTime", unless_nil Time_DeepCopy)].
Definition Restore : value → Mem value := copy_struct
  [("TypeMeta", assign); ("ObjectMeta", external_DeepCopyInto "ObjectMeta");
  ("Spec", RestoreSpec); ("Status", RestoreStatus)].
Definition RestoreList : value → Mem value := copy_struct
  [("TypeMeta", assign); ("ListMeta", external_DeepCopyInto "ListMeta");
  ("Items", unless_nil (make_each Restore))].
Definition RetentionPolicy : value → Mem value := copy_struct
  [("MaxCount", unless_nil new_value); ("MaxAge", unless_nil new_value)].
Definition ScheduledBackupSpec : value → Mem value := copy_struct
  [("Server", ServerReference); ("Compression", unless_nil new_value);
  ("Retention", unless_nil (new_into RetentionPolicy)); ("Suspend", unless_nil new_value)].
Definition ScheduledBackupHistory : value → Mem value := copy_struct
  [("StartTime", unless_nil Time_DeepCopy); ("CompletionTime", unless_nil Time_DeepCopy)].
Definition ScheduledBackupStatus : value → Mem value := copy_struct
  [("Conditions", unless_nil (make_each (external_DeepCopyInto "Condition")));
  ("LastScheduleTime", unless_nil Time_DeepCopy);
  ("NextScheduleTime", unless_nil Time_DeepCopy);
  ("History", unless_nil (make_each ScheduledBackupHistory))].
Definition ScheduledBackup : value → Mem value := copy_struct
  [("TypeMeta", assign); ("ObjectMeta", external_DeepCopyInto "ObjectMeta");
  ("Spec", ScheduledBackupSpec); ("Status", ScheduledBackupStatus)].
Definition ScheduledBackupList : value → Mem value := copy_struct
  [("TypeMeta", assign); ("ListMeta", external_DeepCopyInto "ListMeta");
  ("Items", unless_nil (make_each ScheduledBackup))].
Definition SchemaSpec : value → Mem value := copy_struct
  [("Server", ServerReference); ("Owner", unless_nil new_value);
  ("DeletionPolicy", unless_nil new_value)].
Definition SchemaStatus : value → Mem value := copy_struct
  [("Conditions", unless_nil (make_each (external_DeepCopyInto "Condition")))].
Definition Schema : value → Mem value := copy_struct
  [("TypeMeta", assign); ("ObjectMeta", external_DeepCopyInto "ObjectMeta");
  ("Spec", SchemaSpec); ("Status", SchemaStatus)].
Definition SchemaList : value → Mem value := copy_struct
  [("TypeMeta", assign); ("ListMeta", external_DeepCopyInto "ListMeta");
  ("Items", unless_nil (make_each Schema))].
Definition CrossNamespaceSecretReference : value → Mem value := copy_struct
  [("Namespace", unless_nil new_value)].
Definition AzureADAuth : value → Mem value := copy_struct
  [("ClientSecretRef", unless_nil (new_into CrossNamespaceSecretReference))].
Definition ManagedIdentityAuth : value → Mem value := copy_struct
  [("ClientID", unless_nil new_value)].
Definition CertManagerIssuerRef : value → Mem value := copy_struct
  [("Kind", unless_nil new_value); ("Group", unless_nil new_value)].
Definition CertificateSpec : value → Mem value := copy_struct
  [("Mode", unless_nil new_value); ("IssuerRef", unless_nil (new_into CertManagerIssuerRef));
  ("Duration", unless_nil new_value); ("RenewBefore", unless_nil new_value)].
Definition ManagedAGSpec : value → Mem value := copy_struct
  [("AGName", unless_nil new_value); ("AvailabilityMode", unless_nil new_value);
  ("AutoFailover", unless_nil new_value); ("HealthCheckInterval", unless_nil new_value);
  ("FailoverCooldown", unless_nil new_value); ("Databases", unless_nil make_copy)].
Definition InstanceSpec : value → Mem value := copy_struct
  [("Image", unless_nil new_value); ("SAPasswordSecret", assign);
  ("Edition", unless_nil new_value); ("Replicas", unless_nil new_value);
  ("StorageSize", unless_nil new_value); ("StorageClassName", unless_nil new_value);
  ("Resources", unless_nil (new_into (external_DeepCopyInto "ResourceRequirements")));
  ("ServiceType", unless_nil new_value); ("NodeSelector", unless_nil make_map);
  ("Tolerations", unless_nil (make_each (external_DeepCopyInto "Toleration")));
  ("Affinity", unless_nil (new_into (external_DeepCopyInto "Affinity")));
  ("TopologySpreadConstraints", unless_nil (make_each (external_DeepCopyInto "TopologySpreadConstraint")));
  ("Config", unless_nil new_value); ("Certificates", unless_nil (new_into CertificateSpec));
  ("AvailabilityGroup", unless_nil (new_into ManagedAGSpec))].
Definition SQLServerSpec : value → Mem value := copy_struct
  [("Port", unless_nil new_value);
  ("CredentialsSecret", unless_nil (new_into CrossNamespaceSecretReference));
  ("AzureAD", unless_nil (new_into AzureADAuth));
  ("ManagedIdentity", unless_nil (new_into ManagedIdentityAuth)); ("TLS", unless_nil new_value);
  ("MaxConnections", unless_nil new_value); ("ConnectionTimeout", unless_nil new_value);
  ("Instance", unless_nil (new_into InstanceSpec))].
Definition SQLServerStatus : value → Mem value := copy_struct
  [("Conditions", unless_nil (make_each (external_DeepCopyInto "Condition")));
  ("LastConnectedTime", unless_nil Time_DeepCopy); ("ReadyReplicas", unless_nil new_value);
  ("CertificatesReady", unless_nil new_value)].
Definition SQLServer : value → Mem value := copy_struct
  [("TypeMeta", assign); ("ObjectMeta", external_DeepCopyInto "ObjectMeta");
  ("Spec", SQLServerSpec); ("Status", SQLServerStatus)].
Definition SQLServerList : value → Mem value := copy_struct
  [("TypeMeta", assign); ("ListMeta", external_DeepCopyInto "ListMeta");
  ("Items", unless_nil (make_each SQLServer))].
End DeepCopyInto.
End DeepCopyInto.

Module DeepCopy.
Section DeepCopy.
Context `{ApiMachinery}.
Definition SecretReference : value → Mem value := DeepCopy_by DeepCopyInto.SecretReference.
Definition ServerReference : value → Mem value := DeepCopy_by DeepCopyInto.ServerReference.
Definition AGFailoverSpec : value → Mem value := DeepCopy_by DeepCopyInto.AGFailoverSpec.
Definition AGFailoverStatus : value → Mem value := DeepCopy_by DeepCopyInto.AGFailoverStatus.
Definition AGFailover : value → Mem value := DeepCopy_by DeepCopyInto.AGFailover.
Definition AGFailoverList : value → Mem value := DeepCopy_by DeepCopyInto.AGFailoverList.
Definition AGReplicaSpec : value → Mem value := DeepCopy_by DeepCopyInto.AGReplicaSpec.
Definition AGListenerIP : value → Mem value := DeepCopy_by DeepCopyInto.AGListenerIP.
Definition AGListenerSpec : value → Mem value := DeepCopy_by DeepCopyInto.AGListenerSpec.
Definition AGDatabaseSpec : value → Mem value := DeepCopy_by DeepCopyInto.AGDatabaseSpec.
Definition AvailabilityGroupSpec : value → Mem value := DeepCopy_by DeepCopyInto.AvailabilityGroupSpec.
Definition AGReplicaStatus : value → Mem value := DeepCopy_by DeepCopyInto.AGReplicaStatus.
Definition AGDatabaseStatus : value → Mem value := DeepCopy_by DeepCopyInto.AGDatabaseStatus.
Definition AvailabilityGroupStatus : value → Mem value := DeepCopy_by DeepCopyInto.AvailabilityGroupStatus.
Definition AvailabilityGroup : value → Mem value := DeepCopy_by DeepCopyInto.AvailabilityGroup.
Definition AvailabilityGroupList : value → Mem value := DeepCopy_by DeepCopyInto.AvailabilityGroupList.
Definition BackupSpec : value → Mem value := DeepCopy_by DeepCopyInto.BackupSpec.
Definition BackupStatus : value → Mem value := DeepCopy_by DeepCopyInto.BackupStatus.
Definition Backup : value → Mem value := DeepCopy_by DeepCopyInto.Backup.
Definition BackupList : value → Mem value := DeepCopy_by DeepCopyInto.BackupList.
Definition LoginReference : value → Mem value := DeepCopy_by DeepCopyInto.LoginReference.
Definition DatabaseOption : value → Mem value := DeepCopy_by DeepCopyInto.DatabaseOption.
Definition DatabaseSpec : value → Mem value := DeepCopy_by DeepCopyInto.DatabaseSpec.
Definition DatabaseStatus : value → Mem value := DeepCopy_by DeepCopyInto.DatabaseStatus.
Definition Database : value → Mem value := DeepCopy_by DeepCopyInto.Database.
Definition DatabaseList : value → Mem value := DeepCopy_by DeepCopyInto.DatabaseList.
Definition DatabaseUserSpec : value → Mem value := DeepCopy_by DeepCopyInto.DatabaseUserSpec.
Definition DatabaseUserStatus : value → Mem value := DeepCopy_by DeepCopyInto.DatabaseUserStatus.
Definition DatabaseUser : value → Mem value := DeepCopy_by DeepCopyInto.DatabaseUser.
Definition DatabaseUserList : value → Mem value := DeepCopy_by DeepCopyInto.DatabaseUserList.
Definition LoginSpec : value → Mem value := DeepCopy_by DeepCopyInto.LoginSpec.
Definition LoginStatus : value → Mem value := DeepCopy_by DeepCopyInto.LoginStatus.
Definition Login : value → Mem value := DeepCopy_by DeepCopyInto.Login.
Definition LoginList : value → Mem value := DeepCopy_by DeepCopyInto.LoginList.
Definition PermissionEntry : value → Mem value := DeepCopy_by DeepCopyInto.PermissionEntry.
Definition PermissionSpec : value → Mem value := DeepCopy_by DeepCopyInto.PermissionSpec.
Definition PermissionStatus : value → Mem value := DeepCopy_by DeepCopyInto.PermissionStatus.
Definition Permission : value → Mem value := DeepCopy_by DeepCopyInto.Permission.
Definition PermissionList : value → Mem value := DeepCopy_by DeepCopyInto.PermissionList.
Definition FileMapping : value → Mem value := DeepCopy_by DeepCopyInto.FileMapping.
Definition RestoreSpec : value → Mem value := DeepCopy_by DeepCopyInto.RestoreSpec.
Definition RestoreStatus : value → Mem value := DeepCopy_by DeepCopyInto.RestoreStatus.
Definition Restore : value → Mem value := DeepCopy_by DeepCopyInto.Restore.
Definition RestoreList : value → Mem value := DeepCopy_by DeepCopyInto.RestoreList.
Definition RetentionPolicy : value → Mem value := DeepCopy_by DeepCopyInto.RetentionPolicy.
Definition ScheduledBackupSpec : value → Mem value := DeepCopy_by DeepCopyInto.ScheduledBackupSpec.
Definition ScheduledBackupHistory : value → Mem value := DeepCopy_by DeepCopyInto.ScheduledBackupHistory.
Definition ScheduledBackupStatus : value → Mem value := DeepCopy_by DeepCopyInto.ScheduledBackupStatus.
Definition ScheduledBackup : value → Mem value := DeepCopy_by DeepCopyInto.ScheduledBackup.
Definition ScheduledBackupList : value → Mem value := DeepCopy_by DeepCopyInto.ScheduledBackupList.
Definition SchemaSpec : value → Mem value := DeepCopy_by DeepCopyInto.SchemaSpec.
Definition SchemaStatus : value → Mem value := DeepCopy_by DeepCopyInto.SchemaStatus.
Definition Schema : value → Mem value := DeepCopy_by DeepCopyInto.Schema.
Definition SchemaList : value → Mem value := DeepCopy_by DeepCopyInto.SchemaList.
Definition CrossNamespaceSecretReference : value → Mem value := DeepCopy_by DeepCopyInto.CrossNamespaceSecretReference.
Definition AzureADAuth : value → Mem value := DeepCopy_by DeepCopyInto.AzureADAuth.
Definition ManagedIdentityAuth : value → Mem value := DeepCopy_by DeepCopyInto.ManagedIdentityAuth.
Definition CertManagerIssuerRef : value → Mem value := DeepCopy_by DeepCopyInto.CertManagerIssuerRef.
Definition CertificateSpec : value → Mem value := DeepCopy_by DeepCopyInto.CertificateSpec.
Definition ManagedAGSpec : value → Mem value := DeepCopy_by DeepCopyInto.ManagedAGSpec.
Definition InstanceSpec : value → Mem value := DeepCopy_by DeepCopyInto.InstanceSpec.
Definition SQLServerSpec : value → Mem value := DeepCopy_by DeepCopyInto.SQLServerSpec.
Definition SQLServerStatus : value → Mem value := DeepCopy_by DeepCopyInto.SQLServerStatus.
Definition SQLServer : value → Mem value := DeepCopy_by DeepCopyInto.SQLServer.
Definition SQLServerList : value → Mem value := DeepCopy_by DeepCopyInto.SQLServerList.
End DeepCopy.
End DeepCopy.

Module DeepCopyObject.
Section DeepCopyObject.
Context `{ApiMachinery}.
Definition AGFailover : value → Mem (option value) := DeepCopyObject_by DeepCopy.AGFailover.
Definition AGFailoverList : value → Mem (option value) := DeepCopyObject_by DeepCopy.AGFailoverList.
Definition AvailabilityGroup : value → Mem (option value) := DeepCopyObject_by DeepCopy.AvailabilityGroup.
Definition AvailabilityGroupList : value → Mem (option value) := DeepCopyObject_by DeepCopy.AvailabilityGroupList.
Definition Backup : value → Mem (option value) := DeepCopyObject_by DeepCopy.Backup.
Definition BackupList : value → Mem (option value) := DeepCopyObject_by DeepCopy.BackupList.
Definition Database : value → Mem (option value) := DeepCopyObject_by DeepCopy.Database.
Definition DatabaseList : value → Mem (option value) := DeepCopyObject_by DeepCopy.DatabaseList.
Definition DatabaseUser : value → Mem (option value) := DeepCopyObject_by DeepCopy.DatabaseUser.
Definition DatabaseUserList : value → Mem (option value) := DeepCopyObject_by DeepCopy.DatabaseUserList.
Definition Login : value → Mem (option value) := DeepCopyObject_by DeepCopy.Login.
Definition LoginList : value → Mem (option value) := DeepCopyObject_by DeepCopy.LoginList.
Definition Permission : value → Mem (option value) := DeepCopyObject_by DeepCopy.Permission.
Definition PermissionList : value → Mem (option value) := DeepCopyObject_by DeepCopy.PermissionList.
Definition Restore : value → Mem (option value) := DeepCopyObject_by DeepCopy.Restore.
Definition RestoreList : value → Mem (option value) := DeepCopyObject_by DeepCopy.RestoreList.
Definition ScheduledBackup : value → Mem (option value) := DeepCopyObject_by DeepCopy.ScheduledBackup.
Definition ScheduledBackupList : value → Mem (option value) := DeepCopyObject_by DeepCopy.ScheduledBackupList.
Definition Schema : value → Mem (option value) := DeepCopyObject_by DeepCopy.Schema.
Definition SchemaList : value → Mem (option value) := DeepCopyObject_by DeepCopy.SchemaList.
Definition SQLServer : value → Mem (option value) := DeepCopyObject_by DeepCopy.SQLServer.
Definition SQLServerList : value → Mem (option value) := DeepCopyObject_by DeepCopy.SQLServerList.
End DeepCopyObject.
End DeepCopyObject.

Module Copies.
(** The types of the API, with their methods; the kinds and their lists are
    [runtime.Object]s. *)
Record ApiType := mkApiType {
  api_layout : ty;
  api_DeepCopy : value → Mem value;
  api_DeepCopyObject : option (value → Mem (option value))
}.
Definition api_types `{ApiMachinery} : list ApiType := [
  mkApiType Layout.SecretReference DeepCopy.SecretReference None;
  mkApiType Layout.ServerReference DeepCopy.ServerReference None;
  mkApiType Layout.AGFailoverSpec DeepCopy.AGFailoverSpec None;
  mkApiType Layout.AGFailoverStatus DeepCopy.AGFailoverStatus None;
  mkApiType Layout.AGFailover DeepCopy.AGFailover (Some DeepCopyObject.AGFailover);
  mkApiType Layout.AGFailoverList DeepCopy.AGFailoverList (Some DeepCopyObject.AGFailoverList);
  mkApiType Layout.AGReplicaSpec DeepCopy.AGReplicaSpec None;
  mkApiType Layout.AGListenerIP DeepCopy.AGListenerIP None;
  mkApiType Layout.AGListenerSpec DeepCopy.AGListenerSpec None;
  mkApiType Layout.AGDatabaseSpec DeepCopy.AGDatabaseSpec None;
  mkApiType Layout.AvailabilityGroupSpec DeepCopy.AvailabilityGroupSpec None;
  mkApiType Layout.AGReplicaStatus DeepCopy.AGReplicaStatus None;
  mkApiType Layout.AGDatabaseStatus DeepCopy.AGDatabaseStatus None;
  mkApiType Layout.AvailabilityGroupStatus DeepCopy.AvailabilityGroupStatus None;
  mkApiType Layout.AvailabilityGroup DeepCopy.AvailabilityGroup (Some DeepCopyObject.AvailabilityGroup);
  mkApiType Layout.AvailabilityGroupList DeepCopy.AvailabilityGroupList (Some DeepCopyObject.AvailabilityGroupList);
  mkApiType Layout.BackupSpec DeepCopy.BackupSpec None;
  mkApiType Layout.BackupStatus DeepCopy.BackupStatus None;
  mkApiType Layout.Backup DeepCopy.Backup (Some DeepCopyObject.Backup);
  mkApiType Layout.BackupList DeepCopy.BackupList (Some DeepCopyObject.BackupList);
  mkApiType Layout.LoginReference DeepCopy.LoginReference None;
  mkApiType Layout.DatabaseOption DeepCopy.DatabaseOption None;
  mkApiType Layout.DatabaseSpec DeepCopy.DatabaseSpec None;
  mkApiType Layout.DatabaseStatus DeepCopy.DatabaseStatus None;
  mkApiType Layout.Database DeepCopy.Database (Some DeepCopyObject.Database);
  mkApiType Layout.DatabaseList DeepCopy.DatabaseList (Some DeepCopyObject.DatabaseList);
  mkApiType Layout.DatabaseUserSpec DeepCopy.DatabaseUserSpec None;
  mkApiType Layout.DatabaseUserStatus DeepCopy.DatabaseUserStatus None;
  mkApiType Layout.DatabaseUser DeepCopy.DatabaseUser (Some DeepCopyObject.DatabaseUser);
  mkApiType Layout.DatabaseUserList DeepCopy.DatabaseUserList (Some DeepCopyObject.DatabaseUserList);
  mkApiType Layout.LoginSpec DeepCopy.LoginSpec None;
  mkApiType Layout.LoginStatus DeepCopy.LoginStatus None;
  mkApiType Layout.Login DeepCopy.Login (Some DeepCopyObject.Login);
  mkApiType Layout.LoginList DeepCopy.LoginList (Some DeepCopyObject.LoginList);
  mkApiType Layout.PermissionEntry DeepCopy.PermissionEntry None;
  mkApiType Layout.PermissionSpec DeepCopy.PermissionSpec None;
  mkApiType Layout.PermissionStatus DeepCopy.PermissionStatus None;
  mkApiType Layout.Permission DeepCopy.Permission (Some DeepCopyObject.Permission);
  mkApiType Layout.PermissionList DeepCopy.PermissionList (Some DeepCopyObject.PermissionList);
  mkApiType Layout.FileMapping DeepCopy.FileMapping None;
  mkApiType Layout.RestoreSpec DeepCopy.RestoreSpec None;
  mkApiType Layout.RestoreStatus DeepCopy.RestoreStatus None;
  mkApiType Layout.Restore DeepCopy.Restore (Some DeepCopyObject.Restore);
  mkApiType Layout.RestoreList DeepCopy.RestoreList (Some DeepCopyObject.RestoreList);
  mkApiType Layout.RetentionPolicy DeepCopy.RetentionPolicy None;
  mkApiType Layout.ScheduledBackupSpec DeepCopy.ScheduledBackupSpec None;
  mkApiType Layout.ScheduledBackupHistory DeepCopy.ScheduledBackupHistory None;
  mkApiType Layout.ScheduledBackupStatus DeepCopy.ScheduledBackupStatus None;
  mkApiType Layout.ScheduledBackup DeepCopy.ScheduledBackup (Some DeepCopyObject.ScheduledBackup);
  mkApiType Layout.ScheduledBackupList DeepCopy.ScheduledBackupList (Some DeepCopyObject.ScheduledBackupList);
  mkApiType Layout.SchemaSpec DeepCopy.SchemaSpec None;
  mkApiType Layout.SchemaStatus DeepCopy.SchemaStatus None;
  mkApiType Layout.Schema DeepCopy.Schema (Some DeepCopyObject.Schema);
  mkApiType Layout.SchemaList DeepCopy.SchemaList (Some DeepCopyObject.SchemaList);
  mkApiType Layout.CrossNamespaceSecretReference DeepCopy.CrossNamespaceSecretReference None;
  mkApiType Layout.AzureADAuth DeepCopy.AzureADAuth None;
  mkApiType Layout.ManagedIdentityAuth DeepCopy.ManagedIdentityAuth None;
  mkApiType Layout.CertManagerIssuerRef DeepCopy.CertManagerIssuerRef None;
  mkApiType Layout.CertificateSpec DeepCopy.CertificateSpec None;
  mkApiType Layout.ManagedAGSpec DeepCopy.ManagedAGSpec None;
  mkApiType Layout.InstanceSpec DeepCopy.InstanceSpec None;
  mkApiType Layout.SQLServerSpec DeepCopy.SQLServerSpec None;
  mkApiType Layout.SQLServerStatus DeepCopy.SQLServerStatus None;
  mkApiType Layout.SQLServer DeepCopy.SQLServer (Some DeepCopyObject.SQLServer);
  mkApiType Layout.SQLServerList DeepCopy.SQLServerList (Some DeepCopyObject.SQLServerList)
].

(** Each statement is copied by its rule; a field without a statement must be
    pointer-free. *)
Ltac copies :=
  lazymatch goal with
  | |- covers [] [] => apply covers_nil
  | |- covers _ _ => first [apply covers_set; [copies|] | apply covers_keep; [reflexivity|]]; copies
  | |- deep_copies _ (external_DeepCopyInto _) => apply external_DeepCopyInto_copies
  | |- deep_copies _ assign => apply copies_assign; reflexivity
  | |- deep_copies _ (unless_nil new_value) => apply copies_new_value; reflexivity
  | |- deep_copies _ (unless_nil make_copy) => apply copies_make_copy; reflexivity
  | |- deep_copies _ (unless_nil make_map) => apply copies_make_map
  | |- deep_copies _ (unless_nil Time_DeepCopy) => apply copies_Time
  | |- deep_copies _ (unless_nil (new_into _)) => apply copies_new_into; copies
  | |- deep_copies _ (unless_nil (make_each _)) => apply copies_make_each; copies
  | |- deep_copies _ _ => apply copies_struct; [copies|reflexivity]
  end.

Section Copies.
Context `{ApiMachineryLaws}.

Definition copied (x : ApiType) : Prop :=
  deep_copies (TPtr (api_layout x)) (api_DeepCopy x) ∧
  ∀ f, api_DeepCopyObject x = Some f → f = DeepCopyObject_by (api_DeepCopy x).
Lemma api_types_copied : Forall copied api_types.
Proof.
  repeat apply Forall_cons_2; [..|apply Forall_nil_2].
  all: split; [apply copies_DeepCopy; copies | by intros f [= <-]].
Qed.

(** C31: for each of the 65 types of the API, DeepCopy of a pointer to a well-
    formed value (or of nil) returns, leaves memory as it was but for new
    cells, and gives a pointer to an equal value that lies in the new cells
    alone: whatever is then written to the cells of the original, the copy
    reads as before, and the other way round. DeepCopyObject gives the same
    pointer, and the nil interface for nil. *)
Theorem DeepCopy_separate (x : ApiType) (h : memory) (p : value) (c : content) :
  x ∈ api_types →
  decode h (TPtr (api_layout x)) p = Some c →
  ∃ p' new,
    api_DeepCopy x p h = Some (p', h ∪ new) ∧ h ##ₘ new ∧
    (∀ DeepCopyObject, api_DeepCopyObject x = Some DeepCopyObject →
       DeepCopyObject p h = Some (if is_nil p then None else Some p', h ∪ new)) ∧
    (∀ h', h' ##ₘ new → decode (h' ∪ new) (TPtr (api_layout x)) p' = Some c) ∧
    (∀ new', h ##ₘ new' → decode (h ∪ new') (TPtr (api_layout x)) p = Some c).
Proof.
  intros Hx Hp. destruct (proj1 (Forall_forall _ _) api_types_copied x Hx) as [Hcopy Hobj].
  destruct (Hcopy h p c Hp) as (p' & new & [Hy D] & Hc). exists p', new. split_and!; [done|done|..].
  - intros f ->%Hobj. unfold DeepCopyObject_by, mbind, Mem_bind. rewrite Hy.
    by rewrite (decode_nil _ _ _ _ _ _ Hp Hc).
  - intros h' D'. by apply decode_mono_r.
  - intros new' D'. by apply decode_mono_l.
Qed.
End Copies.
End Copies.
