(* ===== verification/DeepCopyWitnesses.v ===== *)
(** * A group in memory, and its copy

    Two replicas share the cell of their port, the group has labels and a
    listener. *)
From S2P Require Import Prelude GoMemory ApiLayouts DeepCopies.

Module CopyExample.
(** Metadata is its labels, a time is its text. *)
Definition content_of (h : memory) (v : value) : option content :=
  match v with
  | VString s => Some (LString s)
  | VMap None => Some LNil
  | VMap (Some l) => match h !! l with Some (CMap m) => Some (LMap m) | _ => None end
  | _ => None
  end.
Definition copy_into (v : value) : Mem value :=
  match v with VMap _ => unless_nil make_map v | _ => mret v end.
#[local] Instance machinery : ApiMachinery := {
  external_content _ := content_of;
  external_DeepCopyInto _ := copy_into;
  Time_DeepCopy := DeepCopy_by copy_into
}.
Lemma machinery_into n : deep_copies (TExternal n) copy_into.
Proof.
  intros h v c Hv. destruct v as [s| | | | |m|]; try done.
  - exists (VString s), ∅. by split; [apply yields_ret|].
  - destruct (copies_make_map h (VMap m) c) as (v' & new & Hy & Hc); [by destruct m|].
    exists v', new. split; [done|]. by destruct v' as [| | | | |[]|].
Qed.
#[local] Instance content_laws : ApiContentLaws.
Proof.
  split. intros n h h' v c Hs. destruct v as [| | | | |[l|]|]; try done. simpl.
  destruct (h !! l) as [[]|] eqn:E; try done. by rewrite (lookup_weaken _ _ _ _ E Hs).
Qed.
#[local] Instance machinery_laws : ApiMachineryLaws.
Proof.
  split; [apply _|apply machinery_into|].
  apply copies_DeepCopy, (machinery_into "Time").
Qed.

Definition struct (fields : list (string * value)) : value := VStruct (list_to_map fields).
Definition replica (name : string) : value := struct
  [("ServerName", VString name); ("EndpointURL", VString "TCP://sql:5022");
  ("AvailabilityMode", VString "SynchronousCommit"); ("FailoverMode", VString "Automatic");
  ("SeedingMode", VString "Automatic"); ("SecondaryRole", VString "No");
  ("Server", struct [("Host", VString name); ("Port", VPtr (Some 3%positive));
    ("CredentialsSecret", struct [("Name", VString "sa")]); ("TLS", VPtr None);
    ("SQLServerRef", VPtr None)])].
Definition group : value := struct
  [("TypeMeta", struct [("Kind", VString "AvailabilityGroup"); ("APIVersion", VString "v1alpha1")]);
  ("ObjectMeta", VMap (Some 2%positive));
  ("Spec", struct [("AGName", VString "ag"); ("Replicas", VSlice (Some (4%positive, 1%nat, 2%nat)));
    ("Databases", VSlice None); ("Listener", VPtr (Some 5%positive));
    ("AutomatedBackupPreference", VPtr None); ("DBFailover", VPtr None);
    ("ClusterType", VPtr None); ("AutoFailover", VPtr None);
    ("HealthCheckInterval", VPtr None); ("FailoverCooldown", VPtr None)]);
  ("Status", struct [("Conditions", VSlice None); ("ObservedGeneration", VInt 7);
    ("PrimaryReplica", VString "sql-0"); ("Replicas", VSlice None); ("Databases", VSlice None);
    ("LastAutoFailoverTime", VPtr (Some 6%positive)); ("AutoFailoverCount", VInt 1);
    ("LastFencingTime", VPtr None); ("FencingCount", VInt 0);
    ("ConsecutiveFencingCount", VInt 0); ("LastFencedReplica", VString "")])].
(** The slice of the replicas is a window on an array of three. *)
Definition example_memory : memory := list_to_map
  [(1%positive, CValue group);
  (2%positive, CMap {["app" := "sql"]});
  (3%positive, CValue (VInt 1433));
  (4%positive, CArray [replica "old"; replica "sql-0"; replica "sql-1"]);
  (5%positive, CValue (struct [("Name", VString "lsn"); ("Port", VPtr (Some 3%positive));
    ("IPAddresses", VSlice None)]));
  (6%positive, CValue (VString "noon"))].
Definition group_type : Copies.ApiType :=
  Copies.mkApiType Layout.AvailabilityGroup DeepCopy.AvailabilityGroup
    (Some DeepCopyObject.AvailabilityGroup).

(** The copy shares no cell: after the port is changed in the memory of the
    original, the copy still reads as before. *)
Lemma DeepCopy_separate_witness :
  ∃ c p' new,
    decode example_memory (TPtr Layout.AvailabilityGroup) (VPtr (Some 1%positive)) = Some c ∧
    DeepCopy.AvailabilityGroup (VPtr (Some 1%positive)) example_memory
      = Some (p', example_memory ∪ new) ∧
    decode (<[3%positive := CValue (VInt 1)]> example_memory ∪ new)
      (TPtr Layout.AvailabilityGroup) p' = Some c.
Proof.
  eexists.
  destruct (Copies.DeepCopy_separate group_type example_memory (VPtr (Some 1%positive))
    _ ltac:(unfold Copies.api_types; repeat first [apply list_elem_of_here | apply list_elem_of_further])
    ltac:(vm_compute; reflexivity)) as (p' & new & Hy & D & _ & Hc & _).
  exists p', new. split; [vm_compute; reflexivity|]. split; [exact Hy|].
  apply Hc. apply map_disjoint_insert_l. split; [|exact D].
  by eapply map_disjoint_Some_l; [exact D|vm_compute; reflexivity].
Defined.
End CopyExample.
